(** * TOON for Go: a shallow embedding of the codec and its checked properties

    The development follows the package layout of the repository:
    - [utf8], [unicode], [gostrings], [strconv]: the parts of the Go standard
      library the codec calls, modelled from their documented behaviour;
    - [formatpkg] (internal/format), [parsepkg] (internal/parse);
    - [codec] (internal/codec): options, data model, normalizer, encoder,
      line preprocessor and parser.

    Go strings are byte strings: Rocq's [string] (a list of 8-bit [ascii]).
    Go's [int] and [rune] are modelled as [Z]. *)

From Stdlib Require Import ZArith NArith String Ascii List Bool Lia.
From Stdlib Require Import Permutation Sorted DecimalString OrderedTypeEx.
From Stdlib Require DecimalFacts DecimalPos.
From stdpp Require Import gmap strings list fin_maps.

#[local] Set Warnings "-register-all".
#[local] Open Scope string_scope.
#[local] Open Scope Z_scope.

(** ** Results of fallible operations *)

Inductive result (E A : Type) : Type :=
| Ok (a : A)
| Err (e : E).
Arguments Ok {E A} a.
Arguments Err {E A} e.

Definition bind {E A B} (r : result E A) (k : A -> result E B) : result E B :=
  match r with
  | Ok a => k a
  | Err e => Err e
  end.

Notation "'let*' x ':=' r 'in' k" := (bind r (fun x => k))
  (at level 10, x pattern, r at level 100, k at level 200).

(** [mapM f l] runs [f] on the elements of [l] from left to right and stops at
    the first error: the shape of every `for ... { v, err := f(x); if err != nil
    { return err }; out = append(out, v) }` loop of the source. *)
Definition mapM {E A B} (f : A -> result E B) : list A -> result E (list B) :=
  fix go (l : list A) : result E (list B) :=
    match l with
    | [] => Ok []
    | x :: t => let* y := f x in let* ys := go t in Ok (y :: ys)
    end.

Definition rune := Z.

(** The double quote and the backslash, as one-byte strings. *)
Definition dquote : string := String "034"%char EmptyString.
Definition backslash : string := String "092"%char EmptyString.
Definition byteZ (c : ascii) : Z := Z.of_N (N_of_ascii c).
Definition byte_of_Z (z : Z) : ascii := ascii_of_N (Z.to_N z).

(** Slices [s[i:]] and [s[:i]] of a Go string, by byte offset. *)
Fixpoint drop_bytes (n : nat) (s : string) : string :=
  match n, s with
  | O, _ => s
  | S k, String _ t => drop_bytes k t
  | S _, EmptyString => EmptyString
  end.

Fixpoint take_bytes (n : nat) (s : string) : string :=
  match n, s with
  | O, _ => EmptyString
  | S k, String c t => String c (take_bytes k t)
  | S _, EmptyString => EmptyString
  end.

Definition len (s : string) : Z := Z.of_nat (String.length s).
Definition slice_from (s : string) (i : Z) : string := drop_bytes (Z.to_nat i) s.
Definition slice_to (s : string) (i : Z) : string := take_bytes (Z.to_nat i) s.

(** ** Package unicode/utf8 *)
Module utf8.

Definition RuneError : rune := 0xFFFD.
Definition RuneSelf : Z := 0x80.
Definition MaxRune : rune := 0x10FFFF.

(** The tables [first] and [acceptRanges]: for a leading byte, the length of
    the sequence and the range the second byte must lie in. *)
Definition first (b : Z) : option (nat * Z * Z) :=
  if (0xC2 <=? b) && (b <=? 0xDF) then Some (2%nat, 0x80, 0xBF)
  else if b =? 0xE0 then Some (3%nat, 0xA0, 0xBF)
  else if (0xE1 <=? b) && (b <=? 0xEC) then Some (3%nat, 0x80, 0xBF)
  else if b =? 0xED then Some (3%nat, 0x80, 0x9F)
  else if (0xEE <=? b) && (b <=? 0xEF) then Some (3%nat, 0x80, 0xBF)
  else if b =? 0xF0 then Some (4%nat, 0x90, 0xBF)
  else if (0xF1 <=? b) && (b <=? 0xF3) then Some (4%nat, 0x80, 0xBF)
  else if b =? 0xF4 then Some (4%nat, 0x80, 0x8F)
  else None.

Definition continuation (b : Z) : bool := (0x80 <=? b) && (b <=? 0xBF).

(** [DecodeRuneInString s] is the first rune of [s] and its width in bytes;
    an invalid or truncated sequence yields [(RuneError, 1)]. *)
Definition DecodeRuneInString (s : string) : rune * nat :=
  match s with
  | EmptyString => (RuneError, 0%nat)
  | String c0 t0 =>
    let s0 := byteZ c0 in
    if s0 <? RuneSelf then (s0, 1%nat)
    else
      match first s0 with
      | None => (RuneError, 1%nat)
      | Some (sz, lo, hi) =>
        match t0 with
        | EmptyString => (RuneError, 1%nat)
        | String c1 t1 =>
          let s1 := byteZ c1 in
          if (s1 <? lo) || (hi <? s1) then (RuneError, 1%nat)
          else if (sz <=? 2)%nat
          then (Z.lor (Z.shiftl (Z.land s0 0x1F) 6) (Z.land s1 0x3F), 2%nat)
          else
            match t1 with
            | EmptyString => (RuneError, 1%nat)
            | String c2 t2 =>
              let s2 := byteZ c2 in
              if negb (continuation s2) then (RuneError, 1%nat)
              else if (sz <=? 3)%nat
              then (Z.lor (Z.lor (Z.shiftl (Z.land s0 0x0F) 12)
                                 (Z.shiftl (Z.land s1 0x3F) 6))
                          (Z.land s2 0x3F), 3%nat)
              else
                match t2 with
                | EmptyString => (RuneError, 1%nat)
                | String c3 _ =>
                  let s3 := byteZ c3 in
                  if negb (continuation s3) then (RuneError, 1%nat)
                  else (Z.lor (Z.lor (Z.lor (Z.shiftl (Z.land s0 0x07) 18)
                                            (Z.shiftl (Z.land s1 0x3F) 12))
                                     (Z.shiftl (Z.land s2 0x3F) 6))
                              (Z.land s3 0x3F), 4%nat)
                end
            end
        end
      end
  end.

(** [EncodeRune r]: the UTF-8 encoding of [r]; runes out of range and
    surrogates are written as [RuneError]. *)
Definition EncodeRune (r : rune) : string :=
  let b z := String (byte_of_Z z) EmptyString in
  let enc3 r := b (Z.lor 0xE0 (Z.shiftr r 12))
                ++ b (Z.lor 0x80 (Z.land (Z.shiftr r 6) 0x3F))
                ++ b (Z.lor 0x80 (Z.land r 0x3F)) in
  if (0 <=? r) && (r <? 0x80) then b r
  else if (0 <=? r) && (r <? 0x800) then
    b (Z.lor 0xC0 (Z.shiftr r 6)) ++ b (Z.lor 0x80 (Z.land r 0x3F))
  else if (r <? 0) || (MaxRune <? r) || ((0xD800 <=? r) && (r <=? 0xDFFF))
  then enc3 RuneError
  else if r <? 0x10000 then enc3 r
  else b (Z.lor 0xF0 (Z.shiftr r 18))
       ++ b (Z.lor 0x80 (Z.land (Z.shiftr r 12) 0x3F))
       ++ b (Z.lor 0x80 (Z.land (Z.shiftr r 6) 0x3F))
       ++ b (Z.lor 0x80 (Z.land r 0x3F)).

(** The pairs [(idx, r)] a Go loop [for idx, r := range s] goes through:
    [idx] is the byte offset of the rune [r]. *)
Fixpoint range_from (s : string) (idx : Z) (skip : nat) : list (Z * rune) :=
  match s with
  | EmptyString => []
  | String _ t =>
    match skip with
    | S k => range_from t (idx + 1) k
    | O =>
      let '(r, w) := DecodeRuneInString s in
      (idx, r) :: range_from t (idx + 1) (Nat.pred w)
    end
  end.

Definition range (s : string) : list (Z * rune) := range_from s 0 0.

End utf8.

(** ** Package unicode *)
Module unicode.

(** The range tables [unicode.Letter] and [unicode.Digit] above Latin-1 are
    data of the Go distribution; the codec is modelled for any such tables. *)
Class Tables := {
  Letter : rune -> bool;
  Digit : rune -> bool
}.

Definition MaxLatin1 : rune := 0xFF.

(** White space as defined by Unicode's White_Space property. *)
Definition IsSpace (r : rune) : bool :=
  if (0 <=? r) && (r <=? MaxLatin1) then
    (r =? 0x09) || (r =? 0x0A) || (r =? 0x0B) || (r =? 0x0C) || (r =? 0x0D)
    || (r =? 0x20) || (r =? 0x85) || (r =? 0xA0)
  else
    (r =? 0x1680) || ((0x2000 <=? r) && (r <=? 0x200A)) || (r =? 0x2028)
    || (r =? 0x2029) || (r =? 0x202F) || (r =? 0x205F) || (r =? 0x3000).

Section WithTables.
Context {tables : Tables}.

Definition IsDigit (r : rune) : bool :=
  if (0 <=? r) && (r <=? MaxLatin1) then (0x30 <=? r) && (r <=? 0x39)
  else Digit r.

(** Latin-1 letters: A-Z, a-z, U+00AA, U+00B5, U+00BA, U+00C0-U+00D6,
    U+00D8-U+00F6, U+00F8-U+00FF. *)
Definition IsLetter (r : rune) : bool :=
  if (0 <=? r) && (r <=? MaxLatin1) then
    ((0x41 <=? r) && (r <=? 0x5A)) || ((0x61 <=? r) && (r <=? 0x7A))
    || (r =? 0xAA) || (r =? 0xB5) || (r =? 0xBA)
    || ((0xC0 <=? r) && (r <=? 0xD6)) || ((0xD8 <=? r) && (r <=? 0xF6))
    || ((0xF8 <=? r) && (r <=? 0xFF))
  else Letter r.

End WithTables.
End unicode.

(** ** Package strings *)
Module gostrings.

Definition HasPrefix (s prefix : string) : bool := String.prefix prefix s.

Definition HasSuffix (s suffix : string) : bool :=
  (String.length suffix <=? String.length s)%nat
  && String.eqb (drop_bytes (String.length s - String.length suffix) s) suffix.

Fixpoint Contains (s substr : string) : bool :=
  String.prefix substr s
  || match s with
     | EmptyString => false
     | String _ t => Contains t substr
     end.

(** [ContainsRune s r]: some rune of [s], as [range] decodes it, is [r]. *)
Definition ContainsRune (s : string) (r : rune) : bool :=
  existsb (fun p => snd p =? r) (utf8.range s).

(** [ContainsAny s chars]: some rune of [chars] occurs in [s]. *)
Definition ContainsAny (s chars : string) : bool :=
  existsb (fun p => ContainsRune s (snd p)) (utf8.range chars).

Fixpoint Repeat_nat (s : string) (n : nat) : string :=
  match n with
  | O => EmptyString
  | S k => s ++ Repeat_nat s k
  end.
Definition Repeat (s : string) (count : Z) : string := Repeat_nat s (Z.to_nat count).

Definition Join (elems : list string) (sep : string) : string := String.concat sep elems.

(** [Split s sep] for the one-byte separator [sep]: the fields between
    occurrences of [sep]; [Split "" sep] is the one-element list [[""]]. *)
Fixpoint SplitByte (s : string) (sep : ascii) : list string :=
  match s with
  | EmptyString => [EmptyString]
  | String c t =>
    if Ascii.eqb c sep then EmptyString :: SplitByte t sep
    else match SplitByte t sep with
         | [] => [String c EmptyString]
         | x :: xs => String c x :: xs
         end
  end.

(** [ReplaceAll s "\r\n" "\n"]. *)
Fixpoint ReplaceCRLF (s : string) : string :=
  match s with
  | String "013" (String "010" t) => String "010" (ReplaceCRLF t)
  | String c t => String c (ReplaceCRLF t)
  | EmptyString => EmptyString
  end.

(** [TrimSpace]: leading and trailing runes with [unicode.IsSpace] removed.
    A string is a white-space rune when it decodes as one rune of its whole
    width and that rune is white space. *)
Definition is_space_rune (s : string) : bool :=
  let '(r, w) := utf8.DecodeRuneInString s in
  (w =? String.length s)%nat && (0 <? w)%nat && unicode.IsSpace r.

Fixpoint TrimLeft_fuel (fuel : nat) (s : string) : string :=
  match fuel with
  | O => s
  | S f =>
    let '(r, w) := utf8.DecodeRuneInString s in
    if (0 <? w)%nat && unicode.IsSpace r then TrimLeft_fuel f (drop_bytes w s) else s
  end.
Definition TrimLeftSpace (s : string) : string := TrimLeft_fuel (String.length s) s.

Fixpoint TrimRightSpace (s : string) : string :=
  match s with
  | EmptyString => EmptyString
  | String c t =>
    let t' := TrimRightSpace t in
    if is_space_rune (String c t') then EmptyString else String c t'
  end.

Definition TrimSpace (s : string) : string := TrimRightSpace (TrimLeftSpace s).

End gostrings.

(** ** Package strconv

    [ParseFloat s 64] and [FormatFloat f 'f' (-1) 64] are modelled from their
    documentation: parsing accepts the decimal and hexadecimal floating-point
    syntax of Go literals and the names of the special values, and returns the
    nearest binary64 value under round-half-to-even; formatting produces the
    shortest decimal digits that parse back to the same value. *)
Module strconv.

Inductive NumError := ErrSyntax | ErrRange.

(** A binary64 value.  A finite value is [(-1)^neg * m * 2^e]; it is kept with
    [m] odd, or [m = 0] and [e = 0] for the two zeros. *)
Inductive float64 :=
| NaN
| Inf (neg : bool)
| Finite (neg : bool) (m : Z) (e : Z).

Definition IsNaN (f : float64) : bool :=
  match f with NaN => true | _ => false end.

(** [math.IsInf f sign]: [sign > 0] asks for +Inf, [sign < 0] for -Inf and
    [sign = 0] for either. *)
Definition IsInf (f : float64) (sign : Z) : bool :=
  match f with
  | Inf neg => if sign =? 0 then true else if 0 <? sign then negb neg else neg
  | _ => false
  end.

(** Go's [f == 0] on floats: true of both zeros. *)
Definition is_zero (f : float64) : bool :=
  match f with Finite _ 0 _ => true | _ => false end.

Definition zero : float64 := Finite false 0 0.

Fixpoint strip_twos (fuel : nat) (m e : Z) : Z * Z :=
  match fuel with
  | O => (m, e)
  | S k =>
    if m =? 0 then (0, 0)
    else if Z.even m then strip_twos k (m / 2) (e + 1)
    else (m, e)
  end.

Definition dyadic (neg : bool) (m e : Z) : float64 :=
  let '(m', e') := strip_twos (S (Z.to_nat (Z.log2 m))) m e in
  Finite neg m' e'.

Definition of_Z (z : Z) : float64 := dyadic (z <? 0) (Z.abs z) 0.

(** [round_nearest_even n d] for [n, d > 0]: the pair [(q, E)] such that
    [q * 2^E] is the binary64 value nearest to [n / d], ties going to the even
    [q]; [q < 2^53] unless the rounding carried, and [E >= -1074]. *)
Definition round_nearest_even (n d : Z) : Z * Z :=
  let l := Z.log2 n - Z.log2 d in
  let fl := if (d * 2 ^ Z.max 0 l) <=? (n * 2 ^ Z.max 0 (- l)) then l else l - 1 in
  let E := Z.max (fl - 52) (-1074) in
  let num := n * 2 ^ Z.max 0 (- E) in
  let den := d * 2 ^ Z.max 0 E in
  let q := num / den in
  let r := num mod den in
  let q' := if den <? 2 * r then q + 1
            else if (2 * r =? den) && Z.odd q then q + 1
            else q in
  (q', E).

(** The value is out of range when it rounds to [2^1024] or more. *)
Definition overflows (q E : Z) : bool :=
  (971 <? E) || ((E =? 971) && (2 ^ 53 <=? q)).

(** [to_float neg n d]: the binary64 nearest to [(-1)^neg * n / d]. *)
Definition to_float (neg : bool) (n d : Z) : result NumError float64 :=
  if n =? 0 then Ok (Finite neg 0 0)
  else
    let '(q, E) := round_nearest_even n d in
    if overflows q E then Err ErrRange else Ok (dyadic neg q E).

Definition is_digit (b : Z) : bool := (0x30 <=? b) && (b <=? 0x39).
Definition lower (b : Z) : Z := Z.lor b 0x20.
Definition is_hex_letter (b : Z) : bool := (0x61 <=? lower b) && (lower b <=? 0x66).

Fixpoint commonPrefixLenIgnoreCase (s prefix : string) : nat :=
  match s, prefix with
  | String c s', String p prefix' =>
    let b := byteZ c in
    let b := if (0x41 <=? b) && (b <=? 0x5A) then b + 0x20 else b in
    if b =? byteZ p then S (commonPrefixLenIgnoreCase s' prefix') else O
  | _, _ => O
  end.

(** [special s]: the special value named by a prefix of [s] and the number of
    bytes it takes. *)
Definition special (s : string) : option (float64 * nat) :=
  let inf (neg : bool) (nsign : nat) (s' : string) :=
    let n := commonPrefixLenIgnoreCase s' "infinity" in
    let n := if (3 <? n)%nat && (n <? 8)%nat then 3%nat else n in
    if (n =? 3)%nat || (n =? 8)%nat then Some (Inf neg, (nsign + n)%nat) else None in
  match s with
  | EmptyString => None
  | String c t =>
    let b := byteZ c in
    if b =? 0x2B then inf false 1%nat t
    else if b =? 0x2D then inf true 1%nat t
    else if (b =? 0x69) || (b =? 0x49) then inf false 0%nat s
    else if (b =? 0x6E) || (b =? 0x4E) then
      if (commonPrefixLenIgnoreCase s "nan" =? 3)%nat then Some (NaN, 3%nat) else None
    else None
  end.

Record mantissa := {
  sawdot : bool;
  sawdigits : bool;
  mant : Z;          (* the digits read, as an integer in the base *)
  frac : Z;          (* how many of them came after the point *)
  underscores : bool
}.

Definition push_digit (base d : Z) (st : mantissa) : mantissa :=
  {| sawdot := sawdot st; sawdigits := true;
     mant := mant st * base + d;
     frac := if sawdot st then frac st + 1 else frac st;
     underscores := underscores st |}.

Fixpoint scan_mantissa (hex : bool) (s : string) (st : mantissa) : mantissa * string :=
  match s with
  | EmptyString => (st, s)
  | String c t =>
    let b := byteZ c in
    if b =? 0x5F then
      scan_mantissa hex t {| sawdot := sawdot st; sawdigits := sawdigits st;
                             mant := mant st; frac := frac st; underscores := true |}
    else if b =? 0x2E then
      if sawdot st then (st, s)
      else scan_mantissa hex t {| sawdot := true; sawdigits := sawdigits st;
                                  mant := mant st; frac := frac st;
                                  underscores := underscores st |}
    else if is_digit b then
      scan_mantissa hex t (push_digit (if hex then 16 else 10) (b - 0x30) st)
    else if hex && is_hex_letter b then
      scan_mantissa hex t (push_digit 16 (lower b - 0x61 + 10) st)
    else (st, s)
  end.

Fixpoint scan_exponent (s : string) (e : Z) (us : bool) : Z * bool * string :=
  match s with
  | EmptyString => (e, us, s)
  | String c t =>
    let b := byteZ c in
    if b =? 0x5F then scan_exponent t e true
    else if is_digit b then scan_exponent t (e * 10 + (b - 0x30)) us
    else (e, us, s)
  end.

Inductive saw := SawStart | SawDigit | SawUnderscore | SawOther.

Fixpoint underscoreOK_loop (hex : bool) (s : string) (sw : saw) : bool :=
  match s with
  | EmptyString => match sw with SawUnderscore => false | _ => true end
  | String c t =>
    let b := byteZ c in
    if is_digit b || (hex && is_hex_letter b) then underscoreOK_loop hex t SawDigit
    else if b =? 0x5F then
      match sw with
      | SawDigit => underscoreOK_loop hex t SawUnderscore
      | _ => false
      end
    else
      match sw with
      | SawUnderscore => false
      | _ => underscoreOK_loop hex t SawOther
      end
  end.

(** Underscores may only separate digits, or a base prefix from a digit. *)
Definition underscoreOK (s : string) : bool :=
  let s := match s with
           | String c t => if (byteZ c =? 0x2D) || (byteZ c =? 0x2B) then t else s
           | EmptyString => s
           end in
  match s with
  | String c0 (String c1 t) =>
    let l := lower (byteZ c1) in
    if (byteZ c0 =? 0x30) && ((l =? 0x62) || (l =? 0x6F) || (l =? 0x78))
    then underscoreOK_loop (l =? 0x78) t SawDigit
    else underscoreOK_loop false s SawStart
  | _ => underscoreOK_loop false s SawStart
  end.

Definition ParseFloat (s : string) : result NumError float64 :=
  match special s with
  | Some (f, n) => if (n =? String.length s)%nat then Ok f else Err ErrSyntax
  | None =>
    (* optional sign *)
    let '(neg, s1) :=
      match s with
      | String c t =>
        if byteZ c =? 0x2B then (false, t)
        else if byteZ c =? 0x2D then (true, t)
        else (false, s)
      | EmptyString => (false, s)
      end in
    (* base prefix: needs a digit position after it *)
    let '(hex, s2) :=
      match s1 with
      | String c0 (String c1 (String c2 t)) =>
        if (byteZ c0 =? 0x30) && (lower (byteZ c1) =? 0x78)
        then (true, String c2 t) else (false, s1)
      | _ => (false, s1)
      end in
    let '(m, s3) := scan_mantissa hex s2 {| sawdot := false; sawdigits := false;
                                             mant := 0; frac := 0;
                                             underscores := false |} in
    if negb (sawdigits m) then Err ErrSyntax
    else
      let expChar := if hex then 0x70 else 0x65 in
      let with_exponent (e : Z) (us : bool) (rest : string) :=
        if negb (String.eqb rest EmptyString) then Err ErrSyntax
        else if (underscores m || us) && negb (underscoreOK s) then Err ErrSyntax
        else if hex then
          let x := e - 4 * frac m in
          to_float neg (mant m * 2 ^ Z.max 0 x) (2 ^ Z.max 0 (- x))
        else
          let x := e - frac m in
          to_float neg (mant m * 10 ^ Z.max 0 x) (10 ^ Z.max 0 (- x)) in
      match s3 with
      | String c t =>
        if lower (byteZ c) =? expChar then
          let '(esign, t1) :=
            match t with
            | String d t' =>
              if byteZ d =? 0x2B then (1, t')
              else if byteZ d =? 0x2D then (-1, t')
              else (1, t)
            | EmptyString => (1, t)
            end in
          match t1 with
          | String d _ =>
            if is_digit (byteZ d) then
              let '(e, us, rest) := scan_exponent t1 0 false in
              with_exponent (e * esign) us rest
            else Err ErrSyntax
          | EmptyString => Err ErrSyntax
          end
        else Err ErrSyntax
      | EmptyString =>
        if hex then Err ErrSyntax else with_exponent 0 false EmptyString
      end
  end.

(** Decimal digits of a non-negative integer, and [FormatInt i 10]. *)
Definition FormatInt (i : Z) : string := NilZero.string_of_int (Z.to_int i).
Definition FormatUint (u : Z) : string := FormatInt u.
Definition Itoa (i : Z) : string := FormatInt i.

Fixpoint strip_trailing_zeros (s : string) : string :=
  match s with
  | EmptyString => EmptyString
  | String c t =>
    let t' := strip_trailing_zeros t in
    if String.eqb t' EmptyString && Ascii.eqb c "0" then EmptyString else String c t'
  end.

(** [f < 10^dp] for the positive rational [f = num / den]. *)
Definition lt_pow10 (num den dp : Z) : bool :=
  if 0 <=? dp then num <? den * 10 ^ dp else num * 10 ^ (- dp) <? den.

Fixpoint find_dp (fuel : nat) (num den dp : Z) : Z :=
  match fuel with
  | O => dp
  | S k => if lt_pow10 num den dp then dp else find_dp k num den (dp + 1)
  end.

(** The position of the decimal point: the least [dp] with [f < 10^dp]. *)
Definition decimal_point (num den : Z) : Z :=
  find_dp 8 num den (((Z.log2 num - Z.log2 den - 1) * 30103) / 100000 - 1).

(** [shortest_at num den dp n]: a decimal with [n] significant digits that
    rounds to the binary64 value [num / den], if there is one; of the two
    neighbours of the exact value the nearer is taken, the even one on a tie. *)
Definition shortest_at (num den dp : Z) (n : Z) : option Z :=
  let x := n - dp in
  let snum := num * 10 ^ Z.max 0 x in
  let sden := den * 10 ^ Z.max 0 (- x) in
  let a := snum / sden in
  let r := snum mod sden in
  let same (c : Z) :=
    match to_float false (c * 10 ^ Z.max 0 (- x)) (10 ^ Z.max 0 x),
          to_float false num den with
    | Ok f1, Ok f2 =>
      match f1, f2 with
      | Finite _ m1 e1, Finite _ m2 e2 => (m1 =? m2) && (e1 =? e2)
      | _, _ => false
      end
    | _, _ => false
    end in
  let down := same a in
  let up := same (a + 1) in
  if down && up then
    if 2 * r <? sden then Some a
    else if sden <? 2 * r then Some (a + 1)
    else if Z.even a then Some a else Some (a + 1)
  else if down then Some a
  else if up then Some (a + 1)
  else None.

Fixpoint shortest_from (fuel : nat) (num den dp n : Z) : Z * Z :=
  match fuel with
  | O => ((num * 10 ^ Z.max 0 (n - dp)) / (den * 10 ^ Z.max 0 (dp - n)), n)
  | S k =>
    match shortest_at num den dp n with
    | Some a => (a, n)
    | None => shortest_from k num den dp (n + 1)
    end
  end.

(** The shortest digits of the positive value [m * 2^e] and its decimal
    point: the value is [0.d1d2... * 10^dp]. *)
Definition shortest (m e : Z) : string * Z :=
  let num := m * 2 ^ Z.max 0 e in
  let den := 2 ^ Z.max 0 (- e) in
  let dp := decimal_point num den in
  let '(a, n) := shortest_from 17 num den dp 1 in
  let ds := FormatInt a in
  (strip_trailing_zeros ds, dp + (len ds - n)).

Fixpoint digit_at (ds : string) (j : nat) : ascii :=
  match ds, j with
  | String c _, O => c
  | String _ t, S k => digit_at t k
  | EmptyString, _ => "0"%char
  end.

Fixpoint fraction_digits (ds : string) (dp : Z) (i : nat) (prec : nat) : string :=
  match prec with
  | O => EmptyString
  | S k =>
    let j := dp + Z.of_nat i in
    String (if (0 <=? j) && (j <? len ds) then digit_at ds (Z.to_nat j) else "0"%char)
           (fraction_digits ds dp (S i) k)
  end.

(** The [%f] layout of digits [ds] with decimal point [dp] and as many
    fraction digits as the digits need. *)
Definition fmtF (neg : bool) (ds : string) (dp : Z) : string :=
  let nd := len ds in
  let prec := Z.max (nd - dp) 0 in
  (if neg then "-" else "")
  ++ (if 0 <? dp
      then take_bytes (Z.to_nat (Z.min nd dp)) ds
           ++ gostrings.Repeat "0" (dp - Z.min nd dp)
      else "0")
  ++ (if 0 <? prec
      then "." ++ fraction_digits ds dp 0 (Z.to_nat prec)
      else "").

(** [FormatFloat f 'f' (-1) 64]. *)
Definition FormatFloat (f : float64) : string :=
  match f with
  | NaN => "NaN"
  | Inf neg => if neg then "-Inf" else "+Inf"
  | Finite neg m e =>
    if m =? 0 then fmtF neg "" 0
    else let '(ds, dp) := shortest m e in fmtF neg ds dp
  end.

(** [Atoi s]: an optional sign and decimal digits, within the range of [int]
    (64 bits). *)
Fixpoint digits_value (s : string) (acc : Z) : option Z :=
  match s with
  | EmptyString => Some acc
  | String c t =>
    if is_digit (byteZ c) then digits_value t (acc * 10 + (byteZ c - 0x30)) else None
  end.

Definition Atoi (s : string) : result NumError Z :=
  let '(neg, ds) :=
    match s with
    | String c t =>
      if byteZ c =? 0x2D then (true, t)
      else if byteZ c =? 0x2B then (false, t)
      else (false, s)
    | EmptyString => (false, s)
    end in
  match ds with
  | EmptyString => Err ErrSyntax
  | _ =>
    match digits_value ds 0 with
    | None => Err ErrSyntax
    | Some v =>
      let n := if neg then - v else v in
      if (n <? - 2 ^ 63) || (2 ^ 63 - 1 <? n) then Err ErrRange else Ok n
    end
  end.

End strconv.

(** ** Errors

    The code reports errors as Go [error] values carrying a message.  Each
    message the codec can produce is a constructor here; the comment gives the
    text of the source. *)
Inductive message :=
(* internal/format *)
| UnsupportedControlCharacter (r : rune)  (* toon: unsupported control character U+%04X in string *)
(* internal/parse *)
| InvalidQuotedString                     (* invalid quoted string *)
| InvalidEscapeSequence (ch : ascii)      (* invalid escape sequence \%c *)
| UnterminatedEscapeSequence              (* unterminated escape sequence *)
| UnterminatedString                      (* unterminated string in delimited values *)
(* strconv *)
| NumErrorOf (func input : string) (e : strconv.NumError)
(* internal/codec, preprocessor and parser *)
| TabsInIndentation                       (* tabs are not allowed in indentation (strict mode) *)
| IndentationNotMultiple (n : Z)          (* indentation must be a multiple of %d spaces *)
| UnexpectedIndentation                   (* unexpected indentation *)
| ArraysMustHaveKey                       (* arrays within objects must have a key *)
| InlineLengthMismatch (expected got : Z) (* inline array length mismatch; expected %d, got %d *)
| BlankInsideTabular                      (* blank line inside tabular array *)
| InvalidIndentationTabularRow            (* invalid indentation for tabular row *)
| RowWidthMismatch                        (* tabular row width mismatch *)
| TooManyRows (expected : Z)              (* too many tabular rows (expected %d) *)
| TabularLengthMismatch (expected : Z)    (* tabular length mismatch; expected %d rows *)
| BlankInsideList                         (* blank line inside list array *)
| InvalidIndentationListItem              (* invalid indentation for list item *)
| InvalidHeaderInListItem                 (* invalid array header in list item *)
| ListLengthMismatch (expected : Z)       (* list length mismatch; expected %d items *)
| BlankInsideObjectListItem               (* blank line inside object list item *)
| InvalidIndentationSibling               (* invalid indentation for object list sibling *)
| MissingClosingBracket                   (* missing closing bracket in array header *)
| InvalidFieldSegment                     (* invalid field segment in array header *)
| MissingArrayLength                      (* missing array length *)
| InvalidDelimiterSymbol (r : rune)       (* invalid delimiter symbol %q *)
| MissingDigits                           (* missing digits in array length *)
| MissingColon                            (* missing colon after key *)
| EmptyKey                                (* empty key *)
| InvalidUnquotedKey (token : string)     (* invalid unquoted key %q *)
(* internal/codec, normalizer and encoder *)
| UnsupportedMapKeyType                   (* toon: unsupported map key type %s *)
| UnsupportedValueType                    (* toon: unsupported value of type %T *)
| UnsupportedPrimitive.                   (* toon: unsupported primitive %T *)

(** A Go [error]: a plain message, a [parseError] carrying a line number, or
    an error wrapped with the name of the field it arose in. *)
Inductive error :=
| New (m : message)                       (* errors.New, fmt.Errorf *)
| parseError (line : Z) (msg : message)   (* line %d: %s *)
| FieldError (key : string) (e : error).  (* toon: %s: %w *)

(** Outcome of a function whose recursion is bounded by a fuel argument. *)
Inductive outcome (A : Type) : Type :=
| Done (a : A)
| Failed (e : error)
| OutOfFuel.
Arguments Done {A} a.
Arguments Failed {A} e.
Arguments OutOfFuel {A}.

(** ** Package internal/format *)
Module formatpkg.

(** [Context] captures delimiter information for quoting decisions. *)
Record Context := {
  Active : rune;
  Document : rune;
  InArray : bool
}.

Definition isDigit (b : ascii) : bool := (0x30 <=? byteZ b) && (byteZ b <=? 0x39).

(** The loop [for i < len(s) && isDigit(s[i]) { i++ }]: how many digits were
    passed and what is left of [s]. *)
Fixpoint skip_digits (s : string) : nat * string :=
  match s with
  | String c t =>
    if isDigit c then let '(n, r) := skip_digits t in (S n, r) else (O, s)
  | EmptyString => (O, s)
  end.

(** [LooksNumeric] reports whether the string resembles a numeric literal. *)
Definition LooksNumeric (s : string) : bool :=
  match s with
  | EmptyString => false
  | String c0 t0 =>
    let after_sign := if Ascii.eqb c0 "-" then Some t0 else Some s in
    match after_sign with
    | Some EmptyString => false
    | None => false
    | Some s1 =>
      let '(digits, s2) := skip_digits s1 in
      if (digits =? 0)%nat then false
      else
        let after_fraction :=
          match s2 with
          | String "." t =>
            match t with
            | String d _ => if isDigit d then Some (snd (skip_digits t)) else None
            | EmptyString => None
            end
          | _ => Some s2
          end in
        match after_fraction with
        | None => false
        | Some s3 =>
          let after_exponent :=
            match s3 with
            | String e t =>
              if Ascii.eqb e "e" || Ascii.eqb e "E" then
                let t1 := match t with
                          | String sg t' =>
                            if Ascii.eqb sg "+" || Ascii.eqb sg "-" then t' else t
                          | EmptyString => t
                          end in
                match t1 with
                | String d _ => if isDigit d then Some (snd (skip_digits t1)) else None
                | EmptyString => None
                end
              else Some s3
            | EmptyString => Some s3
            end in
          match after_exponent with
          | None => false
          | Some s4 => String.eqb s4 EmptyString
          end
        end
    end
  end.

(** [HasLeadingZeroDecimal] reports whether the string is a decimal with
    forbidden leading zeros. *)
Definition HasLeadingZeroDecimal (s : string) : bool :=
  match s with
  | String c0 (String c1 _) => Ascii.eqb c0 "0" && isDigit c1
  | _ => false
  end.

(** [NeedsQuoting] reports whether the string must be quoted in the supplied
    context. *)
Definition NeedsQuoting (s : string) (ctx : Context) : bool :=
  if (String.length s =? 0)%nat then true
  else if negb (String.eqb (gostrings.TrimSpace s) s) then true
  else if String.eqb s "true" || String.eqb s "false" || String.eqb s "null" then true
  else if LooksNumeric s then true
  else if HasLeadingZeroDecimal s then true
  else if gostrings.ContainsAny s (":" ++ backslash ++ dquote ++ "[]{}") then true
  else if gostrings.ContainsRune s 0x0A || gostrings.ContainsRune s 0x0D
          || gostrings.ContainsRune s 0x09 then true
  else if gostrings.HasPrefix s "-" then true
  else if InArray ctx && negb (Active ctx =? 0) && gostrings.ContainsRune s (Active ctx)
  then true
  else if negb (InArray ctx) && negb (Document ctx =? 0)
          && gostrings.ContainsRune s (Document ctx)
  then true
  else false.

(** One rune of [QuoteString]'s loop: its escaped form, or the error for a
    control character. *)
Definition quote_rune (r : rune) : result message string :=
  if r =? 0x5C then Ok (backslash ++ backslash)
  else if r =? 0x22 then Ok (backslash ++ dquote)
  else if r =? 0x0A then Ok (backslash ++ "n")
  else if r =? 0x0D then Ok (backslash ++ "r")
  else if r =? 0x09 then Ok (backslash ++ "t")
  else if r <? 0x20 then Err (UnsupportedControlCharacter r)
  else Ok (utf8.EncodeRune r).

(** [QuoteString] escapes and wraps the string in double quotes. *)
Definition QuoteString (s : string) : result message string :=
  let* parts := mapM (fun p => quote_rune (snd p)) (utf8.range s) in
  Ok (dquote ++ String.concat "" parts ++ dquote).

(** [ValidateCharacters] ensures the string does not contain unsupported
    control characters. *)
Definition ValidateCharacters (s : string) : result message unit :=
  let* _ := mapM (fun p : Z * rune =>
                    let r := snd p in
                    if (r <? 0x20) && negb (r =? 0x0A) && negb (r =? 0x0D)
                       && negb (r =? 0x09)
                    then Err (UnsupportedControlCharacter r) else Ok tt)
                 (utf8.range s) in
  Ok tt.

(** [FormatString] applies TOON quoting rules to the provided string. *)
Definition FormatString (s : string) (ctx : Context) : result message string :=
  let* _ := ValidateCharacters s in
  if NeedsQuoting s ctx then QuoteString s else Ok s.

Section WithTables.
Context {tables : unicode.Tables}.

(** [IsValidUnquotedKey] reports whether the key satisfies the identifier
    pattern. *)
Definition IsValidUnquotedKey (key : string) : bool :=
  if String.eqb key "" then false
  else
    forallb (fun p : Z * rune =>
               let '(pos, r) := p in
               if pos =? 0 then (r =? 0x5F) || unicode.IsLetter r
               else unicode.IsLetter r || unicode.IsDigit r
                    || (r =? 0x5F) || (r =? 0x2E))
            (utf8.range key).

(** [EncodeKey] applies TOON key quoting rules. *)
Definition EncodeKey (key : string) : result message string :=
  if String.eqb key "" then QuoteString key
  else if IsValidUnquotedKey key then Ok key
  else QuoteString key.

End WithTables.
End formatpkg.

(** ** Package internal/parse *)
Module parsepkg.

Fixpoint last_byte (s : string) : option ascii :=
  match s with
  | EmptyString => None
  | String c EmptyString => Some c
  | String _ t => last_byte t
  end.

(** The loop of [UnquoteString] over the bytes between the quotes. *)
Fixpoint unquote_loop (inner : string) (escaped : bool) : result message string :=
  match inner with
  | EmptyString => if escaped then Err UnterminatedEscapeSequence else Ok ""
  | String ch t =>
    if escaped then
      let b := byteZ ch in
      if (b =? 0x5C) || (b =? 0x22) then
        let* r := unquote_loop t false in Ok (String ch r)
      else if b =? 0x6E then let* r := unquote_loop t false in Ok (String "010" r)
      else if b =? 0x72 then let* r := unquote_loop t false in Ok (String "013" r)
      else if b =? 0x74 then let* r := unquote_loop t false in Ok (String "009" r)
      else Err (InvalidEscapeSequence ch)
    else if byteZ ch =? 0x5C then unquote_loop t true
    else let* r := unquote_loop t false in Ok (String ch r)
  end.

(** [UnquoteString] removes surrounding quotes and unescapes TOON strings. *)
Definition UnquoteString (token : string) : result message string :=
  match token with
  | String c0 rest =>
    if (String.length token <? 2)%nat || negb (byteZ c0 =? 0x22)
       || negb (match last_byte token with
                | Some c => byteZ c =? 0x22
                | None => false
                end)
    then Err InvalidQuotedString
    else unquote_loop (take_bytes (String.length rest - 1) rest) false
  | EmptyString => Err InvalidQuotedString
  end.

(** The state of [SplitInlineValues]' loop. *)
Record splitter := {
  tokens : list string;
  current : string;
  inQuotes : bool;
  escaped : bool
}.

Definition split_step (delimiter : rune) (st : splitter) (r : rune) : splitter :=
  let write := current st ++ utf8.EncodeRune r in
  if escaped st then
    {| tokens := tokens st; current := write; inQuotes := inQuotes st; escaped := false |}
  else if (r =? 0x5C) && inQuotes st then
    {| tokens := tokens st; current := write; inQuotes := inQuotes st; escaped := true |}
  else if r =? 0x22 then
    {| tokens := tokens st; current := write; inQuotes := negb (inQuotes st);
       escaped := escaped st |}
  else if (r =? delimiter) && negb (inQuotes st) then
    {| tokens := (tokens st ++ [gostrings.TrimSpace (current st)])%list; current := "";
       inQuotes := inQuotes st; escaped := escaped st |}
  else
    {| tokens := tokens st; current := write; inQuotes := inQuotes st;
       escaped := escaped st |}.

(** [SplitInlineValues] tokenizes a delimiter-separated list, respecting
    quoted segments. *)
Definition SplitInlineValues (segment : string) (delimiter : rune)
  : result message (list string) :=
  if String.eqb (gostrings.TrimSpace segment) "" then Ok []
  else
    let st := fold_left (split_step delimiter) (map snd (utf8.range segment))
                {| tokens := []; current := ""; inQuotes := false; escaped := false |} in
    if inQuotes st then Err UnterminatedString
    else Ok (tokens st ++ [gostrings.TrimSpace (current st)])%list.

End parsepkg.

(** ** Package time

    [time.Time] values and their RFC 3339 rendering belong to the Go
    distribution; the codec only passes times to a formatter. *)
Module gotime.
Class Clock := {
  Time : Type;
  FormatRFC3339NanoUTC : Time -> string   (* t.UTC().Format(time.RFC3339Nano) *)
}.
End gotime.

(** ** Package internal/codec *)
Module codec.
Import strconv.

(** *** options.go *)

(** [Delimiter] identifies the character used to split values inside array
    scopes.  It is a rune type: any rune can be converted to it. *)
Definition Delimiter := rune.
Definition DelimiterComma : Delimiter := 0x2C.
Definition DelimiterTab : Delimiter := 0x09.
Definition DelimiterPipe : Delimiter := 0x7C.

Definition Delimiter_rune (d : Delimiter) : rune :=
  if d =? DelimiterComma then 0x2C
  else if d =? DelimiterTab then 0x09
  else if d =? DelimiterPipe then 0x7C
  else 0x2C.

Definition recognised (d : Delimiter) : bool :=
  (d =? DelimiterComma) || (d =? DelimiterTab) || (d =? DelimiterPipe).

Section Options.
Context {clock : gotime.Clock}.

Record encoderOptions := {
  indentSize : Z;
  documentDelimiter : Delimiter;
  arrayDelimiter : Delimiter;
  includeLengthMarks : bool;
  timeFormatter : gotime.Time -> string
}.

Definition defaultEncoderOptions : encoderOptions :=
  {| indentSize := 2;
     documentDelimiter := DelimiterComma;
     arrayDelimiter := DelimiterComma;
     includeLengthMarks := false;
     timeFormatter := gotime.FormatRFC3339NanoUTC |}.

(** [EncoderOption] mutates encoding behaviour. *)
Definition EncoderOption := encoderOptions -> encoderOptions.

(** [WithIndent] configures the number of spaces used per indentation level. *)
Definition WithIndent (spaces : Z) : EncoderOption := fun o =>
  if 0 <? spaces then
    {| indentSize := spaces; documentDelimiter := documentDelimiter o;
       arrayDelimiter := arrayDelimiter o; includeLengthMarks := includeLengthMarks o;
       timeFormatter := timeFormatter o |}
  else o.

(** [WithDocumentDelimiter] configures the delimiter that influences quoting
    decisions outside array scopes. *)
Definition WithDocumentDelimiter (delimiter : Delimiter) : EncoderOption := fun o =>
  if (delimiter =? DelimiterComma) || (delimiter =? DelimiterTab)
     || (delimiter =? DelimiterPipe)
  then
    {| indentSize := indentSize o; documentDelimiter := delimiter;
       arrayDelimiter := arrayDelimiter o; includeLengthMarks := includeLengthMarks o;
       timeFormatter := timeFormatter o |}
  else o.

(** [WithArrayDelimiter] configures the default delimiter declared for arrays. *)
Definition WithArrayDelimiter (delimiter : Delimiter) : EncoderOption := fun o =>
  if (delimiter =? DelimiterComma) || (delimiter =? DelimiterTab)
     || (delimiter =? DelimiterPipe)
  then
    {| indentSize := indentSize o; documentDelimiter := documentDelimiter o;
       arrayDelimiter := delimiter; includeLengthMarks := includeLengthMarks o;
       timeFormatter := timeFormatter o |}
  else o.

(** [WithLengthMarkers] enables emitting optional # markers in array headers. *)
Definition WithLengthMarkers (enabled : bool) : EncoderOption := fun o =>
  {| indentSize := indentSize o; documentDelimiter := documentDelimiter o;
     arrayDelimiter := arrayDelimiter o; includeLengthMarks := enabled;
     timeFormatter := timeFormatter o |}.

(** [WithTimeFormatter] specifies the formatter used for time.Time
    normalization; a nil formatter is [None]. *)
Definition WithTimeFormatter (formatter : option (gotime.Time -> string))
  : EncoderOption := fun o =>
  match formatter with
  | Some f =>
    {| indentSize := indentSize o; documentDelimiter := documentDelimiter o;
       arrayDelimiter := arrayDelimiter o; includeLengthMarks := includeLengthMarks o;
       timeFormatter := f |}
  | None => o
  end.

(** The options a caller can build: [encoderOptions] is unexported, so the
    five constructors are the only source of [EncoderOption] values. *)
Inductive encoder_option : EncoderOption -> Prop :=
| opt_WithIndent spaces : encoder_option (WithIndent spaces)
| opt_WithDocumentDelimiter d : encoder_option (WithDocumentDelimiter d)
| opt_WithArrayDelimiter d : encoder_option (WithArrayDelimiter d)
| opt_WithLengthMarkers b : encoder_option (WithLengthMarkers b)
| opt_WithTimeFormatter f : encoder_option (WithTimeFormatter f).

Record decoderOptions := {
  d_indentSize : Z;
  strict : bool;
  documentDelim : Delimiter
}.

Definition defaultDecoderOptions : decoderOptions :=
  {| d_indentSize := 2; strict := true; documentDelim := DelimiterComma |}.

(** [DecoderOption] mutates decoder behaviour. *)
Definition DecoderOption := decoderOptions -> decoderOptions.

(** [WithStrictMode] toggles the strict-mode diagnostics. *)
Definition WithStrictMode (strict' : bool) : DecoderOption := fun o =>
  {| d_indentSize := d_indentSize o; strict := strict';
     documentDelim := documentDelim o |}.

(** [WithDecoderIndent] configures the expected indentation step. *)
Definition WithDecoderIndent (spaces : Z) : DecoderOption := fun o =>
  if 0 <? spaces then
    {| d_indentSize := spaces; strict := strict o; documentDelim := documentDelim o |}
  else o.

(** [WithDecoderDocumentDelimiter] configures the delimiter that influences
    delimiter-aware string parsing when no array header is active. *)
Definition WithDecoderDocumentDelimiter (delimiter : Delimiter) : DecoderOption :=
  fun o =>
  if (delimiter =? DelimiterComma) || (delimiter =? DelimiterTab)
     || (delimiter =? DelimiterPipe)
  then
    {| d_indentSize := d_indentSize o; strict := strict o; documentDelim := delimiter |}
  else o.

Inductive decoder_option : DecoderOption -> Prop :=
| opt_WithStrictMode b : decoder_option (WithStrictMode b)
| opt_WithDecoderIndent spaces : decoder_option (WithDecoderIndent spaces)
| opt_WithDecoderDocumentDelimiter d : decoder_option (WithDecoderDocumentDelimiter d).

(** [NewEncoder] and [NewDecoder] start from the defaults and apply the
    options in order; the result is the configuration the codec runs with. *)
Definition NewEncoder (opts : list EncoderOption) : encoderOptions :=
  fold_left (fun cfg opt => opt cfg) opts defaultEncoderOptions.

Definition NewDecoder (opts : list DecoderOption) : decoderOptions :=
  fold_left (fun cfg opt => opt cfg) opts defaultDecoderOptions.

End Options.

(** *** model.go and the ordered object *)

(** [Field] represents a single key/value pair in an ordered object, and
    [Object] preserves the encounter order of its fields. *)
Record Field (V : Type) := { Key : string; Value : V }.
Arguments Key {V} f.
Arguments Value {V} f.
Arguments Build_Field {V} Key Value.

Record Object (V : Type) := { Fields : list (Field V) }.
Arguments Fields {V} o.
Arguments Build_Object {V} Fields.

Definition IsEmpty {V} (o : Object V) : bool := (length (Fields o) =? 0)%nat.

(** [normalizedValue]: nil, bool, string, [numberValue], [Object] or a slice of
    normalized values. *)
Inductive normalizedValue :=
| NNil
| NBool (b : bool)
| NString (s : string)
| numberValue (literal : string)
| NObject (o : Object normalizedValue)
| NSlice (values : list normalizedValue).

Definition maxSafeInteger : Z := 9007199254740991.

(** *** Host values

    The values [normalize] distinguishes, in the order of its type switch and
    of its switch on the reflected kind. *)
Section Host.
Context {clock : gotime.Clock}.

Inductive any :=
| AnyNil                                   (* an untyped nil *)
| AnyString (s : string)
| AnyBool (b : bool)
| AnyJSONNumber (s : string)               (* json.Number *)
| AnyFloat (f : float64)                   (* float32, float64 *)
| AnyInt (i : Z)                           (* int, int8, ..., int64 *)
| AnyUint (u : Z)                          (* uint, uint8, ..., uint64 *)
| AnyBigIntPtr (v : option Z)              (* *big.Int, possibly nil *)
| AnyBigInt (v : Z)                        (* big.Int *)
| AnyTime (t : gotime.Time)
| AnyStringer (text : string)              (* a fmt.Stringer and its String() *)
| AnyObject (o : Object any)
| AnyField (f : Field any)
| AnyPointer (target : option any)         (* a pointer, possibly nil *)
| AnySlice (items : list any)              (* a slice or an array *)
| AnyMap (stringKeys : bool) (entries : list (string * any))
    (* a map: whether its key kind is string, and its entries in the order
       this run's MapRange yields them *)
| AnyStruct (fields : list (string * bool * bool * any))
    (* a struct: for each field of its cached metadata the name, the
       omitempty flag, whether isEmptyValue holds of it, and its value *)
| AnyOther.                                (* any other kind *)

(** *** normalize.go *)

(** The integer cases of [normalize]: integers outside the safe range are
    rendered as strings. *)
Definition normalizeInt (i : Z) : normalizedValue :=
  if (maxSafeInteger <? i) || (i <? - maxSafeInteger)
  then NString (FormatInt i)
  else numberValue (FormatInt i).

Definition normalizeUint (u : Z) : normalizedValue :=
  if maxSafeInteger <? u
  then NString (FormatUint u)
  else numberValue (FormatUint u).

Definition normalizeFloat (f : float64) : result error normalizedValue :=
  if IsNaN f then Ok NNil
  else if IsInf f 1 || IsInf f (-1) then Ok NNil
  else
    let f := if is_zero f then zero else f in
    Ok (numberValue (FormatFloat f)).

Definition normalizeNumberString (s : string) : result error normalizedValue :=
  match ParseFloat s with
  | Err _ =>
    (* Preserve as string literal; encoder will handle quoting. *)
    Ok (NString s)
  | Ok f =>
    if IsInf f 0 || IsNaN f then Ok NNil
    else
      let f := if is_zero f then zero else f in
      Ok (numberValue (FormatFloat f))
  end.

(** [slices.SortFunc] with the comparison of [normalize]: ascending by key,
    keys compared as byte strings.  Map keys are pairwise distinct, so every
    sorting algorithm produces this list. *)
Definition key_lt {V} (a b : Field V) : bool := String.ltb (Key a) (Key b).

Fixpoint insert_by_key {V} (x : Field V) (l : list (Field V)) : list (Field V) :=
  match l with
  | [] => [x]
  | y :: t => if key_lt y x then y :: insert_by_key x t else x :: l
  end.

Definition SortFunc {V} (l : list (Field V)) : list (Field V) :=
  fold_right insert_by_key [] l.

(** The error wrapping of the field loops: [fmt.Errorf("toon: %s: %w", ...)]. *)
Definition wrap_field {A} (key : string) (r : result error A) : result error A :=
  match r with
  | Ok a => Ok a
  | Err e => Err (FieldError key e)
  end.

(** [normalize] applies the data-model rules to a Go value, producing a
    structure ready for encoding. *)
Fixpoint normalize (cfg : encoderOptions) (v : any) {struct v}
  : result error normalizedValue :=
  match v with
  | AnyNil => Ok NNil
  | AnyString val => Ok (NString val)
  | AnyBool val => Ok (NBool val)
  | AnyJSONNumber val => normalizeNumberString val
  | AnyFloat val => normalizeFloat val
  | AnyInt i => Ok (normalizeInt i)
  | AnyUint u => Ok (normalizeUint u)
  | AnyBigIntPtr None => Ok NNil
  | AnyBigIntPtr (Some val) | AnyBigInt val =>
    if (- 2 ^ 63 <=? val) && (val <=? 2 ^ 63 - 1)
    then Ok (normalizeInt val)
    else Ok (NString (FormatInt val))
  | AnyTime val => Ok (NString (timeFormatter cfg val))
  | AnyStringer text => Ok (NString text)
  | AnyObject val =>
    let* normalized :=
      mapM (fun field : Field any =>
              let* child := wrap_field (Key field) (normalize cfg (Value field)) in
              Ok {| Key := Key field; Value := child |})
           (Fields val) in
    Ok (NObject {| Fields := normalized |})
  | AnyField val =>
    let* child := wrap_field (Key val) (normalize cfg (Value val)) in
    Ok (NObject {| Fields := [ {| Key := Key val; Value := child |} ] |})
  | AnyPointer None => Ok NNil
  | AnyPointer (Some target) => normalize cfg target
  | AnySlice items =>
    let* result := mapM (normalize cfg) items in
    Ok (NSlice result)
  | AnyMap false _ => Err (New UnsupportedMapKeyType)
  | AnyMap true entries =>
    let* fields :=
      mapM (fun kv : string * any =>
              let* fieldValue := normalize cfg (snd kv) in
              Ok {| Key := fst kv; Value := fieldValue |})
           entries in
    Ok (NObject {| Fields := SortFunc fields |})
  | AnyStruct meta =>
    let* fields :=
      (fix each (l : list (string * bool * bool * any))
         : result error (list (Field normalizedValue)) :=
         match l with
         | [] => Ok []
         | (name, omitEmpty, empty, childValue) :: t =>
           if omitEmpty && empty then each t
           else
             let* child := wrap_field name (normalize cfg childValue) in
             let* rest := each t in
             Ok ({| Key := name; Value := child |} :: rest)
         end) meta in
    Ok (NObject {| Fields := fields |})
  | AnyOther => Err (New UnsupportedValueType)
  end.

(** [normalizeObjectFields], the loop [normalize] runs on an [Object]. *)
Definition normalizeObjectFields (fields : list (Field any)) (cfg : encoderOptions)
  : result error (Object normalizedValue) :=
  let* normalized :=
    mapM (fun field : Field any =>
            let* child := wrap_field (Key field) (normalize cfg (Value field)) in
            Ok {| Key := Key field; Value := child |})
         fields in
  Ok {| Fields := normalized |}.

End Host.

(** *** format.go *)

Record formatContext := {
  active : Delimiter;
  document : Delimiter;
  inArray : bool
}.

Definition toInternal (c : formatContext) : formatpkg.Context :=
  {| formatpkg.Active := Delimiter_rune (active c);
     formatpkg.Document := Delimiter_rune (document c);
     formatpkg.InArray := inArray c |}.

Definition formatPrimitive (value : normalizedValue) (ctx : formatContext)
  : result message string :=
  match value with
  | NNil => Ok "null"
  | NBool v => if v then Ok "true" else Ok "false"
  | NString v => formatpkg.FormatString v (toInternal ctx)
  | numberValue literal => Ok literal
  | _ => Err UnsupportedPrimitive
  end.

(** *** encoder.go *)

Definition isPrimitive (value : normalizedValue) : bool :=
  match value with
  | NNil | NBool _ | NString _ | numberValue _ => true
  | _ => false
  end.

Definition isPrimitiveArray (values : list normalizedValue) : bool :=
  forallb isPrimitive values.

Definition objField (obj : Object normalizedValue) (key : string) : normalizedValue :=
  match find (fun field => String.eqb (Key field) key) (Fields obj) with
  | Some field => Value field
  | None => NNil
  end.

(** The body of [detectTabular]'s loop over the rows after the first: the
    row is an object with as many fields as the header, each of them primitive
    and named in [fieldSet], and [seen] ends with as many keys as the header. *)
Definition sameFieldSet (fields : list string) (value : normalizedValue) : bool :=
  let fieldSet : gset string := list_to_set fields in
  match value with
  | NObject obj =>
    (length (Fields obj) =? length fields)%nat
    && forallb (fun field =>
                  bool_decide (Key field ∈ fieldSet) && isPrimitive (Value field))
               (Fields obj)
    && (let seen : gset string := list_to_set (map Key (Fields obj)) in
        (size seen =? length fields)%nat)
  | _ => false
  end.

(** [detectTabular]: the header fields when every element is an object with
    the key set of the first one and primitive values only.  [fieldSet] and
    [seen] are Go maps used as sets. *)
Definition detectTabular (values : list normalizedValue) : option (list string) :=
  match values with
  | [] => None
  | NObject first :: rest =>
    if IsEmpty first then None
    else if negb (forallb (fun field => isPrimitive (Value field)) (Fields first))
    then None
    else
      let fields := map Key (Fields first) in
      if forallb (sameFieldSet fields) rest then Some fields else None
  | _ :: _ => None
  end.

Section Encoder.
Context {tables : unicode.Tables} {clock : gotime.Clock}.

Definition encodeKey (key : string) : result message string :=
  formatpkg.EncodeKey key.

Definition renderHeader (keyLiteral : string) (length : Z) (delimiter : Delimiter)
    (includeMarker : bool) (fields : list string) : string :=
  keyLiteral
  ++ "["
  ++ (if includeMarker then "#" else "")
  ++ Itoa length
  ++ (if negb (delimiter =? DelimiterComma)
      then utf8.EncodeRune (Delimiter_rune delimiter) else "")
  ++ "]"
  ++ (if (0 <? List.length fields)%nat
      then "{"
           ++ String.concat (utf8.EncodeRune (Delimiter_rune delimiter))
                (map (fun field => match encodeKey field with
                                   | Ok fieldLiteral => fieldLiteral
                                   | Err _ => ""
                                   end) fields)
           ++ "}"
      else "")
  ++ ":".

(** The encoder's state is the list of lines emitted so far; a step maps the
    lines before to the lines after, or fails. *)
Definition Enc := list string -> outcome (list string).

Definition emit (line : string) : Enc := fun lines => Done (lines ++ [line])%list.
Definition skip : Enc := fun lines => Done lines.
Definition out_of_fuel : Enc := fun _ => OutOfFuel.

Definition seq (a b : Enc) : Enc := fun lines =>
  match a lines with
  | Done lines' => b lines'
  | Failed e => Failed e
  | OutOfFuel => OutOfFuel
  end.

Definition try {A} (r : result message A) (k : A -> Enc) : Enc := fun lines =>
  match r with
  | Ok a => k a lines
  | Err m => Failed (New m)
  end.

Definition forEach {A} (f : A -> Enc) : list A -> Enc :=
  fix go (l : list A) : Enc :=
    match l with
    | [] => skip
    | x :: t => seq (f x) (go t)
    end.

Notation "'let+' x ':=' r 'in' k" := (try r (fun x => k))
  (at level 10, x name, r at level 100, k at level 200).

Variable cfg : encoderOptions.

Definition indent (depth : Z) : string :=
  if depth <=? 0 then "" else gostrings.Repeat " " (depth * indentSize cfg).

Definition delimiter_string (delimiter : Delimiter) : string :=
  utf8.EncodeRune (Delimiter_rune delimiter).

(** A tabular row: the values of [row] in header order, joined. *)
Definition tabularRow (fields : list string) (row : normalizedValue)
    (ctx : formatContext) (delimiter : Delimiter) : result message string :=
  let obj := match row with NObject obj => obj | _ => {| Fields := [] |} end in
  let* rowValues := mapM (fun field => formatPrimitive (objField obj field) ctx) fields in
  Ok (gostrings.Join rowValues (delimiter_string delimiter)).

Fixpoint encodeObject (fuel : nat) (obj : Object normalizedValue) (depth : Z)
    {struct fuel} : Enc :=
  match fuel with
  | O => out_of_fuel
  | S fuel =>
    if (depth =? 0) && IsEmpty obj then skip
    else
      let prefix := indent depth in
      forEach
        (fun field : Field normalizedValue =>
           match Value field with
           | NObject val =>
             let+ keyLiteral := encodeKey (Key field) in
             seq (emit (prefix ++ keyLiteral ++ ":"))
                 (encodeObject fuel val (depth + 1))
           | NSlice val => encodeArray fuel (Key field) val depth false
           | val =>
             let+ keyLiteral := encodeKey (Key field) in
             let+ token := formatPrimitive val
                             {| active := arrayDelimiter cfg;
                                document := documentDelimiter cfg;
                                inArray := false |} in
             emit (prefix ++ keyLiteral ++ ": " ++ token)
           end)
        (Fields obj)
  end

with encodeArray (fuel : nat) (key : string) (values : list normalizedValue)
    (depth : Z) (root : bool) {struct fuel} : Enc :=
  match fuel with
  | O => out_of_fuel
  | S fuel =>
    let prefix := indent depth in
    let delimiter := arrayDelimiter cfg in
    let ctx := {| active := delimiter; document := documentDelimiter cfg;
                  inArray := true |} in
    let+ keyLiteral := if negb (String.eqb key "") then encodeKey key else Ok "" in
    if isPrimitiveArray values then
      let header := renderHeader keyLiteral (Z.of_nat (length values)) delimiter
                      (includeLengthMarks cfg) [] in
      let line := prefix ++ header in
      if (0 <? length values)%nat then
        let+ inline := mapM (fun v => formatPrimitive v ctx) values in
        emit (line ++ " " ++ gostrings.Join inline (delimiter_string delimiter))
      else emit line
    else
      match detectTabular values with
      | Some fields =>
        let header := renderHeader keyLiteral (Z.of_nat (length values)) delimiter
                        (includeLengthMarks cfg) fields in
        seq (emit (prefix ++ header))
            (forEach (fun row =>
                        let+ rowLine := tabularRow fields row ctx delimiter in
                        emit (indent (depth + 1) ++ rowLine))
                     values)
      | None =>
        let header := renderHeader keyLiteral (Z.of_nat (length values)) delimiter
                        (includeLengthMarks cfg) [] in
        seq (emit (prefix ++ header))
            (forEach (fun item =>
                        if root then encodeListItem fuel item (depth + 1) ctx
                        else encodeArrayItem fuel item (depth + 1) ctx)
                     values)
      end
  end

with encodeArrayItem (fuel : nat) (item : normalizedValue) (depth : Z)
    (ctx : formatContext) {struct fuel} : Enc :=
  match fuel with
  | O => out_of_fuel
  | S fuel =>
    match item with
    | NObject v => encodeObjectListItem fuel v depth ctx
    | NSlice v => encodeArrayForObjectListItem fuel "" v depth ctx
    | v =>
      let+ token := formatPrimitive v ctx in
      emit (indent depth ++ "- " ++ token)
    end
  end

with encodeListItem (fuel : nat) (item : normalizedValue) (depth : Z)
    (ctx : formatContext) {struct fuel} : Enc :=
  match fuel with
  | O => out_of_fuel
  | S fuel =>
    match item with
    | NObject v => encodeObjectListItem fuel v depth ctx
    | NSlice v => encodeArrayForObjectListItem fuel "" v depth ctx
    | v =>
      let+ token := formatPrimitive v ctx in
      emit (indent depth ++ "- " ++ token)
    end
  end

with encodeObjectListItem (fuel : nat) (obj : Object normalizedValue) (depth : Z)
    (ctx : formatContext) {struct fuel} : Enc :=
  match fuel with
  | O => out_of_fuel
  | S fuel =>
    match Fields obj with
    | [] => emit (indent depth ++ "- {}")
    | first :: rest =>
      let remaining :=
        if (1 <? length (Fields obj))%nat
        then encodeObject fuel {| Fields := rest |} (depth + 1)
        else skip in
      if isPrimitive (Value first) then
        let+ keyLiteral := encodeKey (Key first) in
        let+ token := formatPrimitive (Value first) ctx in
        seq (emit (indent depth ++ "- " ++ keyLiteral ++ ": " ++ token)) remaining
      else
        match Value first with
        | NSlice arr =>
          let+ keyLiteral := encodeKey (Key first) in
          seq (encodeArrayForObjectListItem fuel keyLiteral arr depth ctx) remaining
        | _ =>
          seq (emit (indent depth ++ "-")) (encodeObject fuel obj (depth + 1))
        end
    end
  end

with encodeArrayForObjectListItem (fuel : nat) (keyLiteral : string)
    (values : list normalizedValue) (depth : Z) (ctx : formatContext)
    {struct fuel} : Enc :=
  match fuel with
  | O => out_of_fuel
  | S fuel =>
    let delimiter := active ctx in
    let prefix := indent depth in
    match detectTabular values with
    | Some fields =>
      let header := renderHeader keyLiteral (Z.of_nat (length values)) delimiter
                      (includeLengthMarks cfg) fields in
      seq (emit (prefix ++ "- " ++ header))
          (forEach (fun row =>
                      let+ rowLine := tabularRow fields row ctx delimiter in
                      emit (indent (depth + 1) ++ rowLine))
                   values)
    | None =>
      if isPrimitiveArray values then
        let header := renderHeader keyLiteral (Z.of_nat (length values)) delimiter
                        (includeLengthMarks cfg) [] in
        let line := prefix ++ "- " ++ header in
        if (0 <? length values)%nat then
          let+ inline := mapM (fun v => formatPrimitive v ctx) values in
          emit (line ++ " " ++ gostrings.Join inline (delimiter_string delimiter))
        else emit line
      else
        let header := renderHeader keyLiteral (Z.of_nat (length values)) delimiter
                        (includeLengthMarks cfg) [] in
        seq (emit (prefix ++ "- " ++ header))
            (forEach (fun item => encodeListItem fuel item (depth + 1) ctx) values)
    end
  end.

(** What [encodeObject] does for one field: the body of its loop. *)
Definition encodeField (fuel : nat) (depth : Z) (field : Field normalizedValue) : Enc :=
  let prefix := indent depth in
  match Value field with
  | NObject val =>
    let+ keyLiteral := encodeKey (Key field) in
    seq (emit (prefix ++ keyLiteral ++ ":"))
        (encodeObject fuel val (depth + 1))
  | NSlice val => encodeArray fuel (Key field) val depth false
  | val =>
    let+ keyLiteral := encodeKey (Key field) in
    let+ token := formatPrimitive val
                    {| active := arrayDelimiter cfg;
                       document := documentDelimiter cfg;
                       inArray := false |} in
    emit (prefix ++ keyLiteral ++ ": " ++ token)
  end.


(** The two layouts of [encodeArray] for a sequence that is not written
    inline: the header with its fields and a row for each element, or the
    plain header and a list item for each element. *)
Definition encodeArray_tabular (keyLiteral : string) (values : list normalizedValue)
    (fields : list string) (depth : Z) : Enc :=
  let delimiter := arrayDelimiter cfg in
  let ctx := {| active := delimiter; document := documentDelimiter cfg;
                inArray := true |} in
  seq (emit (indent depth
             ++ renderHeader keyLiteral (Z.of_nat (length values)) delimiter
                  (includeLengthMarks cfg) fields))
      (forEach (fun row =>
                  let+ rowLine := tabularRow fields row ctx delimiter in
                  emit (indent (depth + 1) ++ rowLine))
               values).

Definition encodeArray_list (fuel : nat) (keyLiteral : string)
    (values : list normalizedValue) (depth : Z) (root : bool) : Enc :=
  let delimiter := arrayDelimiter cfg in
  let ctx := {| active := delimiter; document := documentDelimiter cfg;
                inArray := true |} in
  seq (emit (indent depth
             ++ renderHeader keyLiteral (Z.of_nat (length values)) delimiter
                  (includeLengthMarks cfg) []))
      (forEach (fun item =>
                  if root then encodeListItem fuel item (depth + 1) ctx
                  else encodeArrayItem fuel item (depth + 1) ctx)
               values).

Definition encodeRoot (fuel : nat) (value : normalizedValue) : Enc :=
  match value with
  | NObject val => encodeObject fuel val 0
  | NSlice val => encodeArray fuel "" val 0 true
  | val =>
    let+ token := formatPrimitive val
                    {| active := arrayDelimiter cfg;
                       document := documentDelimiter cfg;
                       inArray := false |} in
    emit token
  end.

(** How deeply objects and slices nest in a value, and the fuel that lets
    the encoder go through it. *)
Fixpoint nesting (v : normalizedValue) : nat :=
  match v with
  | NObject o => S (fold_right (fun f acc => Nat.max (nesting (Value f)) acc) O (Fields o))
  | NSlice vs => S (fold_right (fun x acc => Nat.max (nesting x) acc) O vs)
  | _ => O
  end.

Definition encode_fuel (v : normalizedValue) : nat := (3 * nesting v + 3)%nat.

(** [Marshal] renders [v] into a TOON document. *)
Definition Marshal (v : any) : outcome string :=
  match normalize cfg v with
  | Err e => Failed e
  | Ok normalized =>
    match encodeRoot (encode_fuel normalized) normalized [] with
    | Done lines => Done (gostrings.Join lines (String "010" ""))
    | Failed e => Failed e
    | OutOfFuel => OutOfFuel
    end
  end.

End Encoder.

(** *** decoder.go *)

(** Decoded values: numbers are [float64], objects are [map[string]any] and
    arrays are [[]any]. *)
Inductive value :=
| VNil
| VBool (b : bool)
| VNumber (f : float64)
| VString (s : string)
| VObject (m : gmap string value)
| VArray (l : list value).

(** A preprocessed line; [indentLevel] is the field [indent] of the source. *)
Record parsedLine := {
  number : Z;
  indentLevel : Z;
  content : string;
  raw : string;
  blank : bool
}.

Record parsedHeader := {
  hKey : string;
  hLength : Z;
  hDelimiter : Delimiter;
  hFields : list string;
  hInlineValues : string
}.

Definition byte_at (s : string) (i : nat) : Z :=
  match String.get i s with
  | Some c => byteZ c
  | None => 0
  end.

Fixpoint indexOutsideQuotes_loop (rs : list (Z * rune)) (target : rune)
    (inQuotes escaped : bool) : Z :=
  match rs with
  | [] => -1
  | (idx, r) :: t =>
    if escaped then indexOutsideQuotes_loop t target inQuotes false
    else if (r =? 0x5C) && inQuotes then indexOutsideQuotes_loop t target inQuotes true
    else if r =? 0x22 then indexOutsideQuotes_loop t target (negb inQuotes) escaped
    else if negb inQuotes && (r =? target) then idx
    else indexOutsideQuotes_loop t target inQuotes escaped
  end.

Definition indexOutsideQuotes (s : string) (target : rune) : Z :=
  indexOutsideQuotes_loop (utf8.range s) target false false.

Definition isKeyValue (content : string) : bool :=
  0 <? indexOutsideQuotes content 0x3A.

Definition splitLines (input : string) : list string :=
  let input := gostrings.ReplaceCRLF input in
  let lines := gostrings.SplitByte input "010" in
  (* Drop trailing empty line caused by final newline. *)
  match List.last lines "x" with
  | EmptyString => removelast lines
  | _ => lines
  end.

Section Decoder.
Context {tables : unicode.Tables}.

Definition hasForbiddenLeadingZeros (token : string) : bool :=
  if len token <? 2 then false
  else if negb (byte_at token 0 =? 0x30)
          && ((len token <=? 1) || negb (byte_at token 0 =? 0x2D)
              || negb (byte_at token 1 =? 0x30))
  then false
  (* tokens like -0.x are legitimate numbers. *)
  else if gostrings.Contains token "." || gostrings.ContainsAny token "eE" then false
  else if byte_at token 0 =? 0x2D then
    (2 <? len token) && (byte_at token 1 =? 0x30) && unicode.IsDigit (byte_at token 2)
  else unicode.IsDigit (byte_at token 1).

Definition decodePrimitiveToken (token : string) : result message value :=
  if String.eqb token "" then Ok (VString "")
  else if byte_at token 0 =? 0x22 then
    let* s := parsepkg.UnquoteString token in Ok (VString s)
  else if String.eqb token "true" then Ok (VBool true)
  else if String.eqb token "false" then Ok (VBool false)
  else if String.eqb token "null" then Ok VNil
  else if hasForbiddenLeadingZeros token then Ok (VString token)
  else if formatpkg.LooksNumeric token then
    match ParseFloat token with
    | Err e => Err (NumErrorOf "ParseFloat" token e)
    | Ok num =>
      let num := if is_zero num then zero else num in
      Ok (VNumber num)
    end
  else Ok (VString token).

Definition decodeKeyToken (token : string) : result message string :=
  if String.eqb token "" then Err EmptyKey
  else if byte_at token 0 =? 0x22 then parsepkg.UnquoteString token
  else if negb (formatpkg.IsValidUnquotedKey token) then Err (InvalidUnquotedKey token)
  else Ok token.

Definition splitKeyValue (content : string) : result message (string * string) :=
  let colon := indexOutsideQuotes content 0x3A in
  if colon =? -1 then Err MissingColon
  else
    let keyToken := gostrings.TrimSpace (slice_to content colon) in
    let valueToken := gostrings.TrimSpace (slice_from content (colon + 1)) in
    let* key := decodeKeyToken keyToken in
    Ok (key, valueToken).

(** The rune loop of [parseBracketSegment]: the digits seen and the
    delimiter declared. *)
Fixpoint bracket_loop (rs : list rune) (digits : string) (delim : Delimiter)
  : result message (string * Delimiter) :=
  match rs with
  | [] => Ok (digits, delim)
  | r :: t =>
    if unicode.IsDigit r then bracket_loop t (digits ++ utf8.EncodeRune r) delim
    else if r =? 0x09 then bracket_loop t digits DelimiterTab
    else if r =? 0x7C then bracket_loop t digits DelimiterPipe
    else Err (InvalidDelimiterSymbol r)
  end.

Definition parseBracketSegment (segment : string) : result message (Z * Delimiter) :=
  let segment := if gostrings.HasPrefix segment "#" then slice_from segment 1
                 else segment in
  if String.eqb segment "" then Err MissingArrayLength
  else
    let* (lengthStr, delim) :=
      bracket_loop (map snd (utf8.range segment)) "" DelimiterComma in
    if String.eqb lengthStr "" then Err MissingDigits
    else
      match Atoi lengthStr with
      | Err e => Err (NumErrorOf "Atoi" lengthStr e)
      | Ok length => Ok (length, delim)
      end.

(** [tryParseHeader]: [Ok None] when the line is not a header, [Ok (Some h)]
    when it is, and an error when it is a malformed header. *)
Definition tryParseHeader (content : string) : result message (option parsedHeader) :=
  let colon := indexOutsideQuotes content 0x3A in
  if colon =? -1 then Ok None
  else
    let left := gostrings.TrimSpace (slice_to content colon) in
    let right := gostrings.TrimSpace (slice_from content (colon + 1)) in
    if String.eqb left "" then Ok None
    else
      let bracketStart := indexOutsideQuotes left 0x5B in
      if bracketStart =? -1 then Ok None
      else
        let rest := slice_from left (bracketStart + 1) in
        let bracketOffset := indexOutsideQuotes rest 0x5D in
        if bracketOffset =? -1 then Err MissingClosingBracket
        else
          let keyPart := gostrings.TrimSpace (slice_to left bracketStart) in
          let bracketSegment := slice_to rest bracketOffset in
          let fieldSegment := gostrings.TrimSpace (slice_from rest (bracketOffset + 1)) in
          let* key := if negb (String.eqb keyPart "") then decodeKeyToken keyPart
                      else Ok "" in
          let* (length, delim) := parseBracketSegment bracketSegment in
          let* fields :=
            if negb (String.eqb fieldSegment "") then
              if negb (gostrings.HasPrefix fieldSegment "{")
                 || negb (gostrings.HasSuffix fieldSegment "}")
              then Err InvalidFieldSegment
              else
                let inner := slice_to (slice_from fieldSegment 1)
                                      (len fieldSegment - 2) in
                if negb (String.eqb inner "") then
                  let* rawFields :=
                    parsepkg.SplitInlineValues inner (Delimiter_rune delim) in
                  mapM decodeKeyToken rawFields
                else Ok []
            else Ok [] in
          Ok (Some {| hKey := key; hLength := length; hDelimiter := delim;
                      hFields := fields; hInlineValues := right |})
.

(** The field loop of a tabular row: the i-th header field gets the i-th
    token, for as long as there are both. *)
Fixpoint tabularRowObject (fields raw : list string) (row : gmap string value)
  : result message (gmap string value) :=
  match fields, raw with
  | field :: fields', token :: raw' =>
    let* value := decodePrimitiveToken token in
    tabularRowObject fields' raw' (<[field := value]> row)
  | _, _ => Ok row
  end.

Variable cfg : decoderOptions.

Fixpoint computeIndent_loop (line : string) (indent : Z) : result message (Z * string) :=
  match line with
  | EmptyString =>
    (* Entire line whitespace. *)
    Ok (0, "")
  | String c t =>
    if Ascii.eqb c " " then computeIndent_loop t (indent + 1)
    else if Ascii.eqb c "009" then
      if strict cfg then Err TabsInIndentation
      else computeIndent_loop t (indent + 1)
    else
      if strict cfg && negb (Z.rem indent (d_indentSize cfg) =? 0)
      then Err (IndentationNotMultiple (d_indentSize cfg))
      else Ok (Z.quot indent (d_indentSize cfg), line)
  end.

Definition computeIndent (line : string) : result message (Z * string) :=
  computeIndent_loop line 0.

Definition errorAt {A} (line : Z) (msg : message) : outcome A :=
  Failed (parseError line msg).

Definition errorWrap {A} (line : Z) (r : result message A) : outcome A :=
  match r with
  | Ok a => Done a
  | Err msg => Failed (parseError line msg)
  end.

Definition obind {A B} (m : outcome A) (k : A -> outcome B) : outcome B :=
  match m with
  | Done a => k a
  | Failed e => Failed e
  | OutOfFuel => OutOfFuel
  end.

Notation "'let!' x ':=' m 'in' k" := (obind m (fun x => k))
  (at level 10, x pattern, m at level 100, k at level 200).

Fixpoint newParser_lines (rawLines : list string) (idx : Z)
  : outcome (list parsedLine) :=
  match rawLines with
  | [] => Done []
  | raw :: t =>
    if String.eqb raw "" then
      let! rest := newParser_lines t (idx + 1) in
      Done ({| number := idx + 1; indentLevel := 0; content := ""; raw := "";
               blank := true |} :: rest)
    else
      let! (indent, content) := errorWrap (idx + 1) (computeIndent raw) in
      let! rest := newParser_lines t (idx + 1) in
      Done ({| number := idx + 1; indentLevel := indent; content := content;
               raw := raw;
               blank := String.eqb (gostrings.TrimSpace content) "" |} :: rest)
  end.

(** [newParser]: the preprocessed lines of the parser ([pos] starts at 0). *)
Definition newParser (input : string) : outcome (list parsedLine) :=
  newParser_lines (splitLines input) 0.

Variable lines : list parsedLine.

Definition no_line : parsedLine :=
  {| number := 0; indentLevel := 0; content := ""; raw := ""; blank := true |}.

(** [p.lines[i]]; the source only indexes within bounds. *)
Definition line_at (i : nat) : parsedLine := nth i lines no_line.
Definition current (pos : nat) : parsedLine := line_at pos.

Fixpoint skipBlank (rest : list parsedLine) (pos : nat) : nat :=
  match rest with
  | l :: t => if blank l then skipBlank t (S pos) else pos
  | [] => pos
  end.

Definition skipBlankLinesOutsideArrays (pos : nat) : nat :=
  skipBlank (drop pos lines) pos.

Definition countRemainingNonBlank (pos : nat) : Z :=
  Z.of_nat (length (filter (fun l => negb (blank l)) (drop pos lines))).

Definition nextNonBlankIndent (from : nat) : option Z :=
  match find (fun l => negb (blank l)) (drop (S from) lines) with
  | Some l => Some (indentLevel l)
  | None => None
  end.

(** What a strict-mode loop does on a blank line: [None] to break out of the
    loop, [Some msg] to fail. *)
Definition blank_in_strict (pos : nat) (limit : Z) (msg : message) : option message :=
  match nextNonBlankIndent pos with
  | None => None
  | Some nextIndent => if nextIndent <=? limit then None else Some msg
  end.

(** The row loop of [parseArray] for a header with fields.

    The rows and the list items are collected in slices that the source
    creates with [make([]any, 0, header.length)].  The capacity is not
    modelled: the model has no memory to run out of, so a declared length that
    the Go runtime cannot reserve (it panics, or stops the program, before a
    row is read) is read here like any other length. *)
Fixpoint parseArray_tabular (fuel : nat) (header : parsedHeader) (depth : Z)
    (rows : list value) (pos : nat) {struct fuel} : outcome (value * nat) :=
  match fuel with
  | O => OutOfFuel
  | S fuel =>
    let finish : outcome (value * nat) :=
      if strict cfg && negb (Z.of_nat (length rows) =? hLength header)
      then errorAt (number (line_at (pos - 1))) (TabularLengthMismatch (hLength header))
      else Done (VArray rows, pos) in
    if (length lines <=? pos)%nat then finish
    else
      let line := current pos in
      if blank line then
        if strict cfg then
          match blank_in_strict pos depth BlankInsideTabular with
          | None => finish
          | Some msg => errorAt (number line) msg
          end
        else parseArray_tabular fuel header depth rows (S pos)
      else if indentLevel line <=? depth then finish
      else if negb (indentLevel line =? depth + 1)
      then errorAt (number line) InvalidIndentationTabularRow
      else
        let trimmed := gostrings.TrimSpace (content line) in
        if negb (indexOutsideQuotes trimmed 0x3A =? -1) then finish
        else
          let! raw := errorWrap (number line)
                        (parsepkg.SplitInlineValues trimmed
                           (Delimiter_rune (hDelimiter header))) in
          if strict cfg && negb (length raw =? length (hFields header))%nat
          then errorAt (number line) RowWidthMismatch
          else
            let! row := errorWrap (number line)
                          (tabularRowObject (hFields header) raw ∅) in
            let rows := (rows ++ [VObject row])%list in
            if strict cfg && (hLength header <? Z.of_nat (length rows))
            then errorAt (number line) (TooManyRows (hLength header))
            else parseArray_tabular fuel header depth rows (S pos)
  end.

Fixpoint parseObject_loop (fuel : nat) (depth : Z) (result : gmap string value)
    (pos : nat) {struct fuel} : outcome (gmap string value * nat) :=
  match fuel with
  | O => OutOfFuel
  | S fuel =>
    if (length lines <=? pos)%nat then Done (result, pos)
    else
      let line := current pos in
      if blank line then parseObject_loop fuel depth result (S pos)
      else if indentLevel line <? depth then Done (result, pos)
      else if depth <? indentLevel line
      then errorAt (number line) UnexpectedIndentation
      else
        let! hdr := errorWrap (number line) (tryParseHeader (content line)) in
        match hdr with
        | Some header =>
          if String.eqb (hKey header) ""
          then errorAt (number line) ArraysMustHaveKey
          else
            let! (value, pos') := parseArray fuel header depth (S pos) in
            parseObject_loop fuel depth (<[hKey header := value]> result) pos'
        | None =>
          let! (key, rest) := errorWrap (number line) (splitKeyValue (content line)) in
          if String.eqb rest "" then
            let! (nextValue, pos') := parseObject_loop fuel (depth + 1) ∅ (S pos) in
            parseObject_loop fuel depth (<[key := VObject nextValue]> result) pos'
          else
            let! value := errorWrap (number line) (decodePrimitiveToken rest) in
            parseObject_loop fuel depth (<[key := value]> result) (S pos)
        end
  end

with parseArray (fuel : nat) (header : parsedHeader) (depth : Z) (pos : nat)
    {struct fuel} : outcome (value * nat) :=
  match fuel with
  | O => OutOfFuel
  | S fuel =>
    let delimiter := Delimiter_rune (hDelimiter header) in
    if 0 <? len (hInlineValues header) then
      let previous := number (line_at (pos - 1)) in
      let! raw := errorWrap previous
                    (parsepkg.SplitInlineValues (hInlineValues header) delimiter) in
      let! values := errorWrap previous (mapM decodePrimitiveToken raw) in
      if strict cfg && negb (Z.of_nat (length values) =? hLength header)
      then errorAt previous
             (InlineLengthMismatch (hLength header) (Z.of_nat (length values)))
      else Done (VArray values, pos)
    else if (0 <? length (hFields header))%nat
    then parseArray_tabular fuel header depth [] pos
    else parseArray_list fuel header depth [] pos
  end

with parseArray_list (fuel : nat) (header : parsedHeader) (depth : Z)
    (values : list value) (pos : nat) {struct fuel} : outcome (value * nat) :=
  match fuel with
  | O => OutOfFuel
  | S fuel =>
    let finish : outcome (value * nat) :=
      if strict cfg && negb (Z.of_nat (length values) =? hLength header)
      then errorAt (number (line_at (pos - 1))) (ListLengthMismatch (hLength header))
      else Done (VArray values, pos) in
    if (length lines <=? pos)%nat then finish
    else
      let line := current pos in
      if blank line then
        if strict cfg then
          match blank_in_strict pos depth BlankInsideList with
          | None => finish
          | Some msg => errorAt (number line) msg
          end
        else parseArray_list fuel header depth values (S pos)
      else if indentLevel line <=? depth then finish
      else if negb (indentLevel line =? depth + 1)
      then errorAt (number line) InvalidIndentationListItem
      else if negb (gostrings.HasPrefix (content line) "-") then finish
      else
        let itemContent := gostrings.TrimSpace (slice_from (content line) 1) in
        let pos := S pos in
        if String.eqb itemContent "" then
          parseArray_list fuel header depth (values ++ [VObject ∅])%list pos
        else if gostrings.HasPrefix itemContent "[" then
          let! hdr := errorWrap (number line) (tryParseHeader itemContent) in
          match hdr with
          | None => errorAt (number line) InvalidHeaderInListItem
          | Some itemHeader =>
            let! (itemValue, pos') := parseArray fuel itemHeader (depth + 1) pos in
            parseArray_list fuel header depth (values ++ [itemValue])%list pos'
          end
        else
          let! hdr := errorWrap (number line) (tryParseHeader itemContent) in
          match hdr with
          | Some header' =>
            if String.eqb (hKey header') ""
            then errorAt (number line) ArraysMustHaveKey
            else
              let! (arrayValue, pos') := parseArray fuel header' (depth + 1) pos in
              let obj : gmap string value := {[ hKey header' := arrayValue ]} in
              let! (obj, pos'') := collectObjectListSiblings fuel obj depth pos' in
              parseArray_list fuel header depth (values ++ [VObject obj])%list pos''
          | None =>
            if isKeyValue itemContent then
              let! (key, rest) := errorWrap (number line) (splitKeyValue itemContent) in
              if String.eqb rest "" then
                let! (obj, pos') := parseObject_loop fuel (depth + 3) ∅ pos in
                parseArray_list fuel header depth
                  (values ++ [VObject {[ key := VObject obj ]}])%list pos'
              else
                let! val := errorWrap (number line) (decodePrimitiveToken rest) in
                let obj : gmap string value := {[ key := val ]} in
                let! (obj, pos') := collectObjectListSiblings fuel obj depth pos in
                parseArray_list fuel header depth (values ++ [VObject obj])%list pos'
            else
              let! value := errorWrap (number line) (decodePrimitiveToken itemContent) in
              parseArray_list fuel header depth (values ++ [value])%list pos
          end
  end

with collectObjectListSiblings (fuel : nat) (obj : gmap string value) (depth : Z)
    (pos : nat) {struct fuel} : outcome (gmap string value * nat) :=
  match fuel with
  | O => OutOfFuel
  | S fuel =>
    if (length lines <=? pos)%nat then Done (obj, pos)
    else
      let next := current pos in
      if blank next then
        if strict cfg then
          match blank_in_strict pos (depth + 1) BlankInsideObjectListItem with
          | None => Done (obj, pos)
          | Some msg => errorAt (number next) msg
          end
        else collectObjectListSiblings fuel obj depth (S pos)
      else if indentLevel next <=? depth + 1 then Done (obj, pos)
      else if negb (indentLevel next =? depth + 2)
      then errorAt (number next) InvalidIndentationSibling
      else
        let! hdr := errorWrap (number next) (tryParseHeader (content next)) in
        match hdr with
        | Some header =>
          let! (value, pos') := parseArray fuel header (depth + 1) (S pos) in
          if String.eqb (hKey header) ""
          then errorAt (number next) ArraysMustHaveKey
          else collectObjectListSiblings fuel (<[hKey header := value]> obj) depth pos'
        | None =>
          let! (key, rest) := errorWrap (number next) (splitKeyValue (content next)) in
          if String.eqb rest "" then
            let! (nested, pos') := parseObject_loop fuel (depth + 3) ∅ (S pos) in
            collectObjectListSiblings fuel (<[key := VObject nested]> obj) depth pos'
          else
            let! value := errorWrap (number next) (decodePrimitiveToken rest) in
            collectObjectListSiblings fuel (<[key := value]> obj) depth (S pos)
        end
  end.

(** [parseObject] starts its loop with an empty map. *)
Definition parseObject (fuel : nat) (depth : Z) (pos : nat)
  : outcome (gmap string value * nat) :=
  parseObject_loop fuel depth ∅ pos.

Definition parseDocument (fuel : nat) : outcome value :=
  let pos := skipBlankLinesOutsideArrays 0 in
  if (length lines <=? pos)%nat then Done (VObject ∅)
  else
    let nonBlank := countRemainingNonBlank pos in
    let first := current pos in
    let! hdr := errorWrap (number first) (tryParseHeader (content first)) in
    let ok := match hdr with Some _ => true | None => false end in
    if (nonBlank =? 1) && negb ok && negb (isKeyValue (content first)) then
      let token := gostrings.TrimSpace (content first) in
      let! value := errorWrap (number first) (decodePrimitiveToken token) in
      Done value
    else
      match hdr with
      | Some header =>
        if (indentLevel first =? 0) && String.eqb (hKey header) "" then
          let! (v, _) := parseArray fuel header 0 (S pos) in Done v
        else
          let! (m, _) := parseObject fuel 0 pos in Done (VObject m)
      | None =>
        let! (m, _) := parseObject fuel 0 pos in Done (VObject m)
      end.

End Decoder.

(** Every loop iteration that goes on, and every call, comes after a line
    was consumed: twice the number of lines, and a little, is fuel enough. *)
Definition decode_fuel (lines : list parsedLine) : nat := (2 * length lines + 4)%nat.

(** [Decode] parses the provided TOON document. *)
Definition Decode {tables : unicode.Tables} (cfg : decoderOptions) (data : string)
  : outcome value :=
  match newParser cfg data with
  | Done lines => parseDocument cfg lines (decode_fuel lines)
  | Failed e => Failed e
  | OutOfFuel => OutOfFuel
  end.

End codec.

(** ** Definitions used by the statements *)

Import strconv codec.
#[local] Set Warnings "-clear-no-such-hyp".

(** Tables with no letters or digits above Latin-1, and a clock whose times
    carry their own rendering: the instances the closed examples run with.
    The examples are ASCII, so the tables are never consulted. *)
Definition latin1_tables : unicode.Tables :=
  {| unicode.Letter := fun _ => false; unicode.Digit := fun _ => false |}.

Definition text_clock : gotime.Clock :=
  {| gotime.Time := string; gotime.FormatRFC3339NanoUTC := fun t => t |}.

Definition LF : string := String "010"%char EmptyString.
Definition TAB : string := String "009"%char EmptyString.

(** A text made of spaces and line feeds only. *)
Fixpoint spaces_and_newlines (s : string) : bool :=
  match s with
  | EmptyString => true
  | String c t => (Ascii.eqb c " " || Ascii.eqb c "010") && spaces_and_newlines t
  end.

Fixpoint only_spaces (s : string) : bool :=
  match s with
  | EmptyString => true
  | String c t => Ascii.eqb c " " && only_spaces t
  end.

(** Builders for the values of the examples. *)
Definition field {V} (k : string) (v : V) : Field V := {| Key := k; Value := v |}.
Definition object (l : list (Field (@any text_clock))) : @any text_clock :=
  AnyObject {| Fields := l |}.
Definition nobject (l : list (Field normalizedValue)) : normalizedValue :=
  NObject {| Fields := l |}.
Definition vobject (l : list (string * value)) : value := VObject (list_to_map l).
Definition vnumber (z : Z) : value := VNumber (of_Z z).

(** A struct field without [omitempty], and a document given by its lines. *)
Definition struct_field {clock : gotime.Clock} (name : string) (v : any)
  : string * bool * bool * any := (name, false, false, v).
Definition document (lines : list string) : string := gostrings.Join lines LF.



(** The row a header's fields and the decoded tokens make: a later field
    overwrites an earlier one of the same name. *)
Definition row_of (fields : list string) (values : list value)
    (row : gmap string value) : gmap string value :=
  fold_left (fun m kv => <[fst kv := snd kv]> m) (zip fields values) row.


Definition terminates (e : Enc) : Prop := forall lines, e lines <> OutOfFuel.

(** A parser step from [pos] that has fuel enough and does not move back. *)
Definition advances {A} (pos : nat) (r : outcome (A * nat)) : Prop :=
  r <> OutOfFuel /\ forall a pos', r = Done (a, pos') -> (pos <= pos')%nat.

(** Printable ASCII other than the space. *)
Definition visible (c : ascii) : bool := (0x21 <=? byteZ c) && (byteZ c <=? 0x7E).

Definition all_bytes (p : ascii -> bool) (s : string) : bool :=
  forallb p (list_ascii_of_string s).

(** The errors of [UnquoteString], and those of the tokens of an inline
    list. *)
Definition unquote_error (m : message) : bool :=
  match m with
  | InvalidQuotedString | InvalidEscapeSequence _ | UnterminatedEscapeSequence => true
  | _ => false
  end.

Definition token_error (m : message) : bool :=
  unquote_error m || match m with NumErrorOf _ _ _ => true | _ => false end.

(** *** For the further properties *)

(** The string Go's [range] loop and [WriteRune] make of [s]: every rune
    decoded and written back, an invalid byte as U+FFFD. *)
Definition runes_written (s : string) : string :=
  String.concat "" (map (fun p : Z * rune => utf8.EncodeRune (snd p)) (utf8.range s)).

(** Well-formed UTF-8: writing the runes back gives the string. *)
Definition well_formed (s : string) : Prop := runes_written s = s.

Definition not_backslash (c : ascii) : bool := negb (byteZ c =? 0x5C).
Definition high_byte (c : ascii) : bool := 0x80 <=? byteZ c.

(** A control character the format has no escape for. *)
Definition control (r : rune) : bool :=
  (r <? 0x20) && negb (r =? 0x0A) && negb (r =? 0x0D) && negb (r =? 0x09).

(** The first such rune of a string. *)
Definition first_control (s : string) : option rune :=
  option_map snd (find (fun p : Z * rune => control (snd p)) (utf8.range s)).

(** An encoder step that can only fail on a control character. *)
Definition control_error (e : error) : Prop :=
  exists r, control r = true /\ e = New (UnsupportedControlCharacter r).

Definition fails_on_control (e : Enc) : Prop :=
  forall lines err, e lines = Failed err -> control_error err.

(** The message at the root of a wrapped error. *)
Fixpoint root_message (e : error) : message :=
  match e with
  | New m => m
  | parseError _ m => m
  | FieldError _ e' => root_message e'
  end.

Definition unsupported_kind (e : error) : Prop :=
  root_message e = UnsupportedMapKeyType \/ root_message e = UnsupportedValueType.

(** A parse error that names a line of a document of [n] lines. *)
Definition line_error (n : nat) (e : error) : Prop :=
  exists line msg, e = parseError line msg /\ 1 <= line <= Z.of_nat n.

(** The lines are numbered from one, as [newParser] numbers them. *)
Definition numbered (lines : list parsedLine) : Prop :=
  forall i, (i < length lines)%nat -> number (line_at lines i) = Z.of_nat i + 1.

(** A parser step from [pos] whose errors name a line of the document and
    whose position stays within it. *)
Definition ranged {A} (lines : list parsedLine) (pos : nat) (r : outcome (A * nat))
  : Prop :=
  (forall e, r = Failed e -> line_error (length lines) e)
  /\ (forall a pos', r = Done (a, pos') -> (pos <= pos' <= length lines)%nat).

(** A step of [parseArray] that, when it succeeds, returns an array of
    elements with the property [P], of the declared length in strict mode. *)
Definition array_result (cfg : decoderOptions) (header : parsedHeader)
    (P : value -> Prop) (r : outcome (value * nat)) : Prop :=
  forall v pos', r = Done (v, pos') ->
    exists l, v = VArray l /\ Forall P l
              /\ (strict cfg = true -> Z.of_nat (length l) = hLength header).

(** Decoded scalars, and the rows of a table with the given fields. *)
Definition scalar (v : value) : Prop :=
  match v with
  | VObject _ | VArray _ => False
  | _ => True
  end.

Definition table_row (cfg : decoderOptions) (fields : list string) (v : value) : Prop :=
  exists m : gmap string value,
    v = VObject m
    /\ dom m ⊆ (list_to_set fields : gset string)
    /\ (strict cfg = true -> dom m = (list_to_set fields : gset string)).

(** A line: no line feed and no carriage return in it. *)
Definition line_byte (c : ascii) : bool := negb (byteZ c =? 0x0A) && negb (byteZ c =? 0x0D).
Definition CRLF : string := String "013" (String "010" EmptyString).

(** The bytes of [s] from the offset [idx] on, each as if it were a rune. *)
Fixpoint bytes_from (s : string) (idx : Z) : list (Z * rune) :=
  match s with
  | EmptyString => []
  | String c t => (idx, byteZ c) :: bytes_from t (idx + 1)
  end.

(** Text of ASCII bytes only. *)
Definition ascii_text (s : string) : bool := all_bytes (fun c => byteZ c <? 0x80) s.

(** A text the search for [target] outside quotes passes over, to go on
    behind it as it began. *)
Definition skipped (target : rune) (s : string) : Prop :=
  forall idx l,
    indexOutsideQuotes_loop (bytes_from s idx ++ l) target false false
    = indexOutsideQuotes_loop l target false false.

(** The bytes of a key written without quotes, and of a string written
    without quotes. *)
Definition bare_key_byte (c : ascii) : bool :=
  visible c && negb (byteZ c =? 0x22) && negb (byteZ c =? 0x3A)
  && negb (byteZ c =? 0x5B).

Definition bare_byte (c : ascii) : bool :=
  negb (byteZ c =? 0x22) && negb (byteZ c =? 0x3A) && line_byte c.

(** What the parser needs of the literal [K] of the key [k]. *)
Definition key_literal {tables : unicode.Tables} (k K : string) : Prop :=
  (exists c t, K = String c t /\ visible c = true)
  /\ gostrings.TrimSpace K = K
  /\ decodeKeyToken K = Ok k
  /\ skipped 0x3A K
  /\ skipped 0x5B K
  /\ all_bytes line_byte K = true.

(** What the parser needs of the token [T] of the value [v]. *)
Definition value_token {tables : unicode.Tables} (T : string) (v : value) : Prop :=
  T <> ""
  /\ gostrings.TrimSpace T = T
  /\ decodePrimitiveToken T = Ok v
  /\ skipped 0x3A T
  /\ all_bytes line_byte T = true.

(** The bytes that declare a delimiter in a bracket segment, and the bytes of
    a bracket segment behind its marker. *)
Definition delimiter_byte (c : ascii) : bool := (byteZ c =? 0x09) || (byteZ c =? 0x7C).

Definition length_byte (c : ascii) : bool := is_digit (byteZ c) || delimiter_byte c.

(** The errors of a key token. *)
Definition key_error (m : message) : bool :=
  unquote_error m || match m with EmptyKey | InvalidUnquotedKey _ => true | _ => false end.

(** The errors of the field segment of a header. *)
Definition field_error (m : message) : bool :=
  key_error m
  || match m with InvalidFieldSegment | UnterminatedString => true | _ => false end.

(** The errors of a bracket segment. *)
Definition bracket_error (m : message) : bool :=
  match m with
  | MissingArrayLength | InvalidDelimiterSymbol _ | MissingDigits | NumErrorOf _ _ _ => true
  | _ => false
  end.

(** The field segment of a header, as [tryParseHeader] reads it. *)
Definition headerFields {tables : unicode.Tables} (fieldSegment : string)
    (delim : Delimiter) : result message (list string) :=
  if negb (String.eqb fieldSegment "") then
    if negb (gostrings.HasPrefix fieldSegment "{")
       || negb (gostrings.HasSuffix fieldSegment "}")
    then Err InvalidFieldSegment
    else
      let inner := slice_to (slice_from fieldSegment 1) (len fieldSegment - 2) in
      if negb (String.eqb inner "") then
        let* rawFields := parsepkg.SplitInlineValues inner (Delimiter_rune delim) in
        mapM decodeKeyToken rawFields
      else Ok []
  else Ok [].

(** The number the decimal digits [u] stand for, read from the left after
    the number [acc]. *)
Fixpoint digits_after (u : Decimal.uint) (acc : Z) : Z :=
  match u with
  | Decimal.Nil => acc
  | Decimal.D0 l => digits_after l (acc * 10 + 0)
  | Decimal.D1 l => digits_after l (acc * 10 + 1)
  | Decimal.D2 l => digits_after l (acc * 10 + 2)
  | Decimal.D3 l => digits_after l (acc * 10 + 3)
  | Decimal.D4 l => digits_after l (acc * 10 + 4)
  | Decimal.D5 l => digits_after l (acc * 10 + 5)
  | Decimal.D6 l => digits_after l (acc * 10 + 6)
  | Decimal.D7 l => digits_after l (acc * 10 + 7)
  | Decimal.D8 l => digits_after l (acc * 10 + 8)
  | Decimal.D9 l => digits_after l (acc * 10 + 9)
  end.

(** Digits that start with a digit other than zero. *)
Definition leading (u : Decimal.uint) : Prop :=
  match u with
  | Decimal.Nil | Decimal.D0 _ => False
  | _ => True
  end.

(** Values made of strings, integers, booleans, null and objects of such
    values. *)
Inductive tree :=
| TNull
| TBool (b : bool)
| TInt (i : Z)
| TString (s : string)
| TObject (o : Object tree).

(** The Go value of a tree, its normalized form, and the value [Decode]
    makes of it: an integer is a number when it is a safe integer and the
    string of its digits when it is not, and the last of the fields with one
    key is the one kept. *)
Fixpoint host {clock : gotime.Clock} (t : tree) : any :=
  match t with
  | TNull => AnyNil
  | TBool b => AnyBool b
  | TInt i => AnyInt i
  | TString s => AnyString s
  | TObject o =>
    AnyObject {| Fields := map (fun f => {| Key := Key f; Value := host (Value f) |})
                               (Fields o) |}
  end.

Fixpoint norm (t : tree) : normalizedValue :=
  match t with
  | TNull => NNil
  | TBool b => NBool b
  | TInt i => normalizeInt i
  | TString s => NString s
  | TObject o =>
    NObject {| Fields := map (fun f => {| Key := Key f; Value := norm (Value f) |})
                             (Fields o) |}
  end.

Fixpoint decoded (t : tree) : value :=
  match t with
  | TNull => VNil
  | TBool b => VBool b
  | TInt i =>
    if (maxSafeInteger <? i) || (i <? - maxSafeInteger)
    then VString (FormatInt i) else VNumber (of_Z i)
  | TString s => VString s
  | TObject o =>
    VObject (fold_left (fun m f => <[Key f := decoded (Value f)]> m) (Fields o) ∅)
  end.

(** Keys of ASCII text and strings of valid UTF-8. *)
Fixpoint sound (t : tree) : bool :=
  match t with
  | TNull | TBool _ | TInt _ => true
  | TString s => String.eqb (runes_written s) s
  | TObject o => forallb (fun f => ascii_text (Key f) && sound (Value f)) (Fields o)
  end.

Definition decoded_fields (fs : list (Field tree)) (acc : gmap string value)
  : gmap string value :=
  fold_left (fun m f => <[Key f := decoded (Value f)]> m) fs acc.

(** The lines of an object at depth [d], each with its depth and content. *)
Inductive object_rows {tables : unicode.Tables}
  : Z -> list (Field tree) -> list (Z * string) -> Prop :=
| rows_nil d : object_rows d [] []
| rows_leaf d k v fs K T rows :
    key_literal k K -> value_token T (decoded v) ->
    object_rows d fs rows ->
    object_rows d ({| Key := k; Value := v |} :: fs)
                ((d, K ++ ":" ++ " " ++ T)%string :: rows)
| rows_nested d k o fs K inner rows :
    key_literal k K ->
    object_rows (d + 1) (Fields o) inner ->
    object_rows d fs rows ->
    object_rows d ({| Key := k; Value := TObject o |} :: fs)
                ((d, K ++ ":" ++ "")%string :: inner ++ rows).

(** A parsed line with the depth and the content of a row. *)
Definition shows (l : parsedLine) (r : Z * string) : Prop :=
  indentLevel l = fst r /\ content l = snd r /\ blank l = false.

(** What follows the lines of an object at depth [d]: nothing, or a line
    that is less deep. *)
Definition closes (d : Z) (post : list parsedLine) : Prop :=
  match post with
  | [] => True
  | l :: _ => blank l = false /\ indentLevel l < d
  end.

(** A row the preprocessing of lines reads as it was written. *)
Definition row_ok (r : Z * string) : Prop :=
  0 <= fst r
  /\ (exists c t, snd r = String c t /\ c <> " "%char /\ c <> "009"%char)
  /\ gostrings.TrimSpace (snd r) <> ""
  /\ all_bytes line_byte (snd r) = true.

(** A row as a line of the document. *)
Definition line_of {tables : unicode.Tables} {clock : gotime.Clock}
    (cfg : encoderOptions) (r : Z * string) : string :=
  (indent cfg (fst r) ++ snd r)%string.

(** ** Properties *)

Section Properties.
Context {tables : unicode.Tables} {clock : gotime.Clock}.

(** *** Strings *)

Lemma string_app_assoc (a b c : string) : ((a ++ b) ++ c = a ++ (b ++ c))%string.
Proof.
  induction a as [| x a IH]; [reflexivity |].
  change (String x ((a ++ b) ++ c) = String x (a ++ (b ++ c)))%string.
  now rewrite IH.
Qed.

Lemma string_app_nil_r (p : string) : (p ++ "")%string = p.
Proof.
  induction p as [| c p IH]; [reflexivity |].
  change (String c (p ++ "") = String c p). now rewrite IH.
Qed.

Lemma len_nonneg (s : string) : 0 <= len s.
Proof. unfold len. lia. Qed.

Lemma len_pos (s : string) : s <> "" -> (0 <? len s) = true.
Proof.
  destruct s; [congruence |]. intros _. unfold len. cbn [String.length].
  apply Z.ltb_lt. lia.
Qed.

Lemma all_bytes_cons p c t : all_bytes p (String c t) = p c && all_bytes p t.
Proof. reflexivity. Qed.

Lemma all_bytes_app p a b : all_bytes p (a ++ b)%string = all_bytes p a && all_bytes p b.
Proof.
  induction a as [| c a IH]; [reflexivity |].
  change (all_bytes p (String c (a ++ b)) = all_bytes p (String c a) && all_bytes p b).
  rewrite !all_bytes_cons, IH. now rewrite andb_assoc.
Qed.

Lemma all_bytes_impl (p q : ascii -> bool) (s : string) :
  (forall c, p c = true -> q c = true) -> all_bytes p s = true -> all_bytes q s = true.
Proof.
  intros Hpq. induction s as [| c t IH]; [reflexivity |].
  rewrite !all_bytes_cons. intros H. apply andb_true_iff in H as [Hc Ht].
  now rewrite (Hpq c Hc), IH.
Qed.

Lemma visible_range (c : ascii) :
  visible c = true -> 0x21 <= byteZ c <= 0x7E.
Proof. unfold visible. intros H. apply andb_true_iff in H as [H1 H2]. lia. Qed.

Lemma range_from_ascii (c : ascii) (t : string) (idx : Z) :
  byteZ c < 0x80 ->
  utf8.range_from (String c t) idx 0 = (idx, byteZ c) :: utf8.range_from t (idx + 1) 0.
Proof.
  intros H. cbn. unfold utf8.RuneSelf.
  destruct (Z.ltb_spec (byteZ c) 128); [reflexivity | lia].
Qed.

Lemma DecodeRune_ascii (c : ascii) (t : string) :
  byteZ c < 0x80 -> utf8.DecodeRuneInString (String c t) = (byteZ c, 1%nat).
Proof.
  intros H. cbn. unfold utf8.RuneSelf.
  destruct (Z.ltb_spec (byteZ c) 128); [reflexivity | lia].
Qed.

Lemma IsSpace_visible (b : Z) : 0x21 <= b <= 0x7E -> unicode.IsSpace b = false.
Proof.
  intros H. unfold unicode.IsSpace, unicode.MaxLatin1.
  replace ((0 <=? b) && (b <=? 255)) with true
    by (symmetry; apply andb_true_iff; lia).
  repeat (apply orb_false_iff; split); apply Z.eqb_neq; lia.
Qed.

Lemma TrimLeftSpace_visible (c : ascii) (t : string) :
  visible c = true -> gostrings.TrimLeftSpace (String c t) = String c t.
Proof.
  intros H. apply visible_range in H. unfold gostrings.TrimLeftSpace.
  cbn [String.length gostrings.TrimLeft_fuel].
  rewrite DecodeRune_ascii by lia. rewrite IsSpace_visible by lia.
  now rewrite andb_false_r.
Qed.

Lemma TrimRightSpace_visible (s : string) :
  all_bytes visible s = true -> gostrings.TrimRightSpace s = s.
Proof.
  induction s as [| c t IH]; [reflexivity |].
  rewrite all_bytes_cons. intros H. apply andb_true_iff in H as [Hc Ht].
  cbn [gostrings.TrimRightSpace]. rewrite IH by assumption.
  apply visible_range in Hc. unfold gostrings.is_space_rune.
  rewrite DecodeRune_ascii by lia. rewrite IsSpace_visible by lia.
  now rewrite andb_false_r.
Qed.

Lemma TrimSpace_visible (s : string) :
  all_bytes visible s = true -> gostrings.TrimSpace s = s.
Proof.
  intros H. unfold gostrings.TrimSpace. destruct s as [| c t]; [reflexivity |].
  rewrite TrimLeftSpace_visible; [now apply TrimRightSpace_visible |].
  rewrite all_bytes_cons in H. now apply andb_true_iff in H as [H _].
Qed.

Lemma take_bytes_app (p s : string) : take_bytes (String.length p) (p ++ s) = p.
Proof.
  induction p as [| c p IH]; [now destruct s |].
  change (String c (take_bytes (String.length p) (p ++ s)) = String c p). now rewrite IH.
Qed.

Lemma drop_bytes_app (p s : string) : drop_bytes (String.length p) (p ++ s) = s.
Proof. induction p as [| c p IH]; [reflexivity | exact IH]. Qed.

Lemma slice_to_app (p s : string) : slice_to (p ++ s) (len p) = p.
Proof. unfold slice_to, len. rewrite Nat2Z.id. apply take_bytes_app. Qed.

Lemma slice_from_app_1 (p : string) (c : ascii) (s : string) :
  slice_from (p ++ String c s) (len p + 1) = s.
Proof.
  unfold slice_from, len.
  replace (Z.to_nat (Z.of_nat (String.length p) + 1)) with (S (String.length p)) by lia.
  induction p as [| x p IH]; [reflexivity | exact IH].
Qed.

(** *** Configuration *)

Lemma encoder_option_preserves (opt : EncoderOption) (cfg : encoderOptions) :
  encoder_option opt ->
  1 <= indentSize cfg /\ recognised (documentDelimiter cfg) = true
  /\ recognised (arrayDelimiter cfg) = true ->
  1 <= indentSize (opt cfg) /\ recognised (documentDelimiter (opt cfg)) = true
  /\ recognised (arrayDelimiter (opt cfg)) = true.
Proof.
  intros Hopt (Hi & Hd & Ha).
  destruct Hopt as [spaces | d | d | b | f].
  - unfold WithIndent.
    destruct (0 <? spaces) eqn:E; cbn; [apply Z.ltb_lt in E | auto].
    split; [lia | auto].
  - unfold WithDocumentDelimiter.
    destruct (_ || _) eqn:E; cbn; auto.
  - unfold WithArrayDelimiter.
    destruct (_ || _) eqn:E; cbn; auto.
  - cbn. auto.
  - destruct f; cbn; auto.
Qed.

Lemma decoder_option_preserves (opt : DecoderOption) (cfg : decoderOptions) :
  decoder_option opt ->
  1 <= d_indentSize cfg /\ recognised (documentDelim cfg) = true ->
  1 <= d_indentSize (opt cfg) /\ recognised (documentDelim (opt cfg)) = true.
Proof.
  intros Hopt (Hi & Hd).
  destruct Hopt as [b | spaces | d].
  - cbn. auto.
  - unfold WithDecoderIndent.
    destruct (0 <? spaces) eqn:E; cbn; [apply Z.ltb_lt in E | auto].
    split; [lia | auto].
  - unfold WithDecoderDocumentDelimiter.
    destruct (_ || _) eqn:E; cbn; auto.
Qed.

Lemma fold_options_invariant {C : Type} (P : C -> Prop) (ok : (C -> C) -> Prop)
    (opts : list (C -> C)) (cfg : C) :
  (forall opt c, ok opt -> P c -> P (opt c)) ->
  Forall ok opts -> P cfg -> P (fold_left (fun c opt => opt c) opts cfg).
Proof.
  intros Hstep Hall. revert cfg.
  induction Hall as [| opt opts Hopt _ IH]; intros cfg Hcfg; cbn; [assumption |].
  apply IH. now apply Hstep.
Qed.

(** *** Blank documents *)

Lemma skipBlank_all (rest : list parsedLine) (pos : nat) :
  Forall (fun l => blank l = true) rest -> skipBlank rest pos = (pos + length rest)%nat.
Proof.
  intros H. revert pos. induction H as [| l rest Hl _ IH]; intros pos; cbn.
  - lia.
  - rewrite Hl, IH. lia.
Qed.

Lemma parseDocument_all_blank dcfg (lines : list parsedLine) (fuel : nat) :
  Forall (fun l => blank l = true) lines ->
  parseDocument dcfg lines fuel = Done (VObject ∅).
Proof.
  intros H. unfold parseDocument, skipBlankLinesOutsideArrays.
  rewrite drop_0, skipBlank_all by assumption. cbn.
  now rewrite Nat.leb_refl.
Qed.

Lemma space_or_newline (c : ascii) :
  Ascii.eqb c " " || Ascii.eqb c "010" = true -> c = " "%char \/ c = "010"%char.
Proof.
  intros H. apply orb_true_iff in H as [H | H]; apply Ascii.eqb_eq in H; auto.
Qed.

Lemma ReplaceCRLF_spaces_and_newlines (s : string) :
  spaces_and_newlines s = true -> gostrings.ReplaceCRLF s = s.
Proof.
  induction s as [| c t IH]; cbn; [reflexivity |].
  intros H. apply andb_true_iff in H as [Hc Ht].
  apply space_or_newline in Hc as [-> | ->]; cbn; now rewrite IH.
Qed.

Lemma SplitByte_spaces_and_newlines (s : string) :
  spaces_and_newlines s = true ->
  Forall (fun l => only_spaces l = true) (gostrings.SplitByte s "010").
Proof.
  induction s as [| c t IH]; cbn.
  - intros _. repeat constructor.
  - intros H. apply andb_true_iff in H as [Hc Ht]. specialize (IH Ht).
    apply space_or_newline in Hc as [-> | ->]; cbn.
    + destruct (gostrings.SplitByte t "010") as [| x xs]; [repeat constructor |].
      inversion IH; subst. constructor; [cbn; assumption | assumption].
    + constructor; [reflexivity | assumption].
Qed.

Lemma Forall_removelast {A} (P : A -> Prop) (l : list A) :
  Forall P l -> Forall P (removelast l).
Proof.
  induction 1 as [| x l Hx Hl IH]; cbn; [constructor |].
  destruct l; [constructor | constructor; assumption].
Qed.

Lemma splitLines_spaces_and_newlines (s : string) :
  spaces_and_newlines s = true ->
  Forall (fun l => only_spaces l = true) (splitLines s).
Proof.
  intros H. unfold splitLines. rewrite ReplaceCRLF_spaces_and_newlines by assumption.
  pose proof (SplitByte_spaces_and_newlines s H) as HF.
  destruct (List.last _ _); [now apply Forall_removelast | assumption].
Qed.

Lemma computeIndent_loop_only_spaces dcfg (line : string) (indent : Z) :
  only_spaces line = true -> computeIndent_loop dcfg line indent = Ok (0, "").
Proof.
  revert indent. induction line as [| c t IH]; intros indent; cbn; [reflexivity |].
  intros H. apply andb_true_iff in H as [Hc Ht]. rewrite Hc. now apply IH.
Qed.

Lemma newParser_lines_only_spaces dcfg (rawLines : list string) (idx : Z) :
  Forall (fun l => only_spaces l = true) rawLines ->
  exists lines, newParser_lines dcfg rawLines idx = Done lines
                /\ Forall (fun l => blank l = true) lines.
Proof.
  intros H. revert idx. induction H as [| raw t Hraw _ IH]; intros idx; cbn.
  - exists []. split; [reflexivity | constructor].
  - destruct (IH (idx + 1)) as (rest & Hrest & Hblank).
    destruct (String.eqb raw "") eqn:E.
    + rewrite Hrest. cbn. eexists. split; [reflexivity |].
      constructor; [reflexivity | assumption].
    + unfold computeIndent. rewrite computeIndent_loop_only_spaces by assumption.
      cbn. rewrite Hrest. cbn. eexists. split; [reflexivity |].
      constructor; [reflexivity | assumption].
Qed.

(** *** Inline arrays *)

Lemma mapM_length {E A B} (f : A -> result E B) (l : list A) (l' : list B) :
  mapM f l = Ok l' -> length l' = length l.
Proof.
  revert l'. induction l as [| x t IH]; intros l'; cbn.
  - intros [= <-]. reflexivity.
  - destruct (f x); cbn; [| discriminate].
    destruct (mapM f t) eqn:Ht; cbn; [| discriminate].
    intros [= <-]. cbn. f_equal. now apply IH.
Qed.

Lemma mapM_error {E A B} (f : A -> result E B) (l : list A) (e : E) :
  mapM f l = Err e -> exists x, In x l /\ f x = Err e.
Proof.
  induction l as [| x t IH]; cbn [mapM]; [discriminate |].
  destruct (f x) as [y | e'] eqn:Ex; cbn [bind].
  - destruct (mapM f t) as [ys | e''] eqn:Et; cbn [bind]; [discriminate |].
    intros [= <-]. destruct (IH eq_refl) as (x' & Hin & Hx'). exists x'. split; [now right | exact Hx'].
  - intros [= <-]. exists x. split; [now left | exact Ex].
Qed.

Lemma unquote_loop_error (inner : string) (escaped : bool) (e : message) :
  parsepkg.unquote_loop inner escaped = Err e -> unquote_error e = true.
Proof.
  revert escaped. induction inner as [| ch t IH]; intros escaped; cbn [parsepkg.unquote_loop].
  - destruct escaped; [intros [= <-]; reflexivity | discriminate].
  - assert (Hstep : forall k : string -> string,
               (let* r := parsepkg.unquote_loop t false in Ok (k r)) = Err e ->
               unquote_error e = true).
    { intros k. destruct (parsepkg.unquote_loop t false) eqn:El; cbn [bind];
        [discriminate | intros [= <-]; now apply (IH false)]. }
    destruct escaped.
    + repeat match goal with
             | |- context [if ?c then _ else _] => destruct c
             end; try apply Hstep. intros [= <-]. reflexivity.
    + destruct (byteZ ch =? 0x5C); [apply IH | apply Hstep].
Qed.

Lemma UnquoteString_error (token : string) (e : message) :
  parsepkg.UnquoteString token = Err e -> unquote_error e = true.
Proof.
  unfold parsepkg.UnquoteString. destruct token as [| c0 rest]; [intros [= <-]; reflexivity |].
  destruct (_ || _); [intros [= <-]; reflexivity | apply unquote_loop_error].
Qed.

Lemma decodePrimitiveToken_error (token : string) (e : message) :
  decodePrimitiveToken token = Err e -> token_error e = true.
Proof.
  unfold decodePrimitiveToken.
  repeat match goal with
         | |- context [if ?c then _ else _] => destruct c
         end; try discriminate.
  - destruct (parsepkg.UnquoteString token) eqn:Eu; cbn [bind]; [discriminate |].
    intros [= <-]. apply UnquoteString_error in Eu. unfold token_error. now rewrite Eu.
  - destruct (ParseFloat token); [discriminate | intros [= <-]; reflexivity].
Qed.

Lemma SplitInlineValues_error (segment : string) (delimiter : rune) (e : message) :
  parsepkg.SplitInlineValues segment delimiter = Err e -> e = UnterminatedString.
Proof.
  unfold parsepkg.SplitInlineValues.
  destruct (String.eqb _ ""); [discriminate |].
  destruct (parsepkg.inQuotes _); [now intros [= <-] | discriminate].
Qed.

(** The inline branch of [parseArray]. *)
Lemma parseArray_inline_values dcfg lines fuel header depth pos :
  hInlineValues header <> "" ->
  parseArray dcfg lines (S fuel) header depth pos
  = match parsepkg.SplitInlineValues (hInlineValues header)
            (Delimiter_rune (hDelimiter header)) with
    | Err e => Failed (parseError (number (line_at lines (pos - 1))) e)
    | Ok raw =>
      match mapM decodePrimitiveToken raw with
      | Err e => Failed (parseError (number (line_at lines (pos - 1))) e)
      | Ok values =>
        if strict dcfg && negb (Z.of_nat (length raw) =? hLength header)
        then Failed (parseError (number (line_at lines (pos - 1)))
                       (InlineLengthMismatch (hLength header) (Z.of_nat (length raw))))
        else Done (VArray values, pos)
      end
    end.
Proof.
  intros Hne. cbn [parseArray]. rewrite len_pos by assumption.
  destruct (parsepkg.SplitInlineValues _ _) as [raw | e]; cbn [errorWrap obind]; [| reflexivity].
  destruct (mapM decodePrimitiveToken raw) as [values | e] eqn:Hdec; cbn [errorWrap obind];
    [| reflexivity].
  now rewrite (mapM_length _ _ _ Hdec).
Qed.

(** *** Tabular rows *)

Lemma tabularRowObject_spec (fields raw : list string) (values : list value)
    (row : gmap string value) :
  mapM decodePrimitiveToken (take (length fields) raw) = Ok values ->
  tabularRowObject fields raw row = Ok (row_of fields values row).
Proof.
  revert raw values row.
  induction fields as [| field fields IH]; intros raw values row.
  - cbn. rewrite take_0. cbn. intros [= <-]. reflexivity.
  - destruct raw as [| token raw]; cbn.
    + intros [= <-]. reflexivity.
    + destruct (decodePrimitiveToken token) as [v |]; cbn; [| discriminate].
      destruct (mapM _ _) as [vs |] eqn:E; cbn; [| discriminate].
      intros [= <-]. cbn. unfold row_of in IH. now apply IH.
Qed.

Lemma row_of_dom (fields : list string) (values : list value)
    (row : gmap string value) :
  dom (row_of fields values row)
  = dom row ∪ list_to_set (take (length values) fields).
Proof.
  revert values row. induction fields as [| f fields IH]; intros values row.
  - cbn. rewrite take_nil. cbn. set_solver.
  - destruct values as [| v values]; cbn.
    + set_solver.
    + unfold row_of in *. cbn. rewrite IH. rewrite dom_insert_L. set_solver.
Qed.

Lemma row_of_lookup_other (fields : list string) (values : list value)
    (row : gmap string value) (k : string) :
  k ∉ fields -> row_of fields values row !! k = row !! k.
Proof.
  revert values row. induction fields as [| f fields IH]; intros values row Hk.
  - reflexivity.
  - destruct values as [| v values]; [reflexivity |].
    unfold row_of in *. cbn. rewrite IH by set_solver.
    apply lookup_insert_ne. set_solver.
Qed.

Lemma row_of_lookup (fields : list string) (values : list value)
    (row : gmap string value) (i : nat) (f : string) (v : value) :
  NoDup fields -> fields !! i = Some f -> values !! i = Some v ->
  row_of fields values row !! f = Some v.
Proof.
  revert values row i. induction fields as [| f0 fields IH]; intros values row i Hnd Hf Hv.
  - discriminate.
  - destruct values as [| v0 values]; [destruct i; discriminate |].
    apply NoDup_cons in Hnd as [Hnotin Hnd].
    unfold row_of in *. cbn. destruct i as [| i]; cbn in Hf, Hv.
    + injection Hf as <-. injection Hv as <-.
      fold (row_of fields values (<[f0:=v0]> row)).
      rewrite row_of_lookup_other by assumption. apply lookup_insert_eq.
    + now apply (IH _ _ i).
Qed.

Lemma current_lookup (lines : list parsedLine) (pos : nat) (line : parsedLine) :
  lines !! pos = Some line ->
  current lines pos = line /\ (length lines <=? pos)%nat = false.
Proof.
  intros H. split.
  - unfold current, line_at. rewrite nth_lookup, H. reflexivity.
  - apply Nat.leb_gt. now apply lookup_lt_Some in H.
Qed.

Lemma tabular_step dcfg lines fuel header depth rows pos line raw values :
  strict dcfg = false ->
  lines !! pos = Some line ->
  blank line = false ->
  indentLevel line = depth + 1 ->
  indexOutsideQuotes (gostrings.TrimSpace (content line)) 0x3A = -1 ->
  parsepkg.SplitInlineValues (gostrings.TrimSpace (content line))
    (Delimiter_rune (hDelimiter header)) = Ok raw ->
  mapM decodePrimitiveToken (take (length (hFields header)) raw) = Ok values ->
  parseArray_tabular dcfg lines (S fuel) header depth rows pos
  = parseArray_tabular dcfg lines fuel header depth
      (rows ++ [VObject (row_of (hFields header) values ∅)]) (S pos).
Proof.
  intros Hstrict Hline Hblank Hindent Hcolon Hsplit Hdec.
  apply current_lookup in Hline as [Hcur Hlen].
  cbn [parseArray_tabular]. rewrite Hlen, Hcur, Hblank, Hstrict, Hindent.
  replace (depth + 1 <=? depth) with false by (symmetry; apply Z.leb_gt; lia).
  rewrite Z.eqb_refl. cbn [negb]. rewrite Hcolon. cbn [Z.eqb negb].
  rewrite Hsplit. cbn [errorWrap obind andb].
  rewrite (tabularRowObject_spec _ _ _ _ Hdec). cbn [errorWrap obind]. reflexivity.
Qed.

(** *** Tabular detection *)

Lemma forallb_Permutation {A} (f : A -> bool) (l l' : list A) :
  Permutation l l' -> forallb f l = forallb f l'.
Proof.
  induction 1 as [| x l l' _ IH | x y l | l l' l'' _ IH1 _ IH2]; cbn.
  - reflexivity.
  - now rewrite IH.
  - destruct (f x), (f y); reflexivity.
  - congruence.
Qed.

Lemma forallb_pointwise {A} (f g : A -> bool) (l : list A) :
  (forall x, f x = g x) -> forallb f l = forallb g l.
Proof. intros H. induction l as [| x l IH]; cbn; [reflexivity | now rewrite H, IH]. Qed.

Lemma sameFieldSet_length (fields : list string) (obj : Object normalizedValue) :
  sameFieldSet fields (NObject obj) = true ->
  length (Fields obj) = length fields.
Proof.
  unfold sameFieldSet. intros H.
  apply andb_true_iff in H as [H _]. apply andb_true_iff in H as [H _].
  now apply Nat.eqb_eq in H.
Qed.

Lemma sameFieldSet_wrong_length (fields : list string) (obj : Object normalizedValue) :
  length (Fields obj) <> length fields -> sameFieldSet fields (NObject obj) = false.
Proof.
  intros H. unfold sameFieldSet.
  apply Nat.eqb_neq in H. now rewrite H.
Qed.

Lemma sameFieldSet_Permutation_row (fields : list string)
    (obj obj' : Object normalizedValue) :
  Permutation (Fields obj') (Fields obj) ->
  sameFieldSet fields (NObject obj') = sameFieldSet fields (NObject obj).
Proof.
  intros H. unfold sameFieldSet.
  rewrite (Permutation_length H).
  rewrite (forallb_Permutation _ _ _ H).
  assert (Hk : Permutation (map Key (Fields obj')) (map Key (Fields obj)))
    by now apply Permutation_map.
  now rewrite (list_to_set_perm_L _ _ Hk).
Qed.

Lemma sameFieldSet_Permutation_header (fields fields' : list string)
    (v : normalizedValue) :
  Permutation fields' fields -> sameFieldSet fields' v = sameFieldSet fields v.
Proof.
  intros H. unfold sameFieldSet. destruct v; try reflexivity.
  rewrite (Permutation_length H). now rewrite (list_to_set_perm_L _ _ H).
Qed.

(** What [detectTabular] checks, spelled out. *)
Lemma detectTabular_Some (values : list normalizedValue) (fields : list string) :
  detectTabular values = Some fields <->
  exists first rest,
    values = NObject first :: rest
    /\ Fields first <> []
    /\ forallb (fun field => isPrimitive (Value field)) (Fields first) = true
    /\ fields = map Key (Fields first)
    /\ forallb (sameFieldSet fields) rest = true.
Proof.
  split.
  - destruct values as [| [ | | | | first | ] rest]; cbn; try discriminate.
    unfold IsEmpty. destruct (Fields first) as [| f fs] eqn:Ef; cbn; [discriminate |].
    destruct (isPrimitive (Value f) && forallb _ fs) eqn:Ep; cbn; [| discriminate].
    destruct (forallb (sameFieldSet _) rest) eqn:Er; [| discriminate].
    intros [= <-]. exists first, rest. rewrite Ef. cbn. repeat split; auto.
  - intros (first & rest & -> & Hne & Hp & -> & Hr). cbn.
    unfold IsEmpty. destruct (Fields first) eqn:Ef; [congruence |]. cbn [length Nat.eqb].
    rewrite Hp, Hr. reflexivity.
Qed.

Lemma detectTabular_not_None (values : list normalizedValue) :
  detectTabular values <> None -> exists fields, detectTabular values = Some fields.
Proof. destruct (detectTabular values); [eauto | congruence]. Qed.

Lemma detect_length_change before obj obj' after fields :
  detectTabular (before ++ NObject obj :: after)%list = Some fields ->
  (before ++ after)%list <> [] ->
  length (Fields obj') <> length (Fields obj) ->
  detectTabular (before ++ NObject obj' :: after)%list = None.
Proof.
  intros Htab Hne Hlen.
  apply detectTabular_Some in Htab as (first & rest & Heq & Hfne & Hp & Hf & Hr).
  destruct (detectTabular (before ++ NObject obj' :: after)%list) as [fields' |] eqn:E;
    [exfalso | reflexivity].
  apply detectTabular_Some in E as (first' & rest' & Heq' & _ & _ & Hf' & Hr').
  destruct before as [| b before]; cbn in Heq, Heq'.
  - injection Heq as <- <-. injection Heq' as <- <-.
    destruct after as [| r after]; [now apply Hne |].
    cbn in Hr, Hr'. apply andb_true_iff in Hr as [Hr _].
    apply andb_true_iff in Hr' as [Hr' _].
    destruct r; try discriminate.
    apply sameFieldSet_length in Hr, Hr'. subst fields fields'.
    rewrite !length_map in *. congruence.
  - injection Heq as Hb Hrest. subst b rest.
    injection Heq' as Hb' Hrest'. subst first' rest'.
    rewrite forallb_app in Hr, Hr'. cbn in Hr, Hr'.
    apply andb_true_iff in Hr as [_ Hr]. apply andb_true_iff in Hr as [Hr _].
    apply andb_true_iff in Hr' as [_ Hr']. apply andb_true_iff in Hr' as [Hr' _].
    apply sameFieldSet_length in Hr, Hr'. subst. congruence.
Qed.

Lemma detect_reorder before obj obj' after fields :
  detectTabular (before ++ NObject obj :: after)%list = Some fields ->
  Permutation (Fields obj') (Fields obj) ->
  exists fields',
    detectTabular (before ++ NObject obj' :: after)%list = Some fields'
    /\ Permutation fields' fields
    /\ (before <> [] -> fields' = fields).
Proof.
  intros Htab Hperm.
  apply detectTabular_Some in Htab as (first & rest & Heq & Hfne & Hp & Hf & Hr).
  destruct before as [| b before]; cbn in Heq.
  - injection Heq as <- <-.
    exists (map Key (Fields obj')). split; [| split].
    + apply detectTabular_Some. exists obj', after. repeat split.
      * intros E. rewrite E in Hperm. apply Permutation_nil in Hperm. contradiction.
      * now rewrite (forallb_Permutation _ _ _ Hperm).
      * rewrite <- Hr. apply forallb_pointwise. intros v. apply sameFieldSet_Permutation_header.
        subst fields. now apply Permutation_map.
    + subst fields. now apply Permutation_map.
    + congruence.
  - injection Heq as Hb Hrest. subst b rest.
    exists fields. split; [| split; [reflexivity | reflexivity]].
    apply detectTabular_Some. exists first, (before ++ NObject obj' :: after)%list.
    repeat split; auto.
    rewrite forallb_app in *. cbn [forallb] in *.
    now rewrite (sameFieldSet_Permutation_row _ _ _ Hperm).
Qed.

(** *** The encoder appends lines *)










(** *** The encoder has fuel enough *)

Lemma terminates_emit line : terminates (emit line).
Proof. intros lines. discriminate. Qed.

Lemma terminates_skip : terminates skip.
Proof. intros lines. discriminate. Qed.

Lemma terminates_seq (a b : Enc) : terminates a -> terminates b -> terminates (seq a b).
Proof.
  intros Ha Hb lines. unfold seq. specialize (Ha lines).
  destruct (a lines); [apply Hb | discriminate | congruence].
Qed.

Lemma terminates_try {A} (r : result message A) (k : A -> Enc) :
  (forall a, terminates (k a)) -> terminates (try r k).
Proof. intros Hk lines. unfold try. destruct r; [apply Hk | discriminate]. Qed.

Lemma terminates_forEach {A} (f : A -> Enc) (l : list A) :
  (forall x, In x l -> terminates (f x)) -> terminates (forEach f l).
Proof.
  induction l as [| x l IH]; intros Hf; cbn.
  - apply terminates_skip.
  - apply terminates_seq; [apply Hf; now left | apply IH; intros; apply Hf; now right].
Qed.

Lemma terminates_if (c : bool) (a b : Enc) :
  terminates a -> terminates b -> terminates (if c then a else b).
Proof. destruct c; auto. Qed.

Lemma nesting_item (x : normalizedValue) (vs : list normalizedValue) :
  In x vs -> (nesting x < nesting (NSlice vs))%nat.
Proof.
  cbn. induction vs as [| v vs IH]; cbn; [contradiction |].
  intros [-> | H]; [lia | specialize (IH H); lia].
Qed.

Lemma nesting_field (f : Field normalizedValue) (o : Object normalizedValue) :
  In f (Fields o) -> (nesting (Value f) < nesting (NObject o))%nat.
Proof.
  cbn. induction (Fields o) as [| g fs IH]; cbn; [contradiction |].
  intros [-> | H]; [lia | specialize (IH H); lia].
Qed.

Lemma nesting_rest (first : Field normalizedValue) (rest : list (Field normalizedValue)) :
  (nesting (NObject {| Fields := rest |})
   <= nesting (NObject {| Fields := first :: rest |}))%nat.
Proof. cbn. lia. Qed.

Ltac terminates_step :=
  first [ apply terminates_emit | apply terminates_skip
        | apply terminates_seq | apply terminates_try; intros ?
        | apply terminates_if ].

Lemma encoder_terminates cfg (fuel : nat) :
  (forall obj depth, (3 * nesting (NObject obj) + 1 <= fuel)%nat ->
     terminates (encodeObject cfg fuel obj depth))
  /\ (forall key values depth root, (3 * nesting (NSlice values) + 1 <= fuel)%nat ->
        terminates (encodeArray cfg fuel key values depth root))
  /\ (forall item depth ctx, (3 * nesting item + 3 <= fuel)%nat ->
        terminates (encodeArrayItem cfg fuel item depth ctx))
  /\ (forall item depth ctx, (3 * nesting item + 3 <= fuel)%nat ->
        terminates (encodeListItem cfg fuel item depth ctx))
  /\ (forall obj depth ctx, (3 * nesting (NObject obj) + 2 <= fuel)%nat ->
        terminates (encodeObjectListItem cfg fuel obj depth ctx))
  /\ (forall k values depth ctx, (3 * nesting (NSlice values) + 2 <= fuel)%nat ->
        terminates (encodeArrayForObjectListItem cfg fuel k values depth ctx)).
Proof.
  induction fuel as [| fuel (IHo & IHa & IHai & IHli & IHoli & IHafo)].
  - repeat split; intros; lia.
  - repeat split.
    + intros obj depth Hfuel. cbn [encodeObject]. terminates_step; [terminates_step |].
      apply terminates_forEach. intros field Hin.
      pose proof (nesting_field _ _ Hin) as Hn.
      destruct (Value field) eqn:Ev; repeat terminates_step.
      * apply IHo. lia.
      * apply IHa. lia.
    + intros key values depth root Hfuel. cbn [encodeArray]. terminates_step.
      repeat terminates_step.
      destruct (detectTabular values); repeat terminates_step.
      * apply terminates_forEach. intros row _. repeat terminates_step.
      * apply terminates_forEach. intros item Hin.
        pose proof (nesting_item _ _ Hin) as Hn.
        terminates_step; [apply IHli | apply IHai]; lia.
    + intros item depth ctx Hfuel. cbn [encodeArrayItem].
      destruct item; repeat terminates_step; [apply IHoli | apply IHafo]; lia.
    + intros item depth ctx Hfuel. cbn [encodeListItem].
      destruct item; repeat terminates_step; [apply IHoli | apply IHafo]; lia.
    + intros obj depth ctx Hfuel. cbn [encodeObjectListItem].
      destruct obj as [fields]. cbn [Fields] in *.
      destruct fields as [| first rest]; [terminates_step |].
      pose proof (nesting_rest first rest) as Hrest.
      pose proof (nesting_field first {| Fields := first :: rest |} (or_introl eq_refl))
        as Hfirst.
      assert (Hremaining : terminates
                (if (1 <? length (first :: rest))%nat
                 then encodeObject cfg fuel {| Fields := rest |} (depth + 1)
                 else skip)).
      { terminates_step; [apply IHo; lia | terminates_step]. }
      terminates_step.
      * repeat terminates_step; try assumption; apply IHo; lia.
      * destruct (Value first) eqn:Ev; repeat terminates_step;
          try assumption; try (apply IHo; lia).
        apply IHafo. lia.
    + intros k values depth ctx Hfuel. cbn [encodeArrayForObjectListItem].
      destruct (detectTabular values); repeat terminates_step.
      * apply terminates_forEach. intros row _. repeat terminates_step.
      * apply terminates_forEach. intros item Hin.
        pose proof (nesting_item _ _ Hin) as Hn. apply IHli. lia.
Qed.

Theorem Marshal_terminates cfg (v : any) : Marshal cfg v <> OutOfFuel.
Proof.
  unfold Marshal. destruct (normalize cfg v) as [n |]; [| discriminate].
  destruct (encodeRoot cfg (encode_fuel n) n []) eqn:E; try discriminate.
  exfalso. revert E. unfold encodeRoot, encode_fuel.
  destruct (encoder_terminates cfg (3 * nesting n + 3)) as (Ho & Ha & _).
  destruct n; try (apply terminates_try; intros; apply terminates_emit).
  - apply Ho. lia.
  - apply Ha. lia.
Qed.

(** *** The order of Go strings *)





(** *** Sorting by key *)








(** *** [mapM] over a permuted list *)




(** *** Objects are emitted field by field *)

Lemma encodeObject_fields cfg fuel obj depth :
  encodeObject cfg (S fuel) obj depth
  = if (depth =? 0) && IsEmpty obj then skip
    else forEach (encodeField cfg fuel depth) (Fields obj).
Proof. reflexivity. Qed.







(** *** Where a header without a key may stand *)

Lemma parseObject_unkeyed_header dcfg lines fuel depth result pos line header :
  lines !! pos = Some line ->
  blank line = false ->
  indentLevel line = depth ->
  tryParseHeader (content line) = Ok (Some header) ->
  hKey header = "" ->
  parseObject_loop dcfg lines (S fuel) depth result pos
  = Failed (parseError (number line) ArraysMustHaveKey).
Proof.
  intros Hline Hblank Hindent Hheader Hkey.
  apply current_lookup in Hline as [Hcur Hlen].
  cbn [parseObject_loop]. rewrite Hlen, Hcur, Hblank, Hindent, Z.ltb_irrefl, Hheader.
  cbn [errorWrap obind]. now rewrite Hkey.
Qed.

Lemma parseDocument_unkeyed_header dcfg lines fuel line header :
  lines !! skipBlankLinesOutsideArrays lines 0 = Some line ->
  indentLevel line = 0 ->
  tryParseHeader (content line) = Ok (Some header) ->
  hKey header = "" ->
  parseDocument dcfg lines fuel
  = match parseArray dcfg lines fuel header 0 (S (skipBlankLinesOutsideArrays lines 0)) with
    | Done (v, _) => Done v
    | Failed e => Failed e
    | OutOfFuel => OutOfFuel
    end.
Proof.
  intros Hline Hindent Hheader Hkey.
  apply current_lookup in Hline as [Hcur Hlen].
  unfold parseDocument. rewrite Hlen, Hcur, Hheader. cbn [errorWrap obind negb andb].
  rewrite andb_false_r. cbn [andb]. rewrite Hindent, Hkey. cbn [Z.eqb String.eqb andb].
  unfold obind. destruct (parseArray _ _ _ _ _ _) as [[v p] | |]; reflexivity.
Qed.

Lemma parseArray_list_unkeyed_item dcfg lines fuel header depth values pos line
    itemHeader :
  lines !! pos = Some line ->
  blank line = false ->
  indentLevel line = depth + 1 ->
  gostrings.HasPrefix (content line) "-" = true ->
  gostrings.HasPrefix (gostrings.TrimSpace (slice_from (content line) 1)) "[" = true ->
  tryParseHeader (gostrings.TrimSpace (slice_from (content line) 1))
    = Ok (Some itemHeader) ->
  parseArray_list dcfg lines (S fuel) header depth values pos
  = match parseArray dcfg lines fuel itemHeader (depth + 1) (S pos) with
    | Done (itemValue, pos') =>
      parseArray_list dcfg lines fuel header depth (values ++ [itemValue]) pos'
    | Failed e => Failed e
    | OutOfFuel => OutOfFuel
    end.
Proof.
  intros Hline Hblank Hindent Hdash Hbracket Hheader.
  apply current_lookup in Hline as [Hcur Hlen].
  cbn [parseArray_list]. rewrite Hlen, Hcur, Hblank, Hindent.
  replace (depth + 1 <=? depth) with false by (symmetry; apply Z.leb_gt; lia).
  rewrite Z.eqb_refl, Hdash. cbn [negb].
  destruct (String.eqb_spec (gostrings.TrimSpace (slice_from (content line) 1)) "")
    as [E | _].
  { rewrite E in Hbracket. discriminate. }
  rewrite Hbracket, Hheader. cbn [errorWrap obind].
  reflexivity.
Qed.

(** *** The parser has fuel enough *)

Lemma advances_Done {A} (pos pos' : nat) (a : A) :
  (pos <= pos')%nat -> advances pos (Done (a, pos')).
Proof. intros H. split; [discriminate |]. intros ? ? [= <- <-]. exact H. Qed.

Lemma advances_Failed {A} (pos : nat) (e : error) : advances (A := A) pos (Failed e).
Proof. split; discriminate. Qed.

Lemma advances_errorAt {A} (pos : nat) (line : Z) (m : message) :
  advances (A := A) pos (errorAt line m).
Proof. apply advances_Failed. Qed.

Lemma advances_wrap {A B} (pos : nat) (line : Z) (r : result message A)
    (k : A -> outcome (B * nat)) :
  (forall a, advances pos (k a)) -> advances pos (obind (errorWrap line r) k).
Proof. intros H. destruct r; cbn; [apply H | apply advances_Failed]. Qed.

Lemma advances_bind {A B} (pos q : nat) (m : outcome (A * nat))
    (k : A * nat -> outcome (B * nat)) :
  advances q m ->
  (forall a q', (q <= q')%nat -> advances pos (k (a, q'))) ->
  advances pos (obind m k).
Proof.
  intros [Hm Hq] Hk. destruct m as [[a q'] | e |]; cbn.
  - apply Hk. now apply (Hq a q').
  - apply advances_Failed.
  - congruence.
Qed.

Lemma advances_weaken {A} (pos q : nat) (r : outcome (A * nat)) :
  (pos <= q)%nat -> advances q r -> advances pos r.
Proof. intros H [H1 H2]. split; [assumption |]. intros a p E. specialize (H2 a p E). lia. Qed.

Ltac advances_branch :=
  match goal with
  | |- advances _ (if ?c then _ else _) => destruct c eqn:?
  | |- advances _ (match ?x with _ => _ end) => destruct x eqn:?
  | |- advances _ (obind (errorWrap _ _) _) => apply advances_wrap; intros ?
  | |- advances _ (errorAt _ _) => apply advances_errorAt
  | |- advances _ (Failed _) => apply advances_Failed
  | |- advances _ (Done (_, _)) => apply advances_Done; lia
  | |- advances _ (let (_, _) := ?x in _) => destruct x
  end.

Ltac advances_call IHo IHa IHl IHs IHt :=
  first [ apply IHa; lia | apply IHo; lia | apply IHs; lia | apply IHl; lia
        | apply IHt; lia ].

Ltac advances_solve IHo IHa IHl IHs IHt :=
  repeat advances_branch;
  try first
    [ eapply advances_weaken; [| advances_call IHo IHa IHl IHs IHt]; lia
    | eapply advances_bind;
      [ advances_call IHo IHa IHl IHs IHt
      | intros ? ? ?; advances_solve IHo IHa IHl IHs IHt ] ].

Lemma parseArray_tabular_advances dcfg lines fuel header depth rows pos :
  (length lines - pos < fuel)%nat ->
  advances pos (parseArray_tabular dcfg lines fuel header depth rows pos).
Proof.
  revert rows pos. induction fuel as [| fuel IH]; intros rows pos Hfuel; [lia |].
  cbn [parseArray_tabular].
  destruct (Nat.leb_spec (length lines) pos).
  - repeat advances_branch.
  - repeat advances_branch.
    all: try (eapply advances_weaken; [| apply IH]; lia).
Qed.

Lemma parser_advances dcfg lines (fuel : nat) :
  (forall depth result pos, (2 * (length lines - pos) + 1 <= fuel)%nat ->
     advances pos (parseObject_loop dcfg lines fuel depth result pos))
  /\ (forall header depth pos, (2 * (length lines - pos) + 2 <= fuel)%nat ->
        advances pos (parseArray dcfg lines fuel header depth pos))
  /\ (forall header depth values pos, (2 * (length lines - pos) + 1 <= fuel)%nat ->
        advances pos (parseArray_list dcfg lines fuel header depth values pos))
  /\ (forall obj depth pos, (2 * (length lines - pos) + 1 <= fuel)%nat ->
        advances pos (collectObjectListSiblings dcfg lines fuel obj depth pos)).
Proof.
  induction fuel as [| fuel (IHo & IHa & IHl & IHs)].
  - split; [| split; [| split]]; intros; lia.
  - pose proof (parseArray_tabular_advances dcfg lines fuel) as IHt.
    split; [| split; [| split]].
    + intros depth result pos Hfuel. cbn [parseObject_loop].
      destruct (Nat.leb_spec (length lines) pos); [repeat advances_branch |].
      advances_solve IHo IHa IHl IHs IHt.
    + intros header depth pos Hfuel. cbn [parseArray].
      advances_solve IHo IHa IHl IHs IHt.
    + intros header depth values pos Hfuel. cbn [parseArray_list].
      destruct (Nat.leb_spec (length lines) pos); [repeat advances_branch |].
      advances_solve IHo IHa IHl IHs IHt.
    + intros obj depth pos Hfuel. cbn [collectObjectListSiblings].
      destruct (Nat.leb_spec (length lines) pos); [repeat advances_branch |].
      advances_solve IHo IHa IHl IHs IHt.
Qed.

Theorem Decode_terminates dcfg (data : string) : Decode dcfg data <> OutOfFuel.
Proof.
  unfold Decode.
  assert (Hnew : forall raws idx, newParser_lines dcfg raws idx <> OutOfFuel).
  { induction raws as [| raw t IH]; intros idx; cbn; [discriminate |].
    destruct (String.eqb raw "").
    - specialize (IH (idx + 1)). destruct (newParser_lines dcfg t (idx + 1));
        cbn; congruence.
    - destruct (computeIndent dcfg raw) as [[i c] |]; cbn; [| discriminate].
      specialize (IH (idx + 1)). destruct (newParser_lines dcfg t (idx + 1));
        cbn; congruence. }
  unfold newParser. specialize (Hnew (splitLines data) 0).
  destruct (newParser_lines dcfg (splitLines data) 0) as [lines | e |];
    [| discriminate | congruence].
  destruct (parser_advances dcfg lines (decode_fuel lines)) as (Ho & Ha & _).
  unfold parseDocument, decode_fuel in *.
  destruct (length lines <=? _)%nat; [discriminate |].
  destruct (tryParseHeader _) as [hdr |]; cbn [errorWrap obind]; [| discriminate].
  destruct (_ && _).
  { destruct (decodePrimitiveToken _); cbn; discriminate. }
  assert (Hobj : forall pos,
            obind (parseObject dcfg lines (2 * length lines + 4) 0 pos)
              (fun x => let (m, _) := x in Done (VObject m)) <> OutOfFuel).
  { intros pos. unfold parseObject.
    destruct (Ho 0 ∅ pos ltac:(lia)) as [Hne _].
    destruct (parseObject_loop _ _ _ _ _ _) as [[m p] | |]; cbn; congruence. }
  destruct hdr as [header |]; [| apply Hobj].
  destruct (_ && _); [| apply Hobj].
  destruct (Ha header 0 (S (skipBlankLinesOutsideArrays lines 0)) ltac:(lia)) as [Hne _].
  destruct (parseArray _ _ _ _ _ _) as [[v p] | |]; cbn; congruence.
Qed.

(** *** The layouts of a sequence *)

Lemma isPrimitiveArray_object before obj after :
  isPrimitiveArray (before ++ NObject obj :: after)%list = false.
Proof.
  unfold isPrimitiveArray. rewrite forallb_app. cbn [forallb isPrimitive].
  now rewrite andb_false_r.
Qed.

Lemma encodeArray_layout cfg fuel key values depth root :
  isPrimitiveArray values = false ->
  encodeArray cfg (S fuel) key values depth root
  = try (if negb (String.eqb key "") then encodeKey key else Ok "")
      (fun keyLiteral =>
         match detectTabular values with
         | Some fields => encodeArray_tabular cfg keyLiteral values fields depth
         | None => encodeArray_list cfg fuel keyLiteral values depth root
         end).
Proof. intros H. cbn [encodeArray]. rewrite H. reflexivity. Qed.

(** *** Object-list elements that start with a key-value pair *)

Lemma parseArray_list_key_value dcfg lines fuel header depth values pos line key rest :
  lines !! pos = Some line ->
  blank line = false ->
  indentLevel line = depth + 1 ->
  gostrings.HasPrefix (content line) "-" = true ->
  gostrings.TrimSpace (slice_from (content line) 1) <> "" ->
  gostrings.HasPrefix (gostrings.TrimSpace (slice_from (content line) 1)) "[" = false ->
  tryParseHeader (gostrings.TrimSpace (slice_from (content line) 1)) = Ok None ->
  isKeyValue (gostrings.TrimSpace (slice_from (content line) 1)) = true ->
  splitKeyValue (gostrings.TrimSpace (slice_from (content line) 1)) = Ok (key, rest) ->
  parseArray_list dcfg lines (S fuel) header depth values pos
  = if String.eqb rest "" then
      match parseObject dcfg lines fuel (depth + 3) (S pos) with
      | Done (obj, pos') =>
        parseArray_list dcfg lines fuel header depth
          (values ++ [VObject {[ key := VObject obj ]}])%list pos'
      | Failed e => Failed e
      | OutOfFuel => OutOfFuel
      end
    else
      match decodePrimitiveToken rest with
      | Err m => Failed (parseError (number line) m)
      | Ok val =>
        match collectObjectListSiblings dcfg lines fuel {[ key := val ]} depth (S pos) with
        | Done (obj, pos') =>
          parseArray_list dcfg lines fuel header depth (values ++ [VObject obj])%list pos'
        | Failed e => Failed e
        | OutOfFuel => OutOfFuel
        end
      end.
Proof.
  intros Hline Hblank Hindent Hdash Hne Hbracket Hheader Hkv Hsplit.
  apply current_lookup in Hline as [Hcur Hlen].
  cbn [parseArray_list]. rewrite Hlen, Hcur, Hblank, Hindent.
  replace (depth + 1 <=? depth) with false by (symmetry; apply Z.leb_gt; lia).
  rewrite Z.eqb_refl, Hdash. cbn [negb].
  destruct (String.eqb_spec (gostrings.TrimSpace (slice_from (content line) 1)) "")
    as [E | _]; [contradiction |].
  rewrite Hbracket, Hheader. cbn [errorWrap obind]. rewrite Hkv, Hsplit.
  cbn [errorWrap obind]. destruct (String.eqb rest ""); [reflexivity |].
  destruct (decodePrimitiveToken rest); reflexivity.
Qed.

(** *** The scenarios of the specification and the tests of the repository

    The documents the specification and the tests expect, computed by the
    embedding. *)

Example scenario_E1 :
  Marshal defaultEncoderOptions
    (AnyObject {| Fields := [field "users" (AnySlice [
       AnyObject {| Fields := [field "id" (AnyInt 1); field "name" (AnyString "Alice");
                               field "role" (AnyString "admin")] |};
       AnyObject {| Fields := [field "id" (AnyInt 2); field "name" (AnyString "Bob");
                               field "role" (AnyString "user")] |}])] |})
  = Done (document ["users[2]{id,name,role}:"; "  1,Alice,admin"; "  2,Bob,user"]).
Proof. vm_compute. reflexivity. Qed.

Example scenario_E2 :
  Marshal (NewEncoder [WithDocumentDelimiter DelimiterPipe;
                       WithArrayDelimiter DelimiterPipe; WithLengthMarkers true])
    (AnyStruct [struct_field "users" (AnySlice [
                  AnyStruct [struct_field "id" (AnyInt 1);
                             struct_field "name" (AnyString "Ada");
                             struct_field "active" (AnyBool true);
                             ("email", true, true, AnyPointer None)]]);
                struct_field "count" (AnyInt 1)])
  = Done (document ["users[#1|]{id|name|active}:"; "  1|Ada|true"; "count: 1"]).
Proof. vm_compute. reflexivity. Qed.

Example scenario_E3 :
  Marshal defaultEncoderOptions
    (AnyStruct [struct_field "events" (AnySlice [
       AnyString "ready";
       AnyStruct [struct_field "type" (AnyString "metric");
                  struct_field "values" (AnySlice [AnyInt 1; AnyInt 2; AnyInt 3])];
       AnySlice [AnyString "nested"; AnyString "list"]])])
  = Done (document ["events[3]:"; "  - ready"; "  - type: metric";
                    "    values[3]: 1,2,3"; "  - [2]: nested,list"])
  /\ Decode defaultDecoderOptions
       (document ["events[3]:"; "  - ready"; "  - type: metric";
                  "    values[3]: 1,2,3"; "  - [2]: nested,list"])
     = Done (vobject [("events", VArray [
         VString "ready";
         vobject [("type", VString "metric");
                  ("values", VArray [vnumber 1; vnumber 2; vnumber 3])];
         VArray [VString "nested"; VString "list"]])]).
Proof. split; vm_compute; reflexivity. Qed.

Example scenario_E4 :
  Marshal defaultEncoderOptions (AnyString "hello") = Done "hello"
  /\ Marshal defaultEncoderOptions (AnyInt 42) = Done "42"
  /\ Decode defaultDecoderOptions "42" = Done (vnumber 42).
Proof. repeat split; vm_compute; reflexivity. Qed.

Example scenario_E5 :
  Marshal defaultEncoderOptions
    (AnyMap true [("safe", AnyInt 9007199254740991); ("large", AnyInt 9007199254740993);
                  ("huge", AnyInt (10 ^ 18))])
  = Done (document ["huge: " ++ dquote ++ "1000000000000000000" ++ dquote;
                    "large: " ++ dquote ++ "9007199254740993" ++ dquote;
                    "safe: 9007199254740991"])
  /\ Decode defaultDecoderOptions
       (document ["huge: " ++ dquote ++ "1000000000000000000" ++ dquote;
                  "large: " ++ dquote ++ "9007199254740993" ++ dquote;
                  "safe: 9007199254740991"])
     = Done (vobject [("huge", VString "1000000000000000000");
                      ("large", VString "9007199254740993");
                      ("safe", vnumber 9007199254740991)]).
Proof. split; vm_compute; reflexivity. Qed.

Example scenario_E6 :
  Decode defaultDecoderOptions "items[2]: 1,2,3"
  = Failed (parseError 1 (InlineLengthMismatch 2 3))
  /\ Decode (NewDecoder [WithStrictMode false]) "items[2]: 1,2,3"
     = Done (vobject [("items", VArray [vnumber 1; vnumber 2; vnumber 3])])
  /\ Decode defaultDecoderOptions (document ["items[1]:"; TAB ++ "- item"])
     = Failed (parseError 2 TabsInIndentation)
  /\ Decode (NewDecoder [WithStrictMode false; WithDecoderIndent 1])
       (document ["items[1]:"; TAB ++ "- item"])
     = Done (vobject [("items", VArray [VString "item"])]).
Proof. repeat split; vm_compute; reflexivity. Qed.

Example TestMarshalTabularArray :
  Marshal defaultEncoderOptions
    (AnyStruct [struct_field "users" (AnySlice [
                  AnyStruct [struct_field "id" (AnyInt 1);
                             struct_field "name" (AnyString "Ada");
                             struct_field "active" (AnyBool true);
                             ("email", true, true, AnyPointer None)];
                  AnyStruct [struct_field "id" (AnyInt 2);
                             struct_field "name" (AnyString "Bob");
                             struct_field "active" (AnyBool false);
                             ("email", true, true, AnyPointer None)]]);
                struct_field "count" (AnyInt 2)])
  = Done (document ["users[2]{id,name,active}:"; "  1,Ada,true"; "  2,Bob,false";
                    "count: 2"]).
Proof. vm_compute. reflexivity. Qed.

Example TestNestedDelimiterScopes :
  Marshal (NewEncoder [WithArrayDelimiter DelimiterPipe])
    (AnyStruct [struct_field "buckets" (AnySlice [
       AnyStruct [struct_field "name" (AnyString "alpha");
                  struct_field "values" (AnySlice [AnyString "a"; AnyString "b"])];
       AnyStruct [struct_field "name" (AnyString "beta");
                  struct_field "values" (AnySlice [AnyString "c"; AnyString "d"])]])])
  = Done (document ["buckets[2|]:"; "  - name: alpha"; "    values[2|]: a|b";
                    "  - name: beta"; "    values[2|]: c|d"])
  /\ Decode defaultDecoderOptions
       (document ["buckets[2|]:"; "  - name: alpha"; "    values[2|]: a|b";
                  "  - name: beta"; "    values[2|]: c|d"])
     = Done (vobject [("buckets", VArray [
         vobject [("name", VString "alpha"); ("values", VArray [VString "a"; VString "b"])];
         vobject [("name", VString "beta"); ("values", VArray [VString "c"; VString "d"])]])]).
Proof. split; vm_compute; reflexivity. Qed.

Example TestDecodeTabular :
  Decode defaultDecoderOptions
    (document ["users[2]{id,name,active}:"; "  1,Ada,true"; "  2,Bob,false"; "count: 2"])
  = Done (vobject [("users", VArray [
             vobject [("id", vnumber 1); ("name", VString "Ada"); ("active", VBool true)];
             vobject [("id", vnumber 2); ("name", VString "Bob"); ("active", VBool false)]]);
                   ("count", vnumber 2)]).
Proof. vm_compute. reflexivity. Qed.

Example TestRoundTripObjectListArrayFirstField :
  Marshal defaultEncoderOptions
    (AnyStruct [struct_field "buckets" (AnySlice [
       AnyStruct [struct_field "values" (AnySlice [AnyInt 1; AnyInt 2]);
                  struct_field "label" (AnyString "alpha")];
       AnyStruct [struct_field "values" (AnySlice [AnyInt 3; AnyInt 4]);
                  struct_field "label" (AnyString "beta")]])])
  = Done (document ["buckets[2]:"; "  - values[2]: 1,2"; "    label: alpha";
                    "  - values[2]: 3,4"; "    label: beta"])
  /\ Decode defaultDecoderOptions
       (document ["buckets[2]:"; "  - values[2]: 1,2"; "    label: alpha";
                  "  - values[2]: 3,4"; "    label: beta"])
     = Done (vobject [("buckets", VArray [
         vobject [("values", VArray [vnumber 1; vnumber 2]); ("label", VString "alpha")];
         vobject [("values", VArray [vnumber 3; vnumber 4]); ("label", VString "beta")]])]).
Proof. split; vm_compute; reflexivity. Qed.

Example TestDecodeRootForms :
  Decode defaultDecoderOptions "42" = Done (vnumber 42)
  /\ Decode defaultDecoderOptions "[2]: 1,2" = Done (VArray [vnumber 1; vnumber 2]).
Proof. split; vm_compute; reflexivity. Qed.

Example TestDecodeStrictErrors :
  Decode defaultDecoderOptions "items[2]: 1"
  = Failed (parseError 1 (InlineLengthMismatch 2 1))
  /\ Decode defaultDecoderOptions (document ["key:"; "  child:"; "   grand: value"])
     = Failed (parseError 3 (IndentationNotMultiple 2))
  /\ Decode defaultDecoderOptions (document ["items[1]:"; "  - ready"; ""; "  - set"])
     = Failed (parseError 3 BlankInsideList).
Proof. repeat split; vm_compute; reflexivity. Qed.

Example TestDecodeWithCustomDocumentDelimiter :
  Decode (NewDecoder [WithDecoderDocumentDelimiter DelimiterPipe])
    (document ["records[2|]:"; "  - id: a|b"; "  - id: c|d"])
  = Done (vobject [("records", VArray [vobject [("id", VString "a|b")];
                                       vobject [("id", VString "c|d")]])]).
Proof. vm_compute. reflexivity. Qed.

Example TestMarshalLargeIntegerPrecision :
  Marshal defaultEncoderOptions
    (AnyMap true [("safe", AnyInt 9007199254740991); ("large", AnyInt 9007199254740993)])
  = Done (document ["large: " ++ dquote ++ "9007199254740993" ++ dquote;
                    "safe: 9007199254740991"]).
Proof. vm_compute. reflexivity. Qed.

(** *** The specification, claim by claim *)

(** C1. The round trip does not hold on every value of the data model.  A
    sequence holding an empty object is encoded as the list item [- {}], which
    decodes to the string [{}]; and a sequence holding an object whose first
    field is an object is encoded with a bare [-] line followed by the fields
    two levels deeper, which the decoder rejects. *)
Theorem C1_round_trip_diverges :
  Marshal defaultEncoderOptions (AnySlice [AnyObject {| Fields := [] |}])
  = Done ("[1]:" ++ LF ++ "  - {}")
  /\ Decode defaultDecoderOptions ("[1]:" ++ LF ++ "  - {}")
     = Done (VArray [VString "{}"])
  /\ Marshal defaultEncoderOptions
       (AnySlice [AnyObject {| Fields :=
          [field "a" (AnyObject {| Fields := [field "b" (AnyInt 1)] |})] |}])
     = Done ("[1]:" ++ LF ++ "  -" ++ LF ++ "    a:" ++ LF ++ "      b: 1")
  /\ Decode defaultDecoderOptions
       ("[1]:" ++ LF ++ "  -" ++ LF ++ "    a:" ++ LF ++ "      b: 1")
     = Failed (parseError 3 InvalidIndentationListItem).
Proof. repeat split; vm_compute; reflexivity. Qed.

(** Whenever the digits parse, [normalizeNumberString] answers with the
    rendering of the double, or with null; never with the digits as a
    string. *)
Lemma normalizeNumberString_parsed (s : string) (f : float64) :
  ParseFloat s = Ok f ->
  normalizeNumberString s
  = if IsInf f 0 || IsNaN f then Ok NNil
    else Ok (numberValue (FormatFloat (if is_zero f then zero else f))).
Proof. intros H. unfold normalizeNumberString. now rewrite H. Qed.

(** C2. [normalizeNumberString] makes a number literal of every string that
    parses as a finite double, without comparing the rendering with the
    digits it was given: the digits 9007199254740993 become the number
    literal 9007199254740992, whereas the same integer given as an [int64]
    is kept as a string. *)
Theorem C2_number_string_not_compared :
  normalizeNumberString "9007199254740993" = Ok (numberValue "9007199254740992")
  /\ normalize defaultEncoderOptions (AnyJSONNumber "9007199254740993")
     = Ok (numberValue "9007199254740992")
  /\ Marshal defaultEncoderOptions (AnyJSONNumber "9007199254740993")
     = Done "9007199254740992"
  /\ normalize defaultEncoderOptions (AnyInt 9007199254740993)
     = Ok (NString "9007199254740993").
Proof. repeat split; vm_compute; reflexivity. Qed.

(** C3. In a sequence of two or more objects that is encoded in tabular
    layout, replacing an element by one with another number of fields (a
    field added, or a field removed) disables the tabular layout, and
    [encodeArray] writes the plain header and a list item for each element.
    Reordering the fields of an element does not disable it: the layout is
    still tabular, the header lists the same fields, and lists them in the
    same order unless the reordered element is the first one. *)
Theorem C3_tabular_detection cfg fuel key depth root
    (before after : list normalizedValue)
    (obj resized reordered : Object normalizedValue) (fields : list string) :
  detectTabular (before ++ NObject obj :: after)%list = Some fields ->
  (before ++ after)%list <> [] ->
  length (Fields resized) <> length (Fields obj) ->
  Permutation (Fields reordered) (Fields obj) ->
  (detectTabular (before ++ NObject resized :: after)%list = None
   /\ encodeArray cfg (S fuel) key (before ++ NObject resized :: after)%list depth root
      = try (if negb (String.eqb key "") then encodeKey key else Ok "")
          (fun keyLiteral =>
             encodeArray_list cfg fuel keyLiteral
               (before ++ NObject resized :: after)%list depth root))
  /\ exists fields',
       detectTabular (before ++ NObject reordered :: after)%list = Some fields'
       /\ Permutation fields' fields
       /\ (before <> [] -> fields' = fields)
       /\ encodeArray cfg (S fuel) key (before ++ NObject reordered :: after)%list
            depth root
          = try (if negb (String.eqb key "") then encodeKey key else Ok "")
              (fun keyLiteral =>
                 encodeArray_tabular cfg keyLiteral
                   (before ++ NObject reordered :: after)%list fields' depth).
Proof.
  intros Htab Hne Hlen Hperm. split.
  - pose proof (detect_length_change _ _ _ _ _ Htab Hne Hlen) as Hnone.
    split; [exact Hnone |].
    rewrite encodeArray_layout by apply isPrimitiveArray_object.
    now rewrite Hnone.
  - destruct (detect_reorder _ _ _ _ _ Htab Hperm) as (fields' & Hsome & Hp & Hsame).
    exists fields'. repeat split; try assumption.
    rewrite encodeArray_layout by apply isPrimitiveArray_object.
    now rewrite Hsome.
Qed.

(** C4. An object-list element [- key:] with an empty value side is one
    object holding the nested object alone: the lines at indent d+2 that
    follow it are not collected into it, and the list loop rejects them.  An
    element [- key: value] does collect them. *)
Theorem C4_siblings_after_nested_object :
  Decode defaultDecoderOptions
    ("items[1]:" ++ LF ++ "  - a:" ++ LF ++ "      b: 1" ++ LF ++ "    c: 2")
  = Failed (parseError 4 InvalidIndentationListItem)
  /\ Decode defaultDecoderOptions
       ("items[1]:" ++ LF ++ "  - a:" ++ LF ++ "      b: 1")
     = Done (vobject [("items", VArray [vobject [("a", vobject [("b", vnumber 1)])]])])
  /\ Decode defaultDecoderOptions
       ("items[1]:" ++ LF ++ "  - a: 1" ++ LF ++ "    c: 2")
     = Done (vobject [("items", VArray [vobject [("a", vnumber 1); ("c", vnumber 2)]])]).
Proof. repeat split; vm_compute; reflexivity. Qed.

(** C6. For a header with inline values, [parseArray] tokenizes and decodes
    the values before it looks at the declared length: an error of
    [SplitInlineValues] (an unterminated string) or of a token (a bad quoted
    string, a number out of range) is returned with the line of the header,
    in strict and in lenient mode, whatever the declared length.  When every
    token is decoded, strict mode fails with the inline length mismatch
    exactly when the number of tokens differs from the declared length, and
    returns the decoded values otherwise; lenient mode returns the decoded
    values whatever the declared length.  So the result is a length mismatch
    exactly in strict mode on tokens that are all decoded and whose number is
    not the declared one, and it is a value exactly when the tokens are all
    decoded and, in strict mode, are as many as declared. *)
Theorem C6_inline_length dcfg lines fuel header depth pos :
  hInlineValues header <> "" ->
  let line := number (line_at lines (pos - 1)) in
  let result := parseArray dcfg lines (S fuel) header depth pos in
  let tokenized := parsepkg.SplitInlineValues (hInlineValues header)
                 (Delimiter_rune (hDelimiter header)) in
  (forall e, tokenized = Err e -> e = UnterminatedString /\ result = Failed (parseError line e))
  /\ (forall raw e,
        tokenized = Ok raw -> mapM decodePrimitiveToken raw = Err e ->
        token_error e = true /\ result = Failed (parseError line e))
  /\ (forall raw values,
        tokenized = Ok raw -> mapM decodePrimitiveToken raw = Ok values ->
        (strict dcfg = true ->
         (Z.of_nat (length raw) <> hLength header ->
          result = Failed (parseError line
                             (InlineLengthMismatch (hLength header)
                                (Z.of_nat (length raw)))))
         /\ (Z.of_nat (length raw) = hLength header ->
             result = Done (VArray values, pos)))
        /\ (strict dcfg = false -> result = Done (VArray values, pos)))
  /\ ((exists l expected got,
         result = Failed (parseError l (InlineLengthMismatch expected got)))
      <-> strict dcfg = true
          /\ exists raw values,
               tokenized = Ok raw /\ mapM decodePrimitiveToken raw = Ok values
               /\ Z.of_nat (length raw) <> hLength header)
  /\ (forall v pos',
        result = Done (v, pos')
        <-> exists raw values,
              tokenized = Ok raw /\ mapM decodePrimitiveToken raw = Ok values
              /\ v = VArray values /\ pos' = pos
              /\ (strict dcfg = true -> Z.of_nat (length raw) = hLength header)).
Proof.
  intros Hne. cbv zeta.
  rewrite (parseArray_inline_values dcfg lines fuel header depth pos Hne).
  generalize (number (line_at lines (pos - 1))). intros line.
  remember (parsepkg.SplitInlineValues (hInlineValues header)
              (Delimiter_rune (hDelimiter header))) as tokenized eqn:Et.
  symmetry in Et.
  assert (Hsplit : forall e, tokenized = Err e -> e = UnterminatedString)
    by (intros e ->; now apply (SplitInlineValues_error _ _ _ Et)).
  assert (Htoken : forall raw e, mapM decodePrimitiveToken raw = Err e ->
                                 token_error e = true).
  { intros raw e Hd. destruct (mapM_error _ _ _ Hd) as (x & _ & Hx).
    now apply (decodePrimitiveToken_error x). }
  clear Et. split; [| split; [| split; [| split]]].
  - intros e He. split; [now apply Hsplit | now rewrite He].
  - intros raw e -> Hd. split; [now apply (Htoken raw) | now rewrite Hd].
  - intros raw values -> ->. split.
    + intros ->. cbn [andb]. split; intros H.
      * apply Z.eqb_neq in H. now rewrite H.
      * apply Z.eqb_eq in H. now rewrite H.
    + now intros ->.
  - split.
    + intros (l & expected & got & H).
      destruct tokenized as [raw | e].
      * destruct (mapM decodePrimitiveToken raw) as [values | e] eqn:Hd.
        -- destruct (strict dcfg); [| discriminate]. split; [reflexivity |].
           exists raw, values. split; [reflexivity |]. split; [exact Hd |].
           cbn [andb] in H.
           destruct (Z.eqb_spec (Z.of_nat (length raw)) (hLength header));
             [discriminate | assumption].
        -- injection H as _ ->. now apply Htoken in Hd.
      * injection H as _ ->. now specialize (Hsplit _ eq_refl).
    + intros (Hstrict & raw & values & -> & -> & Hlen). rewrite Hstrict.
      apply Z.eqb_neq in Hlen. rewrite Hlen. cbn [andb negb]. now eexists _, _, _.
  - intros v pos'. split.
    + destruct tokenized as [raw | e]; [| discriminate].
      destruct (mapM decodePrimitiveToken raw) as [values | e] eqn:Hd; [| discriminate].
      destruct (strict dcfg && _) eqn:Ec; [discriminate |]. intros [= <- <-].
      exists raw, values. split; [reflexivity |]. split; [exact Hd |].
      split; [reflexivity |]. split; [reflexivity |].
      intros Hstrict. rewrite Hstrict in Ec.
      cbn [andb] in Ec. apply negb_false_iff, Z.eqb_eq in Ec. exact Ec.
    + intros (raw & values & -> & -> & -> & -> & Hlen).
      destruct (strict dcfg); [| reflexivity]. rewrite (Hlen eq_refl), Z.eqb_refl. reflexivity.
Qed.

(** C7. The empty object at the root is encoded as the empty document, and
    the empty document is decoded as the empty object; so is every document
    made of empty lines and lines of spaces, and in general every document
    all of whose lines the preprocessor marks blank.  (In strict mode
    [computeIndent] refuses a tab before it can mark a line of white space
    blank.) *)
Theorem C7_empty_document ecfg dcfg (data : string) :
  spaces_and_newlines data = true ->
  Marshal ecfg (AnyObject {| Fields := [] |}) = Done ""
  /\ Decode dcfg "" = Done (VObject ∅)
  /\ Decode dcfg data = Done (VObject ∅)
  /\ (forall text lines,
        newParser dcfg text = Done lines ->
        Forall (fun l => blank l = true) lines ->
        Decode dcfg text = Done (VObject ∅)).
Proof.
  intros Hdata. split; [reflexivity |]. split; [reflexivity |]. split.
  - unfold Decode, newParser.
    destruct (newParser_lines_only_spaces dcfg (splitLines data) 0
                (splitLines_spaces_and_newlines data Hdata)) as (lines & -> & Hblank).
    now apply parseDocument_all_blank.
  - intros text lines Hlines Hblank. unfold Decode. rewrite Hlines.
    now apply parseDocument_all_blank.
Qed.


(** C9. Every configuration built by [NewEncoder] or [NewDecoder] from options
    of the public constructors has an indent of at least one and recognised
    delimiters; a non-positive indent and an unrecognised delimiter leave the
    configuration as it was. *)
Theorem C9_configuration_invariant
    (eopts : list EncoderOption) (dopts : list DecoderOption) :
  Forall encoder_option eopts ->
  Forall decoder_option dopts ->
  (1 <= indentSize (NewEncoder eopts)
   /\ recognised (documentDelimiter (NewEncoder eopts)) = true
   /\ recognised (arrayDelimiter (NewEncoder eopts)) = true)
  /\ (1 <= d_indentSize (NewDecoder dopts)
      /\ recognised (documentDelim (NewDecoder dopts)) = true)
  /\ (forall cfg spaces, spaces <= 0 -> WithIndent spaces cfg = cfg)
  /\ (forall cfg spaces, spaces <= 0 -> WithDecoderIndent spaces cfg = cfg)
  /\ (forall cfg d, recognised d = false ->
        WithDocumentDelimiter d cfg = cfg /\ WithArrayDelimiter d cfg = cfg)
  /\ (forall cfg d, recognised d = false -> WithDecoderDocumentDelimiter d cfg = cfg).
Proof.
  intros He Hd. repeat split.
  - apply (fold_options_invariant
             (fun c => 1 <= indentSize c /\ recognised (documentDelimiter c) = true
                       /\ recognised (arrayDelimiter c) = true) encoder_option);
      [intros; now apply encoder_option_preserves | assumption | cbn; intuition lia].
  - apply (fold_options_invariant
             (fun c => 1 <= indentSize c /\ recognised (documentDelimiter c) = true
                       /\ recognised (arrayDelimiter c) = true) encoder_option);
      [intros; now apply encoder_option_preserves | assumption | cbn; intuition lia].
  - apply (fold_options_invariant
             (fun c => 1 <= indentSize c /\ recognised (documentDelimiter c) = true
                       /\ recognised (arrayDelimiter c) = true) encoder_option);
      [intros; now apply encoder_option_preserves | assumption | cbn; intuition lia].
  - apply (fold_options_invariant
             (fun c => 1 <= d_indentSize c /\ recognised (documentDelim c) = true)
             decoder_option);
      [intros; now apply decoder_option_preserves | assumption | cbn; intuition lia].
  - apply (fold_options_invariant
             (fun c => 1 <= d_indentSize c /\ recognised (documentDelim c) = true)
             decoder_option);
      [intros; now apply decoder_option_preserves | assumption | cbn; intuition lia].
  - intros cfg spaces H. unfold WithIndent.
    destruct (0 <? spaces) eqn:E; [apply Z.ltb_lt in E; lia | reflexivity].
  - intros cfg spaces H. unfold WithDecoderIndent.
    destruct (0 <? spaces) eqn:E; [apply Z.ltb_lt in E; lia | reflexivity].
  - unfold WithDocumentDelimiter. unfold recognised in H. now rewrite H.
  - unfold WithArrayDelimiter. unfold recognised in H. now rewrite H.
  - intros cfg d H. unfold WithDecoderDocumentDelimiter.
    unfold recognised in H. now rewrite H.
Qed.

(** C10. In lenient mode a row of a table is accepted whatever the number
    of its tokens.  The row's object is made of the header's fields paired,
    in order, with the decoded tokens: its keys are the first k fields when
    the row has k tokens, fewer than the fields, and the tokens beyond the
    last field are dropped without being decoded. *)
Theorem C10_lenient_row dcfg lines fuel header depth rows pos line
    (raw : list string) (values : list value) :
  strict dcfg = false ->
  lines !! pos = Some line ->
  blank line = false ->
  indentLevel line = depth + 1 ->
  indexOutsideQuotes (gostrings.TrimSpace (content line)) 0x3A = -1 ->
  parsepkg.SplitInlineValues (gostrings.TrimSpace (content line))
    (Delimiter_rune (hDelimiter header)) = Ok raw ->
  mapM decodePrimitiveToken (take (length (hFields header)) raw) = Ok values ->
  parseArray_tabular dcfg lines (S fuel) header depth rows pos
  = parseArray_tabular dcfg lines fuel header depth
      (rows ++ [VObject (row_of (hFields header) values ∅)]) (S pos)
  /\ length values = Nat.min (length (hFields header)) (length raw)
  /\ dom (row_of (hFields header) values ∅)
     = list_to_set (take (length raw) (hFields header))
  /\ (NoDup (hFields header) ->
      forall i f v, hFields header !! i = Some f -> values !! i = Some v ->
                    row_of (hFields header) values ∅ !! f = Some v).
Proof.
  intros Hstrict Hline Hblank Hindent Hcolon Hsplit Hdec.
  assert (Hlen : length values = Nat.min (length (hFields header)) (length raw))
    by (rewrite (mapM_length _ _ _ Hdec); apply length_take).
  split; [now apply (tabular_step dcfg lines fuel header depth rows pos line raw values) |].
  split; [exact Hlen |]. split.
  - rewrite row_of_dom, dom_empty_L, Hlen, (left_id_L ∅ (∪)).
    destruct (Nat.le_ge_cases (length raw) (length (hFields header))) as [H | H].
    + now rewrite Nat.min_r.
    + rewrite Nat.min_l by assumption. now rewrite !take_ge.
  - intros Hnd i f v Hf Hv. now apply (row_of_lookup _ _ _ i).
Qed.

End Properties.

(** ** Further properties *)

(** *** Bits and bytes *)

Section Bits.

Lemma lor_low (a k x : Z) :
  0 <= a -> 0 <= k -> 0 <= x < 2 ^ k -> Z.lor (a * 2 ^ k) x = a * 2 ^ k + x.
Proof.
  intros Ha Hk Hx.
  assert (Hland : Z.land (a * 2 ^ k) x = 0).
  { apply Z.bits_inj'. intros n Hn. rewrite Z.land_spec, Z.bits_0.
    destruct (Z.lt_ge_cases n k) as [Hlt | Hge].
    - now rewrite Z.mul_pow2_bits_low.
    - destruct (Z.eq_dec x 0) as [-> | Hx0]; [now rewrite Z.bits_0, andb_false_r |].
      assert (Hlog : Z.log2 x < n) by (apply Z.lt_le_trans with k; [apply Z.log2_lt_pow2 |]; lia).
      rewrite (Z.bits_above_log2 x n) by lia. apply andb_false_r. }
  pose proof (Z.add_lor_land (a * 2 ^ k) x) as H. lia.
Qed.

Lemma byteZ_byte_of_Z (z : Z) : 0 <= z < 256 -> byteZ (byte_of_Z z) = z.
Proof.
  intros H. unfold byteZ, byte_of_Z. rewrite N_ascii_embedding; lia.
Qed.

Lemma byteZ_range (c : ascii) : 0 <= byteZ c < 256.
Proof.
  unfold byteZ. pose proof (N_ascii_bounded c). lia.
Qed.

Lemma byte_of_Z_byteZ (c : ascii) : byte_of_Z (byteZ c) = c.
Proof. unfold byteZ, byte_of_Z. rewrite N2Z.id. apply ascii_N_embedding. Qed.

End Bits.

(** *** The bytes of an encoded rune *)

Section Utf8Facts.

Lemma high_lor (a k x : Z) :
  0 <= k -> 0 <= x < 2 ^ k -> 0x80 <= a * 2 ^ k -> a * 2 ^ k + 2 ^ k <= 256 ->
  high_byte (byte_of_Z (Z.lor (a * 2 ^ k) x)) = true.
Proof.
  intros Hk Hx Hlo Hhi. rewrite lor_low by (try lia; nia).
  unfold high_byte. rewrite byteZ_byte_of_Z by lia. apply Z.leb_le. lia.
Qed.

Lemma land_63 (y : Z) : Z.land y 0x3F = y mod 64.
Proof. change 0x3F with (Z.ones 6). now rewrite Z.land_ones. Qed.

Lemma shiftr_div (r n : Z) : 0 <= n -> Z.shiftr r n = r / 2 ^ n.
Proof. apply Z.shiftr_div_pow2. Qed.

Lemma continuation_byte_high (y : Z) :
  high_byte (byte_of_Z (Z.lor 0x80 (Z.land y 0x3F))) = true.
Proof.
  rewrite land_63. change 0x80 with (2 * 2 ^ 6).
  apply high_lor; try lia. change (2 ^ 6) with 64. apply Z.mod_pos_bound. lia.
Qed.

Lemma EncodeRune_ascii (r : rune) :
  0 <= r < 0x80 -> utf8.EncodeRune r = String (byte_of_Z r) EmptyString.
Proof.
  intros H. unfold utf8.EncodeRune.
  replace ((0 <=? r) && (r <? 128)) with true by (symmetry; apply andb_true_iff; lia).
  reflexivity.
Qed.

Lemma EncodeRune_high (r : rune) :
  r < 0 \/ 0x80 <= r -> all_bytes high_byte (utf8.EncodeRune r) = true.
Proof.
  intros H. unfold utf8.EncodeRune, utf8.MaxRune, utf8.RuneError.
  replace ((0 <=? r) && (r <? 128)) with false by (symmetry; apply andb_false_iff; lia).
  destruct ((0 <=? r) && (r <? 2048)) eqn:E2.
  - apply andb_true_iff in E2 as [H0 H2].
    change (all_bytes high_byte
              (String (byte_of_Z (Z.lor 0xC0 (Z.shiftr r 6)))
                 (String (byte_of_Z (Z.lor 0x80 (Z.land r 0x3F))) EmptyString)) = true).
    rewrite !all_bytes_cons, continuation_byte_high.
    change 0xC0 with (3 * 2 ^ 6). rewrite high_lor; [reflexivity | lia | | lia | lia].
    rewrite shiftr_div by lia. change (2 ^ 6) with 64.
    assert (0 <= r < 2048) by lia. Z.div_mod_to_equations. lia.
  - destruct ((r <? 0) || (1114111 <? r) || ((55296 <=? r) && (r <=? 57343))) eqn:E3;
      [vm_compute; reflexivity |].
    apply orb_false_iff in E3 as [E3 _]. apply orb_false_iff in E3 as [Hneg Hmax].
    assert (Hr : 2048 <= r <= 1114111).
    { apply andb_false_iff in E2. lia. }
    destruct (r <? 65536) eqn:E4.
    + change (all_bytes high_byte
                (String (byte_of_Z (Z.lor 0xE0 (Z.shiftr r 12)))
                   (String (byte_of_Z (Z.lor 0x80 (Z.land (Z.shiftr r 6) 0x3F)))
                      (String (byte_of_Z (Z.lor 0x80 (Z.land r 0x3F))) EmptyString)))
              = true).
      rewrite !all_bytes_cons, !continuation_byte_high.
      change 0xE0 with (14 * 2 ^ 4). rewrite high_lor; [reflexivity | lia | | lia | lia].
      rewrite shiftr_div by lia. change (2 ^ 12) with 4096. change (2 ^ 4) with 16.
      assert (0 <= r < 65536) by lia. Z.div_mod_to_equations. lia.
    + change (all_bytes high_byte
                (String (byte_of_Z (Z.lor 0xF0 (Z.shiftr r 18)))
                   (String (byte_of_Z (Z.lor 0x80 (Z.land (Z.shiftr r 12) 0x3F)))
                      (String (byte_of_Z (Z.lor 0x80 (Z.land (Z.shiftr r 6) 0x3F)))
                         (String (byte_of_Z (Z.lor 0x80 (Z.land r 0x3F))) EmptyString))))
              = true).
      rewrite !all_bytes_cons, !continuation_byte_high.
      change 0xF0 with (30 * 2 ^ 3). rewrite high_lor; [reflexivity | lia | | lia | lia].
      rewrite shiftr_div by lia. change (2 ^ 18) with 262144. change (2 ^ 3) with 8.
      Z.div_mod_to_equations. lia.
Qed.

End Utf8Facts.

(** *** Quoting and unquoting *)

Section Quoting.

Lemma app_cons (c : ascii) (s t : string) : (String c s ++ t)%string = String c (s ++ t).
Proof. reflexivity. Qed.

Lemma app_nil_l (t : string) : ("" ++ t)%string = t.
Proof. reflexivity. Qed.

(** Steps of evaluation on strings with a known head. *)
Ltac string_head := repeat (rewrite app_cons || rewrite app_nil_l).
Ltac decide_tests :=
  repeat match goal with
         | |- context [Z.eqb ?a ?b] =>
           let v := eval vm_compute in (Z.eqb a b) in
           match v with
           | true => change (Z.eqb a b) with true
           | false => change (Z.eqb a b) with false
           end
         end.

Lemma length_app (a b : string) :
  String.length (a ++ b) = (String.length a + String.length b)%nat.
Proof.
  induction a as [| c a IH]; [reflexivity |].
  change (S (String.length (a ++ b)) = S (String.length a + String.length b)).
  now rewrite IH.
Qed.

Lemma concat_cons (x : string) (xs : list string) :
  String.concat "" (x :: xs) = (x ++ String.concat "" xs)%string.
Proof. destruct xs; cbn [String.concat]; [now rewrite string_app_nil_r | reflexivity]. Qed.

Lemma last_byte_app (a : string) (c : ascii) :
  parsepkg.last_byte (a ++ String c "") = Some c.
Proof.
  induction a as [| x a IH]; [reflexivity |].
  change (parsepkg.last_byte (String x (a ++ String c "")) = Some c).
  cbn [parsepkg.last_byte]. destruct (a ++ String c "")%string eqn:E; [| exact IH].
  destruct a; discriminate.
Qed.

Lemma bind_bind {E A B C} (r : result E A) (f : A -> result E B) (g : B -> result E C) :
  bind (bind r f) g = bind r (fun a => bind (f a) g).
Proof. now destruct r. Qed.

(** Bytes other than the backslash go through [unquote_loop] as they are. *)
Lemma unquote_plain (p tail : string) :
  all_bytes not_backslash p = true ->
  parsepkg.unquote_loop (p ++ tail) false
  = let* rest := parsepkg.unquote_loop tail false in Ok (p ++ rest)%string.
Proof.
  induction p as [| c p IH]; intros H.
  - change (parsepkg.unquote_loop tail false
            = let* rest := parsepkg.unquote_loop tail false in Ok rest).
    now destruct (parsepkg.unquote_loop tail false).
  - rewrite all_bytes_cons in H. apply andb_true_iff in H as [Hc Hp].
    change (parsepkg.unquote_loop (String c (p ++ tail)) false
            = let* rest := parsepkg.unquote_loop tail false in Ok (String c (p ++ rest))).
    cbn [parsepkg.unquote_loop]. unfold not_backslash in Hc.
    apply negb_true_iff in Hc. rewrite Hc, (IH Hp).
    now destruct (parsepkg.unquote_loop tail false).
Qed.

Lemma high_not_backslash (s : string) :
  all_bytes high_byte s = true -> all_bytes not_backslash s = true.
Proof.
  apply all_bytes_impl. intros c. unfold high_byte, not_backslash. intros H.
  apply Z.leb_le in H. apply negb_true_iff, Z.eqb_neq. lia.
Qed.

(** What [QuoteString] writes for a rune is read back as that rune. *)
Lemma unquote_quote_rune (r : rune) (part tail : string) :
  formatpkg.quote_rune r = Ok part ->
  parsepkg.unquote_loop (part ++ tail) false
  = let* rest := parsepkg.unquote_loop tail false in Ok (utf8.EncodeRune r ++ rest)%string.
Proof.
  unfold formatpkg.quote_rune.
  destruct (Z.eqb_spec r 0x5C) as [-> | H1];
    [intros [= <-]; unfold backslash, dquote; string_head;
     cbn [parsepkg.unquote_loop]; decide_tests; cbn [orb];
     now destruct (parsepkg.unquote_loop tail false) |].
  destruct (Z.eqb_spec r 0x22) as [-> | H2];
    [intros [= <-]; unfold backslash, dquote; string_head;
     cbn [parsepkg.unquote_loop]; decide_tests; cbn [orb];
     now destruct (parsepkg.unquote_loop tail false) |].
  destruct (Z.eqb_spec r 0x0A) as [-> | H3];
    [intros [= <-]; unfold backslash, dquote; string_head;
     cbn [parsepkg.unquote_loop]; decide_tests; cbn [orb];
     now destruct (parsepkg.unquote_loop tail false) |].
  destruct (Z.eqb_spec r 0x0D) as [-> | H4];
    [intros [= <-]; unfold backslash, dquote; string_head;
     cbn [parsepkg.unquote_loop]; decide_tests; cbn [orb];
     now destruct (parsepkg.unquote_loop tail false) |].
  destruct (Z.eqb_spec r 0x09) as [-> | H5];
    [intros [= <-]; unfold backslash, dquote; string_head;
     cbn [parsepkg.unquote_loop]; decide_tests; cbn [orb];
     now destruct (parsepkg.unquote_loop tail false) |].
  destruct (Z.ltb_spec r 0x20) as [| H6]; [discriminate |].
  intros [= <-]. apply unquote_plain.
  destruct (Z.lt_ge_cases r 0x80) as [Hlt | Hge].
  - rewrite EncodeRune_ascii by lia. rewrite all_bytes_cons. cbn [all_bytes forallb list_ascii_of_string].
    unfold not_backslash. rewrite byteZ_byte_of_Z by lia.
    rewrite andb_true_r. apply negb_true_iff, Z.eqb_neq. lia.
  - apply high_not_backslash, EncodeRune_high. lia.
Qed.

Lemma unquote_quoted_runes {A} (g : A -> rune) (rs : list A) (parts : list string)
    (tail : string) :
  mapM (fun p => formatpkg.quote_rune (g p)) rs = Ok parts ->
  parsepkg.unquote_loop (String.concat "" parts ++ tail) false
  = let* rest := parsepkg.unquote_loop tail false in
    Ok (String.concat "" (map (fun p => utf8.EncodeRune (g p)) rs) ++ rest)%string.
Proof.
  revert parts. induction rs as [| x rs IH]; intros parts; cbn [mapM].
  - intros [= <-]. cbn [String.concat map]. string_head.
    now destruct (parsepkg.unquote_loop tail false).
  - destruct (formatpkg.quote_rune (g x)) as [part |] eqn:Ex; cbn [bind]; [| discriminate].
    destruct (mapM _ rs) as [rest |] eqn:Er; cbn [bind]; [| discriminate].
    intros [= <-]. cbn [map]. rewrite !concat_cons, !string_app_assoc.
    rewrite (unquote_quote_rune _ _ _ Ex), (IH rest eq_refl), bind_bind.
    destruct (parsepkg.unquote_loop tail false); cbn [bind]; [| reflexivity].
    now rewrite string_app_assoc.
Qed.

Lemma UnquoteString_quoted (body : string) :
  parsepkg.UnquoteString (dquote ++ body ++ dquote) = parsepkg.unquote_loop body false.
Proof.
  change (dquote ++ body ++ dquote)%string with (String "034" (body ++ dquote)).
  unfold parsepkg.UnquoteString.
  change (String "034" (body ++ dquote)) with ((String "034" body) ++ String "034" "")%string
    at 2.
  rewrite last_byte_app. cbn [String.length]. rewrite length_app.
  replace (S (String.length body + String.length dquote) <? 2)%nat with false
    by (symmetry; apply Nat.ltb_ge; cbn; lia).
  cbn [byteZ negb orb]. 
  replace (String.length body + String.length dquote - 1)%nat with (String.length body)
    by (cbn; lia).
  now rewrite take_bytes_app.
Qed.

Lemma QuoteString_parts (s : string) (parts : list string) :
  mapM (fun p : Z * rune => formatpkg.quote_rune (snd p)) (utf8.range s) = Ok parts ->
  parsepkg.unquote_loop (String.concat "" parts) false = Ok (runes_written s).
Proof.
  intros E. rewrite <- (string_app_nil_r (String.concat "" parts)).
  rewrite (unquote_quoted_runes snd _ _ "" E). cbn [parsepkg.unquote_loop bind].
  now rewrite string_app_nil_r.
Qed.

(** X1. what [QuoteString] writes, [UnquoteString] reads back: the string
    itself, with U+FFFD for every byte that is not part of a rune. *)
Theorem QuoteString_UnquoteString (s q : string) :
  formatpkg.QuoteString s = Ok q -> parsepkg.UnquoteString q = Ok (runes_written s).
Proof.
  unfold formatpkg.QuoteString.
  destruct (mapM _ (utf8.range s)) as [parts |] eqn:E; cbn [bind]; [| discriminate].
  intros [= <-]. rewrite UnquoteString_quoted. now apply QuoteString_parts.
Qed.

End Quoting.

(** *** Tokens that need no quotes *)

Section Unquoted.
Context {tables : unicode.Tables}.

Lemma ContainsRune_head (c : ascii) (t : string) :
  byteZ c < 0x80 -> gostrings.ContainsRune (String c t) (byteZ c) = true.
Proof.
  intros H. unfold gostrings.ContainsRune, utf8.range.
  rewrite range_from_ascii by assumption. cbn [existsb snd]. now rewrite Z.eqb_refl.
Qed.

Lemma IsDigit_byte (c : ascii) : unicode.IsDigit (byteZ c) = formatpkg.isDigit c.
Proof.
  unfold unicode.IsDigit, formatpkg.isDigit, unicode.MaxLatin1.
  pose proof (byteZ_range c).
  now replace ((0 <=? byteZ c) && (byteZ c <=? 255)) with true
    by (symmetry; apply andb_true_iff; lia).
Qed.

Lemma HasPrefix_dash (c : ascii) (t : string) :
  gostrings.HasPrefix (String c t) "-" = (byteZ c =? 0x2D).
Proof.
  unfold gostrings.HasPrefix. cbn [String.prefix].
  destruct (ascii_dec "-" c) as [<- | Hne].
  - destruct t; reflexivity.
  - symmetry. apply Z.eqb_neq. intros E. apply Hne.
    rewrite <- (byte_of_Z_byteZ c), E. reflexivity.
Qed.

(** A string that [NeedsQuoting] lets through is read back by
    [decodePrimitiveToken] as that string. *)
Lemma decodePrimitiveToken_unquoted (s : string) (ctx : formatpkg.Context) :
  formatpkg.NeedsQuoting s ctx = false -> decodePrimitiveToken s = Ok (VString s).
Proof.
  unfold formatpkg.NeedsQuoting.
  destruct (String.length s =? 0)%nat eqn:Elen; [discriminate |].
  destruct (negb (String.eqb (gostrings.TrimSpace s) s)); [discriminate |].
  destruct (String.eqb s "true" || String.eqb s "false" || String.eqb s "null") eqn:Ekw;
    [discriminate |].
  destruct (formatpkg.LooksNumeric s) eqn:Enum; [discriminate |].
  destruct (formatpkg.HasLeadingZeroDecimal s) eqn:Ezero; [discriminate |].
  destruct (gostrings.ContainsAny s _) eqn:Eany; [discriminate |].
  destruct (gostrings.ContainsRune s 10 || gostrings.ContainsRune s 13
            || gostrings.ContainsRune s 9); [discriminate |].
  destruct (gostrings.HasPrefix s "-") eqn:Edash; [discriminate |].
  intros _.
  apply orb_false_iff in Ekw as [Ekw Enull]. apply orb_false_iff in Ekw as [Etrue Efalse].
  destruct s as [| c0 t0]; [vm_compute in Elen; discriminate |].
  assert (Hquote : (byteZ c0 =? 0x22) = false).
  { apply Z.eqb_neq. intros E.
    assert (Hc : gostrings.ContainsRune (String c0 t0) 0x22 = true)
      by (rewrite <- E; apply ContainsRune_head; lia).
    unfold gostrings.ContainsAny in Eany. 
    change (utf8.range (":" ++ backslash ++ dquote ++ "[]{}"))
      with [(0, 0x3A); (1, 0x5C); (2, 0x22); (3, 0x5B); (4, 0x5D); (5, 0x7B); (6, 0x7D)]
      in Eany.
    cbn [existsb snd] in Eany. rewrite Hc in Eany.
    now rewrite !orb_true_r in Eany. }
  rewrite HasPrefix_dash in Edash.
  unfold decodePrimitiveToken.
  change (String.eqb (String c0 t0) "") with false. cbv iota.
  unfold byte_at at 1. cbn [String.get]. rewrite Hquote, Etrue, Efalse, Enull, Enum.
  replace (hasForbiddenLeadingZeros (String c0 t0)) with false; [reflexivity |].
  symmetry. unfold hasForbiddenLeadingZeros, byte_at.
  destruct t0 as [| c1 t1]; [reflexivity |].
  cbn [String.get]. unfold len. cbn [String.length].
  replace (Z.of_nat (S (S (String.length t1))) <? 2) with false
    by (symmetry; apply Z.ltb_ge; lia).
  replace (Z.of_nat (S (S (String.length t1))) <=? 1) with false
    by (symmetry; apply Z.leb_gt; lia).
  rewrite Edash. cbn [negb orb andb].
  destruct (Z.eqb_spec (byteZ c0) 0x30) as [E0 | _]; [| reflexivity].
  cbn [negb andb].
  destruct (_ || _); [reflexivity |].
  rewrite (IsDigit_byte c1).
  cbn [formatpkg.HasLeadingZeroDecimal] in Ezero.
  replace (Ascii.eqb c0 "0") with true in Ezero; [exact Ezero |].
  symmetry. apply Ascii.eqb_eq. rewrite <- (byte_of_Z_byteZ c0), E0. reflexivity.
Qed.

End Unquoted.

(** *** Strings as tokens *)

Section FormatString.
Context {tables : unicode.Tables}.

Lemma ValidateCharacters_first_control (s : string) :
  formatpkg.ValidateCharacters s
  = match first_control s with
    | Some r => Err (UnsupportedControlCharacter r)
    | None => Ok tt
    end.
Proof.
  unfold formatpkg.ValidateCharacters, first_control.
  induction (utf8.range s) as [| [idx r] rs IH]; [reflexivity |].
  cbn [mapM find snd]. fold (control r).
  destruct (control r); [reflexivity |]. cbn [bind].
  destruct (find _ rs) as [[i r'] |]; cbn [option_map snd] in *.
  - destruct (mapM _ rs); cbn [bind] in *; [discriminate | congruence].
  - destruct (mapM _ rs); cbn [bind] in *; [reflexivity | discriminate].
Qed.

Lemma quote_rune_control (r : rune) :
  control r = false -> exists part, formatpkg.quote_rune r = Ok part.
Proof.
  unfold control, formatpkg.quote_rune. intros H.
  destruct (r =? 92); [eauto |]. destruct (r =? 34); [eauto |].
  destruct (r =? 10); [eauto |]. destruct (r =? 13); [eauto |].
  destruct (r =? 9); [eauto |]. destruct (r <? 32); [discriminate | eauto].
Qed.

Lemma QuoteString_first_control (s : string) :
  first_control s = None -> exists q, formatpkg.QuoteString s = Ok q.
Proof.
  unfold first_control, formatpkg.QuoteString.
  assert (H : find (fun p : Z * rune => control (snd p)) (utf8.range s) = None ->
              exists parts, mapM (fun p : Z * rune => formatpkg.quote_rune (snd p))
                              (utf8.range s) = Ok parts).
  { induction (utf8.range s) as [| [idx r] rs IH]; [eauto |].
    cbn [find mapM snd]. destruct (control r) eqn:Ec; [discriminate |].
    intros Hrs. destruct (quote_rune_control r Ec) as (part & ->).
    destruct (IH Hrs) as (parts & ->). cbn. eauto. }
  destruct (find _ _); [discriminate |]. intros _.
  destruct (H eq_refl) as (parts & ->). cbn. eauto.
Qed.

(** X2. [FormatString] fails on the first control character without an
    escape, and on nothing else. *)
Theorem FormatString_errors (s : string) (ctx : formatpkg.Context) :
  match first_control s with
  | Some r => formatpkg.FormatString s ctx = Err (UnsupportedControlCharacter r)
  | None => exists t, formatpkg.FormatString s ctx = Ok t
  end.
Proof.
  unfold formatpkg.FormatString. rewrite ValidateCharacters_first_control.
  destruct (first_control s) eqn:E; [reflexivity |]. cbn [bind].
  destruct (formatpkg.NeedsQuoting s ctx); [| eauto].
  now apply QuoteString_first_control.
Qed.

Lemma decodePrimitiveToken_quoted (body : string) :
  decodePrimitiveToken (dquote ++ body ++ dquote)
  = let* s := parsepkg.unquote_loop body false in Ok (VString s).
Proof.
  rewrite <- UnquoteString_quoted. reflexivity.
Qed.

(** X3. the token [FormatString] writes for a string is read back by
    [decodePrimitiveToken] as that string. *)
Theorem FormatString_decodePrimitiveToken (s t : string) (ctx : formatpkg.Context) :
  formatpkg.FormatString s ctx = Ok t ->
  decodePrimitiveToken t
  = Ok (VString (if formatpkg.NeedsQuoting s ctx then runes_written s else s))
  /\ (well_formed s -> decodePrimitiveToken t = Ok (VString s)).
Proof.
  unfold formatpkg.FormatString.
  destruct (formatpkg.ValidateCharacters s); cbn [bind]; [| discriminate].
  intros H.
  assert (Hmain : decodePrimitiveToken t
                  = Ok (VString (if formatpkg.NeedsQuoting s ctx
                                 then runes_written s else s))).
  { destruct (formatpkg.NeedsQuoting s ctx) eqn:Eq.
    - unfold formatpkg.QuoteString in H.
      destruct (mapM _ _) as [parts |] eqn:E; cbn [bind] in H; [| discriminate].
      injection H as <-.
      now rewrite decodePrimitiveToken_quoted, (QuoteString_parts s parts E).
    - injection H as <-. now apply decodePrimitiveToken_unquoted with ctx. }
  split; [exact Hmain |].
  intros Hwf. rewrite Hmain. destruct (formatpkg.NeedsQuoting s ctx); [| reflexivity].
  now rewrite Hwf.
Qed.

End FormatString.

(** *** Keys as tokens *)

Section Keys.
Context {tables : unicode.Tables}.

Lemma IsValidUnquotedKey_head (key : string) :
  formatpkg.IsValidUnquotedKey key = true ->
  key <> "" /\ (byte_at key 0 =? 0x22) = false.
Proof.
  unfold formatpkg.IsValidUnquotedKey.
  destruct key as [| c t]; [discriminate |]. change (String.eqb (String c t) "") with false.
  cbv iota. intros H. split; [discriminate |].
  unfold byte_at. cbn [String.get]. apply Z.eqb_neq. intros E.
  unfold utf8.range in H. rewrite range_from_ascii in H by lia.
  cbn [forallb] in H. apply andb_true_iff in H as [H _].
  rewrite E in H. cbn in H. discriminate.
Qed.

Lemma decodeKeyToken_quoted (body : string) :
  decodeKeyToken (dquote ++ body ++ dquote) = parsepkg.unquote_loop body false.
Proof. rewrite <- UnquoteString_quoted. reflexivity. Qed.

(** X4. the literal [EncodeKey] writes for a key is read back by
    [decodeKeyToken] as that key. *)
Theorem EncodeKey_decodeKeyToken (key t : string) :
  formatpkg.EncodeKey key = Ok t ->
  decodeKeyToken t
  = Ok (if formatpkg.IsValidUnquotedKey key then key else runes_written key)
  /\ (well_formed key -> decodeKeyToken t = Ok key).
Proof.
  intros H.
  assert (Hquoted : forall q, formatpkg.QuoteString key = Ok q ->
                              decodeKeyToken q = Ok (runes_written key)).
  { intros q Hq. unfold formatpkg.QuoteString in Hq.
    destruct (mapM _ _) as [parts |] eqn:E; cbn [bind] in Hq; [| discriminate].
    injection Hq as <-.
    now rewrite decodeKeyToken_quoted, (QuoteString_parts key parts E). }
  assert (Hmain : decodeKeyToken t
                  = Ok (if formatpkg.IsValidUnquotedKey key then key
                        else runes_written key)).
  { unfold formatpkg.EncodeKey in H.
    destruct (String.eqb_spec key "") as [-> | Hne].
    - change (formatpkg.IsValidUnquotedKey "") with false. now apply Hquoted.
    - destruct (formatpkg.IsValidUnquotedKey key) eqn:Ev; [| now apply Hquoted].
      injection H as <-. destruct (IsValidUnquotedKey_head key Ev) as [_ Hq].
      unfold decodeKeyToken.
      destruct (String.eqb_spec key ""); [contradiction |].
      now rewrite Hq, Ev. }
  split; [exact Hmain |]. intros Hwf. rewrite Hmain.
  destruct (formatpkg.IsValidUnquotedKey key); [reflexivity | now rewrite Hwf].
Qed.

End Keys.

(** *** The errors of the encoder *)

Section EncoderErrors.
Context {tables : unicode.Tables} {clock : gotime.Clock}.

Lemma first_control_Some (s : string) (r : rune) :
  first_control s = Some r -> control r = true.
Proof.
  unfold first_control. destruct (find _ _) as [[i r'] |] eqn:E; [| discriminate].
  intros [= <-]. now apply find_some in E as [_ E].
Qed.

Lemma quote_rune_error (r : rune) (m : message) :
  formatpkg.quote_rune r = Err m -> m = UnsupportedControlCharacter r /\ control r = true.
Proof.
  unfold formatpkg.quote_rune, control.
  destruct (r =? 92); [discriminate |]. destruct (r =? 34); [discriminate |].
  destruct (r =? 10); [discriminate |]. destruct (r =? 13); [discriminate |].
  destruct (r =? 9); [discriminate |]. destruct (r <? 32); [| discriminate].
  now intros [= <-].
Qed.

Lemma QuoteString_control (s : string) (m : message) :
  formatpkg.QuoteString s = Err m -> control_error (New m).
Proof.
  unfold formatpkg.QuoteString.
  induction (utf8.range s) as [| [i r] rs IH]; [discriminate |].
  cbn [mapM snd]. destruct (formatpkg.quote_rune r) eqn:Er; cbn [bind].
  - destruct (mapM _ rs); cbn [bind] in *; [discriminate | exact IH].
  - intros [= <-]. apply quote_rune_error in Er as [-> Hc]. now exists r.
Qed.

Lemma FormatString_control (s : string) (ctx : formatpkg.Context) (m : message) :
  formatpkg.FormatString s ctx = Err m -> control_error (New m).
Proof.
  unfold formatpkg.FormatString. rewrite ValidateCharacters_first_control.
  destruct (first_control s) as [r |] eqn:E; cbn [bind].
  - intros [= <-]. exists r. split; [now apply (first_control_Some s) | reflexivity].
  - destruct (formatpkg.NeedsQuoting s ctx); [apply QuoteString_control | discriminate].
Qed.

Lemma encodeKey_control (key : string) (m : message) :
  encodeKey key = Err m -> control_error (New m).
Proof.
  unfold encodeKey, formatpkg.EncodeKey.
  destruct (String.eqb key ""); [apply QuoteString_control |].
  destruct (formatpkg.IsValidUnquotedKey key); [discriminate |]. apply QuoteString_control.
Qed.

Lemma formatPrimitive_control (v : normalizedValue) (ctx : formatContext) (m : message) :
  isPrimitive v = true -> formatPrimitive v ctx = Err m -> control_error (New m).
Proof.
  destruct v; cbn; try discriminate; intros _.
  - destruct b; discriminate.
  - intros H. eapply FormatString_control. exact H.
Qed.

Lemma mapM_control {A} (f : A -> result message string) (l : list A) (m : message) :
  (forall x m, In x l -> f x = Err m -> control_error (New m)) ->
  mapM f l = Err m -> control_error (New m).
Proof.
  induction l as [| x l IH]; intros Hf; [discriminate |].
  cbn [mapM]. destruct (f x) eqn:Ex; cbn [bind].
  - destruct (mapM f l) eqn:El; cbn [bind]; [discriminate |].
    intros [= <-]. apply IH; [| reflexivity]. intros y m' Hy. apply Hf. now right.
  - intros [= <-]. apply (Hf x); [now left | assumption].
Qed.

Lemma foc_emit line : fails_on_control (emit line).
Proof. intros lines err. discriminate. Qed.

Lemma foc_skip : fails_on_control skip.
Proof. intros lines err. discriminate. Qed.

Lemma foc_out_of_fuel : fails_on_control out_of_fuel.
Proof. intros lines err. discriminate. Qed.

Lemma foc_seq (a b : Enc) :
  fails_on_control a -> fails_on_control b -> fails_on_control (seq a b).
Proof.
  intros Ha Hb lines err. unfold seq.
  destruct (a lines) eqn:E; [apply Hb | intros [= <-]; now apply (Ha lines) | discriminate].
Qed.

Lemma foc_try {A} (r : result message A) (k : A -> Enc) :
  (forall m, r = Err m -> control_error (New m)) ->
  (forall a, fails_on_control (k a)) -> fails_on_control (try r k).
Proof.
  intros Hr Hk lines err. unfold try. destruct r; [apply Hk |].
  intros [= <-]. now apply Hr.
Qed.

Lemma foc_forEach {A} (f : A -> Enc) (l : list A) :
  (forall x, In x l -> fails_on_control (f x)) -> fails_on_control (forEach f l).
Proof.
  induction l as [| x l IH]; intros Hf; cbn.
  - apply foc_skip.
  - apply foc_seq; [apply Hf; now left | apply IH; intros; apply Hf; now right].
Qed.

Lemma foc_if (c : bool) (a b : Enc) :
  fails_on_control a -> fails_on_control b -> fails_on_control (if c then a else b).
Proof. destruct c; auto. Qed.

(** The cells of a table are primitive. *)
Lemma objField_primitive (obj : Object normalizedValue) (key : string) :
  forallb (fun field => isPrimitive (Value field)) (Fields obj) = true ->
  isPrimitive (objField obj key) = true.
Proof.
  intros H. unfold objField. destruct (find _ _) as [field |] eqn:E; [| reflexivity].
  apply find_some in E as [Hin _]. rewrite forallb_forall in H. now apply H.
Qed.

Lemma detectTabular_rows (values : list normalizedValue) (fields : list string)
    (row : normalizedValue) :
  detectTabular values = Some fields -> In row values ->
  exists obj, row = NObject obj
              /\ forallb (fun field => isPrimitive (Value field)) (Fields obj) = true.
Proof.
  intros Htab Hin.
  apply detectTabular_Some in Htab as (first & rest & -> & _ & Hp & -> & Hr).
  destruct Hin as [<- | Hin]; [eauto |].
  rewrite forallb_forall in Hr. specialize (Hr row Hin).
  unfold sameFieldSet in Hr. destruct row; try discriminate.
  apply andb_true_iff in Hr as [Hr _]. apply andb_true_iff in Hr as [_ Hr].
  eexists. split; [reflexivity |].
  rewrite forallb_forall in *. intros f Hf. specialize (Hr f Hf).
  now apply andb_true_iff in Hr as [_ Hr].
Qed.

Lemma tabularRow_control (values : list normalizedValue) (fields : list string)
    (row : normalizedValue) ctx delimiter (m : message) :
  detectTabular values = Some fields -> In row values ->
  tabularRow fields row ctx delimiter = Err m -> control_error (New m).
Proof.
  intros Htab Hin. destruct (detectTabular_rows _ _ _ Htab Hin) as (obj & -> & Hp).
  unfold tabularRow. destruct (mapM _ fields) eqn:E; cbn [bind]; [discriminate |].
  intros [= <-]. eapply mapM_control; [| exact E].
  intros field m' _. apply formatPrimitive_control. now apply objField_primitive.
Qed.

Ltac foc_step :=
  first [ apply foc_emit | apply foc_skip | apply foc_out_of_fuel
        | apply foc_seq | apply foc_if
        | apply foc_try; [intros ?; first [ apply encodeKey_control
                                           | apply formatPrimitive_control; reflexivity ]
                         | intros ?] ].

Lemma encoder_fails_on_control cfg (fuel : nat) :
  (forall obj depth, fails_on_control (encodeObject cfg fuel obj depth))
  /\ (forall key values depth root,
        fails_on_control (encodeArray cfg fuel key values depth root))
  /\ (forall item depth ctx, fails_on_control (encodeArrayItem cfg fuel item depth ctx))
  /\ (forall item depth ctx, fails_on_control (encodeListItem cfg fuel item depth ctx))
  /\ (forall obj depth ctx, fails_on_control (encodeObjectListItem cfg fuel obj depth ctx))
  /\ (forall k values depth ctx,
        fails_on_control (encodeArrayForObjectListItem cfg fuel k values depth ctx)).
Proof.
  induction fuel as [| fuel (IHo & IHa & IHai & IHli & IHoli & IHafo)].
  - repeat split; intros; apply foc_out_of_fuel.
  - assert (Hinline : forall values ctx m,
              isPrimitiveArray values = true ->
              mapM (fun v => formatPrimitive v ctx) values = Err m ->
              control_error (New m)).
    { intros values ctx m Hp. apply mapM_control. intros v m' Hv.
      apply formatPrimitive_control. unfold isPrimitiveArray in Hp.
      rewrite forallb_forall in Hp. now apply Hp. }
    assert (Hrows : forall values fields ctx delimiter depth,
              detectTabular values = Some fields ->
              fails_on_control
                (forEach (fun row =>
                            try (tabularRow fields row ctx delimiter)
                              (fun rowLine => emit (indent cfg (depth + 1) ++ rowLine)))
                         values)).
    { intros values fields ctx delimiter depth Htab. apply foc_forEach. intros row Hin.
      apply foc_try; [| intros; apply foc_emit].
      intros m. now apply (tabularRow_control values fields row). }
    split; [| split; [| split; [| split; [| split]]]].
    + intros obj depth. cbn [encodeObject]. apply foc_if; [apply foc_skip |].
      apply foc_forEach. intros field _.
      destruct (Value field) eqn:Ev; repeat foc_step; auto.
    + intros key values depth root. cbn [encodeArray].
      apply foc_try; [intros m; destruct (negb _); [apply encodeKey_control | discriminate] |].
      intros keyLiteral. destruct (isPrimitiveArray values) eqn:Ep.
      * apply foc_if; [| apply foc_emit].
        apply foc_try; [intros m; now apply Hinline | intros; apply foc_emit].
      * destruct (detectTabular values) eqn:Etab.
        -- apply foc_seq; [apply foc_emit | now apply Hrows].
        -- apply foc_seq; [apply foc_emit |]. apply foc_forEach. intros item _.
           apply foc_if; auto.
    + intros item depth ctx. cbn [encodeArrayItem].
      destruct item; repeat foc_step; auto.
    + intros item depth ctx. cbn [encodeListItem].
      destruct item; repeat foc_step; auto.
    + intros obj depth ctx. cbn [encodeObjectListItem].
      destruct (Fields obj) as [| first rest]; [apply foc_emit |].
      assert (Hremaining : fails_on_control
                (if (1 <? length (first :: rest))%nat
                 then encodeObject cfg fuel {| Fields := rest |} (depth + 1)
                 else skip)) by (apply foc_if; [apply IHo | apply foc_skip]).
      destruct (isPrimitive (Value first)) eqn:Ep.
      * apply foc_try; [apply encodeKey_control |]. intros keyLiteral.
        apply foc_try; [intros m; now apply formatPrimitive_control |]. intros token.
        apply foc_seq; [apply foc_emit | exact Hremaining].
      * destruct (Value first); repeat foc_step; auto.
    + intros k values depth ctx. cbn [encodeArrayForObjectListItem].
      destruct (detectTabular values) eqn:Etab.
      * apply foc_seq; [apply foc_emit | now apply Hrows].
      * destruct (isPrimitiveArray values) eqn:Ep.
        -- apply foc_if; [| apply foc_emit].
           apply foc_try; [intros m; now apply Hinline | intros; apply foc_emit].
        -- apply foc_seq; [apply foc_emit |]. apply foc_forEach. intros item _. apply IHli.
Qed.

Lemma encodeRoot_fails_on_control cfg fuel (v : normalizedValue) :
  fails_on_control (encodeRoot cfg fuel v).
Proof.
  destruct (encoder_fails_on_control cfg fuel) as (Ho & Ha & _).
  unfold encodeRoot. destruct v; repeat foc_step; auto.
Qed.

End EncoderErrors.

(** *** The errors of [normalize] and [Marshal] *)

Section NormalizeErrors.
Context {tables : unicode.Tables} {clock : gotime.Clock}.

Lemma wrap_field_unsupported {A} (key : string) (r : result error A) (e : error) :
  (forall e', r = Err e' -> unsupported_kind e') ->
  wrap_field key r = Err e -> unsupported_kind e.
Proof.
  intros H. destruct r as [a | e0]; cbn; [discriminate |]. intros [= <-].
  exact (H e0 eq_refl).
Qed.

Lemma normalize_errors cfg (v : any) (e : error) :
  normalize cfg v = Err e -> unsupported_kind e.
Proof.
  revert v e. fix IH 1. intros v e. destruct v; cbn [normalize]; try discriminate.
  - unfold normalizeNumberString. destruct (ParseFloat s); [| discriminate].
    destruct (_ || _); discriminate.
  - unfold normalizeFloat. destruct (IsNaN f); [discriminate |].
    destruct (_ || _); discriminate.
  - destruct v; [destruct (_ && _) |]; discriminate.
  - destruct (_ && _); discriminate.
  - destruct o as [fields]. cbn [Fields].
    induction fields as [| f fields IHf]; [discriminate |].
    cbn [mapM]. destruct (wrap_field (Key f) (normalize cfg (Value f))) eqn:Ef; cbn [bind].
    + destruct (mapM _ fields) eqn:El; cbn [bind] in *; [discriminate |].
      intros [= <-]. now apply IHf.
    + intros [= <-]. eapply wrap_field_unsupported; [| exact Ef]. apply IH.
  - destruct (wrap_field (Key f) (normalize cfg (Value f))) eqn:Ef; cbn [bind];
      [discriminate |].
    intros [= <-]. eapply wrap_field_unsupported; [| exact Ef]. apply IH.
  - destruct target; [apply IH | discriminate].
  - induction items as [| x items IHi]; [discriminate |].
    cbn [mapM]. destruct (normalize cfg x) eqn:Ex; cbn [bind].
    + destruct (mapM _ items) eqn:El; cbn [bind] in *; [discriminate |].
      intros [= <-]. now apply IHi.
    + intros [= <-]. now apply (IH x).
  - destruct stringKeys; [| intros [= <-]; now left].
    induction entries as [| [k x] entries IHe]; [discriminate |].
    cbn [mapM fst snd]. destruct (normalize cfg x) eqn:Ex; cbn [bind].
    + destruct (mapM _ entries) eqn:El; cbn [bind] in *; [discriminate |].
      intros [= <-]. now apply IHe.
    + intros [= <-]. now apply (IH x).
  - match goal with |- context [bind (?f fields) _] => set (each := f) end.
    assert (Heach : forall e', each fields = Err e' -> unsupported_kind e').
    { induction fields as [| [[[name omitEmpty] empty] x] fields IHf]; [discriminate |].
      intros e'. cbn [each]. fold each.
      destruct (omitEmpty && empty); [apply IHf |].
      destruct (wrap_field name (normalize cfg x)) eqn:Ex; cbn [bind].
      - destruct (each fields) eqn:El; cbn [bind]; [discriminate |].
        intros [= <-]. now apply IHf.
      - intros [= <-]. eapply wrap_field_unsupported; [| exact Ex]. apply IH. }
    destruct (each fields) eqn:El; cbn [bind]; [discriminate |].
    intros [= <-]. now apply Heach.
  - intros [= <-]. now right.
Qed.

(** X5. [Marshal] fails only on a value of an unsupported kind, on a map whose
    keys are not strings, and on a control character; never on an
    "unsupported primitive". *)
Theorem Marshal_errors cfg (v : any) (e : error) :
  Marshal cfg v = Failed e -> unsupported_kind e \/ control_error e.
Proof.
  unfold Marshal. destruct (normalize cfg v) as [n |] eqn:En.
  - destruct (encodeRoot cfg (encode_fuel n) n []) eqn:Er; try discriminate.
    intros [= <-]. right. eapply encodeRoot_fails_on_control. exact Er.
  - intros [= <-]. left. now apply (normalize_errors cfg v).
Qed.

End NormalizeErrors.

(** *** The errors of the parser name a line *)

Section ParserErrors.
Context {tables : unicode.Tables}.
Variable dcfg : decoderOptions.
Variable lines : list parsedLine.
Hypothesis Hnumbered : numbered lines.

Lemma number_range (i : nat) :
  (i < length lines)%nat -> 1 <= number (line_at lines i) <= Z.of_nat (length lines).
Proof. intros H. rewrite (Hnumbered i H). lia. Qed.

Lemma ranged_Done {A} (pos pos' : nat) (a : A) :
  (pos <= pos' <= length lines)%nat -> ranged lines pos (Done (a, pos')).
Proof. intros H. split; [discriminate |]. intros ? ? [= <- <-]. exact H. Qed.

Lemma ranged_OutOfFuel {A} (pos : nat) : ranged (A := A) lines pos OutOfFuel.
Proof. split; discriminate. Qed.

Lemma ranged_errorAt {A} (pos i : nat) (m : message) :
  (i < length lines)%nat -> ranged (A := A) lines pos (errorAt (number (line_at lines i)) m).
Proof.
  intros H. split; [| discriminate]. intros e [= <-].
  eexists _, _. split; [reflexivity | now apply number_range].
Qed.

Lemma ranged_wrap {A B} (pos i : nat) (r : result message A)
    (k : A -> outcome (B * nat)) :
  (i < length lines)%nat ->
  (forall a, ranged lines pos (k a)) ->
  ranged lines pos (obind (errorWrap (number (line_at lines i)) r) k).
Proof.
  intros Hi H. destruct r as [a | m]; cbn; [apply H |].
  split; [| discriminate]. intros e' [= <-].
  eexists _, _. split; [reflexivity | now apply number_range].
Qed.

Lemma ranged_bind {A B} (pos q : nat) (m : outcome (A * nat))
    (k : A * nat -> outcome (B * nat)) :
  ranged lines q m ->
  (forall a q', (q <= q' <= length lines)%nat -> ranged lines pos (k (a, q'))) ->
  ranged lines pos (obind m k).
Proof.
  intros [Hm Hq] Hk. destruct m as [[a q'] | e |]; cbn.
  - apply Hk. now apply (Hq a q').
  - split; [| discriminate]. intros e' [= <-]. now apply Hm.
  - apply ranged_OutOfFuel.
Qed.

Lemma ranged_weaken {A} (pos q : nat) (r : outcome (A * nat)) :
  (pos <= q)%nat -> ranged lines q r -> ranged lines pos r.
Proof.
  intros H [H1 H2]. split; [assumption |]. intros a p E. specialize (H2 a p E). lia.
Qed.

Ltac ranged_branch :=
  match goal with
  | |- ranged _ _ (if ?c then _ else _) => destruct c eqn:?
  | |- ranged _ _ (match ?x with _ => _ end) => destruct x eqn:?
  | |- ranged _ _ (obind (errorWrap _ _) _) => apply ranged_wrap; [lia | intros ?]
  | |- ranged _ _ (errorAt _ _) => apply ranged_errorAt; lia
  | |- ranged _ _ (Done (_, _)) => apply ranged_Done; lia
  | |- ranged _ _ (let (_, _) := ?x in _) => destruct x
  end.

Ltac ranged_call IHo IHa IHl IHs IHt :=
  first [ apply IHa; lia | apply IHo; lia | apply IHs; lia | apply IHl; lia
        | apply IHt; lia ].

Ltac ranged_solve IHo IHa IHl IHs IHt :=
  repeat ranged_branch;
  try first
    [ eapply ranged_weaken; [| ranged_call IHo IHa IHl IHs IHt]; lia
    | eapply ranged_bind;
      [ ranged_call IHo IHa IHl IHs IHt
      | intros ? ? ?; ranged_solve IHo IHa IHl IHs IHt ] ].

Lemma parseArray_tabular_ranged fuel header depth rows pos :
  (1 <= pos <= length lines)%nat ->
  ranged lines pos (parseArray_tabular dcfg lines fuel header depth rows pos).
Proof.
  revert rows pos. induction fuel as [| fuel IH]; intros rows pos Hpos;
    [apply ranged_OutOfFuel |].
  cbn [parseArray_tabular]. unfold current.
  destruct (Nat.leb_spec (length lines) pos).
  - repeat ranged_branch.
  - repeat ranged_branch.
    all: try (eapply ranged_weaken; [| apply IH]; lia).
Qed.

Lemma parser_ranged (fuel : nat) :
  (forall depth result pos, (pos <= length lines)%nat ->
     ranged lines pos (parseObject_loop dcfg lines fuel depth result pos))
  /\ (forall header depth pos, (1 <= pos <= length lines)%nat ->
        ranged lines pos (parseArray dcfg lines fuel header depth pos))
  /\ (forall header depth values pos, (1 <= pos <= length lines)%nat ->
        ranged lines pos (parseArray_list dcfg lines fuel header depth values pos))
  /\ (forall obj depth pos, (1 <= pos <= length lines)%nat ->
        ranged lines pos (collectObjectListSiblings dcfg lines fuel obj depth pos)).
Proof.
  induction fuel as [| fuel (IHo & IHa & IHl & IHs)].
  - split; [| split; [| split]]; intros; apply ranged_OutOfFuel.
  - pose proof (parseArray_tabular_ranged fuel) as IHt.
    split; [| split; [| split]].
    + intros depth result pos Hpos. cbn [parseObject_loop]. unfold current.
      destruct (Nat.leb_spec (length lines) pos); [repeat ranged_branch |].
      ranged_solve IHo IHa IHl IHs IHt.
    + intros header depth pos Hpos. cbn [parseArray].
      ranged_solve IHo IHa IHl IHs IHt.
    + intros header depth values pos Hpos. cbn [parseArray_list]. unfold current.
      destruct (Nat.leb_spec (length lines) pos); [repeat ranged_branch |].
      ranged_solve IHo IHa IHl IHs IHt.
    + intros obj depth pos Hpos. cbn [collectObjectListSiblings]. unfold current.
      destruct (Nat.leb_spec (length lines) pos); [repeat ranged_branch |].
      ranged_solve IHo IHa IHl IHs IHt.
Qed.

End ParserErrors.

(** *** The errors of [Decode] *)

Section DecodeErrors.
Context {tables : unicode.Tables}.
Variable dcfg : decoderOptions.

Lemma newParser_lines_Done (raws : list string) (idx : Z) (lines : list parsedLine) :
  newParser_lines dcfg raws idx = Done lines ->
  length lines = length raws
  /\ forall i, (i < length lines)%nat -> number (line_at lines i) = idx + Z.of_nat i + 1.
Proof.
  revert idx lines. induction raws as [| raw raws IH]; intros idx lines; cbn.
  - intros [= <-]. split; [reflexivity |]. cbn. lia.
  - assert (Hstep : forall line rest,
              newParser_lines dcfg raws (idx + 1) = Done rest ->
              number line = idx + 1 ->
              length (line :: rest) = S (length raws)
              /\ forall i, (i < length (line :: rest))%nat ->
                   number (line_at (line :: rest) i) = idx + Z.of_nat i + 1).
    { intros line rest Hrest Hline. destruct (IH _ _ Hrest) as [Hlen Hnum].
      split; [cbn; now rewrite Hlen |]. intros [| i] Hi; cbn in *; [lia |].
      unfold line_at in Hnum. rewrite Hnum by lia. lia. }
    destruct (String.eqb raw "").
    + destruct (newParser_lines dcfg raws (idx + 1)) as [rest | |] eqn:Er; cbn;
        try discriminate.
      intros [= <-]. now apply Hstep.
    + destruct (computeIndent dcfg raw) as [[i c] |]; cbn; [| discriminate].
      destruct (newParser_lines dcfg raws (idx + 1)) as [rest | |] eqn:Er; cbn;
        try discriminate.
      intros [= <-]. now apply Hstep.
Qed.

Lemma newParser_lines_Failed (raws : list string) (idx : Z) (e : error) :
  newParser_lines dcfg raws idx = Failed e ->
  exists line msg, e = parseError line msg /\ idx + 1 <= line <= idx + Z.of_nat (length raws).
Proof.
  revert idx e. induction raws as [| raw raws IH]; intros idx e; cbn [newParser_lines];
    [discriminate |].
  assert (Hrest : forall e', newParser_lines dcfg raws (idx + 1) = Failed e' ->
                    exists line msg, e' = parseError line msg
                      /\ idx + 1 <= line <= idx + Z.of_nat (length (raw :: raws))).
  { intros e' He'. destruct (IH _ _ He') as (line & msg & -> & Hl).
    eexists _, _. split; [reflexivity |]. cbn [length]. lia. }
  destruct (String.eqb raw "").
  - destruct (newParser_lines dcfg raws (idx + 1)) eqn:Er; cbn; try discriminate.
    intros [= <-]. now apply Hrest.
  - destruct (computeIndent dcfg raw) as [[i c] | m]; cbn.
    + destruct (newParser_lines dcfg raws (idx + 1)) eqn:Er; cbn; try discriminate.
      intros [= <-]. now apply Hrest.
    + intros [= <-]. eexists _, _. split; [reflexivity |]. cbn [length]. lia.
Qed.

(** X6. every error of [Decode] is a parse error that names a line of the
    document. *)
Theorem Decode_errors_located (data : string) (e : error) :
  Decode dcfg data = Failed e -> line_error (length (splitLines data)) e.
Proof.
  unfold Decode, newParser.
  destruct (newParser_lines dcfg (splitLines data) 0) as [lines | e' |] eqn:Enew;
    [| | discriminate].
  - destruct (newParser_lines_Done _ _ _ Enew) as [Hlen Hnum]. rewrite <- Hlen.
    assert (Hnumbered : numbered lines) by (intros i Hi; rewrite (Hnum i Hi); lia).
    destruct (parser_ranged dcfg lines Hnumbered (decode_fuel lines)) as (Ho & Ha & _).
    unfold parseDocument.
    destruct (Nat.leb_spec (length lines) (skipBlankLinesOutsideArrays lines 0))
      as [| Hpos]; [discriminate |].
    set (pos := skipBlankLinesOutsideArrays lines 0) in *. unfold current.
    assert (Hline : 1 <= number (line_at lines pos) <= Z.of_nat (length lines))
      by now apply number_range.
    assert (Hobj : forall e0,
              obind (parseObject dcfg lines (decode_fuel lines) 0 pos)
                (fun x => let (m, _) := x in Done (VObject m)) = Failed e0 ->
              line_error (length lines) e0).
    { intros e0. unfold parseObject.
      destruct (Ho 0 ∅ pos ltac:(lia)) as [Hfail _].
      destruct (parseObject_loop _ _ _ _ _ _) as [[m p] | e1 |]; cbn; try discriminate.
      intros [= <-]. now apply Hfail. }
    destruct (tryParseHeader _) as [hdr | m]; cbn [errorWrap obind];
      [| intros [= <-]; now eexists _, _].
    destruct (_ && _).
    { destruct (decodePrimitiveToken _); cbn; [discriminate |].
      intros [= <-]. now eexists _, _. }
    destruct hdr as [header |]; [| apply Hobj].
    destruct (_ && _); [| apply Hobj].
    destruct (Ha header 0 (S pos) ltac:(lia)) as [Hfail _].
    destruct (parseArray _ _ _ _ _ _) as [[v p] | e1 |]; cbn; try discriminate.
    intros [= <-]. now apply Hfail.
  - intros [= <-]. destruct (newParser_lines_Failed _ _ _ Enew) as (line & msg & -> & Hl).
    eexists _, _. split; [reflexivity | lia].
Qed.

End DecodeErrors.

(** *** What [parseArray] returns *)

Section ArrayResults.
Context {tables : unicode.Tables}.
Variable dcfg : decoderOptions.
Variable lines : list parsedLine.
Variable header : parsedHeader.

Lemma array_result_Failed (P : value -> Prop) (e : error) :
  array_result dcfg header P (Failed e).
Proof. intros v pos'. discriminate. Qed.

Lemma array_result_bind {A} (P : value -> Prop) (m : outcome A)
    (k : A -> outcome (value * nat)) :
  (forall a, array_result dcfg header P (k a)) -> array_result dcfg header P (obind m k).
Proof. intros H. destruct m; cbn; [apply H | |]; intros v pos'; discriminate. Qed.

Lemma array_result_wrap {A} (P : value -> Prop) (line : Z) (r : result message A)
    (k : A -> outcome (value * nat)) :
  (forall a, r = Ok a -> array_result dcfg header P (k a)) ->
  array_result dcfg header P (obind (errorWrap line r) k).
Proof. intros H. destruct r; cbn; [now apply H |]. intros v pos'; discriminate. Qed.

Lemma array_result_finish (P : value -> Prop) (l : list value) (pos : nat) (line : Z)
    (m : message) :
  Forall P l ->
  array_result dcfg header P
    (if strict dcfg && negb (Z.of_nat (length l) =? hLength header)
     then errorAt line m else Done (VArray l, pos)).
Proof.
  intros Hl v pos'. destruct (strict dcfg) eqn:Es; cbn [andb].
  - destruct (Z.eqb_spec (Z.of_nat (length l)) (hLength header)); cbn [negb];
      [| discriminate].
    intros [= <- <-]. eauto.
  - intros [= <- <-]. exists l. repeat split; [assumption | discriminate].
Qed.

Lemma array_result_Done (P : value -> Prop) (l : list value) (pos : nat) :
  (strict dcfg = true -> Z.of_nat (length l) = hLength header) ->
  Forall P l -> array_result dcfg header P (Done (VArray l, pos)).
Proof. intros Hc Hl v pos' [= <- <-]. exists l. auto. Qed.

Ltac declared_length :=
  let Hs := fresh "Hs" in
  intros Hs;
  first [ congruence
        | match goal with
          | H : _ && negb (_ =? _) = false |- _ =>
            try rewrite Hs in H; cbn [andb] in H; apply negb_false_iff in H;
            now apply Z.eqb_eq
          end ].

Ltac array_branch :=
  match goal with
  | |- array_result _ _ _ (if strict _ && negb (_ =? _) then errorAt _ _ else Done _) =>
    apply array_result_finish
  | |- array_result _ _ _ (if ?c then _ else _) => destruct c eqn:?
  | |- array_result _ _ _ (match ?x with _ => _ end) => destruct x eqn:?
  | |- array_result _ _ _ (obind (errorWrap _ _) _) => apply array_result_wrap; intros ? ?
  | |- array_result _ _ _ (obind _ _) => apply array_result_bind; intros ?
  | |- array_result _ _ _ (errorAt _ _) => apply array_result_Failed
  | |- array_result _ _ _ (Done (VArray _, _)) => apply array_result_Done; [declared_length |]
  | |- array_result _ _ _ (let (_, _) := ?x in _) => destruct x
  end.

Lemma Forall_True {A} (l : list A) : Forall (fun _ => True) l.
Proof. induction l; constructor; auto. Qed.

Lemma parseArray_list_result (fuel : nat) depth values pos :
  array_result dcfg header (fun _ => True)
    (parseArray_list dcfg lines fuel header depth values pos).
Proof.
  revert values pos.
  induction fuel as [| fuel IH]; intros values pos; [intros v pos'; discriminate |].
  cbn [parseArray_list].
  repeat array_branch; try apply Forall_True; try apply IH.
Qed.

Lemma decodePrimitiveToken_scalar (token : string) (v : value) :
  decodePrimitiveToken token = Ok v -> scalar v.
Proof.
  unfold decodePrimitiveToken, bind.
  repeat match goal with
         | |- (if ?c then _ else _) = _ -> _ => destruct c
         | |- (match ?x with _ => _ end) = _ -> _ => destruct x
         end; cbn; try discriminate; intros [= <-]; exact I.
Qed.

Lemma mapM_Forall {E A B} (f : A -> result E B) (Q : B -> Prop) (l : list A)
    (l' : list B) :
  (forall a b, f a = Ok b -> Q b) -> mapM f l = Ok l' -> Forall Q l'.
Proof.
  intros Hf. revert l'. induction l as [| x l IH]; intros l'; cbn [mapM].
  - intros [= <-]. constructor.
  - destruct (f x) eqn:Ex; cbn [bind]; [| discriminate].
    destruct (mapM f l); cbn [bind]; [| discriminate].
    intros [= <-]. constructor; eauto.
Qed.

Lemma tabularRowObject_dom (fields raw : list string) (row m : gmap string value) :
  tabularRowObject fields raw row = Ok m ->
  dom m = dom row ∪ list_to_set (take (length raw) fields).
Proof.
  revert raw row. induction fields as [| f fields IH]; intros raw row.
  - cbn. intros [= <-]. rewrite take_nil. set_solver.
  - destruct raw as [| token raw]; cbn [tabularRowObject].
    + intros [= <-]. cbn. set_solver.
    + destruct (decodePrimitiveToken token); cbn [bind]; [| discriminate].
      intros H. rewrite (IH _ _ H). cbn [length take list_to_set].
      rewrite dom_insert_L. set_solver.
Qed.

Lemma tabular_row_ok (fields raw : list string) (m : gmap string value) :
  tabularRowObject fields raw ∅ = Ok m ->
  strict dcfg && negb (length raw =? length fields)%nat = false ->
  table_row dcfg fields (VObject m).
Proof.
  intros Hrow Hwidth. apply tabularRowObject_dom in Hrow.
  rewrite dom_empty_L, (left_id_L ∅ (∪)) in Hrow.
  exists m. split; [reflexivity |]. rewrite Hrow. split.
  - intros k Hk. apply elem_of_list_to_set in Hk. apply elem_of_list_to_set.
    apply elem_of_take in Hk as (i & Hi & _). now apply (list_elem_of_lookup_2 _ i).
  - intros Hs. rewrite Hs in Hwidth. cbn [andb] in Hwidth.
    apply negb_false_iff, Nat.eqb_eq in Hwidth. now rewrite Hwidth, take_ge by lia.
Qed.

Lemma parseArray_tabular_result (fuel : nat) depth rows pos :
  Forall (table_row dcfg (hFields header)) rows ->
  array_result dcfg header (table_row dcfg (hFields header))
    (parseArray_tabular dcfg lines fuel header depth rows pos).
Proof.
  revert rows pos.
  induction fuel as [| fuel IH]; intros rows pos Hrows; [intros v pos'; discriminate |].
  cbn [parseArray_tabular].
  repeat array_branch; try assumption; try (apply IH; assumption).
  all: apply IH; apply Forall_app; split; [assumption |]; repeat constructor.
  all: eapply tabular_row_ok; eassumption.
Qed.

Lemma parseArray_eq (fuel : nat) depth pos :
  parseArray dcfg lines (S fuel) header depth pos
  = if 0 <? len (hInlineValues header) then
      obind (errorWrap (number (line_at lines (pos - 1)))
               (parsepkg.SplitInlineValues (hInlineValues header)
                  (Delimiter_rune (hDelimiter header))))
        (fun raw =>
           obind (errorWrap (number (line_at lines (pos - 1)))
                    (mapM decodePrimitiveToken raw))
             (fun values =>
                if strict dcfg && negb (Z.of_nat (length values) =? hLength header)
                then errorAt (number (line_at lines (pos - 1)))
                       (InlineLengthMismatch (hLength header)
                          (Z.of_nat (length values)))
                else Done (VArray values, pos)))
    else if (0 <? length (hFields header))%nat
    then parseArray_tabular dcfg lines fuel header depth [] pos
    else parseArray_list dcfg lines fuel header depth [] pos.
Proof. reflexivity. Qed.

(** X7. what [parseArray] returns is an array; in strict mode it has the
    declared length; its elements are scalars when the header carries inline
    values, and otherwise, when the header declares fields, objects whose
    keys are among the fields, and are all the fields in strict mode. *)
Theorem parseArray_result (fuel : nat) depth pos (v : value) (pos' : nat) :
  parseArray dcfg lines fuel header depth pos = Done (v, pos') ->
  exists l,
    v = VArray l
    /\ (strict dcfg = true -> Z.of_nat (length l) = hLength header)
    /\ (hInlineValues header <> "" -> Forall scalar l)
    /\ (hInlineValues header = "" -> hFields header <> [] ->
        Forall (table_row dcfg (hFields header)) l).
Proof.
  destruct fuel as [| fuel]; [discriminate |]. rewrite parseArray_eq.
  destruct (String.eqb_spec (hInlineValues header) "") as [E | Hne].
  - rewrite E. change (0 <? len "") with false. cbv iota.
    destruct (hFields header) as [| f fs] eqn:Ef.
    + change (0 <? length (@nil string))%nat with false. cbv iota. intros H.
      destruct (parseArray_list_result fuel depth [] pos v pos' H) as (l & -> & _ & Hlen).
      exists l. repeat split; auto; congruence.
    + change (0 <? length (f :: fs))%nat with true. cbv iota. intros H.
      destruct (parseArray_tabular_result fuel depth [] pos (List.Forall_nil _) v pos' H)
        as (l & -> & Hrows & Hlen).
      exists l. rewrite Ef in Hrows. repeat split; auto; congruence.
  - rewrite len_pos by assumption. intros H.
    match type of H with ?r = _ => assert (Hres : array_result dcfg header scalar r) end.
    { apply array_result_bind. intros raw.
      destruct (mapM decodePrimitiveToken raw) as [values |] eqn:Ev; cbn;
        [| apply array_result_Failed].
      apply array_result_finish.
      eapply mapM_Forall; [| exact Ev]. intros a b. apply decodePrimitiveToken_scalar. }
    destruct (Hres v pos' H) as (l & -> & Hs & Hlen).
    exists l. repeat split; auto; congruence.
Qed.

End ArrayResults.

(** *** Line terminators *)

Section Lines.
Context {tables : unicode.Tables}.

Lemma line_byte_eqb (c : ascii) :
  line_byte c = true -> Ascii.eqb c "010" = false /\ c <> "013"%char.
Proof.
  unfold line_byte. intros H. apply andb_true_iff in H as [H1 H2].
  apply negb_true_iff, Z.eqb_neq in H1, H2. split.
  - apply Ascii.eqb_neq. intros ->. now apply H1.
  - intros ->. now apply H2.
Qed.

Lemma SplitByte_line (l t : string) :
  all_bytes line_byte l = true ->
  gostrings.SplitByte (l ++ String "010" t) "010" = l :: gostrings.SplitByte t "010".
Proof.
  induction l as [| c l IH]; intros H; [reflexivity |].
  rewrite all_bytes_cons in H. apply andb_true_iff in H as [Hc Hl].
  rewrite app_cons. cbn [gostrings.SplitByte].
  destruct (line_byte_eqb c Hc) as [-> _]. now rewrite (IH Hl).
Qed.

Lemma SplitByte_last_line (l : string) :
  all_bytes line_byte l = true -> gostrings.SplitByte l "010" = [l].
Proof.
  induction l as [| c l IH]; intros H; [reflexivity |].
  rewrite all_bytes_cons in H. apply andb_true_iff in H as [Hc Hl].
  cbn [gostrings.SplitByte]. destruct (line_byte_eqb c Hc) as [-> _]. now rewrite (IH Hl).
Qed.

Lemma Join_cons (x y sep : string) (l : list string) :
  gostrings.Join (x :: y :: l) sep = (x ++ sep ++ gostrings.Join (y :: l) sep)%string.
Proof. reflexivity. Qed.

Lemma SplitByte_Join (lines : list string) :
  lines <> [] -> Forall (fun l => all_bytes line_byte l = true) lines ->
  gostrings.SplitByte (gostrings.Join lines LF) "010" = lines.
Proof.
  induction lines as [| x lines IH]; [congruence |].
  intros _ H. inversion H as [| ? ? Hx Hl]; subst.
  destruct lines as [| y lines]; [now apply SplitByte_last_line |].
  rewrite Join_cons. unfold LF at 1. rewrite app_cons, app_nil_l.
  rewrite SplitByte_line by assumption. now rewrite IH.
Qed.

Lemma ReplaceCRLF_line (l t : string) :
  all_bytes line_byte l = true ->
  gostrings.ReplaceCRLF (l ++ t) = (l ++ gostrings.ReplaceCRLF t)%string.
Proof.
  induction l as [| c l IH]; intros H; [reflexivity |].
  rewrite all_bytes_cons in H. apply andb_true_iff in H as [Hc Hl].
  rewrite !app_cons. destruct (line_byte_eqb c Hc) as [_ Hcr].
  assert (Hstep : forall u, gostrings.ReplaceCRLF (String c u)
                            = String c (gostrings.ReplaceCRLF u)).
  { intros u. cbn [gostrings.ReplaceCRLF].
    destruct c as [[] [] [] [] [] [] [] []]; try reflexivity. contradiction. }
  now rewrite Hstep, IH.
Qed.

Lemma ReplaceCRLF_Join (lines : list string) (sep : string) :
  sep = LF \/ sep = CRLF ->
  Forall (fun l => all_bytes line_byte l = true) lines ->
  gostrings.ReplaceCRLF (gostrings.Join lines sep) = gostrings.Join lines LF.
Proof.
  intros Hsep. induction lines as [| x lines IH]; [reflexivity |].
  intros H. inversion H as [| ? ? Hx Hl]; subst.
  destruct lines as [| y lines].
  - cbn [gostrings.Join String.concat]. rewrite <- (string_app_nil_r x) at 1.
    rewrite ReplaceCRLF_line by assumption. cbn [gostrings.ReplaceCRLF].
    apply string_app_nil_r.
  - rewrite !Join_cons, ReplaceCRLF_line by assumption. f_equal.
    specialize (IH Hl).
    destruct Hsep as [-> | ->]; unfold LF, CRLF in *; rewrite !app_cons, !app_nil_l;
      cbn [gostrings.ReplaceCRLF]; now rewrite IH.
Qed.

Lemma removelast_app_one {A} (l : list A) (x : A) : removelast (l ++ [x])%list = l.
Proof. now rewrite removelast_app, app_nil_r by discriminate. Qed.

Lemma Join_app_sep (lines : list string) (sep : string) :
  lines <> [] ->
  (gostrings.Join lines sep ++ sep)%string = gostrings.Join (lines ++ [""])%list sep.
Proof.
  induction lines as [| x lines IH]; [congruence |]. intros _.
  destruct lines as [| y lines].
  - cbn. now rewrite string_app_nil_r.
  - change ((x :: y :: lines) ++ [""])%list with (x :: y :: (lines ++ [""]))%list.
    rewrite !Join_cons, !string_app_assoc. do 2 f_equal.
    now apply (IH ltac:(discriminate)).
Qed.

(** The lines [splitLines] makes of a document do not depend on the line
    terminator nor on a final one. *)
Lemma splitLines_Join (lines : list string) (sep : string) :
  sep = LF \/ sep = CRLF ->
  lines <> [] ->
  Forall (fun l => all_bytes line_byte l = true) lines ->
  splitLines (gostrings.Join lines sep ++ sep) = lines
  /\ (List.last lines "" <> "" -> splitLines (gostrings.Join lines sep) = lines).
Proof.
  intros Hsep Hne Hlines. split.
  - rewrite Join_app_sep by assumption. unfold splitLines.
    rewrite ReplaceCRLF_Join; [| assumption |].
    + rewrite SplitByte_Join.
      * rewrite last_last. apply removelast_app_one.
      * now destruct lines.
      * apply Forall_app. split; [assumption | now repeat constructor].
    + apply Forall_app. split; [assumption | now repeat constructor].
  - intros Hlast. unfold splitLines. rewrite ReplaceCRLF_Join by assumption.
    rewrite SplitByte_Join by assumption.
    assert (E : List.last lines "x" = List.last lines "").
    { clear -Hne. induction lines as [| a [| b l] IH]; [congruence | reflexivity |].
      apply (IH ltac:(discriminate)). }
    rewrite E. destruct (List.last lines ""); [congruence | reflexivity].
Qed.

(** X8. [Decode] reads the same from a document whether its lines end in a
    line feed or in a carriage return and a line feed, and whether or not
    the last line is terminated. *)
Theorem Decode_line_terminators dcfg (lines : list string) :
  lines <> [] ->
  Forall (fun l => all_bytes line_byte l = true) lines ->
  List.last lines "" <> "" ->
  Decode dcfg (gostrings.Join lines LF ++ LF) = Decode dcfg (gostrings.Join lines LF)
  /\ Decode dcfg (gostrings.Join lines CRLF) = Decode dcfg (gostrings.Join lines LF)
  /\ Decode dcfg (gostrings.Join lines CRLF ++ CRLF) = Decode dcfg (gostrings.Join lines LF).
Proof.
  intros Hne Hlines Hlast.
  destruct (splitLines_Join lines LF (or_introl eq_refl) Hne Hlines) as [H1 H2].
  destruct (splitLines_Join lines CRLF (or_intror eq_refl) Hne Hlines) as [H3 H4].
  unfold Decode, newParser.
  now rewrite H1, (H2 Hlast), H3, (H4 Hlast).
Qed.

End Lines.

(** *** Runes and bytes *)

Section Runes.

Lemma lor_big (x y : Z) : 0 <= x -> 0 <= y -> 0x80 <= x \/ 0x80 <= y -> 0x80 <= Z.lor x y.
Proof.
  intros Hx Hy H.
  assert (Hlog : 7 <= Z.log2 (Z.lor x y)).
  { rewrite Z.log2_lor by assumption.
    destruct H as [H | H]; apply (Z.log2_le_pow2 _ 7) in H; lia. }
  destruct (Z.eq_dec (Z.lor x y) 0) as [E | E]; [rewrite E in Hlog; cbn in Hlog; lia |].
  assert (Hpos : 0 < Z.lor x y) by (pose proof (proj2 (Z.lor_nonneg x y) (conj Hx Hy)); lia).
  now apply (Z.log2_le_pow2 _ 7).
Qed.

Lemma first_spec (b : Z) (sz : nat) (lo hi : Z) :
  utf8.first b = Some (sz, lo, hi) ->
  0x80 <= lo /\ hi <= 0xBF
  /\ ((sz = 2%nat /\ 0xC2 <= b <= 0xDF)
      \/ (sz = 3%nat /\ 0xE0 <= b <= 0xEF /\ (b = 0xE0 -> 0xA0 <= lo))
      \/ (sz = 4%nat /\ 0xF0 <= b <= 0xF4 /\ (b = 0xF0 -> 0x90 <= lo))).
Proof.
  unfold utf8.first.
  repeat match goal with
         | |- context [if ?c then _ else _] => destruct c eqn:?
         end; intros [= <- <- <-] || discriminate; (split; [| split]); lia.
Qed.

Lemma continuation_range (c : ascii) :
  utf8.continuation (byteZ c) = true -> high_byte c = true.
Proof.
  unfold utf8.continuation, high_byte. intros H. apply andb_true_iff in H as [H _].
  exact H.
Qed.

Lemma land_low (a n : Z) : 0 <= n -> 0 <= Z.land a (Z.ones n) < 2 ^ n.
Proof. intros Hn. rewrite Z.land_ones by assumption. apply Z.mod_pos_bound. lia. Qed.

Lemma shiftl_land_nonneg (a m n : Z) : 0 <= m -> 0 <= Z.shiftl (Z.land a (Z.ones m)) n.
Proof. intros Hm. apply Z.shiftl_nonneg. now apply land_low. Qed.

(** A leading byte that is not ASCII starts a rune of at least U+0080 (or
    U+FFFD), made of that byte and, possibly, of continuation bytes. *)
Lemma DecodeRune_high (c : ascii) (t : string) :
  0x80 <= byteZ c ->
  exists r p rest,
    utf8.DecodeRuneInString (String c t) = (r, String.length p)
    /\ String c t = (p ++ rest)%string
    /\ p <> ""
    /\ all_bytes high_byte p = true
    /\ 0x80 <= r.
Proof.
  intros Hc.
  assert (Hhigh : forall x, 0x80 <= byteZ x -> high_byte x = true)
    by (intros x Hx; unfold high_byte; apply Z.leb_le; exact Hx).
  assert (Hone : exists r p rest,
             (utf8.RuneError, 1%nat) = (r, String.length p)
             /\ String c t = (p ++ rest)%string /\ p <> ""
             /\ all_bytes high_byte p = true /\ 0x80 <= r).
  { exists utf8.RuneError, (String c ""), t. repeat split; try discriminate.
    - rewrite all_bytes_cons, Hhigh by assumption. reflexivity. }
  unfold utf8.DecodeRuneInString. unfold utf8.RuneSelf.
  destruct (Z.ltb_spec (byteZ c) 128) as [Hlt | _]; [lia |].
  destruct (utf8.first (byteZ c)) as [[[sz lo] hi] |] eqn:Ef; [| exact Hone].
  destruct (first_spec _ _ _ _ Ef) as (Hlo & Hhi & Hsz).
  destruct t as [| c1 t1]; [exact Hone |].
  destruct ((byteZ c1 <? lo) || (hi <? byteZ c1)) eqn:E1; [exact Hone |].
  apply orb_false_iff in E1 as [E1 E1']. apply Z.ltb_ge in E1, E1'.
  pose proof (byteZ_range c) as Rc. pose proof (byteZ_range c1) as Rc1.
  change 0x1F with (Z.ones 5). change 0x0F with (Z.ones 4). change 0x07 with (Z.ones 3).
  change 0x3F with (Z.ones 6).
  destruct (sz <=? 2)%nat eqn:E2.
  { exists (Z.lor (Z.shiftl (Z.land (byteZ c) (Z.ones 5)) 6) (Z.land (byteZ c1) (Z.ones 6))),
      (String c (String c1 "")), t1.
    split; [reflexivity |]. split; [reflexivity |]. split; [discriminate |].
    split; [rewrite !all_bytes_cons, !Hhigh by lia; reflexivity |].
    apply lor_big; [now apply shiftl_land_nonneg | apply land_low; lia |]. left.
    rewrite Z.shiftl_mul_pow2, Z.land_ones by lia.
    apply Nat.leb_le in E2.
    destruct Hsz as [[-> Hb] | [[-> _] | [-> _]]]; [| lia | lia].
    change (2 ^ 5) with 32. change (2 ^ 6) with 64.
    pose proof (Z.mod_pos_bound (byteZ c) 32 ltac:(lia)).
    pose proof (Z.div_mod (byteZ c) 32 ltac:(lia)). nia. }
  destruct t1 as [| c2 t2]; [exact Hone |].
  destruct (utf8.continuation (byteZ c2)) eqn:Ec2; cbn [negb]; [| exact Hone].
  apply continuation_range in Ec2.
  destruct (sz <=? 3)%nat eqn:E3.
  { eexists _, (String c (String c1 (String c2 ""))), t2.
    split; [reflexivity |]. split; [reflexivity |]. split; [discriminate |].
    split; [rewrite !all_bytes_cons, !Hhigh, Ec2 by lia; reflexivity |].
    apply lor_big; [| apply land_low; lia |].
    { apply Z.lor_nonneg. split; now apply shiftl_land_nonneg. }
    left. apply lor_big; [now apply shiftl_land_nonneg | now apply shiftl_land_nonneg |].
    rewrite !Z.shiftl_mul_pow2, !Z.land_ones by lia.
    apply Nat.leb_gt in E2. apply Nat.leb_le in E3.
    destruct Hsz as [[-> _] | [[_ [Hb Hlo']] | [-> _]]]; [lia | | lia].
    change (2 ^ 4) with 16. change (2 ^ 6) with 64. change (2 ^ 12) with 4096.
    pose proof (Z.mod_pos_bound (byteZ c) 16 ltac:(lia)).
    pose proof (Z.div_mod (byteZ c) 16 ltac:(lia)).
    pose proof (Z.mod_pos_bound (byteZ c1) 64 ltac:(lia)).
    pose proof (Z.div_mod (byteZ c1) 64 ltac:(lia)).
    destruct (Z.eq_dec (byteZ c) 0xE0) as [E | E]; [specialize (Hlo' E); right | left]; nia. }
  destruct t2 as [| c3 t3]; [exact Hone |].
  destruct (utf8.continuation (byteZ c3)) eqn:Ec3; cbn [negb]; [| exact Hone].
  apply continuation_range in Ec3.
  eexists _, (String c (String c1 (String c2 (String c3 "")))), t3.
  split; [reflexivity |]. split; [reflexivity |]. split; [discriminate |].
  split; [rewrite !all_bytes_cons, !Hhigh, Ec2, Ec3 by lia; reflexivity |].
  apply lor_big; [| apply land_low; lia |].
  { apply Z.lor_nonneg. split; [| now apply shiftl_land_nonneg].
    apply Z.lor_nonneg. split; now apply shiftl_land_nonneg. }
  left. apply lor_big; [| now apply shiftl_land_nonneg |].
  { apply Z.lor_nonneg. split; now apply shiftl_land_nonneg. }
  left. apply lor_big; [now apply shiftl_land_nonneg | now apply shiftl_land_nonneg |].
  rewrite !Z.shiftl_mul_pow2, !Z.land_ones by lia.
  apply Nat.leb_gt in E2, E3.
  destruct Hsz as [[-> _] | [[-> _] | [_ [Hb Hlo']]]]; [lia | lia |].
  change (2 ^ 3) with 8. change (2 ^ 6) with 64. change (2 ^ 12) with 4096.
  change (2 ^ 18) with 262144.
  pose proof (Z.mod_pos_bound (byteZ c) 8 ltac:(lia)).
  pose proof (Z.div_mod (byteZ c) 8 ltac:(lia)).
  pose proof (Z.mod_pos_bound (byteZ c1) 64 ltac:(lia)).
  pose proof (Z.div_mod (byteZ c1) 64 ltac:(lia)).
  destruct (Z.eq_dec (byteZ c) 0xF0) as [E | E]; [specialize (Hlo' E); right | left]; nia.
Qed.

Lemma range_from_skip (p rest : string) (idx : Z) :
  utf8.range_from (p ++ rest) idx (String.length p)
  = utf8.range_from rest (idx + len p) 0.
Proof.
  revert idx. induction p as [| c p IH]; intros idx.
  - unfold len. cbn. now rewrite Z.add_0_r.
  - change (String c p ++ rest)%string with (String c (p ++ rest)).
    cbn [String.length utf8.range_from]. rewrite IH. f_equal. unfold len.
    cbn [String.length]. lia.
Qed.

(** Strings decompose into runes: an ASCII byte, or a rune of at least
    U+0080 made of bytes that are not ASCII. *)
Lemma rune_ind (P : string -> Prop) :
  P "" ->
  (forall c t, byteZ c < 0x80 -> P t -> P (String c t)) ->
  (forall p rest r,
      p <> "" -> all_bytes high_byte p = true -> 0x80 <= r ->
      utf8.DecodeRuneInString (p ++ rest) = (r, String.length p) ->
      (forall idx, utf8.range_from (p ++ rest) idx 0
                   = (idx, r) :: utf8.range_from rest (idx + len p) 0) ->
      P rest -> P (p ++ rest)%string) ->
  forall s, P s.
Proof.
  intros Hnil Hascii Hhigh s.
  remember (String.length s) as n eqn:En. revert s En.
  induction n as [n IH] using lt_wf_ind. intros s En.
  destruct s as [| c t]; [exact Hnil |].
  destruct (Z.lt_ge_cases (byteZ c) 0x80) as [Hlt | Hge].
  - apply Hascii; [assumption |]. apply (IH (String.length t)); [| reflexivity].
    subst n. cbn. lia.
  - destruct (DecodeRune_high c t ltac:(lia)) as (r & p & rest & Hd & Hs & Hp & Hb & Hr).
    rewrite Hs in *. apply (Hhigh p rest r); try assumption.
    + intros idx. destruct p as [| x p]; [congruence |].
      change (String x p ++ rest)%string with (String x (p ++ rest)) in *.
      cbn [utf8.range_from]. rewrite Hd. cbn [String.length Nat.pred].
      rewrite range_from_skip. do 2 f_equal. unfold len. cbn [String.length]. lia.
    + apply (IH (String.length rest)); [| reflexivity]. subst n.
      rewrite length_app. destruct p; [congruence |]. cbn. lia.
Qed.

Lemma bytes_from_app (p s : string) (idx : Z) :
  bytes_from (p ++ s) idx = (bytes_from p idx ++ bytes_from s (idx + len p))%list.
Proof.
  revert idx. induction p as [| c p IH]; intros idx.
  - unfold len. cbn. now rewrite Z.add_0_r.
  - change (String c p ++ s)%string with (String c (p ++ s)).
    cbn [bytes_from app]. rewrite IH. do 3 f_equal. unfold len. cbn [String.length]. lia.
Qed.

Lemma high_byte_range (c : ascii) : high_byte c = true -> 0x80 <= byteZ c.
Proof. unfold high_byte. apply Z.leb_le. Qed.

(** The bytes of a rune that is not ASCII clear the escape and change
    nothing else. *)
Lemma index_loop_high_bytes (p : string) (idx : Z) (l : list (Z * rune)) (target : rune)
    (inQuotes escaped : bool) :
  target < 0x80 -> all_bytes high_byte p = true -> p <> "" ->
  indexOutsideQuotes_loop (bytes_from p idx ++ l) target inQuotes escaped
  = indexOutsideQuotes_loop l target inQuotes false.
Proof.
  intros Ht. revert idx escaped. induction p as [| c p IH]; intros idx escaped; [congruence |].
  rewrite all_bytes_cons. intros H _. apply andb_true_iff in H as [Hc Hp].
  apply high_byte_range in Hc. cbn [bytes_from app indexOutsideQuotes_loop].
  assert (Hstep : forall esc, indexOutsideQuotes_loop (bytes_from p (idx + 1) ++ l) target
                                inQuotes esc
                              = indexOutsideQuotes_loop l target inQuotes false
                                \/ (p = "" /\ esc = true)).
  { intros esc. destruct p as [| x p]; [| left; apply IH; [assumption | discriminate]].
    destruct esc; [now right | now left]. }
  replace (byteZ c =? 0x5C) with false by (symmetry; apply Z.eqb_neq; lia).
  replace (byteZ c =? 0x22) with false by (symmetry; apply Z.eqb_neq; lia).
  replace (byteZ c =? target) with false by (symmetry; apply Z.eqb_neq; lia).
  cbn [andb]. rewrite andb_false_r.
  destruct escaped.
  - destruct (Hstep false) as [E | [_ E]]; [exact E | discriminate].
  - destruct (Hstep false) as [E | [_ E]]; [exact E | discriminate].
Qed.

(** Looking for an ASCII character outside quotes, rune by rune, is looking
    for it byte by byte. *)
Lemma index_loop_bytes (s : string) (target : rune) :
  target < 0x80 ->
  forall idx inQuotes escaped,
    indexOutsideQuotes_loop (utf8.range_from s idx 0) target inQuotes escaped
    = indexOutsideQuotes_loop (bytes_from s idx) target inQuotes escaped.
Proof.
  intros Ht. induction s as [| c t Hc IH | p rest r Hp Hb Hr Hd Hrange IH] using rune_ind;
    intros idx inQuotes escaped.
  - reflexivity.
  - rewrite range_from_ascii by assumption. cbn [bytes_from indexOutsideQuotes_loop].
    now rewrite !IH.
  - rewrite Hrange, bytes_from_app, index_loop_high_bytes by assumption.
    cbn [indexOutsideQuotes_loop].
    replace (r =? 0x5C) with false by (symmetry; apply Z.eqb_neq; lia).
    replace (r =? 0x22) with false by (symmetry; apply Z.eqb_neq; lia).
    replace (r =? target) with false by (symmetry; apply Z.eqb_neq; lia).
    cbn [andb]. rewrite andb_false_r. rewrite IH. now destruct escaped.
Qed.

Lemma indexOutsideQuotes_bytes (s : string) (target : rune) :
  target < 0x80 ->
  indexOutsideQuotes s target = indexOutsideQuotes_loop (bytes_from s 0) target false false.
Proof. intros Ht. now apply index_loop_bytes. Qed.

(** An ASCII rune occurs in a string when one of its bytes is that rune. *)
Lemma ContainsRune_bytes (s : string) (r : rune) :
  r < 0x80 ->
  gostrings.ContainsRune s r = negb (all_bytes (fun c => negb (byteZ c =? r)) s).
Proof.
  intros Hr. unfold gostrings.ContainsRune, utf8.range. generalize 0 at 1.
  induction s as [| c t Hc IH | p rest r' Hp Hb Hr' Hd Hrange IH] using rune_ind; intros idx.
  - reflexivity.
  - rewrite range_from_ascii by assumption. cbn [existsb snd]. rewrite all_bytes_cons, IH.
    now destruct (byteZ c =? r).
  - rewrite Hrange. cbn [existsb snd]. rewrite all_bytes_app, IH.
    replace (r' =? r) with false by (symmetry; apply Z.eqb_neq; lia).
    replace (all_bytes (fun c => negb (byteZ c =? r)) p) with true; [reflexivity |].
    symmetry. apply (all_bytes_impl high_byte); [| assumption].
    intros c Hc. apply high_byte_range in Hc. apply negb_true_iff, Z.eqb_neq. lia.
Qed.

End Runes.

(** *** Trimming white space *)

Section Trimming.

Lemma drop_bytes_length (w : nat) (s : string) :
  (String.length (drop_bytes w s) <= String.length s)%nat
  /\ ((0 < w)%nat -> s <> "" -> (String.length (drop_bytes w s) < String.length s)%nat).
Proof.
  revert s. induction w as [| w IH]; intros s; [cbn; split; lia |].
  destruct s as [| c t]; [cbn; split; [lia | congruence] |].
  cbn [drop_bytes String.length]. destruct (IH t) as [H _]. split; lia.
Qed.

Lemma DecodeRune_width (s : string) (r : rune) (w : nat) :
  utf8.DecodeRuneInString s = (r, w) -> (0 < w)%nat -> s <> "".
Proof. destruct s; [intros [= _ <-]; lia | discriminate]. Qed.

Lemma TrimLeft_fuel_length (fuel : nat) (s : string) :
  (String.length (gostrings.TrimLeft_fuel fuel s) <= String.length s)%nat
  /\ (String.length (gostrings.TrimLeft_fuel fuel s) = String.length s ->
      gostrings.TrimLeft_fuel fuel s = s).
Proof.
  revert s. induction fuel as [| fuel IH]; intros s; [cbn; split; [lia | reflexivity] |].
  cbn [gostrings.TrimLeft_fuel].
  destruct (utf8.DecodeRuneInString s) as [r w] eqn:Ed.
  destruct ((0 <? w)%nat && unicode.IsSpace r) eqn:E; [| split; [lia | reflexivity]].
  apply andb_true_iff in E as [Hw _]. apply Nat.ltb_lt in Hw.
  destruct (IH (drop_bytes w s)) as [H1 _].
  destruct (drop_bytes_length w s) as [_ H2].
  specialize (H2 Hw (DecodeRune_width _ _ _ Ed Hw)). split; lia.
Qed.

Lemma TrimRightSpace_length (s : string) :
  (String.length (gostrings.TrimRightSpace s) <= String.length s)%nat
  /\ (String.length (gostrings.TrimRightSpace s) = String.length s ->
      gostrings.TrimRightSpace s = s).
Proof.
  induction s as [| c t [IH1 IH2]]; [cbn; split; [lia | reflexivity] |].
  cbn [gostrings.TrimRightSpace].
  destruct (gostrings.is_space_rune _); cbn [String.length]; [split; lia |].
  split; [lia |]. intros H. f_equal. apply IH2. lia.
Qed.

(** A string that [TrimSpace] leaves alone is left alone by both of its
    halves. *)
Lemma TrimSpace_fixed (s : string) :
  gostrings.TrimSpace s = s ->
  gostrings.TrimLeftSpace s = s /\ gostrings.TrimRightSpace s = s.
Proof.
  unfold gostrings.TrimSpace, gostrings.TrimLeftSpace. intros H.
  destruct (TrimLeft_fuel_length (String.length s) s) as [H1 H2].
  destruct (TrimRightSpace_length (gostrings.TrimLeft_fuel (String.length s) s))
    as [H3 _].
  rewrite H in H3.
  assert (E : gostrings.TrimLeft_fuel (String.length s) s = s) by (apply H2; lia).
  split; [exact E |]. now rewrite E in H.
Qed.

Lemma TrimSpace_after_space (s : string) :
  gostrings.TrimSpace (" " ++ s) = gostrings.TrimSpace s.
Proof.
  unfold gostrings.TrimSpace, gostrings.TrimLeftSpace.
  change (" " ++ s)%string with (String " " s).
  cbn [String.length gostrings.TrimLeft_fuel].
  rewrite DecodeRune_ascii by (vm_compute; reflexivity).
  reflexivity.
Qed.

(** A suffix that ends with an ASCII byte and is longer than one byte is
    not one rune. *)
Lemma is_space_rune_last (x c : ascii) (p : string) :
  byteZ c < 0x80 -> gostrings.is_space_rune (String x (p ++ String c "")) = false.
Proof.
  intros Hc. unfold gostrings.is_space_rune.
  destruct (utf8.DecodeRuneInString _) as [r w] eqn:Ed.
  destruct (Nat.eqb_spec w (String.length (String x (p ++ String c "")))) as [Ew | _];
    [| reflexivity].
  exfalso. destruct (Z.lt_ge_cases (byteZ x) 0x80) as [Hx | Hx].
  - rewrite DecodeRune_ascii in Ed by assumption. injection Ed as _ <-.
    cbn [String.length] in Ew. rewrite length_app in Ew. cbn in Ew. lia.
  - destruct (DecodeRune_high x (p ++ String c "") Hx)
      as (r' & q & rest & Hd & Hs & _ & Hq & _).
    rewrite Hd in Ed. injection Ed as _ <-.
    rewrite Hs, length_app in Ew. destruct rest; [| cbn in Ew; lia].
    rewrite string_app_nil_r in Hs. rewrite <- Hs in Hq.
    rewrite all_bytes_cons, all_bytes_app, all_bytes_cons in Hq.
    apply andb_true_iff in Hq as [_ Hq]. apply andb_true_iff in Hq as [_ Hq].
    apply andb_true_iff in Hq as [Hq _]. apply high_byte_range in Hq. lia.
Qed.

Lemma TrimRightSpace_last (p : string) (c : ascii) :
  byteZ c < 0x80 -> unicode.IsSpace (byteZ c) = false ->
  gostrings.TrimRightSpace (p ++ String c "") = (p ++ String c "")%string.
Proof.
  intros Hc Hs. induction p as [| x p IH].
  - change ("" ++ String c "")%string with (String c "").
    cbn [gostrings.TrimRightSpace]. unfold gostrings.is_space_rune.
    rewrite DecodeRune_ascii by assumption. rewrite Hs. now rewrite andb_false_r.
  - change (String x p ++ String c "")%string with (String x (p ++ String c "")).
    cbn [gostrings.TrimRightSpace]. rewrite IH.
    now rewrite is_space_rune_last by assumption.
Qed.

(** A string between visible ASCII bytes has no space to trim. *)
Lemma TrimSpace_between (a c : ascii) (p : string) :
  visible a = true -> visible c = true ->
  gostrings.TrimSpace (String a (p ++ String c "")) = String a (p ++ String c "").
Proof.
  intros Ha Hc. unfold gostrings.TrimSpace. rewrite TrimLeftSpace_visible by assumption.
  apply visible_range in Hc.
  apply (TrimRightSpace_last (String a p) c); [lia | apply IsSpace_visible; lia].
Qed.

End Trimming.

(** *** Looking for a character outside quotes, byte by byte *)

Section Scanning.
Context {tables : unicode.Tables}.

Ltac string_head := repeat (rewrite app_cons || rewrite app_nil_l).
Ltac decide_tests :=
  repeat match goal with
         | |- context [Z.eqb ?a ?b] =>
           let v := eval vm_compute in (Z.eqb a b) in
           match v with
           | true => change (Z.eqb a b) with true
           | false => change (Z.eqb a b) with false
           end
         end.

Lemma index_loop_outside (target : rune) (p : string) (idx : Z) (l : list (Z * rune)) :
  all_bytes (fun c => negb (byteZ c =? 0x22) && negb (byteZ c =? target)) p = true ->
  indexOutsideQuotes_loop (bytes_from p idx ++ l) target false false
  = indexOutsideQuotes_loop l target false false.
Proof.
  revert idx. induction p as [| c p IH]; intros idx; [reflexivity |].
  rewrite all_bytes_cons. intros H. apply andb_true_iff in H as [Hc Hp].
  apply andb_true_iff in Hc as [H1 H2]. apply negb_true_iff in H1, H2.
  cbn [bytes_from app indexOutsideQuotes_loop]. rewrite H1, H2, andb_false_r. cbn [negb andb].
  now apply IH.
Qed.

Lemma index_loop_inside_high (target : rune) (p : string) (idx : Z) (l : list (Z * rune))
    (inQuotes : bool) :
  target < 0x80 -> all_bytes high_byte p = true ->
  indexOutsideQuotes_loop (bytes_from p idx ++ l) target inQuotes false
  = indexOutsideQuotes_loop l target inQuotes false.
Proof.
  intros Ht Hp. destruct p as [| c p]; [reflexivity |].
  apply index_loop_high_bytes; [assumption | assumption | discriminate].
Qed.

(** What [QuoteString] writes for one rune: an escape, an ASCII byte that
    needs none, or the bytes of a rune that is not ASCII. *)
Lemma quote_rune_shape (r : rune) (part : string) :
  formatpkg.quote_rune r = Ok part ->
  (exists x, part = (backslash ++ String x "")%string /\ visible x = true)
  \/ (exists c, part = String c "" /\ 0x20 <= byteZ c < 0x80
                /\ byteZ c <> 0x5C /\ byteZ c <> 0x22)
  \/ all_bytes high_byte part = true.
Proof.
  unfold formatpkg.quote_rune.
  destruct (Z.eqb_spec r 0x5C) as [-> | H1];
    [intros [= <-]; left; eexists; split; reflexivity |].
  destruct (Z.eqb_spec r 0x22) as [-> | H2];
    [intros [= <-]; left; eexists; split; reflexivity |].
  destruct (Z.eqb_spec r 0x0A) as [-> | H3];
    [intros [= <-]; left; eexists; split; reflexivity |].
  destruct (Z.eqb_spec r 0x0D) as [-> | H4];
    [intros [= <-]; left; eexists; split; reflexivity |].
  destruct (Z.eqb_spec r 0x09) as [-> | H5];
    [intros [= <-]; left; eexists; split; reflexivity |].
  destruct (Z.ltb_spec r 0x20) as [| H6]; [discriminate |].
  intros [= <-]. right. destruct (Z.lt_ge_cases r 0x80) as [Hlt | Hge].
  - left. rewrite EncodeRune_ascii by lia. eexists. split; [reflexivity |].
    rewrite byteZ_byte_of_Z by lia. lia.
  - right. apply EncodeRune_high. lia.
Qed.

Lemma quote_rune_line (r : rune) (part : string) :
  formatpkg.quote_rune r = Ok part -> all_bytes line_byte part = true.
Proof.
  intros H. apply quote_rune_shape in H as [(x & -> & Hx) | [(c & -> & Hc) | Hhigh]].
  - unfold backslash. string_head. rewrite !all_bytes_cons. apply visible_range in Hx.
    unfold line_byte at 2.
    replace (byteZ x =? 0x0A) with false by (symmetry; apply Z.eqb_neq; lia).
    replace (byteZ x =? 0x0D) with false by (symmetry; apply Z.eqb_neq; lia).
    reflexivity.
  - rewrite all_bytes_cons. unfold line_byte.
    replace (byteZ c =? 0x0A) with false by (symmetry; apply Z.eqb_neq; lia).
    replace (byteZ c =? 0x0D) with false by (symmetry; apply Z.eqb_neq; lia).
    reflexivity.
  - apply (all_bytes_impl high_byte); [| assumption].
    intros c Hc. apply high_byte_range in Hc. unfold line_byte.
    replace (byteZ c =? 0x0A) with false by (symmetry; apply Z.eqb_neq; lia).
    replace (byteZ c =? 0x0D) with false by (symmetry; apply Z.eqb_neq; lia).
    reflexivity.
Qed.

Lemma index_loop_part (target : rune) (r : rune) (part : string) (idx : Z)
    (l : list (Z * rune)) :
  target < 0x80 -> formatpkg.quote_rune r = Ok part ->
  indexOutsideQuotes_loop (bytes_from part idx ++ l) target true false
  = indexOutsideQuotes_loop l target true false.
Proof.
  intros Ht H. apply quote_rune_shape in H as [(x & -> & Hx) | [(c & -> & Hc) | Hhigh]].
  - unfold backslash. string_head. cbn [bytes_from app indexOutsideQuotes_loop].
    decide_tests. reflexivity.
  - cbn [bytes_from app indexOutsideQuotes_loop].
    replace (byteZ c =? 0x5C) with false by (symmetry; apply Z.eqb_neq; lia).
    replace (byteZ c =? 0x22) with false by (symmetry; apply Z.eqb_neq; lia).
    reflexivity.
  - now apply index_loop_inside_high.
Qed.

Lemma index_loop_parts {A} (g : A -> rune) (target : rune) (rs : list A)
    (parts : list string) (idx : Z) (l : list (Z * rune)) :
  target < 0x80 ->
  mapM (fun p => formatpkg.quote_rune (g p)) rs = Ok parts ->
  indexOutsideQuotes_loop (bytes_from (String.concat "" parts) idx ++ l) target true false
  = indexOutsideQuotes_loop l target true false.
Proof.
  intros Ht. revert parts idx. induction rs as [| x rs IH]; intros parts idx; cbn [mapM].
  - intros [= <-]. reflexivity.
  - destruct (formatpkg.quote_rune (g x)) as [part |] eqn:Ex; cbn [bind]; [| discriminate].
    destruct (mapM _ rs) as [rest |] eqn:Er; cbn [bind]; [| discriminate].
    intros [= <-]. rewrite concat_cons, bytes_from_app, <- app_assoc.
    rewrite (index_loop_part target _ _ _ _ Ht Ex). now apply IH.
Qed.

Lemma parts_line {A} (g : A -> rune) (rs : list A) (parts : list string) :
  mapM (fun p => formatpkg.quote_rune (g p)) rs = Ok parts ->
  all_bytes line_byte (String.concat "" parts) = true.
Proof.
  revert parts. induction rs as [| x rs IH]; intros parts; cbn [mapM].
  - intros [= <-]. reflexivity.
  - destruct (formatpkg.quote_rune (g x)) as [part |] eqn:Ex; cbn [bind]; [| discriminate].
    destruct (mapM _ rs) as [rest |] eqn:Er; cbn [bind]; [| discriminate].
    intros [= <-]. rewrite concat_cons, all_bytes_app, (quote_rune_line _ _ Ex).
    now apply IH.
Qed.

(** A quoted literal is passed over whatever is looked for. *)
Lemma skipped_quoted {A} (g : A -> rune) (target : rune) (rs : list A)
    (parts : list string) :
  target < 0x80 ->
  mapM (fun p => formatpkg.quote_rune (g p)) rs = Ok parts ->
  skipped target (dquote ++ String.concat "" parts ++ dquote).
Proof.
  intros Ht H idx l. unfold dquote at 1. string_head.
  cbn [bytes_from app indexOutsideQuotes_loop]. decide_tests. cbn [andb negb].
  rewrite bytes_from_app, <- app_assoc, (index_loop_parts g target rs parts _ _ Ht H).
  unfold dquote. cbn [bytes_from app indexOutsideQuotes_loop]. decide_tests. reflexivity.
Qed.

Lemma skipped_colon (K rest : string) :
  skipped 0x3A K -> indexOutsideQuotes (K ++ ":" ++ rest) 0x3A = len K.
Proof.
  intros H. rewrite indexOutsideQuotes_bytes by lia. rewrite bytes_from_app, H.
  string_head. cbn [bytes_from indexOutsideQuotes_loop]. decide_tests. reflexivity.
Qed.

Lemma skipped_absent (target : rune) (s : string) :
  target < 0x80 -> skipped target s -> indexOutsideQuotes s target = -1.
Proof.
  intros Ht H. rewrite indexOutsideQuotes_bytes by assumption.
  rewrite <- (app_nil_r (bytes_from s 0)). now rewrite H.
Qed.

End Scanning.

(** *** Key literals and value tokens *)

Section Tokens.
Context {tables : unicode.Tables}.

Lemma ascii_runes_written (s : string) (idx : Z) :
  ascii_text s = true ->
  String.concat "" (map (fun p : Z * rune => utf8.EncodeRune (snd p))
                        (utf8.range_from s idx 0)) = s.
Proof.
  unfold ascii_text. revert idx. induction s as [| c t IH]; intros idx; [reflexivity |].
  rewrite all_bytes_cons. intros H. apply andb_true_iff in H as [Hc Ht].
  apply Z.ltb_lt in Hc. pose proof (byteZ_range c).
  rewrite range_from_ascii by assumption. cbn [map snd].
  rewrite concat_cons, (IH _ Ht), EncodeRune_ascii by lia.
  now rewrite byte_of_Z_byteZ.
Qed.

Lemma ascii_well_formed (s : string) : ascii_text s = true -> well_formed s.
Proof. apply ascii_runes_written. Qed.

Lemma all_bytes_and (p q : ascii -> bool) (s : string) :
  all_bytes p s = true -> all_bytes q s = true ->
  all_bytes (fun c => p c && q c) s = true.
Proof.
  induction s as [| c t IH]; [reflexivity |]. rewrite !all_bytes_cons.
  intros H1 H2. apply andb_true_iff in H1 as [-> H1]. apply andb_true_iff in H2 as [-> H2].
  now rewrite IH.
Qed.

Lemma ContainsRune_absent (s : string) (r : rune) :
  r < 0x80 -> gostrings.ContainsRune s r = false ->
  all_bytes (fun c => negb (byteZ c =? r)) s = true.
Proof. intros Hr H. rewrite ContainsRune_bytes in H by assumption. now destruct (all_bytes _ s). Qed.

Lemma IsLetter_low (b : Z) :
  0 <= b < 0x80 -> unicode.IsLetter b = true -> 0x41 <= b <= 0x5A \/ 0x61 <= b <= 0x7A.
Proof.
  intros Hb. unfold unicode.IsLetter, unicode.MaxLatin1.
  replace ((0 <=? b) && (b <=? 255)) with true by (symmetry; apply andb_true_iff; lia).
  intros H.
  repeat match type of H with
         | (_ || _) = true => apply orb_true_iff in H as [H | H]
         end;
    try (apply andb_true_iff in H); lia.
Qed.

Lemma IsDigit_low (b : Z) :
  0 <= b < 0x80 -> unicode.IsDigit b = true -> 0x30 <= b <= 0x39.
Proof.
  intros Hb. unfold unicode.IsDigit, unicode.MaxLatin1.
  replace ((0 <=? b) && (b <=? 255)) with true by (symmetry; apply andb_true_iff; lia).
  intros H. apply andb_true_iff in H. lia.
Qed.

Lemma bare_key_byte_intro (c : ascii) :
  0x41 <= byteZ c <= 0x5A \/ 0x61 <= byteZ c <= 0x7A \/ 0x30 <= byteZ c <= 0x39
  \/ byteZ c = 0x5F \/ byteZ c = 0x2E ->
  bare_key_byte c = true.
Proof.
  intros H. unfold bare_key_byte, visible.
  repeat (apply andb_true_iff; split);
    first [apply Z.leb_le; lia | apply negb_true_iff, Z.eqb_neq; lia].
Qed.

Lemma valid_key_bytes (t : string) (idx : Z) :
  ascii_text t = true ->
  forallb (fun p : Z * rune =>
             let (pos, r) := p in
             if pos =? 0 then (r =? 0x5F) || unicode.IsLetter r
             else unicode.IsLetter r || unicode.IsDigit r || (r =? 0x5F) || (r =? 0x2E))
          (utf8.range_from t idx 0) = true ->
  all_bytes bare_key_byte t = true.
Proof.
  unfold ascii_text. revert idx. induction t as [| c t IH]; intros idx; [reflexivity |].
  rewrite all_bytes_cons. intros H. apply andb_true_iff in H as [Hc Ht].
  apply Z.ltb_lt in Hc. pose proof (byteZ_range c) as Hr.
  rewrite range_from_ascii by assumption. cbn [forallb]. intros H.
  apply andb_true_iff in H as [H Hrest].
  rewrite all_bytes_cons, (IH _ Ht Hrest), andb_true_r.
  apply bare_key_byte_intro.
  destruct (idx =? 0).
  - apply orb_true_iff in H as [H | H]; [apply Z.eqb_eq in H; lia |].
    apply IsLetter_low in H; lia.
  - apply orb_true_iff in H as [H | H]; [| apply Z.eqb_eq in H; lia].
    apply orb_true_iff in H as [H | H]; [| apply Z.eqb_eq in H; lia].
    apply orb_true_iff in H as [H | H];
      [apply IsLetter_low in H | apply IsDigit_low in H]; lia.
Qed.

Lemma bare_key_visible (s : string) :
  all_bytes bare_key_byte s = true -> all_bytes visible s = true.
Proof.
  apply all_bytes_impl. intros c H. unfold bare_key_byte in H.
  now do 3 (apply andb_true_iff in H as [H _]).
Qed.

Lemma visible_line (s : string) :
  all_bytes visible s = true -> all_bytes line_byte s = true.
Proof.
  apply all_bytes_impl. intros c H. apply visible_range in H. unfold line_byte.
  replace (byteZ c =? 0x0A) with false by (symmetry; apply Z.eqb_neq; lia).
  replace (byteZ c =? 0x0D) with false by (symmetry; apply Z.eqb_neq; lia).
  reflexivity.
Qed.

Lemma quoted_literal_line {A} (g : A -> rune) (rs : list A) (parts : list string) :
  mapM (fun p => formatpkg.quote_rune (g p)) rs = Ok parts ->
  all_bytes line_byte (dquote ++ String.concat "" parts ++ dquote) = true.
Proof.
  intros H. rewrite !all_bytes_app, (parts_line g rs parts H). reflexivity.
Qed.

Lemma quoted_literal_trim (body : string) :
  gostrings.TrimSpace (dquote ++ body ++ dquote) = (dquote ++ body ++ dquote)%string.
Proof. apply (TrimSpace_between "034" "034" body); reflexivity. Qed.

(** The literal [EncodeKey] writes for an ASCII key. *)
Lemma EncodeKey_literal (k K : string) :
  ascii_text k = true -> formatpkg.EncodeKey k = Ok K -> key_literal k K.
Proof.
  intros Hascii H.
  assert (Hquoted : forall q, formatpkg.QuoteString k = Ok q -> key_literal k q).
  { intros q Hq. unfold formatpkg.QuoteString in Hq.
    destruct (mapM _ _) as [parts |] eqn:E; cbn [bind] in Hq; [| discriminate].
    injection Hq as <-. split; [| split; [| split; [| split; [| split]]]].
    - exists "034"%char, (String.concat "" parts ++ dquote)%string. split; reflexivity.
    - apply quoted_literal_trim.
    - rewrite decodeKeyToken_quoted, (QuoteString_parts k parts E).
      now rewrite (ascii_well_formed k Hascii).
    - apply (skipped_quoted snd 0x3A _ _ ltac:(lia) E).
    - apply (skipped_quoted snd 0x5B _ _ ltac:(lia) E).
    - apply (quoted_literal_line snd _ _ E). }
  unfold formatpkg.EncodeKey in H.
  destruct (String.eqb_spec k "") as [-> | Hne]; [now apply Hquoted |].
  destruct (formatpkg.IsValidUnquotedKey k) eqn:Ev; [| now apply Hquoted].
  injection H as <-.
  assert (Hbytes : all_bytes bare_key_byte k = true).
  { unfold formatpkg.IsValidUnquotedKey in Ev.
    destruct (String.eqb k ""); [discriminate |].
    now apply (valid_key_bytes k 0). }
  pose proof (bare_key_visible k Hbytes) as Hvisible.
  split; [| split; [| split; [| split; [| split]]]].
  - destruct k as [| c t]; [congruence |]. exists c, t. split; [reflexivity |].
    rewrite all_bytes_cons in Hvisible. now apply andb_true_iff in Hvisible as [-> _].
  - now apply TrimSpace_visible.
  - destruct (IsValidUnquotedKey_head k Ev) as [_ Hq]. unfold decodeKeyToken.
    destruct (String.eqb_spec k ""); [contradiction |]. now rewrite Hq, Ev.
  - intros idx l. apply index_loop_outside. revert Hbytes. apply all_bytes_impl.
    intros c Hc. unfold bare_key_byte in Hc.
    apply andb_true_iff in Hc as [Hc _]. apply andb_true_iff in Hc as [Hc ->].
    apply andb_true_iff in Hc as [_ ->]. reflexivity.
  - intros idx l. apply index_loop_outside. revert Hbytes. apply all_bytes_impl.
    intros c Hc. unfold bare_key_byte in Hc.
    apply andb_true_iff in Hc as [Hc ->]. apply andb_true_iff in Hc as [Hc _].
    apply andb_true_iff in Hc as [_ ->]. reflexivity.
  - now apply visible_line.
Qed.

(** What [NeedsQuoting] lets through. *)
Lemma NeedsQuoting_bare (s : string) (ctx : formatpkg.Context) :
  formatpkg.NeedsQuoting s ctx = false ->
  s <> "" /\ gostrings.TrimSpace s = s /\ all_bytes bare_byte s = true.
Proof.
  unfold formatpkg.NeedsQuoting.
  destruct (String.length s =? 0)%nat eqn:Elen; [discriminate |].
  destruct (String.eqb_spec (gostrings.TrimSpace s) s) as [Etrim | _];
    cbn [negb]; [| discriminate].
  destruct (_ || _ || _); [discriminate |].
  destruct (formatpkg.LooksNumeric s); [discriminate |].
  destruct (formatpkg.HasLeadingZeroDecimal s); [discriminate |].
  destruct (gostrings.ContainsAny s _) eqn:Eany; [discriminate |].
  destruct (gostrings.ContainsRune s 10 || gostrings.ContainsRune s 13
            || gostrings.ContainsRune s 9) eqn:Ectl; [discriminate |].
  intros _. split; [now destruct s |]. split; [exact Etrim |].
  unfold gostrings.ContainsAny in Eany.
  change (utf8.range (":" ++ backslash ++ dquote ++ "[]{}"))
    with [(0, 0x3A); (1, 0x5C); (2, 0x22); (3, 0x5B); (4, 0x5D); (5, 0x7B); (6, 0x7D)]
    in Eany.
  cbn [existsb snd] in Eany.
  apply orb_false_iff in Eany as [Hcolon Eany]. apply orb_false_iff in Eany as [_ Eany].
  apply orb_false_iff in Eany as [Hquote _].
  apply orb_false_iff in Ectl as [Ectl _]. apply orb_false_iff in Ectl as [Hlf Hcr].
  apply ContainsRune_absent in Hcolon, Hquote, Hlf, Hcr; try lia.
  unfold bare_byte, line_byte.
  apply all_bytes_and; [apply all_bytes_and; assumption |].
  apply all_bytes_and; assumption.
Qed.

Lemma skipped_bare (s : string) : all_bytes bare_byte s = true -> skipped 0x3A s.
Proof.
  intros H idx l. apply index_loop_outside. revert H. apply all_bytes_impl.
  intros c Hc. unfold bare_byte in Hc. now apply andb_true_iff in Hc as [-> _].
Qed.

Lemma bare_line (s : string) : all_bytes bare_byte s = true -> all_bytes line_byte s = true.
Proof.
  apply all_bytes_impl. intros c Hc. unfold bare_byte in Hc.
  now apply andb_true_iff in Hc as [_ ->].
Qed.

(** The token [FormatString] writes for a string of valid UTF-8. *)
Lemma FormatString_token (s T : string) (ctx : formatpkg.Context) :
  well_formed s -> formatpkg.FormatString s ctx = Ok T -> value_token T (VString s).
Proof.
  intros Hwf. unfold formatpkg.FormatString.
  destruct (formatpkg.ValidateCharacters s); cbn [bind]; [| discriminate].
  destruct (formatpkg.NeedsQuoting s ctx) eqn:Eq.
  - unfold formatpkg.QuoteString.
    destruct (mapM _ _) as [parts |] eqn:E; cbn [bind]; [| discriminate].
    intros [= <-]. split; [discriminate |]. split; [apply quoted_literal_trim |].
    split; [| split].
    + now rewrite decodePrimitiveToken_quoted, (QuoteString_parts s parts E), Hwf.
    + apply (skipped_quoted snd 0x3A _ _ ltac:(lia) E).
    + apply (quoted_literal_line snd _ _ E).
  - intros [= <-]. destruct (NeedsQuoting_bare s ctx Eq) as (Hne & Htrim & Hbare).
    split; [exact Hne |]. split; [exact Htrim |]. split; [| split].
    + now apply decodePrimitiveToken_unquoted with ctx.
    + now apply skipped_bare.
    + now apply bare_line.
Qed.

Lemma word_token (w : string) (v : value) :
  all_bytes bare_key_byte w = true -> w <> "" -> decodePrimitiveToken w = Ok v ->
  value_token w v.
Proof.
  intros Hb Hne Hd. pose proof (bare_key_visible w Hb) as Hv.
  split; [exact Hne |]. split; [now apply TrimSpace_visible |]. split; [exact Hd |].
  split; [| now apply visible_line].
  intros idx l. apply index_loop_outside. revert Hb. apply all_bytes_impl.
  intros c Hc. unfold bare_key_byte in Hc.
  apply andb_true_iff in Hc as [Hc _]. apply andb_true_iff in Hc as [Hc ->].
  apply andb_true_iff in Hc as [_ ->]. reflexivity.
Qed.

End Tokens.

(** *** Array headers *)

Section Headers.
Context {tables : unicode.Tables}.

Ltac string_head := repeat (rewrite app_cons || rewrite app_nil_l).

(** *** The bracket segment *)

Lemma EncodeRune_nonempty (r : rune) : utf8.EncodeRune r <> "".
Proof.
  unfold utf8.EncodeRune.
  repeat match goal with
         | |- context [if ?c then _ else _] => destruct c
         end; discriminate.
Qed.

Lemma app_nonempty_r (a b : string) : b <> "" -> (a ++ b)%string <> "".
Proof.
  intros Hb E. destruct a as [| c a]; [now rewrite app_nil_l in E | discriminate E].
Qed.

Lemma IsDigit_delimiter (b : Z) : b = 0x09 \/ b = 0x7C -> unicode.IsDigit b = false.
Proof. intros [-> | ->]; reflexivity. Qed.

Lemma delimiter_byte_range (c : ascii) :
  delimiter_byte c = true -> byteZ c = 0x09 \/ byteZ c = 0x7C.
Proof. unfold delimiter_byte. lia. Qed.

(** Over tabs and pipes the loop keeps the digits it has. *)
Lemma bracket_loop_delimiters (body : string) :
  all_bytes delimiter_byte body = true ->
  forall idx digits delim,
    exists d, bracket_loop (map snd (utf8.range_from body idx 0)) digits delim
              = Ok (digits, d).
Proof.
  induction body as [| c t IH]; intros Hb idx digits delim; [now exists delim |].
  rewrite all_bytes_cons in Hb. apply andb_true_iff in Hb as [Hc Ht].
  apply delimiter_byte_range in Hc.
  rewrite range_from_ascii by lia. cbn [map snd bracket_loop].
  rewrite (IsDigit_delimiter _ Hc).
  destruct Hc as [-> | ->]; cbn [Z.eqb Pos.eqb]; apply IH; assumption.
Qed.

(** The loop ends without digits on tabs and pipes only. *)
Lemma bracket_loop_no_digits (body : string) :
  forall idx digits delim d,
    bracket_loop (map snd (utf8.range_from body idx 0)) digits delim = Ok ("", d) ->
    digits = "" /\ all_bytes delimiter_byte body = true.
Proof.
  induction body as [| c t Hc IH | p rest r Hp Hb Hr Hd Hrange IH] using rune_ind;
    intros idx digits delim d.
  - cbn. now intros [= -> _].
  - rewrite range_from_ascii by assumption. cbn [map snd bracket_loop].
    rewrite all_bytes_cons. unfold delimiter_byte at 1.
    destruct (unicode.IsDigit (byteZ c)).
    + intros H. apply IH in H as [H _]. now apply app_nonempty_r in H; [| apply EncodeRune_nonempty].
    + destruct (byteZ c =? 0x09); [intros H; apply IH in H as [-> ->]; now split |].
      destruct (byteZ c =? 0x7C);
        [intros H; apply IH in H as [-> ->]; split; [reflexivity | now rewrite orb_true_r] |].
      discriminate.
  - rewrite Hrange. cbn [map snd bracket_loop].
    destruct (unicode.IsDigit r).
    + intros H. apply IH in H as [H _]. now apply app_nonempty_r in H; [| apply EncodeRune_nonempty].
    + replace (r =? 0x09) with false by lia. replace (r =? 0x7C) with false by lia.
      discriminate.
Qed.

(** When the digits the loop ends with are ASCII, the segment is made of
    ASCII digits, tabs and pipes. *)
Lemma bracket_loop_bytes (body : string) :
  forall idx digits delim ds d,
    bracket_loop (map snd (utf8.range_from body idx 0)) digits delim = Ok (ds, d) ->
    ascii_text ds = true ->
    ascii_text digits = true /\ all_bytes length_byte body = true.
Proof.
  induction body as [| c t Hc IH | p rest r Hp Hb Hr Hd Hrange IH] using rune_ind;
    intros idx digits delim ds d.
  - cbn. intros [= -> _] H. now split.
  - rewrite range_from_ascii by assumption. cbn [map snd bracket_loop].
    rewrite all_bytes_cons. unfold length_byte at 1, delimiter_byte at 1.
    pose proof (byteZ_range c) as Hrange.
    destruct (unicode.IsDigit (byteZ c)) eqn:Edigit.
    + apply IsDigit_low in Edigit; [| lia].
      intros H Hds. destruct (IH _ _ _ _ _ H Hds) as [H1 H2].
      unfold ascii_text in H1. rewrite all_bytes_app in H1.
      apply andb_true_iff in H1 as [H1 _]. split; [exact H1 |].
      rewrite H2. unfold is_digit.
      replace ((48 <=? byteZ c) && (byteZ c <=? 57)) with true by lia. reflexivity.
    + destruct (byteZ c =? 0x09);
        [intros H Hds; destruct (IH _ _ _ _ _ H Hds) as [H1 H2]; rewrite H2;
         split; [exact H1 | now rewrite orb_true_r] |].
      destruct (byteZ c =? 0x7C);
        [intros H Hds; destruct (IH _ _ _ _ _ H Hds) as [H1 H2]; rewrite H2;
         split; [exact H1 | now rewrite orb_true_r] |].
      discriminate.
  - rewrite Hrange. cbn [map snd bracket_loop].
    destruct (unicode.IsDigit r).
    + intros H Hds. destruct (IH _ _ _ _ _ H Hds) as [H1 _]. exfalso.
      unfold ascii_text in H1. rewrite all_bytes_app in H1.
      apply andb_true_iff in H1 as [_ H1].
      pose proof (EncodeRune_high r (or_intror Hr)) as Hhigh.
      pose proof (EncodeRune_nonempty r) as Hne.
      destruct (utf8.EncodeRune r) as [| x q]; [congruence |].
      rewrite all_bytes_cons in H1, Hhigh.
      apply andb_true_iff in H1 as [H1 _]. apply andb_true_iff in Hhigh as [Hhigh _].
      apply high_byte_range in Hhigh. lia.
    + replace (r =? 0x09) with false by lia. replace (r =? 0x7C) with false by lia.
      discriminate.
Qed.

Lemma digits_value_ascii (s : string) (acc v : Z) :
  digits_value s acc = Some v -> ascii_text s = true.
Proof.
  revert acc. induction s as [| c t IH]; intros acc; [reflexivity |].
  cbn [digits_value]. unfold ascii_text. rewrite all_bytes_cons. unfold is_digit.
  destruct ((0x30 <=? byteZ c) && (byteZ c <=? 0x39)) eqn:E; [| discriminate].
  intros H. apply IH in H. unfold ascii_text in H. rewrite H. lia.
Qed.

Lemma Atoi_ascii (s : string) (n : Z) : Atoi s = Ok n -> ascii_text s = true.
Proof.
  unfold Atoi. destruct s as [| c t]; [discriminate |].
  assert (Hds : forall ds, match ds with
                           | "" => Err ErrSyntax
                           | String _ _ =>
                             match digits_value ds 0 with
                             | Some v => if (v <? - 2 ^ 63) || (2 ^ 63 - 1 <? v) then Err ErrRange else Ok v
                             | None => Err ErrSyntax
                             end
                           end = Ok n -> ascii_text ds = true).
  { intros ds. destruct ds; [discriminate |].
    destruct (digits_value _ 0) eqn:E; [| discriminate]. intros _.
    now apply digits_value_ascii in E. }
  unfold ascii_text. rewrite all_bytes_cons.
  destruct (byteZ c =? 0x2D) eqn:E1.
  - intros H. replace (byteZ c <? 128) with true by lia. cbn [andb].
    destruct t; [discriminate |]. destruct (digits_value _ 0) eqn:E; [| discriminate].
    now apply digits_value_ascii in E.
  - destruct (byteZ c =? 0x2B) eqn:E2.
    + intros H. replace (byteZ c <? 128) with true by lia. cbn [andb].
      destruct t; [discriminate |]. destruct (digits_value _ 0) eqn:E; [| discriminate].
      now apply digits_value_ascii in E.
    + intros H. destruct (digits_value _ 0) eqn:E; [| discriminate].
      apply digits_value_ascii in E. unfold ascii_text in E.
      now rewrite all_bytes_cons in E.
Qed.

Lemma HasPrefix_hash (segment : string) :
  gostrings.HasPrefix segment "#" = true -> segment = ("#" ++ slice_from segment 1)%string.
Proof.
  unfold gostrings.HasPrefix. destruct segment as [| c t]; [discriminate |].
  cbn [String.prefix]. destruct (ascii_dec "#" c) as [<- | _]; [reflexivity | discriminate].
Qed.

Lemma HasPrefix_length_bytes (body : string) :
  all_bytes length_byte body = true -> gostrings.HasPrefix body "#" = false.
Proof.
  unfold gostrings.HasPrefix. destruct body as [| c t]; [reflexivity |].
  rewrite all_bytes_cons. cbn [String.prefix].
  destruct (ascii_dec "#" c) as [<- | _]; [discriminate | reflexivity].
Qed.

Lemma delimiter_length_byte (body : string) :
  all_bytes delimiter_byte body = true -> all_bytes length_byte body = true.
Proof.
  apply all_bytes_impl. intros c H. unfold length_byte. now rewrite H, orb_true_r.
Qed.

(** The segment behind the marker, as [parseBracketSegment] cuts it. *)
Lemma segment_body (segment : string) :
  let body := if gostrings.HasPrefix segment "#" then slice_from segment 1 else segment in
  segment = body \/ segment = ("#" ++ body)%string.
Proof.
  cbv zeta. destruct (gostrings.HasPrefix segment "#") eqn:E; [right | now left].
  now apply HasPrefix_hash.
Qed.

Lemma body_segment (segment body : string) :
  segment = body \/ segment = ("#" ++ body)%string ->
  all_bytes length_byte body = true ->
  (if gostrings.HasPrefix segment "#" then slice_from segment 1 else segment) = body.
Proof.
  intros [-> | ->] Hb; [now rewrite HasPrefix_length_bytes |].
  string_head. unfold gostrings.HasPrefix. cbn [String.prefix].
  destruct (ascii_dec "#" "#"); [now destruct body | congruence].
Qed.

Lemma bracket_loop_error (rs : list rune) (digits : string) (delim : Delimiter)
    (e : message) :
  bracket_loop rs digits delim = Err e -> exists r, e = InvalidDelimiterSymbol r.
Proof.
  revert digits delim. induction rs as [| r t IH]; intros digits delim; [discriminate |].
  cbn [bracket_loop].
  repeat match goal with
         | |- context [if ?c then _ else _] => destruct c
         end; try apply IH.
  intros [= <-]. now exists r.
Qed.

Lemma parseBracketSegment_error (segment : string) (e : message) :
  parseBracketSegment segment = Err e -> bracket_error e = true.
Proof.
  unfold parseBracketSegment.
  destruct (String.eqb _ ""); [now intros [= <-] |].
  destruct (bracket_loop _ "" DelimiterComma) as [[ds d] |] eqn:El; cbn [bind].
  - destruct (String.eqb ds ""); [now intros [= <-] |].
    destruct (Atoi ds); [discriminate | now intros [= <-]].
  - intros [= <-]. apply bracket_loop_error in El as [r ->]. reflexivity.
Qed.

(** The length is missing in the segments [[]] and [[#]] only. *)
Lemma parseBracketSegment_missing_length (segment : string) :
  parseBracketSegment segment = Err MissingArrayLength
  <-> segment = "" \/ segment = "#".
Proof.
  split; [| intros [-> | ->]; reflexivity].
  unfold parseBracketSegment. pose proof (segment_body segment) as Hs. cbv zeta in Hs.
  destruct (String.eqb_spec
              (if gostrings.HasPrefix segment "#" then slice_from segment 1 else segment) "")
    as [E | _].
  - rewrite E in Hs. intros _. exact Hs.
  - destruct (bracket_loop _ "" DelimiterComma) as [[ds d] |] eqn:El; cbn [bind].
    + destruct (String.eqb ds ""); [discriminate |]. destruct (Atoi ds); discriminate.
    + intros [= ->]. apply bracket_loop_error in El as [r Hr]. discriminate.
Qed.

(** The digits are missing in the segments made of tabs and pipes, behind
    the marker or without it. *)
Lemma parseBracketSegment_missing_digits (segment : string) :
  parseBracketSegment segment = Err MissingDigits
  <-> exists body,
        (segment = body \/ segment = ("#" ++ body)%string)
        /\ body <> "" /\ all_bytes delimiter_byte body = true.
Proof.
  split.
  - unfold parseBracketSegment. pose proof (segment_body segment) as Hs. cbv zeta in Hs.
    set (body := if gostrings.HasPrefix segment "#" then slice_from segment 1 else segment)
      in *.
    destruct (String.eqb_spec body "") as [E | Hne]; [discriminate |].
    unfold utf8.range.
    destruct (bracket_loop _ "" DelimiterComma) as [[ds d] |] eqn:El; cbn [bind].
    + destruct (String.eqb_spec ds "") as [-> | _];
        [| destruct (Atoi ds); discriminate].
      intros _. apply bracket_loop_no_digits in El as [_ Hb]. now exists body.
    + intros [= ->]. apply bracket_loop_error in El as [r Hr]. discriminate.
  - intros (body & Hs & Hne & Hb). unfold parseBracketSegment.
    rewrite (body_segment segment body Hs (delimiter_length_byte body Hb)).
    destruct (String.eqb_spec body ""); [contradiction |]. unfold utf8.range.
    destruct (bracket_loop_delimiters body Hb 0 "" DelimiterComma) as [d ->].
    reflexivity.
Qed.

(** A segment that is read is made of ASCII digits, tabs and pipes, behind
    the marker or without it. *)
Lemma parseBracketSegment_bytes (segment : string) (n : Z) (delim : Delimiter) :
  parseBracketSegment segment = Ok (n, delim) ->
  exists body,
    (segment = body \/ segment = ("#" ++ body)%string)
    /\ all_bytes length_byte body = true.
Proof.
  unfold parseBracketSegment. pose proof (segment_body segment) as Hs. cbv zeta in Hs.
  set (body := if gostrings.HasPrefix segment "#" then slice_from segment 1 else segment)
    in *.
  destruct (String.eqb body ""); [discriminate |]. unfold utf8.range.
  destruct (bracket_loop _ "" DelimiterComma) as [[ds d] |] eqn:El; cbn [bind];
    [| discriminate].
  destruct (String.eqb ds ""); [discriminate |].
  destruct (Atoi ds) as [m |] eqn:Ea; [| discriminate]. intros _.
  apply Atoi_ascii in Ea. apply (bracket_loop_bytes body _ _ _ _ _ El) in Ea as [_ Hb].
  now exists body.
Qed.

(** *** Headers without a key *)

Lemma length_byte_outside (target : rune) (body : string) :
  target = 0x3A \/ target = 0x5D ->
  all_bytes length_byte body = true ->
  all_bytes (fun c => negb (byteZ c =? 0x22) && negb (byteZ c =? target)) body = true.
Proof.
  intros Ht. apply all_bytes_impl. intros c. unfold length_byte, delimiter_byte, is_digit.
  lia.
Qed.

Lemma segment_outside (target : rune) (segment body : string) :
  target = 0x3A \/ target = 0x5D ->
  segment = body \/ segment = ("#" ++ body)%string ->
  all_bytes length_byte body = true ->
  all_bytes (fun c => negb (byteZ c =? 0x22) && negb (byteZ c =? target)) segment = true.
Proof.
  intros Ht [-> | ->] Hb; [now apply length_byte_outside |].
  rewrite all_bytes_app, (length_byte_outside target body Ht Hb), andb_true_r.
  destruct Ht as [-> | ->]; reflexivity.
Qed.

Lemma indexOutsideQuotes_outside (target : rune) (p : string) (c : ascii) (s : string) :
  all_bytes (fun c => negb (byteZ c =? 0x22) && negb (byteZ c =? target)) p = true ->
  byteZ c = target -> target < 0x80 -> target <> 0x22 ->
  indexOutsideQuotes (p ++ String c s) target = len p.
Proof.
  intros Hp Hc Ht Hq. rewrite indexOutsideQuotes_bytes by assumption.
  rewrite bytes_from_app, index_loop_outside by assumption.
  cbn [bytes_from indexOutsideQuotes_loop]. rewrite Hc, Z.eqb_refl.
  replace (target =? 0x22) with false by lia. cbn [andb negb].
  rewrite andb_false_r. lia.
Qed.

(** A line [[segment]:rest] whose segment is read is a header with the
    empty key. *)
Lemma tryParseHeader_unkeyed (segment rest : string) (n : Z) (delim : Delimiter) :
  parseBracketSegment segment = Ok (n, delim) ->
  tryParseHeader ("[" ++ segment ++ "]:" ++ rest)
  = Ok (Some {| hKey := ""; hLength := n; hDelimiter := delim; hFields := [];
                hInlineValues := gostrings.TrimSpace rest |}).
Proof.
  intros Hseg. destruct (parseBracketSegment_bytes segment n delim Hseg) as (body & Hs & Hb).
  pose proof (segment_outside 0x3A segment body (or_introl eq_refl) Hs Hb) as Hcolon.
  pose proof (segment_outside 0x5D segment body (or_intror eq_refl) Hs Hb) as Hclose.
  set (K := ("[" ++ segment ++ "]")%string).
  assert (HK : K = String "[" (segment ++ String "]" "")) by reflexivity.
  replace ("[" ++ segment ++ "]:" ++ rest)%string with (K ++ String ":" rest)%string
    by (unfold K; now rewrite !string_app_assoc).
  assert (H1 : indexOutsideQuotes (K ++ String ":" rest) 0x3A = len K).
  { apply indexOutsideQuotes_outside; try (reflexivity || lia).
    rewrite HK, all_bytes_cons, all_bytes_app, Hcolon. reflexivity. }
  assert (H2 : gostrings.TrimSpace K = K)
    by (rewrite HK; apply TrimSpace_between; reflexivity).
  assert (H3 : indexOutsideQuotes K 0x5B = 0).
  { rewrite HK. unfold indexOutsideQuotes, utf8.range.
    rewrite range_from_ascii by (vm_compute; reflexivity). reflexivity. }
  assert (H4 : slice_from K (0 + 1) = (segment ++ String "]" "")%string)
    by (rewrite HK; reflexivity).
  assert (H5 : indexOutsideQuotes (segment ++ String "]" "") 0x5D = len segment)
    by (apply indexOutsideQuotes_outside; (assumption || reflexivity || lia)).
  assert (Hnot1 : forall x : string, (len x =? -1) = false)
    by (intros x; pose proof (len_nonneg x); lia).
  unfold tryParseHeader. rewrite H1, Hnot1, slice_to_app, H2.
  replace (String.eqb K "") with false by (rewrite HK; reflexivity).
  rewrite H3. cbn [Z.eqb]. rewrite H4, H5, Hnot1, slice_to_app, slice_from_app_1.
  change (slice_to K 0) with "". change (gostrings.TrimSpace "") with "".
  cbn [String.eqb negb bind]. rewrite Hseg. cbn [bind]. now rewrite slice_from_app_1.
Qed.

(** *** The errors of a header *)

Lemma decodeKeyToken_error (token : string) (e : message) :
  decodeKeyToken token = Err e -> key_error e = true.
Proof.
  unfold decodeKeyToken.
  destruct (String.eqb token ""); [now intros [= <-] |].
  destruct (byte_at token 0 =? 0x22).
  - intros H. apply UnquoteString_error in H. unfold key_error. now rewrite H.
  - destruct (negb _); [now intros [= <-] | discriminate].
Qed.

Lemma headerFields_error (fieldSegment : string) (delim : Delimiter) (e : message) :
  headerFields fieldSegment delim = Err e -> field_error e = true.
Proof.
  unfold headerFields. destruct (negb (String.eqb fieldSegment "")); [| discriminate].
  destruct (_ || _); [now intros [= <-] |].
  destruct (negb (String.eqb _ "")); [| discriminate].
  destruct (parsepkg.SplitInlineValues _ _) as [rawFields | e'] eqn:Es; cbn [bind].
  - intros H. destruct (mapM_error _ _ _ H) as (x & _ & Hx).
    apply decodeKeyToken_error in Hx. unfold field_error. now rewrite Hx.
  - intros [= <-]. apply SplitInlineValues_error in Es as ->. reflexivity.
Qed.

Lemma tryParseHeader_parts (content : string) :
  tryParseHeader content
  = let colon := indexOutsideQuotes content 0x3A in
    let left := gostrings.TrimSpace (slice_to content colon) in
    let bracketStart := indexOutsideQuotes left 0x5B in
    let rest := slice_from left (bracketStart + 1) in
    let bracketOffset := indexOutsideQuotes rest 0x5D in
    let keyPart := gostrings.TrimSpace (slice_to left bracketStart) in
    if (colon =? -1) || String.eqb left "" || (bracketStart =? -1) then Ok None
    else if bracketOffset =? -1 then Err MissingClosingBracket
    else
      let* key := if negb (String.eqb keyPart "") then decodeKeyToken keyPart else Ok "" in
      let* (length, delim) := parseBracketSegment (slice_to rest bracketOffset) in
      let* fields :=
        headerFields (gostrings.TrimSpace (slice_from rest (bracketOffset + 1))) delim in
      Ok (Some {| hKey := key; hLength := length; hDelimiter := delim; hFields := fields;
                  hInlineValues := gostrings.TrimSpace (slice_from content (colon + 1)) |}).
Proof.
  unfold tryParseHeader. cbv zeta.
  destruct (_ =? -1); [reflexivity |]. destruct (String.eqb _ ""); [reflexivity |].
  destruct (_ =? -1); reflexivity.
Qed.

(** The checks that follow the brackets: the key, the segment, the fields. *)
Lemma header_checks (K : result message string) (B : result message (Z * Delimiter))
    (F : Delimiter -> result message (list string)) (right : string) :
  let result :=
    let* key := K in
    let* (length, delim) := B in
    let* fields := F delim in
    Ok (Some {| hKey := key; hLength := length; hDelimiter := delim; hFields := fields;
                hInlineValues := right |}) in
  (forall e, K = Err e -> key_error e = true) ->
  (forall e, B = Err e -> bracket_error e = true) ->
  (forall d e, F d = Err e -> field_error e = true) ->
  (forall e, K = Err e -> result = Err e)
  /\ (forall key e, K = Ok key -> B = Err e -> result = Err e)
  /\ (forall e, result = Err e -> bracket_error e = true ->
        (exists key, K = Ok key) /\ B = Err e)
  /\ (forall header,
        result = Ok (Some header) ->
        K = Ok (hKey header) /\ B = Ok (hLength header, hDelimiter header)
        /\ hInlineValues header = right)
  /\ result <> Ok None
  /\ (forall e, result = Err e ->
        key_error e || bracket_error e || field_error e = true).
Proof.
  cbv zeta. intros HK HB HF.
  assert (Hclass : forall e, bracket_error e = true ->
                             key_error e = false /\ field_error e = false)
    by (intros e; destruct e; (discriminate || now split)).
  destruct K as [key | ek]; cbn [bind].
  - destruct B as [[n d] | eb]; cbn [bind].
    + destruct (F d) as [fields | ef] eqn:Ef; cbn [bind].
      * split; [discriminate |]. split; [discriminate |]. split; [discriminate |].
        split; [| split; discriminate]. intros header [= <-]. cbn. now repeat split.
      * split; [discriminate |]. split; [discriminate |].
        split; [| split; [discriminate | split; [discriminate |]]].
        -- intros e [= <-] He. apply HF in Ef. apply Hclass in He as [_ He]. congruence.
        -- intros e [= <-]. rewrite (HF _ _ Ef). now rewrite !orb_true_r.
    + split; [discriminate |]. split; [now intros ? ? _ [= <-] |].
      split; [| split; [discriminate | split; [discriminate |]]].
      * intros e [= <-] _. split; [now exists key | reflexivity].
      * intros e [= <-]. rewrite (HB _ eq_refl). now rewrite orb_true_r.
  - split; [now intros ? [= <-] |]. split; [discriminate |].
    split; [| split; [discriminate | split; [discriminate |]]].
    + intros e [= <-] He. specialize (HK _ eq_refl). apply Hclass in He as [He _].
      congruence.
    + intros e [= <-]. now rewrite (HK _ eq_refl).
Qed.

(** C5. A line is taken for an array header when its first colon outside
    quotes has, to its left, text with an opening bracket outside quotes; on
    every other line [tryParseHeader] reports that there is no header.  On a
    header line the result is the error of the missing closing bracket exactly
    when no closing bracket follows the opening one outside quotes, whatever
    the key.  When the bracket is closed, an error of the key comes first, and
    for a key that is read or absent an error of the bracket segment is
    returned: the missing length exactly for the segments [[]] and [[#]], the
    missing digits exactly for the segments made of tabs and pipes, behind
    the marker or without it.  An absent key is no error: a header that is
    returned then has the empty key, and every line [[segment]:rest] whose
    segment is read is such a header.  A header with the empty key is
    rejected, with its own message, where it stands for a field of an object;
    at the root of the document it is the root array, and as a list item it
    is a nested array. *)
Theorem C5_header_errors :
  (forall content : string,
     let colon := indexOutsideQuotes content 0x3A in
     let left := gostrings.TrimSpace (slice_to content colon) in
     let bracketStart := indexOutsideQuotes left 0x5B in
     let rest := slice_from left (bracketStart + 1) in
     let bracketOffset := indexOutsideQuotes rest 0x5D in
     let keyPart := gostrings.TrimSpace (slice_to left bracketStart) in
     let bracketSegment := slice_to rest bracketOffset in
     let header_line := colon <> -1 /\ left <> "" /\ bracketStart <> -1 in
     let key_read := keyPart = "" \/ exists key, decodeKeyToken keyPart = Ok key in
     (tryParseHeader content = Ok None
      <-> colon = -1 \/ left = "" \/ bracketStart = -1)
     /\ (tryParseHeader content = Err MissingClosingBracket
         <-> header_line /\ bracketOffset = -1)
     /\ (header_line -> bracketOffset <> -1 -> keyPart <> "" ->
         forall e, decodeKeyToken keyPart = Err e -> tryParseHeader content = Err e)
     /\ (header_line -> bracketOffset <> -1 -> key_read ->
         forall e, parseBracketSegment bracketSegment = Err e ->
                   tryParseHeader content = Err e)
     /\ (tryParseHeader content = Err MissingArrayLength
         <-> header_line /\ bracketOffset <> -1 /\ key_read
             /\ (bracketSegment = "" \/ bracketSegment = "#"))
     /\ (tryParseHeader content = Err MissingDigits
         <-> header_line /\ bracketOffset <> -1 /\ key_read
             /\ exists body,
                  (bracketSegment = body \/ bracketSegment = ("#" ++ body)%string)
                  /\ body <> "" /\ all_bytes delimiter_byte body = true)
     /\ (forall header,
           tryParseHeader content = Ok (Some header) ->
           header_line /\ bracketOffset <> -1
           /\ (if String.eqb keyPart "" then hKey header = ""
               else decodeKeyToken keyPart = Ok (hKey header))
           /\ parseBracketSegment bracketSegment
              = Ok (hLength header, hDelimiter header)
           /\ hInlineValues header
              = gostrings.TrimSpace (slice_from content (colon + 1))))
  /\ (forall (segment rest : string) (n : Z) (delim : Delimiter),
        parseBracketSegment segment = Ok (n, delim) ->
        tryParseHeader ("[" ++ segment ++ "]:" ++ rest)
        = Ok (Some {| hKey := ""; hLength := n; hDelimiter := delim; hFields := [];
                      hInlineValues := gostrings.TrimSpace rest |}))
  /\ (forall dcfg lines fuel depth result pos line header,
        lines !! pos = Some line ->
        blank line = false ->
        indentLevel line = depth ->
        tryParseHeader (content line) = Ok (Some header) ->
        hKey header = "" ->
        parseObject_loop dcfg lines (S fuel) depth result pos
        = Failed (parseError (number line) ArraysMustHaveKey))
  /\ (forall dcfg lines fuel line header,
        lines !! skipBlankLinesOutsideArrays lines 0 = Some line ->
        indentLevel line = 0 ->
        tryParseHeader (content line) = Ok (Some header) ->
        hKey header = "" ->
        parseDocument dcfg lines fuel
        = match parseArray dcfg lines fuel header 0
                  (S (skipBlankLinesOutsideArrays lines 0)) with
          | Done (v, _) => Done v
          | Failed e => Failed e
          | OutOfFuel => OutOfFuel
          end)
  /\ (forall dcfg lines fuel outer depth values pos line header,
        lines !! pos = Some line ->
        blank line = false ->
        indentLevel line = depth + 1 ->
        gostrings.HasPrefix (content line) "-" = true ->
        gostrings.HasPrefix (gostrings.TrimSpace (slice_from (content line) 1)) "["
        = true ->
        tryParseHeader (gostrings.TrimSpace (slice_from (content line) 1))
        = Ok (Some header) ->
        parseArray_list dcfg lines (S fuel) outer depth values pos
        = match parseArray dcfg lines fuel header (depth + 1) (S pos) with
          | Done (itemValue, pos') =>
            parseArray_list dcfg lines fuel outer depth (values ++ [itemValue])%list pos'
          | Failed e => Failed e
          | OutOfFuel => OutOfFuel
          end).
Proof.
  split; [| split; [exact tryParseHeader_unkeyed |
                    split; [exact parseObject_unkeyed_header |
                            split; [exact parseDocument_unkeyed_header |
                                    exact parseArray_list_unkeyed_item]]]].
  intros content. cbv zeta. rewrite tryParseHeader_parts. cbv zeta.
  set (colon := indexOutsideQuotes content 0x3A).
  set (left := gostrings.TrimSpace (slice_to content colon)).
  set (bracketStart := indexOutsideQuotes left 0x5B).
  set (rest := slice_from left (bracketStart + 1)).
  set (bracketOffset := indexOutsideQuotes rest 0x5D).
  set (keyPart := gostrings.TrimSpace (slice_to left bracketStart)).
  set (bracketSegment := slice_to rest bracketOffset).
  destruct ((colon =? -1) || String.eqb left "" || (bracketStart =? -1)) eqn:Eline.
  { assert (Hno : colon = -1 \/ left = "" \/ bracketStart = -1).
    { apply orb_true_iff in Eline as [Eline | Eline];
        [apply orb_true_iff in Eline as [Eline | Eline] |].
      - left. lia.
      - right. left. now apply String.eqb_eq.
      - right. right. lia. }
    assert (Hnot : ~ (colon <> -1 /\ left <> "" /\ bracketStart <> -1)) by tauto.
    split; [tauto |]. split; [split; [discriminate | tauto] |].
    split; [tauto |]. split; [tauto |].
    split; [split; [discriminate | tauto] |]. split; [split; [discriminate | tauto] |].
    discriminate. }
  assert (Hline : colon <> -1 /\ left <> "" /\ bracketStart <> -1).
  { apply orb_false_iff in Eline as [Eline E3]. apply orb_false_iff in Eline as [E1 E2].
    apply String.eqb_neq in E2. repeat split; (lia || assumption). }
  destruct (Z.eqb_spec bracketOffset (-1)) as [Hoff | Hoff].
  { split; [split; [discriminate | tauto] |]. split; [tauto |].
    split; [tauto |]. split; [tauto |].
    split; [split; [discriminate | tauto] |]. split; [split; [discriminate | tauto] |].
    discriminate. }
  set (K := if negb (String.eqb keyPart "") then decodeKeyToken keyPart else Ok "").
  assert (HK : forall e, K = Err e -> key_error e = true).
  { intros e. unfold K. destruct (negb _); [apply decodeKeyToken_error | discriminate]. }
  destruct (header_checks K (parseBracketSegment bracketSegment)
              (headerFields (gostrings.TrimSpace (slice_from rest (bracketOffset + 1))))
              (gostrings.TrimSpace (slice_from content (colon + 1))) HK
              (parseBracketSegment_error bracketSegment)
              (fun d e => headerFields_error _ d e))
    as (Hkey & Hsegment & Hbracket & Hheader & Hsome & Herror).
  assert (Hread : (keyPart = "" \/ exists key, decodeKeyToken keyPart = Ok key)
                  <-> exists key, K = Ok key).
  { unfold K. destruct (String.eqb_spec keyPart "") as [-> | Hne]; cbn [negb].
    - split; [now exists "" | now left].
    - split; [intros [E | E]; [contradiction | exact E] | now right]. }
  split; [split; [intros H; now apply Hsome in H | tauto] |].
  split; [split; [| tauto] |].
  { intros H. apply Herror in H. discriminate. }
  split.
  { intros _ _ Hne e He. apply Hkey. unfold K.
    destruct (String.eqb_spec keyPart ""); [contradiction | exact He]. }
  split.
  { intros _ _ Hk e He. apply Hread in Hk as (key & Hk). now apply (Hsegment key). }
  split; [| split].
  - split.
    + intros H. apply Hbracket in H as [Hk H]; [| reflexivity].
      apply Hread in Hk. apply parseBracketSegment_missing_length in H. tauto.
    + intros (_ & _ & Hk & H). apply Hread in Hk as (key & Hk).
      apply parseBracketSegment_missing_length in H. now apply (Hsegment key).
  - split.
    + intros H. apply Hbracket in H as [Hk H]; [| reflexivity].
      apply Hread in Hk. apply parseBracketSegment_missing_digits in H. tauto.
    + intros (_ & _ & Hk & H). apply Hread in Hk as (key & Hk).
      apply parseBracketSegment_missing_digits in H. now apply (Hsegment key).
  - intros header H. apply Hheader in H as (Hk & Hs & Hr).
    split; [exact Hline |]. split; [exact Hoff |]. split; [| split; assumption].
    unfold K in Hk. destruct (String.eqb keyPart ""); cbn [negb] in Hk; congruence.
Qed.

End Headers.

(** *** Decimal digits *)

Section Digits.

Lemma digits_after_pos (u : Decimal.uint) (acc : positive) :
  digits_after u (Z.pos acc) = Z.pos (Pos.of_uint_acc u acc).
Proof.
  revert acc. induction u; intros acc; cbn [digits_after Pos.of_uint_acc];
    try reflexivity; rewrite <- IHu; f_equal; lia.
Qed.

Lemma digits_after_zero (u : Decimal.uint) :
  digits_after u 0 = Z.of_N (Pos.of_uint u).
Proof.
  induction u; cbn; try reflexivity; try exact IHu; exact (digits_after_pos u _).
Qed.

Lemma digits_after_to_uint (p : positive) : digits_after (Pos.to_uint p) 0 = Z.pos p.
Proof. now rewrite digits_after_zero, DecimalPos.Unsigned.of_to. Qed.

Lemma to_uint_leading (p : positive) : leading (Pos.to_uint p).
Proof.
  pose proof (DecimalPos.Unsigned.to_of (Pos.to_uint p)) as H.
  rewrite DecimalPos.Unsigned.of_to in H. cbn [N.to_uint] in H.
  pose proof (DecimalPos.Unsigned.to_uint_nonnil p) as Hnil.
  destruct (Pos.to_uint p) as [| l | | | | | | | | |] eqn:E; try exact I; [congruence |].
  exfalso. unfold Decimal.unorm in H. cbn [Decimal.nzhead] in H.
  pose proof (DecimalFacts.nb_digits_nzhead l) as Hlen.
  destruct (Decimal.nzhead l) eqn:En.
  - injection H as H. subst l. now apply (DecimalPos.Unsigned.to_uint_nonzero p).
  - rewrite <- H in Hlen. cbn in Hlen. lia.
  - rewrite <- H in Hlen. cbn in Hlen. lia.
  - rewrite <- H in Hlen. cbn in Hlen. lia.
  - rewrite <- H in Hlen. cbn in Hlen. lia.
  - rewrite <- H in Hlen. cbn in Hlen. lia.
  - rewrite <- H in Hlen. cbn in Hlen. lia.
  - rewrite <- H in Hlen. cbn in Hlen. lia.
  - rewrite <- H in Hlen. cbn in Hlen. lia.
  - rewrite <- H in Hlen. cbn in Hlen. lia.
  - rewrite <- H in Hlen. cbn in Hlen. lia.
Qed.

End Digits.

(** *** Digits as text *)

Section Integers.
Context {tables : unicode.Tables}.

Lemma uint_digits (u : Decimal.uint) :
  all_bytes formatpkg.isDigit (NilEmpty.string_of_uint u) = true.
Proof. induction u; cbn [NilEmpty.string_of_uint]; [reflexivity | ..]; exact IHu. Qed.

Lemma uint_first (u : Decimal.uint) :
  leading u ->
  exists c t, NilEmpty.string_of_uint u = String c t /\ 0x31 <= byteZ c <= 0x39.
Proof.
  destruct u; cbn [leading NilEmpty.string_of_uint]; intros H; try contradiction;
    eexists _, _; (split; [reflexivity |]); vm_compute; split; discriminate.
Qed.

Lemma isDigit_range (c : ascii) : formatpkg.isDigit c = true -> 0x30 <= byteZ c <= 0x39.
Proof. unfold formatpkg.isDigit. intros H. apply andb_true_iff in H. lia. Qed.

Lemma skip_digits_all (s : string) :
  all_bytes formatpkg.isDigit s = true ->
  formatpkg.skip_digits s = (String.length s, "").
Proof.
  induction s as [| c t IH]; [reflexivity |]. rewrite all_bytes_cons. intros H.
  apply andb_true_iff in H as [Hc Ht]. cbn [formatpkg.skip_digits String.length].
  now rewrite Hc, (IH Ht).
Qed.

(** Digits, with or without a minus sign, look numeric. *)
Lemma LooksNumeric_digits (neg : bool) (d : string) :
  d <> "" -> all_bytes formatpkg.isDigit d = true ->
  formatpkg.LooksNumeric ((if neg then "-" else "") ++ d) = true.
Proof.
  intros Hne Hd. destruct d as [| c t]; [congruence |].
  pose proof (skip_digits_all _ Hd) as Hskip.
  assert (Hc : Ascii.eqb c "-" = false).
  { rewrite all_bytes_cons in Hd. apply andb_true_iff in Hd as [Hd _].
    apply isDigit_range in Hd. apply Ascii.eqb_neq. intros ->. vm_compute in Hd.
    destruct Hd as [Hd _]. now apply Hd. }
  destruct neg.
  - change ("-" ++ String c t)%string with (String "-" (String c t)).
    cbn [formatpkg.LooksNumeric Ascii.eqb Bool.eqb]. now rewrite Hskip.
  - rewrite app_nil_l. cbn [formatpkg.LooksNumeric]. rewrite Hc. now rewrite Hskip.
Qed.

Lemma scan_mantissa_uint (u : Decimal.uint) (st : mantissa) :
  sawdot st = false ->
  scan_mantissa false (NilEmpty.string_of_uint u) st
  = ({| sawdot := false;
        sawdigits := match u with Decimal.Nil => sawdigits st | _ => true end;
        mant := digits_after u (mant st);
        frac := frac st;
        underscores := underscores st |}, "").
Proof.
  revert st. induction u; intros st Hdot;
    cbn [NilEmpty.string_of_uint scan_mantissa digits_after];
    [destruct st; cbn in *; now subst | ..];
    (change (byteZ _ =? 95) with false; change (byteZ _ =? 46) with false;
     change (is_digit _) with true; cbv iota;
     rewrite IHu by (cbn; exact Hdot);
     unfold push_digit; cbn [sawdot sawdigits mant frac underscores]; rewrite Hdot;
     destruct u; reflexivity).
Qed.

End Integers.

(** *** Integers as binary64 values *)

Section SafeIntegers.
Context {tables : unicode.Tables}.

Lemma strip_twos_double (fuel : nat) (m e : Z) :
  m <> 0 -> strip_twos (S fuel) (m * 2) e = strip_twos fuel m (e + 1).
Proof.
  intros Hm. cbn [strip_twos].
  replace (m * 2 =? 0) with false by (symmetry; apply Z.eqb_neq; lia).
  replace (Z.even (m * 2)) with true
    by (symmetry; rewrite Z.even_mul; apply orb_true_r).
  now rewrite Z.div_mul by lia.
Qed.

Lemma strip_twos_pow2 (k fuel : nat) (m e : Z) :
  m <> 0 ->
  strip_twos (k + fuel) (m * 2 ^ Z.of_nat k) e = strip_twos fuel m (e + Z.of_nat k).
Proof.
  intros Hm. revert e. induction k as [| k IH]; intros e.
  - cbn [Nat.add Z.of_nat]. rewrite Z.pow_0_r, Z.mul_1_r. f_equal. lia.
  - replace (m * 2 ^ Z.of_nat (S k)) with (m * 2 ^ Z.of_nat k * 2)
      by (rewrite Nat2Z.inj_succ, Z.pow_succ_r by lia; lia).
    cbn [Nat.add]. rewrite strip_twos_double by (pose proof (Z.pow_pos_nonneg 2 (Z.of_nat k)); nia).
    rewrite IH. f_equal. lia.
Qed.

(** A number scaled by a power of two is the same binary64 value with the
    exponent lowered. *)
Lemma dyadic_scaled (neg : bool) (v k : Z) :
  0 < v -> 0 <= k -> dyadic neg (v * 2 ^ k) (- k) = dyadic neg v 0.
Proof.
  intros Hv Hk. unfold dyadic. rewrite Z.log2_mul_pow2 by lia.
  assert (E : k = Z.of_nat (Z.to_nat k)) by lia. revert E.
  generalize (Z.to_nat k). intros n ->.
  replace (S (Z.to_nat (Z.of_nat n + Z.log2 v)))
    with (n + S (Z.to_nat (Z.log2 v)))%nat
    by (pose proof (Z.log2_nonneg v); lia).
  rewrite strip_twos_pow2 by lia.
  now replace (- Z.of_nat n + Z.of_nat n) with 0 by lia.
Qed.

(** An integer below [2^53] is a binary64 value. *)
Lemma to_float_exact (neg : bool) (v : Z) :
  0 < v < 2 ^ 53 -> to_float neg v 1 = Ok (dyadic neg v 0).
Proof.
  intros Hv. unfold to_float.
  replace (v =? 0) with false by (symmetry; apply Z.eqb_neq; lia).
  unfold round_nearest_even. change (Z.log2 1) with 0. cbv zeta. rewrite Z.sub_0_r.
  pose proof (Z.log2_nonneg v) as Hl0.
  assert (Hl : Z.log2 v < 53) by (apply Z.log2_lt_pow2; lia).
  destruct (Z.log2_spec v ltac:(lia)) as [Hlow _].
  rewrite (Z.max_r 0 (Z.log2 v)) by lia. rewrite (Z.max_l 0 (- Z.log2 v)) by lia.
  rewrite Z.pow_0_r, Z.mul_1_r, !Z.mul_1_l.
  replace (2 ^ Z.log2 v <=? v) with true by (symmetry; apply Z.leb_le; lia).
  rewrite (Z.max_l (Z.log2 v - 52) (-1074)) by lia.
  rewrite (Z.max_r 0 (- (Z.log2 v - 52))) by lia.
  rewrite (Z.max_l 0 (Z.log2 v - 52)) by lia.
  rewrite Z.pow_0_r, Z.div_1_r, Z.mod_1_r.
  change (1 <? 2 * 0) with false. change (2 * 0 =? 1) with false. cbn [andb].
  unfold overflows.
  replace (971 <? Z.log2 v - 52) with false by (symmetry; apply Z.ltb_ge; lia).
  replace (Z.log2 v - 52 =? 971) with false by (symmetry; apply Z.eqb_neq; lia).
  cbn [orb andb]. f_equal.
  replace (Z.log2 v - 52) with (- (52 - Z.log2 v)) by lia.
  replace (- - (52 - Z.log2 v)) with (52 - Z.log2 v) by lia.
  apply dyadic_scaled; lia.
Qed.

Lemma strip_twos_nonzero (fuel : nat) (m e : Z) :
  m <> 0 -> fst (strip_twos fuel m e) <> 0.
Proof.
  revert m e. induction fuel as [| fuel IH]; intros m e Hm; [exact Hm |].
  cbn [strip_twos]. replace (m =? 0) with false by (symmetry; apply Z.eqb_neq; lia).
  destruct (Z.even m) eqn:Ev; [| exact Hm].
  apply IH. intros E. apply Z.even_spec in Ev as [x ->].
  rewrite Z.mul_comm, Z.div_mul in E by lia. lia.
Qed.

Lemma dyadic_nonzero (neg : bool) (v : Z) : v <> 0 -> is_zero (dyadic neg v 0) = false.
Proof.
  intros Hv. unfold dyadic.
  pose proof (strip_twos_nonzero (S (Z.to_nat (Z.log2 v))) v 0 Hv) as H.
  destruct (strip_twos _ v 0) as [m e]. cbn [fst] in H. cbn [is_zero].
  destruct m; [congruence | reflexivity | reflexivity].
Qed.

(** [ParseFloat] on digits that start with a digit other than zero. *)
Lemma ParseFloat_digits (neg : bool) (u : Decimal.uint) :
  leading u ->
  ParseFloat ((if neg then "-" else "") ++ NilEmpty.string_of_uint u)
  = to_float neg (digits_after u 0) 1.
Proof.
  intros Hu. destruct (uint_first u Hu) as (c & t & Es & Hc).
  pose proof (scan_mantissa_uint u {| sawdot := false; sawdigits := false; mant := 0;
                                      frac := 0; underscores := false |} eq_refl) as Hscan.
  cbn [sawdigits mant frac underscores] in Hscan.
  replace (match u with Decimal.Nil => false | _ => true end) with true in Hscan
    by now destruct u.
  rewrite Es in *.
  assert (Hspecial : forall s, special (String c s) = None).
  { intros s. unfold special.
    replace (byteZ c =? 43) with false by (symmetry; apply Z.eqb_neq; lia).
    replace (byteZ c =? 45) with false by (symmetry; apply Z.eqb_neq; lia).
    replace (byteZ c =? 105) with false by (symmetry; apply Z.eqb_neq; lia).
    replace (byteZ c =? 73) with false by (symmetry; apply Z.eqb_neq; lia).
    replace (byteZ c =? 110) with false by (symmetry; apply Z.eqb_neq; lia).
    replace (byteZ c =? 78) with false by (symmetry; apply Z.eqb_neq; lia).
    reflexivity. }
  destruct neg.
  - change ("-" ++ String c t)%string with (String "-" (String c t)).
    unfold ParseFloat.
    assert (Hs : special (String "-" (String c t)) = None).
    { unfold special. change (byteZ "-" =? 43) with false. change (byteZ "-" =? 45) with true.
      cbv iota. cbn [commonPrefixLenIgnoreCase].
      replace ((65 <=? byteZ c) && (byteZ c <=? 90)) with false
        by (symmetry; apply andb_false_iff; left; apply Z.leb_gt; lia).
      replace (byteZ c =? byteZ "i") with false
        by (symmetry; apply Z.eqb_neq; change (byteZ "i") with 105; lia).
      reflexivity. }
    rewrite Hs. change (byteZ "-" =? 43) with false. change (byteZ "-" =? 45) with true.
    cbv iota.
    replace (byteZ c =? 48) with false by (symmetry; apply Z.eqb_neq; lia). cbn [andb].
    replace (match t with
             | String c1 (String c2 t') => (false, String c t)
             | _ => (false, String c t)
             end) with (false, String c t) by (destruct t as [| c1 [| c2 t']]; reflexivity).
    rewrite Hscan. cbn [sawdigits negb underscores frac mant orb andb String.eqb].
    change (Z.max 0 (0 - 0)) with 0. change (Z.max 0 (- (0 - 0))) with 0.
    now rewrite Z.pow_0_r, Z.mul_1_r.
  - rewrite app_nil_l. unfold ParseFloat. rewrite Hspecial.
    replace (byteZ c =? 43) with false by (symmetry; apply Z.eqb_neq; lia).
    replace (byteZ c =? 45) with false by (symmetry; apply Z.eqb_neq; lia).
    replace (byteZ c =? 48) with false by (symmetry; apply Z.eqb_neq; lia). cbn [andb].
    replace (match t with
             | String c1 (String c2 t') => (false, String c t)
             | _ => (false, String c t)
             end) with (false, String c t) by (destruct t as [| c1 [| c2 t']]; reflexivity).
    rewrite Hscan. cbn [sawdigits negb underscores frac mant orb andb String.eqb].
    change (Z.max 0 (0 - 0)) with 0. change (Z.max 0 (- (0 - 0))) with 0.
    now rewrite Z.pow_0_r, Z.mul_1_r.
Qed.

End SafeIntegers.

(** *** The text of an integer *)

Section IntegerTokens.
Context {tables : unicode.Tables}.

(** The text of an integer: its digits, after a minus sign when it is
    negative. *)
Lemma FormatInt_digits (i : Z) :
  exists d, FormatInt i = ((if (i <? 0)%Z then "-" else "") ++ d)%string
            /\ d <> "" /\ all_bytes formatpkg.isDigit d = true
            /\ (i = 0 /\ d = "0"
                \/ exists u, leading u /\ d = NilEmpty.string_of_uint u
                             /\ digits_after u 0 = Z.abs i).
Proof.
  unfold FormatInt. destruct i as [| p | p]; cbn [Z.to_int NilZero.string_of_int Z.ltb Z.compare].
  - exists "0". repeat split; [discriminate | now left].
  - pose proof (to_uint_leading p) as Hu.
    exists (NilEmpty.string_of_uint (Pos.to_uint p)).
    split; [unfold NilZero.string_of_uint; now destruct (Pos.to_uint p) |].
    split; [destruct (uint_first _ Hu) as (c & t & -> & _); discriminate |].
    split; [apply uint_digits |]. right. exists (Pos.to_uint p).
    split; [exact Hu |]. split; [reflexivity | apply digits_after_to_uint].
  - pose proof (to_uint_leading p) as Hu.
    exists (NilEmpty.string_of_uint (Pos.to_uint p)).
    split; [unfold NilZero.string_of_uint; now destruct (Pos.to_uint p) |].
    split; [destruct (uint_first _ Hu) as (c & t & -> & _); discriminate |].
    split; [apply uint_digits |]. right. exists (Pos.to_uint p).
    split; [exact Hu |]. split; [reflexivity | apply digits_after_to_uint].
Qed.

Lemma digit_bare (c : ascii) : formatpkg.isDigit c = true -> bare_key_byte c = true.
Proof. intros H. apply isDigit_range in H. apply bare_key_byte_intro. lia. Qed.

Lemma FormatInt_bare (i : Z) :
  all_bytes (fun c => bare_key_byte c || (byteZ c =? 0x2D)) (FormatInt i) = true.
Proof.
  destruct (FormatInt_digits i) as (d & -> & _ & Hd & _).
  rewrite all_bytes_app. apply andb_true_iff. split.
  - now destruct (i <? 0).
  - revert Hd. apply all_bytes_impl. intros c Hc. now rewrite (digit_bare c Hc).
Qed.

Lemma FormatInt_ascii (i : Z) : ascii_text (FormatInt i) = true.
Proof.
  generalize (FormatInt_bare i). apply all_bytes_impl. intros c H.
  apply Z.ltb_lt. apply orb_true_iff in H as [H | H].
  - unfold bare_key_byte in H. do 3 (apply andb_true_iff in H as [H _]).
    apply visible_range in H. lia.
  - apply Z.eqb_eq in H. lia.
Qed.

Lemma FormatInt_nonempty (i : Z) : FormatInt i <> "".
Proof.
  destruct (FormatInt_digits i) as (d & -> & Hne & _).
  destruct (i <? 0); [discriminate | now rewrite app_nil_l].
Qed.

(** The digits of an integer have no leading zeros to forbid. *)
Lemma hasForbiddenLeadingZeros_digits (neg : bool) (u : Decimal.uint) :
  leading u ->
  hasForbiddenLeadingZeros ((if neg then "-" else "") ++ NilEmpty.string_of_uint u) = false.
Proof.
  intros Hu. destruct (uint_first u Hu) as (c & t & -> & Hc).
  unfold hasForbiddenLeadingZeros. destruct (_ <? 2); [reflexivity |].
  destruct neg.
  - change ("-" ++ String c t)%string with (String "-" (String c t)).
    unfold byte_at. cbn [String.get]. change (byteZ "-" =? 48) with false.
    change (byteZ "-" =? 45) with true.
    replace (byteZ c =? 48) with false by (symmetry; apply Z.eqb_neq; lia).
    cbn [negb andb orb]. now rewrite orb_true_r.
  - rewrite app_nil_l. unfold byte_at. cbn [String.get].
    replace (byteZ c =? 48) with false by (symmetry; apply Z.eqb_neq; lia).
    replace (byteZ c =? 45) with false by (symmetry; apply Z.eqb_neq; lia).
    cbn [negb andb orb]. now rewrite orb_true_r.
Qed.

(** The text of a safe integer is read back as that number. *)
Lemma decodePrimitiveToken_int (i : Z) :
  - maxSafeInteger <= i <= maxSafeInteger ->
  decodePrimitiveToken (FormatInt i) = Ok (VNumber (of_Z i)).
Proof.
  intros Hi. destruct (FormatInt_digits i) as (d & E & Hne & Hd & [[-> ->] | Hu]).
  - rewrite E. reflexivity.
  - destruct Hu as (u & Hu & -> & Hvalue).
    pose proof (LooksNumeric_digits (i <? 0) _ Hne Hd) as Hnum.
    pose proof (hasForbiddenLeadingZeros_digits (i <? 0) u Hu) as Hzeros.
    pose proof (ParseFloat_digits (i <? 0) u Hu) as Hparse.
    assert (Hpos : 0 < Z.abs i).
    { destruct (uint_first u Hu) as (c & t & Es & Hc).
      destruct (Z.eq_dec i 0) as [-> | Hnz]; [| lia].
      exfalso. unfold FormatInt in E. cbn in E. rewrite Es in E.
      injection E as E _. subst c. vm_compute in Hc. destruct Hc as [Hc _]. now apply Hc. }
    rewrite Hvalue, to_float_exact in Hparse by (unfold maxSafeInteger in Hi; lia).
    destruct (uint_first u Hu) as (c & t & Es & Hc).
    rewrite E. unfold decodePrimitiveToken.
    rewrite Hzeros, Hnum, Hparse, dyadic_nonzero by lia.
    rewrite Es. unfold of_Z.
    destruct (i <? 0).
    + change ("-" ++ String c t)%string with (String "-" (String c t)).
      unfold byte_at. cbn [String.eqb String.get Ascii.eqb Bool.eqb].
      change (byteZ "-" =? 34) with false. reflexivity.
    + rewrite app_nil_l. unfold byte_at. cbn [String.get].
      replace (byteZ c =? 34) with false by (symmetry; apply Z.eqb_neq; lia).
      assert (Hrange : 0x31 <= byteZ c <= 0x39) by exact Hc.
      change (String.eqb (String c t) "") with false. cbv iota.
      replace (String.eqb (String c t) "true") with false;
        [replace (String.eqb (String c t) "false") with false;
         [replace (String.eqb (String c t) "null") with false; [reflexivity |] |] |];
        symmetry; apply String.eqb_neq; intros [= -> _]; vm_compute in Hrange;
        destruct Hrange as [H1 H2]; first [now apply H1 | now apply H2].
Qed.

(** The token of a safe integer. *)
Lemma FormatInt_token (i : Z) :
  - maxSafeInteger <= i <= maxSafeInteger ->
  value_token (FormatInt i) (VNumber (of_Z i)).
Proof.
  intros Hi. pose proof (FormatInt_bare i) as Hbare.
  assert (Hvisible : all_bytes visible (FormatInt i) = true).
  { revert Hbare. apply all_bytes_impl. intros c H. apply orb_true_iff in H as [H | H].
    - unfold bare_key_byte in H. now do 3 (apply andb_true_iff in H as [H _]).
    - apply Z.eqb_eq in H. unfold visible. rewrite H. reflexivity. }
  split; [apply FormatInt_nonempty |]. split; [now apply TrimSpace_visible |].
  split; [now apply decodePrimitiveToken_int |]. split; [| now apply visible_line].
  intros idx l. apply index_loop_outside. revert Hbare. apply all_bytes_impl.
  intros c H. apply orb_true_iff in H as [H | H].
  - unfold bare_key_byte in H. apply andb_true_iff in H as [H _].
    apply andb_true_iff in H as [H ->]. apply andb_true_iff in H as [_ ->]. reflexivity.
  - apply Z.eqb_eq in H. rewrite H. reflexivity.
Qed.

End IntegerTokens.

(** *** Lines that start with a key *)

Section KeyLines.
Context {tables : unicode.Tables}.

Lemma key_literal_nonempty (k K : string) : key_literal k K -> K <> "".
Proof. intros ((c & t & -> & _) & _). discriminate. Qed.

Lemma tryParseHeader_key_line (k K rest : string) :
  key_literal k K -> tryParseHeader (K ++ ":" ++ rest) = Ok None.
Proof.
  intros HK. pose proof (key_literal_nonempty k K HK) as Hne.
  destruct HK as (_ & Htrim & _ & Hcolon & Hbracket & _).
  unfold tryParseHeader. rewrite (skipped_colon K rest Hcolon).
  replace (len K =? -1) with false by (symmetry; apply Z.eqb_neq; pose proof (len_nonneg K); lia).
  cbv zeta. rewrite slice_to_app, Htrim.
  destruct (String.eqb_spec K ""); [contradiction |].
  now rewrite (skipped_absent 0x5B K ltac:(lia) Hbracket).
Qed.

Lemma splitKeyValue_key_line (k K rest : string) :
  key_literal k K ->
  splitKeyValue (K ++ ":" ++ rest) = Ok (k, gostrings.TrimSpace rest).
Proof.
  intros (_ & Htrim & Hdecode & Hcolon & _).
  unfold splitKeyValue. rewrite (skipped_colon K rest Hcolon).
  replace (len K =? -1) with false by (symmetry; apply Z.eqb_neq; pose proof (len_nonneg K); lia).
  cbv zeta. rewrite slice_to_app, Htrim, Hdecode. cbn [bind].
  change (":" ++ rest)%string with (String ":" rest). now rewrite slice_from_app_1.
Qed.

Lemma isKeyValue_key_line (k K rest : string) :
  key_literal k K -> isKeyValue (K ++ ":" ++ rest) = true.
Proof.
  intros HK. pose proof (key_literal_nonempty k K HK) as Hne.
  destruct HK as (_ & _ & _ & Hcolon & _).
  unfold isKeyValue. rewrite (skipped_colon K rest Hcolon). now apply len_pos.
Qed.

Lemma TrimSpace_visible_head (c : ascii) (t : string) :
  visible c = true -> gostrings.TrimSpace (String c t) <> "".
Proof.
  intros Hc. unfold gostrings.TrimSpace. rewrite TrimLeftSpace_visible by assumption.
  cbn [gostrings.TrimRightSpace]. unfold gostrings.is_space_rune.
  apply visible_range in Hc.
  rewrite DecodeRune_ascii by lia. rewrite IsSpace_visible by lia.
  rewrite andb_false_r. discriminate.
Qed.

Lemma key_line_ok (d : Z) (k K rest : string) :
  0 <= d -> key_literal k K -> all_bytes line_byte rest = true ->
  row_ok (d, K ++ ":" ++ rest)%string.
Proof.
  intros Hd ((c & t & -> & Hc) & _ & _ & _ & _ & Hline) Hrest.
  split; [exact Hd |]. cbn [snd]. rewrite app_cons. split; [| split].
  - exists c, (t ++ ":" ++ rest)%string. split; [reflexivity |].
    apply visible_range in Hc.
    split; intros E; rewrite E in Hc;
      [change (byteZ " ") with 32 in Hc | change (byteZ "009") with 9 in Hc]; lia.
  - now apply TrimSpace_visible_head.
  - rewrite <- app_cons, !all_bytes_app, Hline, Hrest. reflexivity.
Qed.

Lemma object_rows_ok (d : Z) (fs : list (Field tree)) (rows : list (Z * string)) :
  object_rows d fs rows -> 0 <= d -> Forall row_ok rows.
Proof.
  induction 1 as [d | d k v fs K T rows HK HT _ IH
                  | d k o fs K inner rows HK _ IHinner _ IH]; intros Hd.
  - constructor.
  - constructor; [| now apply IH].
    apply (key_line_ok d k K); [assumption | assumption |].
    destruct HT as (_ & _ & _ & _ & Hline). rewrite all_bytes_app, Hline. reflexivity.
  - constructor; [now apply (key_line_ok d k K) |].
    apply Forall_app. split; [apply IHinner; lia | now apply IH].
Qed.

(** The first line of an object at depth [d] is at depth [d] and starts
    with a key. *)
Lemma object_rows_head (d : Z) (fs : list (Field tree)) (r : Z * string)
    (rows : list (Z * string)) :
  object_rows d fs (r :: rows) ->
  fst r = d /\ exists k K rest, key_literal k K /\ snd r = (K ++ ":" ++ rest)%string.
Proof.
  intros H. inversion H; subst; (split; [reflexivity |]); eauto.
Qed.

Lemma object_rows_empty (d : Z) (fs : list (Field tree)) :
  object_rows d fs [] -> fs = [].
Proof. intros H. now inversion H. Qed.

End KeyLines.

(** *** The lines of an object, parsed *)

Section ObjectLines.
Context {tables : unicode.Tables}.
Variable dcfg : decoderOptions.

Lemma parseObject_loop_eq (lines : list parsedLine) (fuel : nat) (depth : Z)
    (result : gmap string value) (pos : nat) :
  parseObject_loop dcfg lines (S fuel) depth result pos
  = if (length lines <=? pos)%nat then Done (result, pos)
    else
      let line := current lines pos in
      if blank line then parseObject_loop dcfg lines fuel depth result (S pos)
      else if indentLevel line <? depth then Done (result, pos)
      else if depth <? indentLevel line
      then errorAt (number line) UnexpectedIndentation
      else
        obind (errorWrap (number line) (tryParseHeader (content line)))
          (fun hdr =>
             match hdr with
             | Some header =>
               if String.eqb (hKey header) ""
               then errorAt (number line) ArraysMustHaveKey
               else
                 obind (parseArray dcfg lines fuel header depth (S pos))
                   (fun '(value, pos') =>
                      parseObject_loop dcfg lines fuel depth
                        (<[hKey header := value]> result) pos')
             | None =>
               obind (errorWrap (number line) (splitKeyValue (content line)))
                 (fun '(key, rest) =>
                    if String.eqb rest "" then
                      obind (parseObject_loop dcfg lines fuel (depth + 1) ∅ (S pos))
                        (fun '(nextValue, pos') =>
                           parseObject_loop dcfg lines fuel depth
                             (<[key := VObject nextValue]> result) pos')
                    else
                      obind (errorWrap (number line) (decodePrimitiveToken rest))
                        (fun value =>
                           parseObject_loop dcfg lines fuel depth
                             (<[key := value]> result) (S pos)))
             end).
Proof. reflexivity. Qed.

Lemma current_middle (pre post : list parsedLine) (l : parsedLine) :
  current (pre ++ l :: post) (length pre) = l.
Proof. unfold current, line_at. apply nth_middle. Qed.

Lemma inside (pre post : list parsedLine) (l : parsedLine) :
  (length (pre ++ l :: post) <=? length pre)%nat = false.
Proof. apply Nat.leb_gt. rewrite List.length_app. cbn. lia. Qed.

(** The loop of [parseObject] ends where the object ends. *)
Lemma parseObject_loop_closes (pre post : list parsedLine) (fuel : nat) (d : Z)
    (acc : gmap string value) :
  closes d post ->
  parseObject_loop dcfg (pre ++ post) (S fuel) d acc (length pre) = Done (acc, length pre).
Proof.
  intros H. rewrite parseObject_loop_eq. destruct post as [| l post].
  - rewrite app_nil_r, Nat.leb_refl. reflexivity.
  - destruct H as [Hblank Hindent]. rewrite inside. cbv zeta.
    rewrite current_middle, Hblank.
    now replace (indentLevel l <? d) with true by (symmetry; apply Z.ltb_lt; lia).
Qed.

(** A line with a key and a token. *)
Lemma parseObject_loop_leaf (pre post : list parsedLine) (l : parsedLine) (fuel : nat)
    (d : Z) (acc : gmap string value) (k K T : string) (v : value) :
  shows l (d, K ++ ":" ++ " " ++ T)%string ->
  key_literal k K -> value_token T v ->
  parseObject_loop dcfg (pre ++ l :: post) (S fuel) d acc (length pre)
  = parseObject_loop dcfg (pre ++ l :: post) fuel d (<[k := v]> acc) (S (length pre)).
Proof.
  intros (Hindent & Hcontent & Hblank) HK (Hne & Htrim & Hdecode & _).
  cbn [fst snd] in Hindent, Hcontent.
  rewrite parseObject_loop_eq, inside. cbv zeta. rewrite current_middle, Hblank, Hindent.
  rewrite !Z.ltb_irrefl, Hcontent.
  rewrite (tryParseHeader_key_line k K _ HK). cbn [errorWrap obind].
  rewrite (splitKeyValue_key_line k K _ HK). cbn [errorWrap obind].
  rewrite TrimSpace_after_space, Htrim.
  destruct (String.eqb_spec T ""); [contradiction |].
  rewrite Hdecode. reflexivity.
Qed.

(** A line with a key and nothing else: an object follows, one level
    deeper. *)
Lemma parseObject_loop_nested (pre post : list parsedLine) (l : parsedLine) (fuel : nat)
    (d : Z) (acc : gmap string value) (k K : string) :
  shows l (d, K ++ ":" ++ "")%string ->
  key_literal k K ->
  parseObject_loop dcfg (pre ++ l :: post) (S fuel) d acc (length pre)
  = obind (parseObject_loop dcfg (pre ++ l :: post) fuel (d + 1) ∅ (S (length pre)))
      (fun '(nextValue, pos') =>
         parseObject_loop dcfg (pre ++ l :: post) fuel d
           (<[k := VObject nextValue]> acc) pos').
Proof.
  intros (Hindent & Hcontent & Hblank) HK. cbn [fst snd] in Hindent, Hcontent.
  rewrite parseObject_loop_eq, inside. cbv zeta. rewrite current_middle, Hblank, Hindent.
  rewrite !Z.ltb_irrefl, Hcontent.
  rewrite (tryParseHeader_key_line k K _ HK). cbn [errorWrap obind].
  rewrite (splitKeyValue_key_line k K _ HK). cbn [errorWrap obind].
  reflexivity.
Qed.

Lemma closes_rows (d : Z) (fs : list (Field tree)) (rows : list (Z * string))
    (ls post : list parsedLine) :
  object_rows d fs rows -> Forall2 shows ls rows -> closes d post ->
  closes (d + 1) (ls ++ post).
Proof.
  intros Hrows Hshows Hpost. destruct Hshows as [| l r ls rows (Hindent & _ & Hblank) _].
  - destruct post as [| l post]; [exact I |]. destruct Hpost. split; [assumption | lia].
  - destruct (object_rows_head d fs r rows Hrows) as [Hd _].
    split; [exact Hblank | lia].
Qed.

(** The loop of [parseObject] reads the lines of an object back. *)
Lemma parseObject_loop_rows (d : Z) (fs : list (Field tree)) (rows : list (Z * string)) :
  object_rows d fs rows ->
  forall (pre ls post : list parsedLine) (fuel : nat) (acc : gmap string value),
    Forall2 shows ls rows -> closes d post -> (length ls < fuel)%nat ->
    parseObject_loop dcfg (pre ++ ls ++ post) fuel d acc (length pre)
    = Done (decoded_fields fs acc, (length pre + length ls)%nat).
Proof.
  induction 1 as [d | d k v fs K T rows HK HT _ IH
                  | d k o fs K inner rows HK Hinner IHinner Hrest IH];
    intros pre ls post fuel acc Hshows Hpost Hfuel.
  - inversion Hshows; subst. destruct fuel as [| fuel]; [lia |].
    cbn [app length]. rewrite Nat.add_0_r. now apply parseObject_loop_closes.
  - inversion Hshows as [| l r ls' rows' Hl Hls]; subst.
    destruct fuel as [| fuel]; [cbn in Hfuel; lia |]. cbn [app].
    rewrite (parseObject_loop_leaf pre (ls' ++ post) l fuel d acc k K T _ Hl HK HT).
    replace (pre ++ l :: ls' ++ post)%list with ((pre ++ [l]) ++ ls' ++ post)%list
      by now rewrite <- app_assoc.
    replace (S (length pre)) with (length (pre ++ [l])) by (rewrite List.length_app; cbn; lia).
    rewrite (IH (pre ++ [l])%list ls' post fuel _ Hls Hpost) by (cbn in Hfuel; lia).
    cbn [decoded_fields fold_left Key Value]. do 2 f_equal.
    rewrite List.length_app. cbn. lia.
  - inversion Hshows as [| l r ls' rows' Hl Hls]; subst.
    apply Forall2_app_inv_r in Hls as (ls1 & ls2 & Hls1 & Hls2 & ->).
    destruct fuel as [| fuel]; [cbn in Hfuel; lia |]. cbn [app].
    cbn [length] in Hfuel. rewrite List.length_app in Hfuel.
    rewrite (parseObject_loop_nested pre ((ls1 ++ ls2) ++ post) l fuel d acc k K Hl HK).
    replace (pre ++ l :: (ls1 ++ ls2) ++ post)%list
      with ((pre ++ [l]) ++ ls1 ++ (ls2 ++ post))%list
      by now rewrite <- !app_assoc.
    replace (S (length pre)) with (length (pre ++ [l])) by (rewrite List.length_app; cbn; lia).
    rewrite (IHinner (pre ++ [l])%list ls1 (ls2 ++ post)%list fuel ∅ Hls1
               (closes_rows d fs rows ls2 post Hrest Hls2 Hpost)) by lia.
    cbn [obind].
    replace ((pre ++ [l]) ++ ls1 ++ ls2 ++ post)%list
      with (((pre ++ [l]) ++ ls1) ++ ls2 ++ post)%list
      by now rewrite <- !app_assoc.
    replace (length (pre ++ [l]) + length ls1)%nat
      with (length ((pre ++ [l]) ++ ls1)) by now rewrite !List.length_app.
    rewrite (IH ((pre ++ [l]) ++ ls1)%list ls2 post fuel _ Hls2 Hpost) by lia.
    cbn [decoded_fields fold_left Key Value decoded]. do 2 f_equal.
    cbn [length]. rewrite !List.length_app. cbn [length]. lia.
Qed.

End ObjectLines.

(** *** The lines of an object, preprocessed *)

Section Preprocessing.
Context {tables : unicode.Tables} {clock : gotime.Clock}.
Variable cfg : encoderOptions.
Variable dcfg : decoderOptions.
Hypothesis Hsize : 0 < indentSize cfg.
Hypothesis Hsame : d_indentSize dcfg = indentSize cfg.

Lemma computeIndent_spaces (n : nat) (content : string) (i : Z) :
  computeIndent_loop dcfg (gostrings.Repeat_nat " " n ++ content) i
  = computeIndent_loop dcfg content (i + Z.of_nat n).
Proof.
  revert i. induction n as [| n IH]; intros i.
  - cbn [gostrings.Repeat_nat]. rewrite app_nil_l. f_equal. lia.
  - cbn [gostrings.Repeat_nat]. rewrite !app_cons, app_nil_l.
    cbn [computeIndent_loop Ascii.eqb Bool.eqb]. rewrite IH. f_equal. lia.
Qed.

Lemma computeIndent_plain (c : ascii) (t : string) (d : Z) :
  c <> " "%char -> c <> "009"%char -> 0 <= d ->
  computeIndent_loop dcfg (String c t) (d * indentSize cfg) = Ok (d, String c t).
Proof.
  intros Hs Ht Hd. cbn [computeIndent_loop].
  destruct (Ascii.eqb_spec c " "); [contradiction |].
  destruct (Ascii.eqb_spec c "009"); [contradiction |].
  rewrite Hsame, Z.rem_mul, Z.quot_mul by lia. cbn [Z.eqb negb]. now rewrite andb_false_r.
Qed.

Lemma computeIndent_row (r : Z * string) :
  row_ok r -> computeIndent dcfg (line_of cfg r) = Ok r.
Proof.
  destruct r as [d content]. intros (Hd & (c & t & Hc & Hs & Ht) & _). cbn [fst snd] in *.
  subst content.
  unfold computeIndent, line_of, indent. cbn [fst snd].
  destruct (Z.leb_spec d 0) as [H0 | Hpos].
  - assert (d = 0) as -> by lia. rewrite app_nil_l.
    exact (computeIndent_plain c t 0 Hs Ht ltac:(lia)).
  - unfold gostrings.Repeat. rewrite computeIndent_spaces, Z2Nat.id by lia.
    now apply computeIndent_plain.
Qed.

Lemma spaces_line (n : nat) : all_bytes line_byte (gostrings.Repeat_nat " " n) = true.
Proof.
  induction n as [| n IH]; [reflexivity |].
  cbn [gostrings.Repeat_nat]. rewrite app_cons, app_nil_l, all_bytes_cons, IH. reflexivity.
Qed.

Lemma line_of_line (r : Z * string) :
  row_ok r -> all_bytes line_byte (line_of cfg r) = true /\ line_of cfg r <> "".
Proof.
  intros (_ & (c & t & Hc & _) & _ & Hline). unfold line_of, indent. split.
  - rewrite all_bytes_app, Hline, andb_true_r.
    destruct (fst r <=? 0); [reflexivity | apply spaces_line].
  - rewrite Hc. destruct (if fst r <=? 0 then _ else _); discriminate.
Qed.

(** The preprocessing of the lines gives each row back. *)
Lemma newParser_lines_rows (rows : list (Z * string)) (idx : Z) :
  Forall row_ok rows ->
  exists ls, newParser_lines dcfg (map (line_of cfg) rows) idx = Done ls
             /\ Forall2 shows ls rows.
Proof.
  intros H. revert idx. induction H as [| r rows Hr _ IH]; intros idx.
  - exists []. split; [reflexivity | constructor].
  - cbn [map newParser_lines]. destruct (line_of_line r Hr) as [_ Hne].
    destruct (String.eqb_spec (line_of cfg r) ""); [contradiction |].
    rewrite (computeIndent_row r Hr). destruct r as [d content].
    cbn [errorWrap obind]. destruct (IH (idx + 1)) as (ls & -> & Hls). cbn [obind].
    eexists. split; [reflexivity |]. constructor; [| exact Hls].
    destruct Hr as (_ & _ & Hblank & _). cbn [snd] in Hblank.
    repeat split. cbn [blank]. now destruct (String.eqb_spec (gostrings.TrimSpace content) "").
Qed.

Lemma last_nonempty (l : list string) :
  l <> [] -> Forall (fun s => s <> "") l -> List.last l "" <> "".
Proof.
  induction l as [| a [| b l] IH]; [congruence | |].
  - intros _ H. now inversion H.
  - intros _ H. inversion H; subst. apply IH; [discriminate | assumption].
Qed.

Lemma splitLines_rows (rows : list (Z * string)) :
  rows <> [] -> Forall row_ok rows ->
  splitLines (gostrings.Join (map (line_of cfg) rows) LF) = map (line_of cfg) rows.
Proof.
  intros Hne Hrows.
  apply (splitLines_Join (map (line_of cfg) rows) LF (or_introl eq_refl)).
  - now destruct rows.
  - apply List.Forall_map. revert Hrows. apply List.Forall_impl. intros r Hr.
    now destruct (line_of_line r Hr).
  - apply last_nonempty; [now destruct rows |].
    apply List.Forall_map. revert Hrows. apply List.Forall_impl. intros r Hr.
    now destruct (line_of_line r Hr).
Qed.

End Preprocessing.

(** *** The lines of an object, written; the round trip *)

Section RoundTrip.
Context {tables : unicode.Tables} {clock : gotime.Clock}.
Variable cfg : encoderOptions.
Variable dcfg : decoderOptions.

Lemma normalize_host (t : tree) : normalize cfg (host t) = Ok (norm t).
Proof.
  revert t. fix IH 1. intros [| b | i | s | [fs]]; try reflexivity.
  cbn [host norm normalize Fields].
  assert (E : mapM (fun field : Field any =>
                      let* child := wrap_field (Key field) (normalize cfg (Value field)) in
                      Ok {| Key := Key field; Value := child |})
                (map (fun f => {| Key := Key f; Value := host (Value f) |}) fs)
              = Ok (map (fun f => {| Key := Key f; Value := norm (Value f) |}) fs)).
  { induction fs as [| f fs IHfs]; [reflexivity |].
    cbn [map mapM Key Value]. rewrite (IH (Value f)). cbn [wrap_field bind].
    rewrite IHfs. reflexivity. }
  rewrite E. reflexivity.
Qed.

Lemma sound_string (s : string) : sound (TString s) = true -> well_formed s.
Proof. cbn [sound]. apply String.eqb_eq. Qed.

Lemma norm_primitive (v : tree) : (forall o, v <> TObject o) -> isPrimitive (norm v) = true.
Proof.
  intros H. destruct v as [| b | i | s | o]; cbn [norm]; try reflexivity.
  - unfold normalizeInt. now destruct (_ || _).
  - now destruct (H o).
Qed.

(** The token of a value that is no object. *)
Lemma formatPrimitive_token (v : tree) (ctx : formatContext) (T : string) :
  sound v = true -> (forall o, v <> TObject o) ->
  formatPrimitive (norm v) ctx = Ok T -> value_token T (decoded v).
Proof.
  intros Hs Hleaf. destruct v as [| b | i | s | o]; cbn [norm formatPrimitive decoded].
  - intros [= <-]. apply word_token; [reflexivity | discriminate | reflexivity].
  - destruct b; intros [= <-]; (apply word_token; [reflexivity | discriminate | reflexivity]).
  - unfold normalizeInt.
    destruct (Z.ltb_spec maxSafeInteger i) as [Hhigh | Hhigh];
      [| destruct (Z.ltb_spec i (- maxSafeInteger)) as [Hlow | Hlow]];
      cbn [orb formatPrimitive].
    + apply FormatString_token, ascii_well_formed, FormatInt_ascii.
    + apply FormatString_token, ascii_well_formed, FormatInt_ascii.
    + intros [= <-]. apply FormatInt_token. lia.
  - apply FormatString_token. now apply sound_string.
  - now destruct (Hleaf o).
Qed.

Lemma encodeField_primitive (fuel : nat) (d : Z) (k : string) (n : normalizedValue) :
  isPrimitive n = true ->
  encodeField cfg fuel d {| Key := k; Value := n |}
  = try (encodeKey k)
      (fun keyLiteral =>
         try (formatPrimitive n
                {| active := arrayDelimiter cfg; codec.document := documentDelimiter cfg;
                   inArray := false |})
           (fun token => emit (indent cfg d ++ keyLiteral ++ ": " ++ token))).
Proof. destruct n; (discriminate || reflexivity). Qed.

Lemma encodeRoot_primitive (fuel : nat) (n : normalizedValue) :
  isPrimitive n = true ->
  encodeRoot cfg fuel n
  = try (formatPrimitive n
           {| active := arrayDelimiter cfg; codec.document := documentDelimiter cfg;
              inArray := false |})
      (fun token => emit token).
Proof. destruct n; (discriminate || reflexivity). Qed.

(** The lines [encodeObject] writes for the fields of an object. *)
Lemma encodeObject_rows (fuel : nat) :
  forall (fs : list (Field tree)) (d : Z) (out0 out : list string),
    0 <= d ->
    forallb (fun f => ascii_text (Key f) && sound (Value f)) fs = true ->
    encodeObject cfg fuel
      {| Fields := map (fun f => {| Key := Key f; Value := norm (Value f) |}) fs |} d out0
    = Done out ->
    exists rows, object_rows d fs rows /\ out = (out0 ++ map (line_of cfg) rows)%list.
Proof.
  induction fuel as [| fuel IHfuel]; intros fs d out0 out Hd Hsound; [discriminate |].
  rewrite encodeObject_fields. cbn [Fields].
  destruct ((d =? 0) && IsEmpty _) eqn:Eempty.
  - intros [= <-]. apply andb_true_iff in Eempty as [_ Eempty]. unfold IsEmpty in Eempty.
    cbn [Fields] in Eempty. destruct fs; [| discriminate].
    exists []. split; [constructor | now rewrite app_nil_r].
  - clear Eempty. revert out0 out Hsound.
    induction fs as [| f fs IHfs]; intros out0 out Hsound.
    + intros [= <-]. exists []. split; [constructor | now rewrite app_nil_r].
    + cbn [forallb] in Hsound. apply andb_true_iff in Hsound as [Hf Hfs].
      apply andb_true_iff in Hf as [Hkey Hvalue].
      cbn [map forEach]. unfold seq at 1. destruct f as [k v]. cbn [Key Value] in *.
      assert (Hleaf : (forall o, v <> TObject o) ->
                forall line,
                  encodeField cfg fuel d {| Key := k; Value := norm v |} out0 = Done line ->
                exists K T, key_literal k K /\ value_token T (decoded v)
                            /\ line = (out0 ++ [line_of cfg (d, K ++ ":" ++ " " ++ T)%string])%list).
      { intros Hv line. rewrite encodeField_primitive by now apply norm_primitive.
        unfold try at 1, encodeKey.
        destruct (formatpkg.EncodeKey k) as [K |] eqn:EK; [| discriminate].
        unfold try at 1. destruct (formatPrimitive _ _) as [T |] eqn:ET; [| discriminate].
        intros [= <-]. exists K, T. split; [now apply EncodeKey_literal |].
        split; [exact (formatPrimitive_token v _ T Hvalue Hv ET) | reflexivity]. }
      assert (Hstep : forall line,
                (exists K T, key_literal k K /\ value_token T (decoded v)
                             /\ line = (out0 ++ [line_of cfg (d, K ++ ":" ++ " " ++ T)%string])%list) ->
                forEach (encodeField cfg fuel d)
                  (map (fun f => {| Key := Key f; Value := norm (Value f) |}) fs) line
                = Done out ->
                exists rows, object_rows d ({| Key := k; Value := v |} :: fs) rows
                             /\ out = (out0 ++ map (line_of cfg) rows)%list).
      { intros line (K & T & HK & HT & ->) Hrest.
        destruct (IHfs _ _ Hfs Hrest) as (rows & Hrows & ->).
        exists ((d, K ++ ":" ++ " " ++ T)%string :: rows).
        split; [now constructor |]. cbn [map]. now rewrite <- app_assoc. }
      assert (Hprimitive : (forall o, v <> TObject o) ->
                match encodeField cfg fuel d {| Key := k; Value := norm v |} out0 with
                | Done lines' =>
                  forEach (encodeField cfg fuel d)
                    (map (fun f => {| Key := Key f; Value := norm (Value f) |}) fs) lines'
                | Failed e => Failed e
                | OutOfFuel => OutOfFuel
                end = Done out ->
                exists rows, object_rows d ({| Key := k; Value := v |} :: fs) rows
                             /\ out = (out0 ++ map (line_of cfg) rows)%list).
      { intros Hv. destruct (encodeField _ _ _ _ out0) as [line | |] eqn:E; try discriminate.
        apply Hstep. now apply Hleaf. }
      destruct v as [| b | i | s | o]; try (apply Hprimitive; discriminate).
      unfold encodeField at 1. cbn [Key Value norm].
      unfold try at 1, encodeKey.
        destruct (formatpkg.EncodeKey k) as [K |] eqn:EK; [| discriminate].
        unfold seq at 1. cbn [emit].
        destruct (encodeObject cfg fuel _ (d + 1) _) as [out1 | |] eqn:Einner;
          try discriminate.
        cbn [sound] in Hvalue.
        destruct (IHfuel (Fields o) (d + 1) _ _ ltac:(lia) Hvalue Einner)
          as (inner & Hinner & ->).
        intros Hrest. destruct (IHfs _ _ Hfs Hrest) as (rows & Hrows & ->).
        exists ((d, K ++ ":" ++ "")%string :: inner ++ rows).
        split; [constructor; [now apply EncodeKey_literal | assumption | assumption] |].
        cbn [map]. rewrite map_app, <- !app_assoc. reflexivity.
Qed.

Lemma TrimLeftSpace_head (c : ascii) (t : string) :
  gostrings.TrimLeftSpace (String c t) = String c t -> c <> " "%char /\ c <> "009"%char.
Proof.
  unfold gostrings.TrimLeftSpace. cbn [String.length gostrings.TrimLeft_fuel].
  intros H.
  assert (Hshort : forall s, String.length s = String.length t ->
                             gostrings.TrimLeft_fuel (String.length t) s <> String c t).
  { intros s Hs E. destruct (TrimLeft_fuel_length (String.length t) s) as [Hle _].
    rewrite E in Hle. cbn [String.length] in Hle. lia. }
  split; intros ->; rewrite DecodeRune_ascii in H by (vm_compute; reflexivity);
    cbn in H; now apply (Hshort t eq_refl).
Qed.

Lemma parseDocument_token (l : parsedLine) (fuel : nat) (v : value) :
  blank l = false -> value_token (content l) v -> parseDocument dcfg [l] fuel = Done v.
Proof.
  intros Hblank (Hne & Htrim & Hdecode & Hcolon & Hline).
  unfold parseDocument, skipBlankLinesOutsideArrays, countRemainingNonBlank, current, line_at.
  cbn [drop skipBlank]. rewrite Hblank. cbn [length Nat.leb nth].
  assert (Hcount : filter (fun l0 => negb (blank l0)) [l] = [l])
    by (cbn; now rewrite Hblank).
  unfold tryParseHeader, isKeyValue.
  rewrite !(skipped_absent 0x3A _ ltac:(lia) Hcolon).
  change (-1 =? -1) with true. change (0 <? -1) with false.
  cbn [errorWrap obind negb andb]. change (drop 0 [l]) with [l].
  rewrite Hcount. cbn [length].
  change (Z.of_nat 1 =? 1) with true. cbn [andb].
  now rewrite Htrim, Hdecode.
Qed.

(** A document of one token. *)
Lemma Decode_token (T : string) (v : value) : value_token T v -> Decode dcfg T = Done v.
Proof.
  intros HT. pose proof HT as (Hne & Htrim & Hdecode & Hcolon & Hline).
  destruct T as [| c t]; [congruence |].
  destruct (TrimSpace_fixed _ Htrim) as [Hleft _].
  destruct (TrimLeftSpace_head c t Hleft) as [Hspace Htab].
  assert (Hsplit : splitLines (String c t) = [String c t]).
  { apply (splitLines_Join [String c t] LF (or_introl eq_refl)).
    - discriminate.
    - constructor; [exact Hline | constructor].
    - discriminate. }
  unfold Decode, newParser. rewrite Hsplit. cbn [newParser_lines String.eqb].
  unfold computeIndent. cbn [computeIndent_loop].
  destruct (Ascii.eqb_spec c " "); [contradiction |].
  destruct (Ascii.eqb_spec c "009"); [contradiction |].
  change (Z.rem 0 (d_indentSize dcfg)) with 0. change (Z.quot 0 (d_indentSize dcfg)) with 0.
  cbn [Z.eqb negb]. rewrite andb_false_r. cbn [errorWrap obind].
  apply parseDocument_token; cbn [blank content]; [| exact HT].
  rewrite Htrim. reflexivity.
Qed.

(** A document of the lines of an object. *)
Lemma Decode_rows (fs : list (Field tree)) (rows : list (Z * string)) :
  0 < indentSize cfg -> d_indentSize dcfg = indentSize cfg ->
  object_rows 0 fs rows ->
  Decode dcfg (gostrings.Join (map (line_of cfg) rows) LF)
  = Done (VObject (decoded_fields fs ∅)).
Proof.
  intros Hsize Hsame Hrows.
  pose proof (object_rows_ok 0 fs rows Hrows ltac:(lia)) as Hok.
  destruct rows as [| r rows].
  - rewrite (object_rows_empty 0 fs Hrows). reflexivity.
  - unfold Decode, newParser.
    rewrite (splitLines_rows cfg (r :: rows) ltac:(discriminate) Hok).
    destruct (newParser_lines_rows cfg dcfg Hsize Hsame (r :: rows) 0 Hok)
      as (ls & -> & Hshows).
    destruct (object_rows_head 0 fs r rows Hrows) as (_ & k & K & rest & HK & Hr).
    inversion Hshows as [| l r' ls' rows' (Hindent & Hcontent & Hblank) Hls]; subst.
    unfold parseDocument, skipBlankLinesOutsideArrays, current, line_at.
    cbn [drop skipBlank length Nat.leb nth]. rewrite Hblank. cbn [length Nat.leb nth].
    rewrite Hcontent, Hr, (tryParseHeader_key_line k K rest HK).
    cbn [errorWrap obind negb andb]. rewrite (isKeyValue_key_line k K rest HK).
    cbn [negb]. rewrite andb_false_r. unfold parseObject.
    pose proof (parseObject_loop_rows dcfg 0 fs (r :: rows) Hrows [] (l :: ls') []
                  (decode_fuel (l :: ls')) ∅ Hshows I) as Hloop.
    rewrite app_nil_r in Hloop. cbn [app length] in Hloop.
    rewrite Hloop by (unfold decode_fuel; cbn [length]; lia). reflexivity.
Qed.

(** X9. What [Marshal] writes for a value made of strings of valid UTF-8,
    integers, booleans, null and objects with ASCII keys, [Decode] reads back
    as that value, when it reads with the indent the document was written
    with: a safe integer as a number, and an integer beyond the safe range as
    the string of its digits. *)
Theorem Marshal_Decode (t : tree) (doc : string) :
  sound t = true ->
  0 < indentSize cfg ->
  d_indentSize dcfg = indentSize cfg ->
  Marshal cfg (host t) = Done doc ->
  Decode dcfg doc = Done (decoded t).
Proof.
  intros Hsound Hsize Hsame. unfold Marshal. rewrite normalize_host.
  destruct (encodeRoot cfg _ (norm t) []) as [out | |] eqn:E; try discriminate.
  intros [= <-].
  destruct (match t with TObject _ => true | _ => false end) eqn:Eobj.
  - destruct t as [| b | i | s | [fs]]; try discriminate. cbn [norm encodeRoot] in E.
    cbn [sound Fields] in Hsound.
    destruct (encodeObject_rows _ fs 0 [] out ltac:(lia) Hsound E) as (rows & Hrows & ->).
    cbn [app decoded Fields]. now apply Decode_rows.
  - assert (Ht : forall o, t <> TObject o) by (intros o ->; discriminate).
    rewrite encodeRoot_primitive in E by now apply norm_primitive.
    unfold try in E. destruct (formatPrimitive _ _) as [T |] eqn:ET; [| discriminate].
    injection E as <-. apply Decode_token.
    exact (formatPrimitive_token t _ T Hsound Ht ET).
Qed.

End RoundTrip.

(** *** Keys with control characters *)

Section KeyErrors.
Context {tables : unicode.Tables} {clock : gotime.Clock}.

Lemma range_nonneg (s : string) (idx : Z) :
  Forall (fun p : Z * rune => 0 <= snd p) (utf8.range_from s idx 0).
Proof.
  revert idx.
  induction s as [| c t Hc IH | p rest r Hp Hb Hr Hd Hrange IH] using rune_ind; intros idx.
  - constructor.
  - rewrite range_from_ascii by assumption. constructor; [| apply IH].
    cbn [snd]. pose proof (byteZ_range c). lia.
  - rewrite Hrange. constructor; [cbn [snd]; lia | apply IH].
Qed.

Lemma quote_rune_fails (r : rune) :
  control r = true -> formatpkg.quote_rune r = Err (UnsupportedControlCharacter r).
Proof.
  unfold control, formatpkg.quote_rune. intros H.
  apply andb_true_iff in H as [H H9]. apply andb_true_iff in H as [H H13].
  apply andb_true_iff in H as [H H10]. apply Z.ltb_lt in H.
  apply negb_true_iff in H9, H10, H13. rewrite H9, H10, H13.
  replace (r =? 92) with false by (symmetry; apply Z.eqb_neq; lia).
  replace (r =? 34) with false by (symmetry; apply Z.eqb_neq; lia).
  now replace (r <? 32) with true by (symmetry; apply Z.ltb_lt; lia).
Qed.

Lemma QuoteString_fails (s : string) (r : rune) :
  first_control s = Some r ->
  formatpkg.QuoteString s = Err (UnsupportedControlCharacter r).
Proof.
  unfold first_control, formatpkg.QuoteString.
  induction (utf8.range s) as [| [idx x] rs IH]; [discriminate |].
  cbn [find mapM snd]. destruct (control x) eqn:Ec.
  - intros [= <-]. now rewrite (quote_rune_fails x Ec).
  - intros H. destruct (quote_rune_control x Ec) as (part & ->). cbn [bind].
    specialize (IH H). destruct (mapM _ rs); cbn [bind] in *; [discriminate | exact IH].
Qed.

Lemma control_not_in_key (r : rune) :
  0 <= r -> control r = true ->
  (r =? 0x5F) || unicode.IsLetter r = false
  /\ unicode.IsLetter r || unicode.IsDigit r || (r =? 0x5F) || (r =? 0x2E) = false.
Proof.
  unfold control. intros H0 H.
  apply andb_true_iff in H as [H _]. apply andb_true_iff in H as [H _].
  apply andb_true_iff in H as [H _]. apply Z.ltb_lt in H.
  assert (Hl : unicode.IsLetter r = false).
  { unfold unicode.IsLetter, unicode.MaxLatin1.
    replace ((0 <=? r) && (r <=? 255)) with true by (symmetry; apply andb_true_iff; lia).
    repeat (apply orb_false_iff; split);
      first [apply Z.eqb_neq; lia | apply andb_false_iff; lia]. }
  assert (Hd : unicode.IsDigit r = false).
  { unfold unicode.IsDigit, unicode.MaxLatin1.
    replace ((0 <=? r) && (r <=? 255)) with true by (symmetry; apply andb_true_iff; lia).
    apply andb_false_iff. lia. }
  rewrite Hl, Hd.
  replace (r =? 0x5F) with false by (symmetry; apply Z.eqb_neq; lia).
  replace (r =? 0x2E) with false by (symmetry; apply Z.eqb_neq; lia).
  split; reflexivity.
Qed.

Lemma IsValidUnquotedKey_control (k : string) (r : rune) :
  first_control k = Some r -> formatpkg.IsValidUnquotedKey k = false.
Proof.
  unfold first_control, formatpkg.IsValidUnquotedKey, utf8.range. intros H.
  destruct (String.eqb k ""); [reflexivity |].
  pose proof (range_nonneg k 0) as Hnn.
  induction (utf8.range_from k 0 0) as [| [idx x] rs IH]; [discriminate |].
  inversion Hnn as [| ? ? Hx Hrs]; subst. cbn [snd] in Hx.
  cbn [find snd] in H. cbn [forallb]. destruct (control x) eqn:Ec.
  - destruct (control_not_in_key x Hx Ec) as [H1 H2].
    destruct (idx =? 0); [now rewrite H1 | now rewrite H2].
  - rewrite (IH H Hrs). apply andb_false_r.
Qed.

(** X10. [EncodeKey] fails on the first control character without an escape,
    and on nothing else. *)
Theorem EncodeKey_errors (key : string) :
  match first_control key with
  | Some r => formatpkg.EncodeKey key = Err (UnsupportedControlCharacter r)
  | None => exists literal, formatpkg.EncodeKey key = Ok literal
  end.
Proof.
  unfold formatpkg.EncodeKey. destruct (first_control key) as [r |] eqn:E.
  - rewrite (IsValidUnquotedKey_control key r E), (QuoteString_fails key r E).
    now destruct (String.eqb key "").
  - destruct (String.eqb key ""); [now apply QuoteString_first_control |].
    destruct (formatpkg.IsValidUnquotedKey key); [eauto |].
    now apply QuoteString_first_control.
Qed.

Lemma EncodeKey_fails (key : string) (r : rune) :
  first_control key = Some r ->
  formatpkg.EncodeKey key = Err (UnsupportedControlCharacter r).
Proof.
  intros E. unfold formatpkg.EncodeKey.
  rewrite (IsValidUnquotedKey_control key r E), (QuoteString_fails key r E).
  now destruct (String.eqb key "").
Qed.

(** X11. a key with a control character makes [Marshal] fail on an object, but
    not on a table: in the header of a table the field name that
    [encodeKey] rejects is left out, and the table is written. *)
Theorem table_field_name_unchecked (cfg : encoderOptions) (k : string) (r : rune)
    (b : bool) :
  first_control k = Some r ->
  Marshal cfg (AnyObject {| Fields := [{| Key := k; Value := AnyBool b |}] |})
  = Failed (New (UnsupportedControlCharacter r))
  /\ Marshal cfg (AnySlice [AnyObject {| Fields := [{| Key := k; Value := AnyBool b |}] |}])
     = Done ("[" ++ (if includeLengthMarks cfg then "#" else "") ++ "1"
             ++ (if negb (arrayDelimiter cfg =? DelimiterComma)
                 then utf8.EncodeRune (Delimiter_rune (arrayDelimiter cfg)) else "")
             ++ "]{}:" ++ LF ++ indent cfg 1 ++ (if b then "true" else "false")).
Proof.
  intros E. pose proof (EncodeKey_fails k r E) as Hkey. split.
  - unfold Marshal. cbn [normalize mapM Fields Key Value wrap_field bind].
    unfold encode_fuel. cbn [nesting Fields fold_right Value Nat.max Nat.mul Nat.add].
    cbn [encodeRoot encodeObject]. cbn [IsEmpty Fields length Nat.eqb andb].
    rewrite andb_false_r. cbn [forEach Value seq]. unfold encodeKey, try. cbn [Key].
    now rewrite Hkey.
  - unfold Marshal. cbn [normalize mapM Fields Key Value wrap_field bind].
    unfold encode_fuel. cbn [nesting Fields fold_right Value Nat.max Nat.mul Nat.add].
    cbn [encodeRoot]. rewrite encodeArray_layout by reflexivity.
    change (String.eqb "" "") with true. cbn [negb try].
    unfold detectTabular. cbn [IsEmpty Fields length Nat.eqb forallb Value isPrimitive
                                 andb negb map Key].
    unfold encodeArray_tabular, seq, emit. cbn [forEach seq length app].
    unfold seq, try, tabularRow, objField. cbn [mapM Fields find Key].
    rewrite String.eqb_refl. cbn [Value].
    unfold renderHeader, encodeKey. cbn [map length Nat.ltb Nat.leb]. rewrite Hkey.
    change (Itoa (Z.of_nat 1)) with "1". change (indent cfg 0) with "".
    destruct b; cbn [formatPrimitive bind gostrings.Join String.concat skip app];
      unfold LF; destruct (includeLengthMarks cfg);
      destruct (negb (arrayDelimiter cfg =? DelimiterComma));
      rewrite ?string_app_assoc; reflexivity.
Qed.


End KeyErrors.

(** ** Instances of the properties *)

#[local] Existing Instance latin1_tables.
#[local] Existing Instance text_clock.

(** Two rows with the same fields in another order are still a table, whose
    rows follow the header; and a one-row table stays one when a field is
    added. *)
Lemma C3_reordering_keeps_tabular :
  detectTabular
    [nobject [field "a" (numberValue "1"); field "b" (numberValue "2")];
     nobject [field "b" (numberValue "4"); field "a" (numberValue "3")]]
  = Some ["a"; "b"]
  /\ Marshal (tables := latin1_tables) defaultEncoderOptions
       (AnySlice [object [field "a" (AnyInt 1); field "b" (AnyInt 2)];
                  object [field "b" (AnyInt 4); field "a" (AnyInt 3)]])
     = Done ("[2]{a,b}:" ++ LF ++ "  1,2" ++ LF ++ "  3,4")
  /\ detectTabular [nobject [field "a" (numberValue "1")]] = Some ["a"]
  /\ detectTabular [nobject [field "a" (numberValue "1"); field "b" (numberValue "2")]]
     = Some ["a"; "b"].
Proof. repeat split; vm_compute; reflexivity. Qed.

(** The table of two rows [a,b]: with a field [c] added to the second row it
    is written as a list, with the second row reordered it is the same
    table. *)
Lemma C3_tabular_detection_witness :
  (detectTabular ([nobject [field "a" (numberValue "1"); field "b" (numberValue "2")]]
                  ++ [nobject [field "a" (numberValue "3"); field "b" (numberValue "4")]])%list
   = Some ["a"; "b"]
   /\ ([nobject [field "a" (numberValue "1"); field "b" (numberValue "2")]] ++ [])%list
      <> []
   /\ length [field "a" (numberValue "3"); field "b" (numberValue "4");
              field "c" (numberValue "5")]
      <> length [field "a" (numberValue "3"); field "b" (numberValue "4")]
   /\ Permutation [field "b" (numberValue "4"); field "a" (numberValue "3")]
        [field "a" (numberValue "3"); field "b" (numberValue "4")])
  /\ encodeArray (tables := latin1_tables) (clock := text_clock) defaultEncoderOptions
       4 ""
       ([nobject [field "a" (numberValue "1"); field "b" (numberValue "2")]]
        ++ [nobject [field "a" (numberValue "3"); field "b" (numberValue "4");
                     field "c" (numberValue "5")]])%list 0 true []
     = Done ["[2]:"; "  - a: 1"; "    b: 2"; "  - a: 3"; "    b: 4"; "    c: 5"]
  /\ encodeArray (tables := latin1_tables) (clock := text_clock) defaultEncoderOptions
       4 ""
       ([nobject [field "a" (numberValue "1"); field "b" (numberValue "2")]]
        ++ [nobject [field "b" (numberValue "4"); field "a" (numberValue "3")]])%list
       0 true []
     = Done ["[2]{a,b}:"; "  1,2"; "  3,4"].
Proof.
  assert (Htab : detectTabular
            ([nobject [field "a" (numberValue "1"); field "b" (numberValue "2")]]
             ++ [nobject [field "a" (numberValue "3"); field "b" (numberValue "4")]])%list
          = Some ["a"; "b"]) by (vm_compute; reflexivity).
  assert (Hne : ([nobject [field "a" (numberValue "1"); field "b" (numberValue "2")]]
                 ++ [])%list <> []) by discriminate.
  assert (Hlen : length [field "a" (numberValue "3"); field "b" (numberValue "4");
                         field "c" (numberValue "5")]
                 <> length [field "a" (numberValue "3"); field "b" (numberValue "4")])
    by (cbn; lia).
  assert (Hperm : Permutation [field "b" (numberValue "4"); field "a" (numberValue "3")]
                    [field "a" (numberValue "3"); field "b" (numberValue "4")])
    by apply perm_swap.
  destruct (C3_tabular_detection (tables := latin1_tables) (clock := text_clock)
              defaultEncoderOptions 3 "" 0 true
              [nobject [field "a" (numberValue "1"); field "b" (numberValue "2")]] []
              {| Fields := [field "a" (numberValue "3"); field "b" (numberValue "4")] |}
              {| Fields := [field "a" (numberValue "3"); field "b" (numberValue "4");
                            field "c" (numberValue "5")] |}
              {| Fields := [field "b" (numberValue "4"); field "a" (numberValue "3")] |}
              ["a"; "b"] Htab Hne Hlen Hperm)
    as [[Hnone Hlist] (fields' & Hsome & _ & Hsame & Htabular)].
  split; [exact (conj Htab (conj Hne (conj Hlen Hperm))) |].
  rewrite (Hsame ltac:(discriminate)) in Htabular.
  split.
  - refine (eq_trans (f_equal (fun e : Enc => e []) Hlist) _). vm_compute. reflexivity.
  - refine (eq_trans (f_equal (fun e : Enc => e []) Htabular) _). vm_compute. reflexivity.
Defined.

(** The line [[2]: a,b] is a header, and a document, and a list item. *)
Lemma C5_unkeyed_header_accepted :
  tryParseHeader (tables := latin1_tables) "[2]: a,b"
  = Ok (Some {| hKey := ""; hLength := 2; hDelimiter := DelimiterComma; hFields := [];
                hInlineValues := "a,b" |})
  /\ Decode (tables := latin1_tables) defaultDecoderOptions "[2]: a,b"
     = Done (VArray [VString "a"; VString "b"])
  /\ Decode (tables := latin1_tables) defaultDecoderOptions
       ("items[2]:" ++ LF ++ "  - [2]: a,b" ++ LF ++ "  - [1]: c")
     = Done (vobject [("items", VArray [VArray [VString "a"; VString "b"];
                                        VArray [VString "c"]])]).
Proof. repeat split; vm_compute; reflexivity. Qed.

(** Headers with a dotted key, a quoted key and a tab for a delimiter:
    unclosed, without a length, without digits; and the header without a
    key. *)
Lemma C5_header_errors_witness :
  tryParseHeader (tables := latin1_tables) "a.b[2: x" = Err MissingClosingBracket
  /\ tryParseHeader (tables := latin1_tables) (dquote ++ "my key" ++ dquote ++ "[#]: x")
     = Err MissingArrayLength
  /\ tryParseHeader (tables := latin1_tables) ("items[" ++ String "009" "" ++ "]: x")
     = Err MissingDigits
  /\ tryParseHeader (tables := latin1_tables) ("[2" ++ String "009" "" ++ "]: a")
     = Ok (Some {| hKey := ""; hLength := 2; hDelimiter := DelimiterTab; hFields := [];
                   hInlineValues := "a" |})
  /\ Decode (tables := latin1_tables) defaultDecoderOptions ("a: 1" ++ LF ++ "[2]: a,b")
     = Failed (parseError 2 ArraysMustHaveKey).
Proof.
  destruct (C5_header_errors (tables := latin1_tables)) as (Hline & Hunkeyed & _).
  split.
  { destruct (Hline "a.b[2: x") as (_ & Hclose & _). apply Hclose.
    split; [split; [| split] |]; vm_compute; (discriminate || reflexivity). }
  split.
  { destruct (Hline (dquote ++ "my key" ++ dquote ++ "[#]: x")%string)
      as (_ & _ & _ & _ & Hlength & _).
    apply Hlength.
    split; [split; [| split] | split; [| split]];
      [vm_compute; discriminate | vm_compute; discriminate | vm_compute; discriminate
       | vm_compute; discriminate | right; exists "my key"; vm_compute; reflexivity
       | right; vm_compute; reflexivity]. }
  split.
  { destruct (Hline ("items[" ++ String "009" "" ++ "]: x")%string)
      as (_ & _ & _ & _ & _ & Hdigits & _).
    apply Hdigits.
    split; [split; [| split] | split; [| split]];
      [vm_compute; discriminate | vm_compute; discriminate | vm_compute; discriminate
       | vm_compute; discriminate | right; exists "items"; vm_compute; reflexivity |].
    exists (String "009" "").
    split; [left; vm_compute; reflexivity | split; [discriminate | reflexivity]]. }
  split.
  { apply (Hunkeyed ("2" ++ String "009" "")%string " a" 2 DelimiterTab).
    vm_compute. reflexivity. }
  vm_compute. reflexivity.
Defined.

(** The line [items[2]: 1,2,3] in strict and in lenient mode. *)
Lemma C6_inline_length_witness :
  ("1,2,3" <> ""
   /\ parsepkg.SplitInlineValues "1,2,3" (Delimiter_rune DelimiterComma)
      = Ok ["1"; "2"; "3"]
   /\ mapM (decodePrimitiveToken (tables := latin1_tables)) ["1"; "2"; "3"]
      = Ok [vnumber 1; vnumber 2; vnumber 3])
  /\ parseArray (tables := latin1_tables) defaultDecoderOptions
       [{| number := 1; indentLevel := 0; content := "items[2]: 1,2,3";
           raw := "items[2]: 1,2,3"; blank := false |}] 1
       {| hKey := "items"; hLength := 2; hDelimiter := DelimiterComma; hFields := [];
          hInlineValues := "1,2,3" |} 0 1
     = Failed (parseError 1 (InlineLengthMismatch 2 3))
  /\ parseArray (tables := latin1_tables) (WithStrictMode false defaultDecoderOptions)
       [{| number := 1; indentLevel := 0; content := "items[2]: 1,2,3";
           raw := "items[2]: 1,2,3"; blank := false |}] 1
       {| hKey := "items"; hLength := 2; hDelimiter := DelimiterComma; hFields := [];
          hInlineValues := "1,2,3" |} 0 1
     = Done (VArray [vnumber 1; vnumber 2; vnumber 3], 1%nat)
  /\ Decode (tables := latin1_tables) defaultDecoderOptions "items[2]: 1,2,3"
     = Failed (parseError 1 (InlineLengthMismatch 2 3))
  /\ Decode (tables := latin1_tables) (WithStrictMode false defaultDecoderOptions)
       "items[2]: 1,2,3"
     = Done (vobject [("items", VArray [vnumber 1; vnumber 2; vnumber 3])]).
Proof.
  assert (Hne : "1,2,3" <> "") by discriminate.
  assert (Hsplit : parsepkg.SplitInlineValues "1,2,3" (Delimiter_rune DelimiterComma)
                   = Ok ["1"; "2"; "3"]) by (vm_compute; reflexivity).
  assert (Hdec : mapM (decodePrimitiveToken (tables := latin1_tables)) ["1"; "2"; "3"]
                 = Ok [vnumber 1; vnumber 2; vnumber 3]) by (vm_compute; reflexivity).
  split; [exact (conj Hne (conj Hsplit Hdec)) |].
  split.
  - destruct (C6_inline_length (tables := latin1_tables) defaultDecoderOptions
                [{| number := 1; indentLevel := 0; content := "items[2]: 1,2,3";
                    raw := "items[2]: 1,2,3"; blank := false |}] 0
                {| hKey := "items"; hLength := 2; hDelimiter := DelimiterComma;
                   hFields := []; hInlineValues := "1,2,3" |} 0 1 Hne)
      as (_ & _ & Hvalues & _).
    destruct (Hvalues _ _ Hsplit Hdec) as [Hstrict _].
    apply Hstrict; [reflexivity | cbn; lia].
  - split.
    + destruct (C6_inline_length (tables := latin1_tables)
                  (WithStrictMode false defaultDecoderOptions)
                  [{| number := 1; indentLevel := 0; content := "items[2]: 1,2,3";
                      raw := "items[2]: 1,2,3"; blank := false |}] 0
                  {| hKey := "items"; hLength := 2; hDelimiter := DelimiterComma;
                     hFields := []; hInlineValues := "1,2,3" |} 0 1 Hne)
        as (_ & _ & Hvalues & _).
      destruct (Hvalues _ _ Hsplit Hdec) as [_ Hlenient].
      apply Hlenient. reflexivity.
    + split; vm_compute; reflexivity.
Defined.

(** The line [items[2]: 1,2,1e999] has three tokens for a declared length
    of two, and its last token is a number out of range: the error is that of
    the token, not the length mismatch, in strict and in lenient mode.  So
    is the error of a quoted string that is not closed. *)
Lemma C6_token_error_first :
  Decode (tables := latin1_tables) defaultDecoderOptions "items[2]: 1,2,1e999"
  = Failed (parseError 1 (NumErrorOf "ParseFloat" "1e999" ErrRange))
  /\ Decode (tables := latin1_tables) (WithStrictMode false defaultDecoderOptions)
       "items[2]: 1,2,1e999"
     = Failed (parseError 1 (NumErrorOf "ParseFloat" "1e999" ErrRange))
  /\ Decode (tables := latin1_tables) defaultDecoderOptions
       ("items[1]: " ++ dquote ++ "a")
     = Failed (parseError 1 UnterminatedString)
  /\ Decode (tables := latin1_tables) (WithStrictMode false defaultDecoderOptions)
       ("items[1]: " ++ dquote ++ "a")
     = Failed (parseError 1 UnterminatedString).
Proof. repeat split; vm_compute; reflexivity. Qed.

(** A document of two lines of spaces and an empty line; and a document
    of white space with tabs, blank in lenient mode only. *)
Lemma C7_empty_document_witness :
  spaces_and_newlines ("  " ++ LF ++ LF ++ "    " ++ LF) = true
  /\ Marshal (tables := latin1_tables) (clock := text_clock) defaultEncoderOptions
       (object []) = Done ""
  /\ Decode (tables := latin1_tables) defaultDecoderOptions "" = Done (VObject ∅)
  /\ Decode (tables := latin1_tables) defaultDecoderOptions
       ("  " ++ LF ++ LF ++ "    " ++ LF) = Done (VObject ∅)
  /\ Decode (tables := latin1_tables) (WithStrictMode false defaultDecoderOptions)
       (" " ++ TAB ++ LF ++ TAB) = Done (VObject ∅)
  /\ Decode (tables := latin1_tables) defaultDecoderOptions (" " ++ TAB ++ LF ++ TAB)
     = Failed (parseError 1 TabsInIndentation).
Proof.
  split; [reflexivity |].
  destruct (C7_empty_document (tables := latin1_tables) (clock := text_clock)
              defaultEncoderOptions defaultDecoderOptions
              ("  " ++ LF ++ LF ++ "    " ++ LF) eq_refl)
    as (Hencode & Hempty & Hspaces & _).
  split; [exact Hencode |]. split; [exact Hempty |]. split; [exact Hspaces |].
  split; [| vm_compute; reflexivity].
  destruct (C7_empty_document (tables := latin1_tables) (clock := text_clock)
              defaultEncoderOptions (WithStrictMode false defaultDecoderOptions)
              "" eq_refl) as (_ & _ & _ & Hblank).
  eapply Hblank; [vm_compute; reflexivity |].
  repeat constructor.
Defined.


(** Options that are ignored, among options that are not. *)
Lemma C9_configuration_invariant_witness :
  (Forall encoder_option
     [WithIndent (clock := text_clock) 0; WithIndent 4; WithArrayDelimiter 0x3B;
      WithDocumentDelimiter DelimiterPipe; WithLengthMarkers true]
   /\ Forall decoder_option
        [WithDecoderIndent (-3); WithStrictMode false; WithDecoderDocumentDelimiter 0x3B])
  /\ 1 <= indentSize (NewEncoder
            [WithIndent (clock := text_clock) 0; WithIndent 4; WithArrayDelimiter 0x3B;
             WithDocumentDelimiter DelimiterPipe; WithLengthMarkers true])
  /\ 1 <= d_indentSize (NewDecoder
            [WithDecoderIndent (-3); WithStrictMode false;
             WithDecoderDocumentDelimiter 0x3B])
  /\ arrayDelimiter (NewEncoder
            [WithIndent (clock := text_clock) 0; WithIndent 4; WithArrayDelimiter 0x3B;
             WithDocumentDelimiter DelimiterPipe; WithLengthMarkers true])
     = DelimiterComma.
Proof.
  assert (He : Forall encoder_option
                 [WithIndent (clock := text_clock) 0; WithIndent 4;
                  WithArrayDelimiter 0x3B; WithDocumentDelimiter DelimiterPipe;
                  WithLengthMarkers true]) by (repeat constructor).
  assert (Hd : Forall decoder_option
                 [WithDecoderIndent (-3); WithStrictMode false;
                  WithDecoderDocumentDelimiter 0x3B]) by (repeat constructor).
  destruct (C9_configuration_invariant (clock := text_clock) _ _ He Hd)
    as ((Hi & _) & (Hdi & _) & _).
  split; [exact (conj He Hd) |].
  split; [exact Hi |]. split; [exact Hdi | reflexivity].
Defined.

(** A table of three fields with a row of one token and a row of four. *)
Lemma C10_lenient_row_witness :
  (strict (WithStrictMode false defaultDecoderOptions) = false
   /\ [{| number := 1; indentLevel := 0; content := "t[2]{a,b,c}:";
          raw := "t[2]{a,b,c}:"; blank := false |};
       {| number := 2; indentLevel := 1; content := "1"; raw := "  1"; blank := false |};
       {| number := 3; indentLevel := 1; content := "1,2,3,4"; raw := "  1,2,3,4";
          blank := false |}] !! 2%nat
      = Some {| number := 3; indentLevel := 1; content := "1,2,3,4"; raw := "  1,2,3,4";
                blank := false |}
   /\ indexOutsideQuotes (gostrings.TrimSpace "1,2,3,4") 0x3A = -1
   /\ parsepkg.SplitInlineValues (gostrings.TrimSpace "1,2,3,4")
        (Delimiter_rune DelimiterComma) = Ok ["1"; "2"; "3"; "4"]
   /\ mapM decodePrimitiveToken (take 3 ["1"; "2"; "3"; "4"])
      = Ok [vnumber 1; vnumber 2; vnumber 3])
  /\ dom (row_of ["a"; "b"; "c"] [vnumber 1; vnumber 2; vnumber 3] ∅)
     = list_to_set (take 4 ["a"; "b"; "c"])
  /\ row_of ["a"; "b"; "c"] [vnumber 1; vnumber 2; vnumber 3] ∅ !! "c" = Some (vnumber 3)
  /\ Decode (tables := latin1_tables) (WithStrictMode false defaultDecoderOptions)
       ("t[2]{a,b,c}:" ++ LF ++ "  1" ++ LF ++ "  1,2,3,4")
     = Done (vobject [("t", VArray [vobject [("a", vnumber 1)];
                                    vobject [("a", vnumber 1); ("b", vnumber 2);
                                             ("c", vnumber 3)]])]).
Proof.
  assert (Hcolon : indexOutsideQuotes (gostrings.TrimSpace "1,2,3,4") 0x3A = -1)
    by (vm_compute; reflexivity).
  assert (Hsplit : parsepkg.SplitInlineValues (gostrings.TrimSpace "1,2,3,4")
                     (Delimiter_rune DelimiterComma) = Ok ["1"; "2"; "3"; "4"])
    by (vm_compute; reflexivity).
  assert (Hdec : mapM decodePrimitiveToken (take 3 ["1"; "2"; "3"; "4"])
                 = Ok [vnumber 1; vnumber 2; vnumber 3]) by (vm_compute; reflexivity).
  assert (Hnd : NoDup ["a"; "b"; "c"])
    by (apply (bool_decide_unpack _); vm_compute; reflexivity).
  destruct (C10_lenient_row (tables := latin1_tables)
              (WithStrictMode false defaultDecoderOptions)
              [{| number := 1; indentLevel := 0; content := "t[2]{a,b,c}:";
                  raw := "t[2]{a,b,c}:"; blank := false |};
               {| number := 2; indentLevel := 1; content := "1"; raw := "  1";
                  blank := false |};
               {| number := 3; indentLevel := 1; content := "1,2,3,4";
                  raw := "  1,2,3,4"; blank := false |}]
              0
              {| hKey := "t"; hLength := 2; hDelimiter := DelimiterComma;
                 hFields := ["a"; "b"; "c"]; hInlineValues := "" |}
              0 [vobject [("a", vnumber 1)]] 2
              {| number := 3; indentLevel := 1; content := "1,2,3,4"; raw := "  1,2,3,4";
                 blank := false |}
              ["1"; "2"; "3"; "4"] [vnumber 1; vnumber 2; vnumber 3]
              eq_refl eq_refl eq_refl eq_refl Hcolon Hsplit Hdec)
    as (_ & _ & Hdom & Hlookup).
  split; [exact (conj eq_refl (conj eq_refl (conj Hcolon (conj Hsplit Hdec)))) |].
  split; [exact Hdom |].
  split.
  - apply (Hlookup Hnd 2%nat); reflexivity.
  - vm_compute. reflexivity.
Defined.

(** *** Instances of the further properties *)

(** The string [say "hi"] with a line feed at its end. *)
Lemma QuoteString_UnquoteString_witness :
  formatpkg.QuoteString ("say " ++ dquote ++ "hi" ++ dquote ++ LF)
  = Ok (dquote ++ "say " ++ backslash ++ dquote ++ "hi" ++ backslash ++ dquote
        ++ backslash ++ "n" ++ dquote)
  /\ parsepkg.UnquoteString
       (dquote ++ "say " ++ backslash ++ dquote ++ "hi" ++ backslash ++ dquote
        ++ backslash ++ "n" ++ dquote)
     = Ok (runes_written ("say " ++ dquote ++ "hi" ++ dquote ++ LF)).
Proof.
  assert (H : formatpkg.QuoteString ("say " ++ dquote ++ "hi" ++ dquote ++ LF)
              = Ok (dquote ++ "say " ++ backslash ++ dquote ++ "hi" ++ backslash
                    ++ dquote ++ backslash ++ "n" ++ dquote))
    by (vm_compute; reflexivity).
  exact (conj H (QuoteString_UnquoteString _ _ H)).
Defined.

(** The string [a,b] as an element of a comma-separated array. *)
Lemma FormatString_decodePrimitiveToken_witness :
  formatpkg.FormatString "a,b"
    {| formatpkg.Active := 0x2C; formatpkg.Document := 0x2C; formatpkg.InArray := true |}
  = Ok (dquote ++ "a,b" ++ dquote)
  /\ decodePrimitiveToken (tables := latin1_tables) (dquote ++ "a,b" ++ dquote)
     = Ok (VString
             (if formatpkg.NeedsQuoting "a,b"
                   {| formatpkg.Active := 0x2C; formatpkg.Document := 0x2C;
                      formatpkg.InArray := true |}
              then runes_written "a,b" else "a,b"))
  /\ (well_formed "a,b"
      -> decodePrimitiveToken (tables := latin1_tables) (dquote ++ "a,b" ++ dquote)
         = Ok (VString "a,b")).
Proof.
  assert (H : formatpkg.FormatString "a,b"
                {| formatpkg.Active := 0x2C; formatpkg.Document := 0x2C;
                   formatpkg.InArray := true |}
              = Ok (dquote ++ "a,b" ++ dquote)) by (vm_compute; reflexivity).
  exact (conj H (FormatString_decodePrimitiveToken (tables := latin1_tables) _ _ _ H)).
Defined.

(** The key [my key], which is written in quotes. *)
Lemma EncodeKey_decodeKeyToken_witness :
  formatpkg.EncodeKey (tables := latin1_tables) "my key" = Ok (dquote ++ "my key" ++ dquote)
  /\ decodeKeyToken (tables := latin1_tables) (dquote ++ "my key" ++ dquote)
     = Ok (if formatpkg.IsValidUnquotedKey (tables := latin1_tables) "my key"
           then "my key" else runes_written "my key")
  /\ (well_formed "my key"
      -> decodeKeyToken (tables := latin1_tables) (dquote ++ "my key" ++ dquote)
         = Ok "my key").
Proof.
  assert (H : formatpkg.EncodeKey (tables := latin1_tables) "my key"
              = Ok (dquote ++ "my key" ++ dquote)) by (vm_compute; reflexivity).
  exact (conj H (EncodeKey_decodeKeyToken (tables := latin1_tables) _ _ H)).
Defined.

(** A string that holds the control character U+0001. *)
Lemma Marshal_errors_witness :
  Marshal (tables := latin1_tables) (clock := text_clock) defaultEncoderOptions
    (AnyString ("a" ++ String "001" "b"))
  = Failed (New (UnsupportedControlCharacter 1))
  /\ (unsupported_kind (New (UnsupportedControlCharacter 1))
      \/ control_error (New (UnsupportedControlCharacter 1))).
Proof.
  assert (H : Marshal (tables := latin1_tables) (clock := text_clock)
                defaultEncoderOptions (AnyString ("a" ++ String "001" "b"))
              = Failed (New (UnsupportedControlCharacter 1)))
    by (vm_compute; reflexivity).
  exact (conj H (Marshal_errors (tables := latin1_tables) (clock := text_clock) _ _ _ H)).
Defined.

(** A second line indented by three spaces, in strict mode. *)
Lemma Decode_errors_located_witness :
  Decode (tables := latin1_tables) defaultDecoderOptions ("a: 1" ++ LF ++ "   b: 2")
  = Failed (parseError 2 (IndentationNotMultiple 2))
  /\ line_error (length (splitLines ("a: 1" ++ LF ++ "   b: 2")))
       (parseError 2 (IndentationNotMultiple 2)).
Proof.
  assert (H : Decode (tables := latin1_tables) defaultDecoderOptions
                ("a: 1" ++ LF ++ "   b: 2")
              = Failed (parseError 2 (IndentationNotMultiple 2)))
    by (vm_compute; reflexivity).
  exact (conj H (Decode_errors_located (tables := latin1_tables) _ _ _ H)).
Defined.

(** The table [items[2]{a,b}:] with the rows [1,x] and [3,y]. *)
Lemma parseArray_result_witness :
  parseArray (tables := latin1_tables) defaultDecoderOptions
    [{| number := 1; indentLevel := 0; content := "items[2]{a,b}:";
        raw := "items[2]{a,b}:"; blank := false |};
     {| number := 2; indentLevel := 1; content := "1,x"; raw := "  1,x";
        blank := false |};
     {| number := 3; indentLevel := 1; content := "3,y"; raw := "  3,y";
        blank := false |}] 8
    {| hKey := "items"; hLength := 2; hDelimiter := DelimiterComma;
       hFields := ["a"; "b"]; hInlineValues := "" |} 0 1
  = Done (VArray [vobject [("a", vnumber 1); ("b", VString "x")];
                  vobject [("a", vnumber 3); ("b", VString "y")]], 3%nat)
  /\ exists l,
       VArray [vobject [("a", vnumber 1); ("b", VString "x")];
               vobject [("a", vnumber 3); ("b", VString "y")]] = VArray l
       /\ (strict defaultDecoderOptions = true -> Z.of_nat (length l) = 2)
       /\ ("" <> "" -> Forall scalar l)
       /\ ("" = "" -> ["a"; "b"] <> [] ->
           Forall (table_row defaultDecoderOptions ["a"; "b"]) l).
Proof.
  assert (H : parseArray (tables := latin1_tables) defaultDecoderOptions
                [{| number := 1; indentLevel := 0; content := "items[2]{a,b}:";
                    raw := "items[2]{a,b}:"; blank := false |};
                 {| number := 2; indentLevel := 1; content := "1,x"; raw := "  1,x";
                    blank := false |};
                 {| number := 3; indentLevel := 1; content := "3,y"; raw := "  3,y";
                    blank := false |}] 8
                {| hKey := "items"; hLength := 2; hDelimiter := DelimiterComma;
                   hFields := ["a"; "b"]; hInlineValues := "" |} 0 1
              = Done (VArray [vobject [("a", vnumber 1); ("b", VString "x")];
                              vobject [("a", vnumber 3); ("b", VString "y")]], 3%nat))
    by (vm_compute; reflexivity).
  exact (conj H (parseArray_result (tables := latin1_tables) _ _ _ _ _ _ _ _ H)).
Defined.

(** The two lines [a: 1] and [b: 2]. *)
Lemma Decode_line_terminators_witness :
  (["a: 1"; "b: 2"] <> []
   /\ Forall (fun l => all_bytes line_byte l = true) ["a: 1"; "b: 2"]
   /\ List.last ["a: 1"; "b: 2"] "" <> "")
  /\ Decode (tables := latin1_tables) defaultDecoderOptions
       (document ["a: 1"; "b: 2"] ++ LF)
     = Decode (tables := latin1_tables) defaultDecoderOptions (document ["a: 1"; "b: 2"])
  /\ Decode (tables := latin1_tables) defaultDecoderOptions
       (gostrings.Join ["a: 1"; "b: 2"] CRLF)
     = Decode (tables := latin1_tables) defaultDecoderOptions (document ["a: 1"; "b: 2"])
  /\ Decode (tables := latin1_tables) defaultDecoderOptions
       (gostrings.Join ["a: 1"; "b: 2"] CRLF ++ CRLF)
     = Decode (tables := latin1_tables) defaultDecoderOptions (document ["a: 1"; "b: 2"]).
Proof.
  assert (Hne : ["a: 1"; "b: 2"] <> []) by discriminate.
  assert (Hlines : Forall (fun l => all_bytes line_byte l = true) ["a: 1"; "b: 2"])
    by (do 2 (constructor; [reflexivity |]); constructor).
  assert (Hlast : List.last ["a: 1"; "b: 2"] "" <> "") by discriminate.
  exact (conj (conj Hne (conj Hlines Hlast))
           (Decode_line_terminators (tables := latin1_tables) defaultDecoderOptions
              _ Hne Hlines Hlast)).
Defined.

(** An object with a nested object: a key in quotes, a string in quotes
    and a string, a boolean and null without; a safe integer and one that is
    not. *)
Lemma Marshal_Decode_witness :
  (sound (TObject {| Fields :=
            [field "name" (TString "Ada");
             field "tags" (TObject {| Fields := [field "a b" TNull;
                                                 field "ok" (TBool true)] |});
             field "note" (TString "x, y: z");
             field "id" (TInt 42);
             field "big" (TInt 9007199254740993)] |}) = true
   /\ 0 < indentSize (defaultEncoderOptions (clock := text_clock))
   /\ d_indentSize defaultDecoderOptions
      = indentSize (defaultEncoderOptions (clock := text_clock))
   /\ Marshal (tables := latin1_tables) (clock := text_clock) defaultEncoderOptions
        (host (TObject {| Fields :=
            [field "name" (TString "Ada");
             field "tags" (TObject {| Fields := [field "a b" TNull;
                                                 field "ok" (TBool true)] |});
             field "note" (TString "x, y: z");
             field "id" (TInt 42);
             field "big" (TInt 9007199254740993)] |}))
      = Done (document ["name: Ada";
                        "tags:";
                        "  " ++ dquote ++ "a b" ++ dquote ++ ": null";
                        "  ok: true";
                        "note: " ++ dquote ++ "x, y: z" ++ dquote;
                        "id: 42";
                        "big: " ++ dquote ++ "9007199254740993" ++ dquote]))
  /\ Decode (tables := latin1_tables) defaultDecoderOptions
       (document ["name: Ada";
                  "tags:";
                  "  " ++ dquote ++ "a b" ++ dquote ++ ": null";
                  "  ok: true";
                  "note: " ++ dquote ++ "x, y: z" ++ dquote;
                        "id: 42";
                        "big: " ++ dquote ++ "9007199254740993" ++ dquote])
     = Done (decoded (TObject {| Fields :=
            [field "name" (TString "Ada");
             field "tags" (TObject {| Fields := [field "a b" TNull;
                                                 field "ok" (TBool true)] |});
             field "note" (TString "x, y: z");
             field "id" (TInt 42);
             field "big" (TInt 9007199254740993)] |})).
Proof.
  assert (Hsound : sound (TObject {| Fields :=
            [field "name" (TString "Ada");
             field "tags" (TObject {| Fields := [field "a b" TNull;
                                                 field "ok" (TBool true)] |});
             field "note" (TString "x, y: z");
             field "id" (TInt 42);
             field "big" (TInt 9007199254740993)] |}) = true) by (vm_compute; reflexivity).
  assert (Hsize : 0 < indentSize (defaultEncoderOptions (clock := text_clock)))
    by (vm_compute; reflexivity).
  assert (Hsame : d_indentSize defaultDecoderOptions
                  = indentSize (defaultEncoderOptions (clock := text_clock)))
    by reflexivity.
  assert (Hdoc : Marshal (tables := latin1_tables) (clock := text_clock)
                   defaultEncoderOptions
                   (host (TObject {| Fields :=
                       [field "name" (TString "Ada");
                        field "tags" (TObject {| Fields := [field "a b" TNull;
                                                            field "ok" (TBool true)] |});
                        field "note" (TString "x, y: z");
             field "id" (TInt 42);
             field "big" (TInt 9007199254740993)] |}))
                 = Done (document ["name: Ada";
                                   "tags:";
                                   "  " ++ dquote ++ "a b" ++ dquote ++ ": null";
                                   "  ok: true";
                                   "note: " ++ dquote ++ "x, y: z" ++ dquote;
                        "id: 42";
                        "big: " ++ dquote ++ "9007199254740993" ++ dquote]))
    by (vm_compute; reflexivity).
  exact (conj (conj Hsound (conj Hsize (conj Hsame Hdoc)))
           (Marshal_Decode (tables := latin1_tables) (clock := text_clock)
              defaultEncoderOptions defaultDecoderOptions _ _ Hsound Hsize Hsame Hdoc)).
Defined.

(** A key that holds the control character U+0001. *)
Lemma table_field_name_unchecked_witness :
  first_control ("a" ++ String "001" "b") = Some 1
  /\ Marshal (tables := latin1_tables) (clock := text_clock) defaultEncoderOptions
       (AnyObject {| Fields := [{| Key := "a" ++ String "001" "b";
                                   Value := AnyBool true |}] |})
     = Failed (New (UnsupportedControlCharacter 1))
  /\ Marshal (tables := latin1_tables) (clock := text_clock) defaultEncoderOptions
       (AnySlice [AnyObject {| Fields := [{| Key := "a" ++ String "001" "b";
                                             Value := AnyBool true |}] |}])
     = Done ("[" ++ (if includeLengthMarks (defaultEncoderOptions (clock := text_clock))
                     then "#" else "") ++ "1"
             ++ (if negb (arrayDelimiter (defaultEncoderOptions (clock := text_clock))
                          =? DelimiterComma)
                 then utf8.EncodeRune
                        (Delimiter_rune
                           (arrayDelimiter (defaultEncoderOptions (clock := text_clock))))
                 else "")
             ++ "]{}:" ++ LF ++ indent (defaultEncoderOptions (clock := text_clock)) 1
             ++ (if true then "true" else "false")).
Proof.
  assert (H : first_control ("a" ++ String "001" "b") = Some 1) by (vm_compute; reflexivity).
  exact (conj H (table_field_name_unchecked (tables := latin1_tables) (clock := text_clock)
                   defaultEncoderOptions _ _ true H)).
Defined.
